(* ===== verification/_CoqProject ===== *)
-Q . S2P
Prelude.v
Json.v
Token.v
Argon2Helper.v
AgentRepo.v
BootstrapRepo.v
AuditLog.v
AgentRows.v
Calendar.v
AuditSink.v
Strings.v
Http.v
Auth.v
Revocation.v
CodexBody.v
ResponseControls.v
Secret.v
Sealed.v
Config.v
Deprecation.v
ClientPool.v
Registrations.v
CatalogRace.v
SeedLoader.v
Oauth.v
Migrations.v
OauthAdmin.v
KamiwazaNames.v
Kamiwaza.v
Discovery.v
AgentCreds.v
RegistrationRows.v
AdminService.v
RegisterRace.v
AdminHttp.v
RouterInvariant.v
Proxy.v
OauthRace.v
Shutdown.v
Startup.v
ConfigFile.v
AppBuild.v
Listeners.v
Cli.v
Output.v
Operators.v
AdminListeners.v
Gateway.v
Withdrawal.v
World.v
Overlap.v
