(* ===== verification/Prelude.v ===== *)
(** * A verification library for agent-locksmith

    Locksmith is a credential-injecting reverse proxy for agents.  An agent
    authenticates with a structured token (or a client certificate), is
    checked against its tool ACL, and has its request forwarded to the
    registered upstream with the operator's credential in place of its own;
    the response is size-capped, filtered and redacted on the way back, and
    every outcome is written to an audit log.  Operators administer agents,
    bootstrap tokens, registrations and OAuth sessions through an admin
    service.  This library models that core, from the Rust sources under
    [src/src/], as executable functions and step relations, and proves what
    makes it correct.

    ** Conventions

    A fallible operation returns [result E A]; one that changes state takes
    the state last and returns the pair of its result and the new state.  A
    SQLite table is the list of its rows with the UNIQUE constraints and
    foreign keys its migrations declare; a pool that cannot reach the database
    is a boolean field ([online], [writable], ...), under which every
    statement fails.  JSON columns hold the value they are the text of;
    [AgentRows] and [RegistrationRows] have the columns themselves and show
    that nothing else changes.  Machine integers are [Z] with their conversions
    written out ([as_i64], [is_u64]).  Clocks, random bytes and nonces are
    arguments.  Strings are byte strings.

    Third-party code is a class of operations, with what it documents as a
    second class of laws: [Base64Url], [Base64Std], [Argon2Crate], [AesGcm],
    [Sha2Crate], [RegexCrate], [SerdeJson], [HttpCrate], [X509Crate],
    [PemCrate], [RustlsCrate], [HmacCrate], [YamlValue], [JsonText],
    [MigratorCrate]; the upstream, the OAuth token
    endpoint, the URL parser and the process environment are plain function
    parameters.  Each file with such parameters ends in a [...Witness] module
    that instantiates them and applies its theorems to concrete states.

    ** Files

    - [Prelude]: results and their notation, byte-string functions, SQL-style
      list operations with their lemmas, tactics and the [locksmith] hint
      database.  [Json], [Http]: JSON objects and HTTP messages.  [Strings]:
      searching, lines and segments.
    - [Token] ([token.rs]): namespaces, generator, wire format, parser.
    - [Argon2Helper] ([argon2_helper.rs]): hashing and verification.
    - [AgentRepo] ([repo/agent.rs]): the agents table; [AgentOp], [exec] and
      [run] are its operations as labels; Section [Rotation] is the
      interleaving of concurrent rotations as a step relation over their two
      SQL statements.  [AgentRows]: the table with its JSON text, the
      statements on it and the decoding of rows; [represents] relates it to
      the records.
    - [BootstrapRepo] ([repo/bootstrap.rs]): bootstrap tokens; Section
      [Consume] interleaves the two statements of concurrent [consume] calls
      with mints and revocations.
    - [AuditLog] ([repo/audit.rs]): events, rows, query, retention sweep.
      [Calendar], [AuditSink] ([audit_sink.rs]): civil dates and the JSONL
      mirror over a file system of directory entries and inodes.
    - [Auth] ([auth.rs], [auth_v2/], [mtls/]): tool ACL, bearer, operator and
      certificate authentication, the middleware.  [Revocation] ([mtls/crl.rs],
      [mtls/blocklist.rs], [cli/commands/mtls.rs]): the revocation list, the
      blocklist file and its reload, the commands that edit it.
    - [CodexBody] ([codex_body.rs]), [ResponseControls]
      ([response_controls.rs]): request and response rewriting; the
      size-capped stream is its poll function, drained with fuel.
    - [Secret] and [Sealed] ([secret/]), [Config] ([config.rs],
      [secret/mod.rs]): secret references, environment expansion, sealed
      files, tool configuration and validators; the class [SecretBackend] is
      the backend trait with its implementations.  [Deprecation]
      ([deprecation.rs], [config.rs]): the registry and the rewriting of old
      configuration fields.  [ConfigFile] ([config.rs], [secret/mod.rs]): every
      section of the file as its deserializer, and [load_config].
    - [ClientPool] ([client_pool.rs]): fingerprints and the shared cache of
      HTTP clients, with its two critical sections interleaved.
    - [Registrations] ([registrations/]): the registrations table, the runtime
      catalog, the admin API and the public listing; [CatalogRace]: the refresh
      of the catalog by overlapping admin writes, as a step relation;
      [SeedLoader]
      ([seed_loader.rs], [legacy_bootstrap.rs]): catalog upgrades, migration
      of configured tools, start-up credentials.
    - [Oauth] ([oauth/sealing.rs], [jwt.rs], [session.rs], [refresh.rs]):
      sealed sessions, token exchange, lock map, background tick.
      [OauthAdmin] ([oauth/admin.rs]): bootstrap, status, list, revoke.
      [OauthRace] ([oauth/refresh.rs], [proxy.rs]): requests, ticks, bootstraps
      and revocations on the same session, cut at their awaits and interleaved
      under the session locks.
    - [Migrations] ([migrations.rs], [migrations/*.sql]): the six migrations as
      statements over tables with their constraints, [open_and_migrate], and
      what an upgrade does to the rows.
    - [KamiwazaNames], [Kamiwaza] ([kamiwaza.rs]): slugs and globs; discovery,
      delegation tokens and tool calls over a network of request and reply.
    - [Discovery] ([skill.rs], [app.rs]): health, listing and skill handlers;
      the class [BridgeCatalog] is what they need of the Kamiwaza bridge, and
      [Kamiwaza] discharges it.
    - [AgentCreds] ([repo/agent_creds.rs]): per-agent credential overrides.
      [RegistrationRows] ([registrations/repo.rs], [auth_spec.rs],
      [repo/agent_creds.rs]): both tables with their JSON text and the derived
      (de)serializers of what they hold.
    - [AdminService] ([admin/service.rs]): the admin operations over these
      repositories, with their audit rows.  [RegisterRace]: registrations cut at their
      database calls and interleaved with everything that writes either table;
      seen from one token they are the [consume] calls of [BootstrapRepo].
      [AdminHttp] ([admin/uds.rs]): the
      route tables, both authentication middlewares and every handler;
      [admin_router] is the whole router on a request.  [RouterInvariant]:
      what holds through every primitive write holds through any request.
    - [Proxy] ([proxy.rs]): the request path from the handler to the upstream
      and back; [AppState] is what it reads and changes, [proxy_tool_request]
      the whole handler, [px_sent] the request that went upstream.
    - [Gateway] ([app.rs]): the middleware in front of the proxy routes.
    - [Shutdown] ([shutdown.rs]): the latch and its waiters as a step relation,
      the drain window.  [Startup] ([daemon.rs]): start-up up to the state
      handed to the listeners, the retention sweeper, the end of [run].
      [AppBuild] ([app.rs], [main.rs]): the chain of [build_app] constructors.
    - [Listeners] ([agent_listener.rs], [admin/bootstrap_listener.rs]): the TLS
      configuration, the accept loop, the certificate stamped on requests, the
      bootstrap-only router.  [AdminListeners] ([admin/uds.rs],
      [admin/https.rs], [admin/uds_client.rs]): binding the admin socket as
      system calls on a file tree, how the TLS listeners end, the socket
      client.
    - [Cli] ([cli/]): the request of every command, replies and exit codes,
      [bootstrap-operator].  [Output] ([cli/output.rs]): what a command prints.
      [Operators] ([auth_v2/operator.rs]): the operators file, as printed and
      as read.
    - [World] ([daemon.rs]): both listeners, the refresher and the sweeper over
      one state; a history is a sequence of whole requests and ticks, one after
      another.  [Overlap] ([auth_v2/agent.rs], [repo/agent.rs]): logins,
      rotations and the other users of the agents table, cut at their database
      round trips.  [Withdrawal] ([registrations/api.rs], [proxy.rs]): a DELETE
      among overlapping admin requests, and what the proxy then sends.

    ** What is proved

    - Nothing is sent upstream for a caller that did not authenticate or
      whose ACL refuses the tool, and a revoked agent is locked out
      ([Gateway]).
    - Nothing of the agent's own authentication reaches an upstream, only
      configured credentials are injected, forced replacement and OAuth fail
      closed, the allowlist holds of the URL that is sent, an ACL denial
      contacts nobody, and every request leaves audit rows ([Proxy]).
    - Authentication accepts exactly the right credentials, rejects in
      indistinguishable ways, and guards every non-exempt request ([Auth]);
      tokens round-trip ([Token]); an mTLS listener only passes on verified
      certificates ([Listeners]), a blocklist file that is written and polled
      refuses a serial (in the library: no code of the daemon attaches one,
      [Revocation]), and sealed files are only used with private permissions
      ([Sealed]).
    - The operator API runs no handler without an operator's credential,
      agents change nothing but themselves, what each handler leaves in the
      audit log ([AdminHttp]); the bootstrap-only router is equivalent to the
      registration route ([Listeners]); every command of the command line
      whose names are unreserved URI characters reaches the handler it is
      written for ([Cli]).
    - Agents and bootstrap tokens: revocation is permanent, concurrent
      rotations have one winner, a registration
      yields a working credential of the bootstrap scope or changes nothing
      that matters, rotation switches the credential, every admin write is
      audited ([AgentRepo], [BootstrapRepo], [AdminService]); a minted
      operator credential whose name needs no YAML quotes works ([Operators]).
      However registrations overlap, a
      single-use token registers one agent, and a registration that failed
      leaves no active agent behind ([RegisterRace]).
    - The catalog the proxy uses refines the table after any history of admin
      writes, PUT is specified on every branch, catalog upgrades are complete
      and spare operator rows ([Registrations], [SeedLoader]).
    - The running daemon ([World]): all views of the shared state stay together
      through any sequence of requests and ticks; a revocation that the command
      line reports as done locks the agent out of the proxy for good.  Against
      requests already under way: from the revoking UPDATE on, only a login
      whose lookup came before it is still admitted, and no rotation completes
      ([Overlap]); a deleted registration is out of reach once no admin request
      is left that read the table before ([Withdrawal]).
    - OAuth refreshes store what the provider returned, a tick settles every
      due session, a bootstrap is atomic and never replaces a session, a
      session whose refresh failed stays out of use until it is revoked
      ([Oauth], [OauthAdmin], [Proxy]); in any
      interleaving an exchange works with the current row, and a rotating
      provider sees no refresh token twice ([OauthRace]).
    - Overlapping admin writes leave the proxy with the table of some moment,
      and with the last one unless an older snapshot is published over it
      ([CatalogRace]).
    - The agents, registrations and overrides tables with their JSON columns
      refine the record level ([AgentRows], [RegistrationRows]); opening a
      database of any earlier version keeps every row and every constraint,
      and the columns the statements name are those of the schema
      ([Migrations]).  A configuration that loads is in range, unresolved and
      usable, unknown keys are refused, references read back as written and
      legacy tools as their modern form ([ConfigFile]); with an admin socket
      the daemon that starts enforces agent authentication ([AppBuild]).
    - Binding the admin socket leaves the daemon's socket or fails and touches
      nothing else ([AdminListeners]); tables are aligned ([Output]).
    - Bridge calls are signed for the caller where delegation is required,
      discovery keeps to the configured extensions, globs mean what they
      should, slugs are well formed ([Kamiwaza], [KamiwazaNames]); discovery
      documents agree with the ACL ([Discovery]).
    - No shutdown wake-up is lost in any interleaving and the drain keeps its
      window ([Shutdown]); the sweeper deletes exactly what has outlived the
      retention ([Startup]); the JSONL mirror appends whole lines and rotates
      ([AuditSink]); the client pool never mixes up clients ([ClientPool]).
    - The body fixup, the buffered and the streaming response controls, the
      audit query, the configuration validators and the deprecation rewriting
      are specified branch by branch.
    - Where the code departs from its documentation the departure is a
      theorem too: [mtls_ignores_expiry], [expand_legacy_diverges],
      [override_unset_env_uses_default], [forward_response_headers_spec],
      [refresh_drops_prefix], [register_wrong_secret_burns_name],
      [put_huge_limit_reads_zero], [short_token_always_due],
      [failed_write_silences], [ca_bundle_not_fingerprinted],
      [proxied_without_proxy_goes_direct], [daemon_ignores_revocation],
      [racing_write_lost], [listener_failure_late], [sweep_after_signal],
      [modify_clear_is_noop], [no_content_reported_as_failure],
      [cancelled_refresh_reuses_token], [stale_publish_serves_deleted],
      [live_socket_taken], [socket_open_until_chmod],
      [https_cuts_what_socket_answers], [wrapped_list_printed_raw].

    ** Fuel

    [expand_legacy] takes fuel because the loop it models need not end;
    [expand_legacy_terminates] gives a sufficient amount when it does.
    [drain] polls a stream until its end; [size_capped_stream_spec] shows that
    three more polls than there are items suffice, which is what the proxy
    model uses.  [scan_env_var], [utf8_fuel] and [trim_start_fuel] are given
    the length of their text.  Everything else is structural.

    ** Not modelled

    Sockets, TLS records and HTTP framing, YAML and JSON text, argument
    parsing and tracing ([telemetry.rs]) are I/O, third-party code or glue; so
    are the axum wrappers that only unpack path parameters or fix the kind of a
    registration.  Of the schema, column types and affinities are left out.
    The redirects the bridge's HTTP client would follow are not modelled.  The
    audit rows that the mTLS authenticator writes from spawned tasks are
    written at once.  A configured header name is lower-cased byte by byte
    where the code uses Unicode, which is the same on valid header names.
    [Proxy] takes the bridge of [Kamiwaza] as any function of the request, so
    its theorems hold for every bridge.  In [World] a request is one step:
    requests that overlap inside a handler are covered where a model of its own
    interleaves them ([AgentRepo], [BootstrapRepo], [RegisterRace],
    [CatalogRace], [Withdrawal], [OauthRace], [ClientPool], [Shutdown], and
    [Overlap] for the agents table).  [db_step] is the consequence of the
    repository's statements that histories use ([exec_step]); [Overlap] runs
    the statements themselves. *)

From stdpp Require Export base gmap strings list fin_maps sorting.
From Stdlib Require Export ZArith Lia Ascii String.

#[global] Open Scope string_scope.
#[global] Open Scope list_scope.
#[global] Open Scope Z_scope.

(** ** Rust's [Result], with [?] as a notation *)

Inductive result (E A : Type) : Type :=
| Ok (a : A)
| Err (e : E).
Arguments Ok {E A} a.
Arguments Err {E A} e.

Declare Scope rust_scope.
Delimit Scope rust_scope with rust.
#[global] Open Scope rust_scope.

Notation "'let?' x ':=' c 'in' k" :=
  (match c with Ok x => k | Err e => Err e end)
  (at level 10, x pattern, c at level 100, k at level 200) : rust_scope.

Notation "'let*' x ':=' c 'in' k" :=
  (match c with Some x => k | None => None end)
  (at level 10, x pattern, c at level 100, k at level 200) : rust_scope.

Definition is_ok {E A} (r : result E A) : bool :=
  match r with Ok _ => true | Err _ => false end.

Definition map_err {E F A} (f : E -> F) (r : result E A) : result F A :=
  match r with Ok a => Ok a | Err e => Err (f e) end.

Definition ok_or {E A} (e : E) (o : option A) : result E A :=
  match o with Some a => Ok a | None => Err e end.

Definition isSome {A} (o : option A) : bool :=
  match o with Some _ => true | None => false end.

(** [Iterator::find]. *)
Fixpoint find_first {A} (p : A -> bool) (l : list A) : option A :=
  match l with
  | [] => None
  | x :: l' => if p x then Some x else find_first p l'
  end.

(** ** Machine integers

    [i64], [u64] and [u16] are [Z] with the wrap of an [as] cast written out. *)

Definition two64 : Z := 18446744073709551616.
Definition two63 : Z := 9223372036854775808.

Definition as_u64 (z : Z) : Z := z mod two64.
Definition as_i64 (z : Z) : Z := (z + two63) mod two64 - two63.

Definition is_u64 (z : Z) : bool := (0 <=? z) && (z <? two64).
Definition is_i64 (z : Z) : bool := (- two63 <=? z) && (z <? two63).
Definition is_u16 (z : Z) : bool := (0 <=? z) && (z <? 65536).

(** [u64::saturating_add] and [saturating_sub]. *)
Definition saturating_add (a b : Z) : Z := Z.min (a + b) (two64 - 1).
Definition saturating_sub (a b : Z) : Z := Z.max (a - b) 0.

Lemma as_u64_as_i64 z : is_u64 z = true -> as_u64 (as_i64 z) = z.
Proof.
  unfold is_u64, as_u64, as_i64. intros [H1%Z.leb_le H2%Z.ltb_lt]%andb_prop.
  rewrite Zminus_mod_idemp_l. replace (z + two63 - two63) with z by lia.
  by apply Z.mod_small.
Qed.

(** ** Tactics *)

(** Case on the scrutinee of the leftmost match (or [if]) of the goal or of
    a hypothesis, keeping the equation. *)
Ltac case_match_goal :=
  match goal with
  | |- context [ match ?x with _ => _ end ] =>
      lazymatch x with
      | context [ match _ with _ => _ end ] => fail
      | _ => destruct x eqn:?
      end
  end.

Ltac case_match_hyp H :=
  match type of H with
  | context [ match ?x with _ => _ end ] =>
      lazymatch x with
      | context [ match _ with _ => _ end ] => fail
      | _ => destruct x eqn:?
      end
  end.

Ltac split_ands :=
  repeat match goal with
  | H : _ /\ _ |- _ => destruct H
  | H : exists _, _ |- _ => destruct H
  | H : andb _ _ = true |- _ => apply andb_prop in H; destruct H
  | H : negb _ = true |- _ => apply negb_true_iff in H
  | H : negb _ = false |- _ => apply negb_false_iff in H
  | H : bool_decide _ = true |- _ => apply bool_decide_eq_true in H
  | H : bool_decide _ = false |- _ => apply bool_decide_eq_false in H
  end.

(** Unfold every branch of a handler equation [H : handler ... = r]. *)
Ltac branches H :=
  repeat (case_match_hyp H; simplify_eq/=); simplify_eq/=.

Create HintDb locksmith.
Create Rewrite HintDb locksmith.

(** ** [str] *)

Abbreviation byte := ascii (only parsing).

Definition to_lower (c : ascii) : ascii :=
  let n := N_of_ascii c in
  if (65 <=? n)%N && (n <=? 90)%N then ascii_of_N (n + 32)%N else c.

Definition to_upper (c : ascii) : ascii :=
  let n := N_of_ascii c in
  if (97 <=? n)%N && (n <=? 122)%N then ascii_of_N (n - 32)%N else c.

Fixpoint str_map (f : ascii -> ascii) (s : string) : string :=
  match s with EmptyString => EmptyString | String c s' => String (f c) (str_map f s') end.

Definition to_ascii_lowercase : string -> string := str_map to_lower.
Definition to_ascii_uppercase : string -> string := str_map to_upper.

Definition eq_ignore_ascii_case (a b : string) : bool :=
  bool_decide (to_ascii_lowercase a = to_ascii_lowercase b).

Fixpoint strip_prefix (p s : string) : option string :=
  match p, s with
  | EmptyString, _ => Some s
  | String c p', String d s' => if bool_decide (c = d) then strip_prefix p' s' else None
  | String _ _, EmptyString => None
  end.

Definition starts_with (p s : string) : bool := isSome (strip_prefix p s).

Fixpoint str_contains (pat s : string) : bool :=
  starts_with pat s ||
  match s with EmptyString => false | String _ s' => str_contains pat s' end.

Fixpoint ends_with (suf s : string) : bool :=
  bool_decide (s = suf) ||
  match s with EmptyString => false | String _ s' => ends_with suf s' end.

Fixpoint str_forall (p : ascii -> bool) (s : string) : bool :=
  match s with EmptyString => true | String c s' => p c && str_forall p s' end.

Definition contains_char (p : ascii -> bool) (s : string) : bool :=
  negb (str_forall (fun c => negb (p c)) s).

(** [str::split_once] on a character. *)
Fixpoint split_once (c : ascii) (s : string) : option (string * string) :=
  match s with
  | EmptyString => None
  | String d s' =>
      if bool_decide (c = d) then Some (EmptyString, s')
      else match split_once c s' with
           | Some (a, b) => Some (String d a, b)
           | None => None
           end
  end.

(** [str::split] on a character predicate; always at least one segment. *)
Fixpoint split (p : ascii -> bool) (s : string) : list string :=
  match s with
  | EmptyString => [EmptyString]
  | String d s' =>
      if p d then EmptyString :: split p s'
      else match split p s' with
           | x :: l => String d x :: l
           | [] => [String d EmptyString]
           end
  end.

Definition is_char (c : ascii) (d : ascii) : bool := bool_decide (d = c).

(** [split(..).next().unwrap_or("")]. *)
Definition first_segment (p : ascii -> bool) (s : string) : string :=
  match split p s with x :: _ => x | [] => "" end.

(** [str::find] for a string pattern, as a byte offset. *)
Fixpoint str_find (pat s : string) : option nat :=
  if starts_with pat s then Some 0%nat
  else match s with
       | EmptyString => None
       | String _ s' => S <$> str_find pat s'
       end.

Fixpoint str_take (n : nat) (s : string) : string :=
  match n, s with
  | S n', String c s' => String c (str_take n' s')
  | _, _ => EmptyString
  end.

Fixpoint str_drop (n : nat) (s : string) : string :=
  match n, s with
  | S n', String _ s' => str_drop n' s'
  | _, _ => s
  end.

(** [trim_end_matches(c)]. *)
Fixpoint trim_end_matches (c : ascii) (s : string) : string :=
  match s with
  | EmptyString => EmptyString
  | String d s' =>
      if str_forall (is_char c) s then EmptyString else String d (trim_end_matches c s')
  end.

Fixpoint join (sep : string) (l : list string) : string :=
  match l with
  | [] => ""
  | [x] => x
  | x :: l' => x +:+ sep +:+ join sep l'
  end.

(** *** UTF-8: the [char]s of a [str] *)

Definition is_cont (lo hi : N) (c : ascii) : bool :=
  (lo <=? N_of_ascii c)%N && (N_of_ascii c <=? hi)%N.

Definition cont_bits (c : ascii) : N := (N_of_ascii c mod 64)%N.

(** The first scalar value of a byte string and the bytes after it; [None]
    on the empty string and on an ill-formed sequence. *)
Definition next_char (s : string) : option (N * string) :=
  match s with
  | EmptyString => None
  | String a s1 =>
      let b := N_of_ascii a in
      if (b <? 128)%N then Some (b, s1)
      else if (194 <=? b)%N && (b <=? 223)%N then
        match s1 with
        | String c1 s2 =>
            if is_cont 128 191 c1
            then Some ((b mod 32) * 64 + cont_bits c1, s2)%N else None
        | _ => None
        end
      else if (224 <=? b)%N && (b <=? 239)%N then
        match s1 with
        | String c1 (String c2 s3) =>
            let lo := if (b =? 224)%N then 160%N else 128%N in
            let hi := if (b =? 237)%N then 159%N else 191%N in
            if is_cont lo hi c1 && is_cont 128 191 c2
            then Some ((b mod 16) * 4096 + cont_bits c1 * 64 + cont_bits c2, s3)%N else None
        | _ => None
        end
      else if (240 <=? b)%N && (b <=? 244)%N then
        match s1 with
        | String c1 (String c2 (String c3 s4)) =>
            let lo := if (b =? 240)%N then 144%N else 128%N in
            let hi := if (b =? 244)%N then 143%N else 191%N in
            if is_cont lo hi c1 && is_cont 128 191 c2 && is_cont 128 191 c3
            then Some ((b mod 8) * 262144 + cont_bits c1 * 4096 + cont_bits c2 * 64
                       + cont_bits c3, s4)%N else None
        | _ => None
        end
      else None
  end.

(** [std::str::from_utf8] followed by [chars()]; every character consumes a
    byte, so the length is enough fuel. *)
Fixpoint utf8_fuel (fuel : nat) (s : string) : option (list N) :=
  match s with
  | EmptyString => Some []
  | _ =>
      match fuel with
      | O => None
      | S fuel' =>
          match next_char s with
          | Some (c, s') => (cons c) <$> utf8_fuel fuel' s'
          | None => None
          end
      end
  end.

Definition utf8_chars (s : string) : option (list N) := utf8_fuel (String.length s) s.
Definition is_utf8 (s : string) : bool := isSome (utf8_chars s).

(** [str::chars] on a [str], which is valid UTF-8 by its type. *)
Definition chars (s : string) : list N := default [] (utf8_chars s).

(** [char::is_whitespace] (Unicode White_Space) and [char::is_control] (Cc). *)
Definition is_whitespace (c : N) : bool :=
  ((9 <=? c) && (c <=? 13) || (c =? 32) || (c =? 133) || (c =? 160) || (c =? 5760)
   || (8192 <=? c) && (c <=? 8202) || (c =? 8232) || (c =? 8233) || (c =? 8239)
   || (c =? 8287) || (c =? 12288))%N.

Definition is_control (c : N) : bool := ((c <=? 31) || (127 <=? c) && (c <=? 159))%N.

Definition all_whitespace (s : string) : bool :=
  match utf8_chars s with Some cs => forallb is_whitespace cs | None => false end.

Fixpoint trim_start_fuel (fuel : nat) (s : string) : string :=
  match fuel with
  | O => s
  | S fuel' =>
      match next_char s with
      | Some (c, s') => if is_whitespace c then trim_start_fuel fuel' s' else s
      | None => s
      end
  end.

Definition trim_start (s : string) : string := trim_start_fuel (String.length s) s.

(** A suffix that starts inside a character does not decode, so the first
    suffix that is all whitespace starts at a character boundary. *)
Fixpoint trim_end (s : string) : string :=
  match s with
  | EmptyString => EmptyString
  | String c s' => if all_whitespace s then EmptyString else String c (trim_end s')
  end.

(** [str::trim]. *)
Definition trim (s : string) : string := trim_end (trim_start s).

(** *** Lemmas on strings *)

#[global] Arguments String.append : simpl nomatch.

Lemma str_app_length (a b : string) :
  String.length (a +:+ b) = (String.length a + String.length b)%nat.
Proof. induction a; simpl; congruence. Qed.

Lemma str_app_assoc (a b c : string) : a +:+ (b +:+ c) = (a +:+ b) +:+ c.
Proof. induction a; simpl; congruence. Qed.

Lemma str_app_nil_r (a : string) : a +:+ "" = a.
Proof. induction a; simpl; congruence. Qed.

Lemma str_forall_app p (a b : string) :
  str_forall p (a +:+ b) = str_forall p a && str_forall p b.
Proof. induction a; simpl; [done|]. by rewrite IHa, andb_assoc. Qed.

Lemma str_forall_impl (p q : ascii -> bool) s :
  (forall c, p c = true -> q c = true) -> str_forall p s = true -> str_forall q s = true.
Proof.
  intros Hpq. induction s; simpl; [done|].
  intros [H1 H2]%andb_prop. by rewrite Hpq, IHs.
Qed.

Lemma strip_prefix_app (p s : string) : strip_prefix p (p +:+ s) = Some s.
Proof. induction p; simpl; [done|]. by rewrite bool_decide_eq_true_2. Qed.

Lemma strip_prefix_Some (p s r : string) : strip_prefix p s = Some r -> s = p +:+ r.
Proof.
  revert s. induction p as [|c p IH]; intros s; simpl; [congruence|].
  destruct s as [|d s]; [done|]. case_bool_decide; [|done]. subst.
  intros H. by rewrite (IH s).
Qed.

Lemma split_once_Some c s a b :
  split_once c s = Some (a, b) <->
  s = a +:+ String c b /\ str_forall (fun d => negb (is_char c d)) a = true.
Proof.
  unfold is_char. revert a b. induction s as [|d s IH]; intros a b; simpl.
  { split; [done|]. intros [H _]. by destruct a. }
  case_bool_decide as Hd.
  - subst. split.
    + intros [= <- <-]. done.
    + intros [H1 H2]. destruct a as [|e a]; simpl in *; [congruence|].
      injection H1 as -> _. by rewrite bool_decide_eq_true_2 in H2.
  - destruct (split_once c s) as [[a' b']|].
    + split.
      * intros [= <- <-]. destruct (proj1 (IH a' b') eq_refl) as [-> H].
        simpl. rewrite bool_decide_eq_false_2 by congruence. done.
      * intros [H1 H2]. destruct a as [|e a]; simpl in *; [congruence|].
        injection H1 as -> H1. apply andb_prop in H2 as [_ H2].
        by pose proof (proj2 (IH a b) (conj H1 H2)) as [= -> ->].
    + split; [done|]. intros [H1 H2]. destruct a as [|e a]; simpl in *; [congruence|].
      injection H1 as -> H1. apply andb_prop in H2 as [_ H2].
      discriminate (proj2 (IH a b) (conj H1 H2)).
Qed.

Lemma to_lower_idem c : to_lower (to_lower c) = to_lower c.
Proof. destruct c as [[] [] [] [] [] [] [] []]; reflexivity. Qed.

Lemma to_ascii_lowercase_idem s :
  to_ascii_lowercase (to_ascii_lowercase s) = to_ascii_lowercase s.
Proof.
  unfold to_ascii_lowercase. induction s; simpl; [done|].
  by rewrite to_lower_idem, IHs.
Qed.

Lemma find_first_Some {A} (p : A -> bool) l x :
  find_first p l = Some x -> x ∈ l /\ p x = true.
Proof.
  induction l as [|y l IH]; simpl; [done|].
  destruct (p y) eqn:E.
  - intros [= ->]. split; [left|done].
  - intros [H1 H2]%IH. split; [by right|done].
Qed.

Lemma find_first_app {A} (p : A -> bool) l k :
  find_first p (l ++ k) = match find_first p l with Some x => Some x | None => find_first p k end.
Proof. induction l as [|x l IH]; simpl; [done|]. by destruct (p x). Qed.

Lemma find_first_None {A} (p : A -> bool) l :
  find_first p l = None <-> (forall x, x ∈ l -> p x = false).
Proof.
  induction l as [|y l IH]; simpl.
  - split; [intros _ x Hx; by apply not_elem_of_nil in Hx | done].
  - destruct (p y) eqn:E.
    + split; [done|]. intros H. rewrite (H y) in E by left. done.
    + rewrite IH. split.
      * intros H x [->|Hx]%elem_of_cons; auto.
      * intros H x Hx. apply H. by right.
Qed.

#[export] Hint Rewrite str_app_length str_app_nil_r strip_prefix_app
  to_ascii_lowercase_idem : locksmith.
#[export] Hint Resolve strip_prefix_Some find_first_Some : locksmith.

(** ** SQL tables

    A table is the list of its rows in insertion order. *)

(** [UPDATE t SET f WHERE p] and whether it affected a row. *)
Definition sql_update {A} (p : A -> bool) (f : A -> A) (rows : list A) : list A :=
  map (fun r => if p r then f r else r) rows.

Definition sql_exists {A} (p : A -> bool) (rows : list A) : bool := existsb p rows.

(** [DELETE FROM t WHERE p]. *)
Definition sql_delete {A} (p : A -> bool) (rows : list A) : list A :=
  List.filter (fun r => negb (p r)) rows.

Lemma sql_exists_false {A} (p : A -> bool) rows :
  sql_exists p rows = false <-> (forall r, r ∈ rows -> p r = false).
Proof.
  unfold sql_exists. rewrite <- not_true_iff_false, existsb_exists.
  setoid_rewrite <- list_elem_of_In. split.
  - intros H r Hr. destruct (p r) eqn:E; [|done]. exfalso. eauto.
  - intros H (r & Hr & E). rewrite H in E; done.
Qed.

Lemma sql_update_key {A K} (key : A -> K) p f (rows : list A) :
  (forall r, key (f r) = key r) -> map key (sql_update p f rows) = map key rows.
Proof.
  intros Hf. unfold sql_update. rewrite map_map. apply map_ext.
  intros r. by destruct (p r).
Qed.

Lemma sql_update_none {A} (p : A -> bool) f rows :
  (forall r, r ∈ rows -> p r = false) -> sql_update p f rows = rows.
Proof.
  intros H. unfold sql_update. induction rows as [|r rows IH]; [done|].
  simpl. rewrite (H r) by left. f_equal. apply IH. intros r' Hr'. apply H. by right.
Qed.

Lemma elem_of_sql_update {A} (p : A -> bool) f rows r :
  r ∈ sql_update p f rows <-> exists r0, r0 ∈ rows /\ r = (if p r0 then f r0 else r0).
Proof.
  unfold sql_update. rewrite list_elem_of_In, in_map_iff.
  setoid_rewrite list_elem_of_In. naive_solver.
Qed.

(** Rows found by a key that the update does not touch are the updated rows. *)
Lemma find_first_sql_update {A} (q p : A -> bool) f rows :
  (forall r, q (f r) = q r) ->
  find_first q (sql_update p f rows) =
  (fun r => if p r then f r else r) <$> find_first q rows.
Proof.
  intros Hq. unfold sql_update. induction rows as [|r rows IH]; [done|].
  simpl. assert (E : q (if p r then f r else r) = q r) by (destruct (p r); auto).
  rewrite E. destruct (q r); [done|]. apply IH.
Qed.

(** A row whose key is unique is the one its key finds. *)
Lemma find_first_key {A K} `{EqDecision K} (key : A -> K) rows r :
  NoDup (map key rows) -> r ∈ rows ->
  find_first (fun x => bool_decide (key x = key r)) rows = Some r.
Proof.
  induction rows as [|x rows IH]; [intros _ H; by apply not_elem_of_nil in H|].
  simpl. intros [Hx Hnd]%NoDup_cons [->|Hr]%elem_of_cons.
  - by rewrite bool_decide_eq_true_2.
  - rewrite bool_decide_eq_false_2; [by apply IH|].
    intros E. apply Hx. rewrite E, list_elem_of_In. apply in_map.
    by apply list_elem_of_In.
Qed.

#[export] Hint Resolve sql_update_key find_first_key : locksmith.
