(* ===== verification/Json.v ===== *)
(** * JSON values

    [serde_json::Value] as the sources use it.  [serde_json] is built without
    [preserve_order], so an object is a [BTreeMap]: entries are kept in key
    order and [insert] replaces.  Parsing and printing are the crate's: they
    are parameters (class [SerdeJson]). *)

From S2P Require Import Prelude.

#[local] Set Warnings "-register-all".

Inductive Json : Type :=
| JNull
| JBool (b : bool)
| JInt (z : Z)
| JFloat (repr : string)
| JString (s : string)
| JArray (l : list Json)
| JObject (m : list (string * Json)).

(** ** [serde_json::Map] *)

Fixpoint obj_get (k : string) (m : list (string * Json)) : option Json :=
  match m with
  | [] => None
  | (k', v) :: m' => if bool_decide (k' = k) then Some v else obj_get k m'
  end.

Fixpoint obj_insert (k : string) (v : Json) (m : list (string * Json)) : list (string * Json) :=
  match m with
  | [] => [(k, v)]
  | (k', v') :: m' =>
      if bool_decide (k' = k) then (k, v) :: m'
      else if String.ltb k k' then (k, v) :: m
      else (k', v') :: obj_insert k v m'
  end.

Definition obj_remove (k : string) (m : list (string * Json)) : list (string * Json) :=
  filter (fun kv => kv.1 <> k) m.

Definition obj_contains_key (k : string) (m : list (string * Json)) : bool :=
  isSome (obj_get k m).

(** The [json!({ ... })] macro: the pairs inserted in source order. *)
Definition json_obj (l : list (string * Json)) : Json :=
  JObject (fold_left (fun m kv => obj_insert kv.1 kv.2 m) l []).

(** [json!] of an [Option]: [None] is [null]. *)
Definition json_opt {A} (f : A -> Json) (o : option A) : Json :=
  match o with Some a => f a | None => JNull end.

(** [v[key] = x] on an object value. *)
Definition json_set (k : string) (x v : Json) : Json :=
  match v with JObject m => JObject (obj_insert k x m) | _ => v end.

(** [Value::get(key)] and [Value::as_str]. *)
Definition json_get (k : string) (v : Json) : option Json :=
  match v with JObject m => obj_get k m | _ => None end.

Definition as_str (v : Json) : option string :=
  match v with JString s => Some s | _ => None end.

(** The error envelope every surface renders: [{"error": {...}}]. *)
Definition error_envelope (fields : list (string * Json)) : Json :=
  json_obj [("error", json_obj fields)].

(** ** Lookup laws *)

Lemma obj_get_insert_eq k v m : obj_get k (obj_insert k v m) = Some v.
Proof.
  induction m as [|[k' v'] m IH]; simpl; [by rewrite bool_decide_eq_true_2|].
  case_bool_decide as E; simpl; [by rewrite bool_decide_eq_true_2|].
  destruct (String.ltb k k'); simpl; [by rewrite bool_decide_eq_true_2|].
  by rewrite bool_decide_eq_false_2.
Qed.

Lemma obj_get_insert_ne k k' v m : k <> k' -> obj_get k' (obj_insert k v m) = obj_get k' m.
Proof.
  intros Hne. induction m as [|[j w] m IH]; simpl; [by rewrite bool_decide_eq_false_2|].
  case_bool_decide as E; simpl.
  { subst. by rewrite bool_decide_eq_false_2. }
  destruct (String.ltb k j); simpl; [by rewrite bool_decide_eq_false_2|].
  case_bool_decide; [done|]. apply IH.
Qed.

Lemma obj_get_remove_eq k m : obj_get k (obj_remove k m) = None.
Proof.
  unfold obj_remove. induction m as [|[j w] m IH]; [done|].
  rewrite filter_cons. case_decide as E; simpl in *; [|done].
  rewrite bool_decide_eq_false_2 by done. done.
Qed.

Lemma obj_get_remove_ne k k' m : k <> k' -> obj_get k' (obj_remove k m) = obj_get k' m.
Proof.
  intros Hne. unfold obj_remove. induction m as [|[j w] m IH]; [done|].
  rewrite filter_cons. case_decide as E; simpl in *.
  - case_bool_decide; [done|]. apply IH.
  - rewrite bool_decide_eq_false_2 by naive_solver. done.
Qed.

Lemma obj_remove_None k m : obj_get k m = None -> obj_remove k m = m.
Proof.
  unfold obj_remove. induction m as [|[j w] m IH]; [done|].
  simpl. case_bool_decide as E; [done|]. intros H.
  rewrite filter_cons. case_decide; [|done]. f_equal. auto.
Qed.

#[export] Hint Rewrite obj_get_insert_eq obj_get_remove_eq : locksmith.
#[export] Hint Resolve obj_get_insert_ne obj_get_remove_ne : locksmith.

(** ** The [serde_json] crate's parser and printer *)

Class SerdeJson : Type := {
  from_slice : string -> option Json;
  to_vec : Json -> string
}.
