(* ===== verification/Token.v ===== *)
(** * Structured tokens ([src/token.rs])

    [<prefix>_<public_id>.<secret>] tokens: the namespaces, the generator, the
    wire format and the shape-only parser.  The [base64] crate is a
    parameter (class [Base64Url], the [URL_SAFE_NO_PAD] engine) whose laws
    are those of RFC 4648 section 5 without padding; [getrandom] is the
    argument of [generate]. *)

From Stdlib Require Import ZifyN.
From S2P Require Import Prelude.

(** ** The [base64] crate, [URL_SAFE_NO_PAD] *)

Class Base64Url : Type := {
  b64_encode : string -> string;
  b64_decode : string -> option string
}.

Definition is_b64url (c : ascii) : bool :=
  let n := N_of_ascii c in
  ((48 <=? n) && (n <=? 57) || (65 <=? n) && (n <=? 90) || (97 <=? n) && (n <=? 122)
   || (n =? 45) || (n =? 95))%N.

Class Base64UrlLaws `{Base64Url} : Prop := {
  b64_decode_encode : forall bs, b64_decode (b64_encode bs) = Some bs;
  b64_encode_length : forall bs,
    String.length (b64_encode bs) = ((8 * String.length bs + 5) / 6)%nat;
  b64_encode_alphabet : forall bs, str_forall is_b64url (b64_encode bs) = true
}.

(** ** The token type *)

Inductive TokenNamespace := Agent | Operator | Bootstrap.

#[export] Instance TokenNamespace_eq_dec : EqDecision TokenNamespace.
Proof. solve_decision. Defined.

Definition prefix (ns : TokenNamespace) : string :=
  match ns with Agent => "lk" | Operator => "lkop" | Bootstrap => "lkbt" end.

Definition from_prefix (s : string) : option TokenNamespace :=
  if bool_decide (s = "lk") then Some Agent
  else if bool_decide (s = "lkop") then Some Operator
  else if bool_decide (s = "lkbt") then Some Bootstrap
  else None.

Record StructuredToken := {
  namespace : TokenNamespace;
  public_id : string;
  secret : string
}.

Inductive ParseError := UnknownNamespace | MissingSeparator | InvalidLength | InvalidEncoding.

Definition PUBLIC_ID_LEN : nat := 22.
Definition SECRET_LEN : nat := 43.

Section Token.
Context `{Base64Url}.

(** [id_bytes] and [secret_bytes] are what [getrandom::fill] wrote into the
    16- and 32-byte arrays. *)
Definition generate (ns : TokenNamespace) (id_bytes secret_bytes : string) : StructuredToken :=
  {| namespace := ns;
     public_id := b64_encode id_bytes;
     secret := b64_encode secret_bytes |}.

Definition wire_format (t : StructuredToken) : string :=
  prefix (namespace t) +:+ "_" +:+ public_id t +:+ "." +:+ secret t.

Definition parse (input : string) : result ParseError (TokenNamespace * string * string) :=
  let? (prefix_part, rest) := ok_or UnknownNamespace (split_once "_" input) in
  let? ns := ok_or UnknownNamespace (from_prefix prefix_part) in
  let? (public_id_str, secret_str) := ok_or MissingSeparator (split_once "." rest) in
  if negb (bool_decide (String.length public_id_str = PUBLIC_ID_LEN))
     || negb (bool_decide (String.length secret_str = SECRET_LEN))
  then Err InvalidLength
  else if negb (isSome (b64_decode public_id_str)) || negb (isSome (b64_decode secret_str))
  then Err InvalidEncoding
  else Ok (ns, public_id_str, secret_str).

(** ** Lemmas *)

Lemma from_prefix_prefix ns : from_prefix (prefix ns) = Some ns.
Proof. by destruct ns. Qed.

Lemma from_prefix_Some s ns : from_prefix s = Some ns -> s = prefix ns.
Proof.
  unfold from_prefix. intros H1. repeat case_bool_decide; simplify_eq; done.
Qed.

Lemma prefix_no_underscore ns :
  str_forall (fun d => negb (is_char "_" d)) (prefix ns) = true.
Proof. by destruct ns. Qed.

Lemma b64url_not_dot c : is_b64url c = true -> negb (is_char "." c) = true.
Proof. destruct c as [[] [] [] [] [] [] [] []]; done. Qed.

Lemma split_once_intro c a b :
  str_forall (fun d => negb (is_char c d)) a = true ->
  split_once c (a +:+ String c b) = Some (a, b).
Proof. intros Ha. by apply split_once_Some. Qed.

Lemma wire_format_cons t :
  wire_format t =
  prefix (namespace t) +:+ String "_" (public_id t +:+ String "." (secret t)).
Proof. done. Qed.

(** The shape of a well-formed token. *)
Definition well_formed (t : StructuredToken) : Prop :=
  String.length (public_id t) = PUBLIC_ID_LEN /\
  String.length (secret t) = SECRET_LEN /\
  isSome (b64_decode (public_id t)) = true /\
  isSome (b64_decode (secret t)) = true /\
  str_forall (fun d => negb (is_char "." d)) (public_id t) = true.

Lemma parse_wire_format t :
  well_formed t ->
  parse (wire_format t) = Ok (namespace t, public_id t, secret t).
Proof.
  intros (Hp & Hs & Dp & Ds & Hdot). rewrite wire_format_cons. unfold parse.
  rewrite (split_once_intro "_" (prefix (namespace t))) by apply prefix_no_underscore.
  simpl. rewrite from_prefix_prefix. simpl.
  rewrite (split_once_intro "." (public_id t)) by done.
  simpl. rewrite Hp, Hs, Dp, Ds. done.
Qed.

Lemma parse_ok_shape input ns pid sec :
  parse input = Ok (ns, pid, sec) ->
  let t := {| namespace := ns; public_id := pid; secret := sec |} in
  input = wire_format t /\ well_formed t.
Proof.
  unfold parse. intros H1.
  destruct (split_once "_" input) as [[p rest]|] eqn:E1; simplify_eq/=.
  destruct (from_prefix p) as [ns'|] eqn:E2; simplify_eq/=.
  destruct (split_once "." rest) as [[i s]|] eqn:E3; simplify_eq/=.
  apply split_once_Some in E1 as [-> _], E3 as [-> Hi].
  apply from_prefix_Some in E2 as ->.
  case_bool_decide; [|done]. case_bool_decide; [|done]. simpl in H1.
  destruct (isSome (b64_decode i)) eqn:Di; [|done].
  destruct (isSome (b64_decode s)) eqn:Ds; [|done].
  simplify_eq/=. done.
Qed.

(** C38: the parser accepts exactly the wire forms: it returns a namespace,
    public id and secret if and only if the input is their wire format, with
    a 22-byte public id and a 43-byte secret that both decode. *)
Theorem parse_sound input ns pid sec :
  let t := {| namespace := ns; public_id := pid; secret := sec |} in
  parse input = Ok (ns, pid, sec) <-> input = wire_format t /\ well_formed t.
Proof.
  intros t. split; [apply parse_ok_shape|]. intros [-> Hwf]. exact (parse_wire_format t Hwf).
Qed.

Context {Laws : Base64UrlLaws}.

Lemma generate_well_formed ns id_bytes secret_bytes :
  String.length id_bytes = 16%nat -> String.length secret_bytes = 32%nat ->
  well_formed (generate ns id_bytes secret_bytes).
Proof.
  intros Hi Hs. unfold well_formed, generate; simpl.
  rewrite !b64_encode_length, Hi, Hs, !b64_decode_encode.
  repeat split; try done.
  eapply str_forall_impl; [apply b64url_not_dot|apply b64_encode_alphabet].
Qed.

(** Every generated token round-trips through its wire format: parsing
    the string handed to the agent gives back its namespace, public id and
    secret. *)
Theorem parse_generate ns id_bytes secret_bytes :
  String.length id_bytes = 16%nat -> String.length secret_bytes = 32%nat ->
  let t := generate ns id_bytes secret_bytes in
  parse (wire_format t) = Ok (ns, public_id t, secret t).
Proof.
  intros Hi Hs t. by apply parse_wire_format, generate_well_formed.
Qed.
End Token.

#[export] Hint Resolve generate_well_formed : locksmith.

(** ** A concrete codec

    RFC 4648 base64url without padding, for the witnesses. *)
Module Base64Model.

#[local] Ltac Zify.zify_post_hook ::= Z.to_euclidean_division_equations.

Definition sextet_char (i : N) : ascii :=
  if (i <? 26)%N then ascii_of_N (i + 65)
  else if (i <? 52)%N then ascii_of_N (i + 71)
  else if (i <? 62)%N then ascii_of_N (i - 4)
  else if (i =? 62)%N then "-"%char else "_"%char.

Definition char_sextet (c : ascii) : option N :=
  let n := N_of_ascii c in
  if (65 <=? n)%N && (n <=? 90)%N then Some (n - 65)%N
  else if (97 <=? n)%N && (n <=? 122)%N then Some (n - 71)%N
  else if (48 <=? n)%N && (n <=? 57)%N then Some (n + 4)%N
  else if (n =? 45)%N then Some 62%N
  else if (n =? 95)%N then Some 63%N
  else None.

Fixpoint encode (s : string) : string :=
  match s with
  | String a (String b (String c r)) =>
      let x := N_of_ascii a in let y := N_of_ascii b in let z := N_of_ascii c in
      String (sextet_char (x / 4)) (String (sextet_char (x mod 4 * 16 + y / 16))
        (String (sextet_char (y mod 16 * 4 + z / 64)) (String (sextet_char (z mod 64))
          (encode r))))
  | String a (String b EmptyString) =>
      let x := N_of_ascii a in let y := N_of_ascii b in
      String (sextet_char (x / 4)) (String (sextet_char (x mod 4 * 16 + y / 16))
        (String (sextet_char (y mod 16 * 4)) EmptyString))
  | String a EmptyString =>
      let x := N_of_ascii a in
      String (sextet_char (x / 4)) (String (sextet_char (x mod 4 * 16)) EmptyString)
  | EmptyString => EmptyString
  end.

Fixpoint decode (s : string) : option string :=
  match s with
  | String a (String b (String c (String d r))) =>
      let* w := char_sextet a in let* x := char_sextet b in
      let* y := char_sextet c in let* z := char_sextet d in
      let* r' := decode r in
      Some (String (ascii_of_N (w * 4 + x / 16)) (String (ascii_of_N (x mod 16 * 16 + y / 4))
        (String (ascii_of_N (y mod 4 * 64 + z)) r')))
  | String a (String b (String c EmptyString)) =>
      let* w := char_sextet a in let* x := char_sextet b in let* y := char_sextet c in
      if (y mod 4 =? 0)%N
      then Some (String (ascii_of_N (w * 4 + x / 16))
             (String (ascii_of_N (x mod 16 * 16 + y / 4)) EmptyString))
      else None
  | String a (String b EmptyString) =>
      let* w := char_sextet a in let* x := char_sextet b in
      if (x mod 16 =? 0)%N then Some (String (ascii_of_N (w * 4 + x / 16)) EmptyString) else None
  | String _ EmptyString => None
  | EmptyString => Some EmptyString
  end.

#[export] Instance codec : Base64Url := {| b64_encode := encode; b64_decode := decode |}.

Lemma sextet_table i :
  (i < 64)%N -> char_sextet (sextet_char i) = Some i /\ is_b64url (sextet_char i) = true.
Proof.
  intros Hi.
  assert (Hall : forallb (fun k => bool_decide (char_sextet (sextet_char (N.of_nat k)) = Some (N.of_nat k))
      && is_b64url (sextet_char (N.of_nat k))) (seq 0 64) = true) by (vm_compute; reflexivity).
  rewrite forallb_forall in Hall.
  specialize (Hall (N.to_nat i)). rewrite N2Nat.id in Hall.
  assert (Hin : In (N.to_nat i) (seq 0 64)) by (apply in_seq; lia).
  specialize (Hall Hin). by apply andb_prop in Hall as [?%bool_decide_eq_true ?].
Qed.

Lemma ascii_bound a : (N_of_ascii a < 256)%N.
Proof. apply N_ascii_bounded. Qed.

(** Strings by groups of three bytes. *)
Lemma three_ind (P : string -> Prop) :
  P "" -> (forall a, P (String a "")) -> (forall a b, P (String a (String b ""))) ->
  (forall a b c r, P r -> P (String a (String b (String c r)))) -> forall s, P s.
Proof.
  intros H0 H1 H2 H3. fix IH 1.
  intros [|a [|b [|c r]]]; [exact H0|apply H1|apply H2|apply H3, IH].
Qed.

Ltac sextets :=
  repeat match goal with
  | |- context [char_sextet (sextet_char ?i)] =>
      rewrite (proj1 (sextet_table i ltac:(lia)))
  | |- context [is_b64url (sextet_char ?i)] =>
      rewrite (proj2 (sextet_table i ltac:(lia)))
  end.

Ltac byte_back :=
  match goal with
  | |- String (ascii_of_N ?e) _ = String ?a _ =>
      replace e with (N_of_ascii a) by lia; rewrite ascii_N_embedding; f_equal
  | |- Some _ = Some _ => f_equal
  end.

Lemma decode_encode s : decode (encode s) = Some s.
Proof.
  induction s as [|a|a b|a b c r IH] using three_ind; [done|..];
    pose proof (ascii_bound a); try pose proof (ascii_bound b); try pose proof (ascii_bound c);
    cbn [encode decode]; sextets.
  - replace ((N_of_ascii a mod 4 * 16) mod 16 =? 0)%N with true by (symmetry; apply N.eqb_eq; lia).
    repeat byte_back; done.
  - replace ((N_of_ascii b mod 16 * 4) mod 4 =? 0)%N with true by (symmetry; apply N.eqb_eq; lia).
    repeat byte_back; done.
  - rewrite IH. repeat byte_back; done.
Qed.

Lemma encode_alphabet s : str_forall is_b64url (encode s) = true.
Proof.
  induction s as [|a|a b|a b c r IH] using three_ind; [done|..];
    pose proof (ascii_bound a); try pose proof (ascii_bound b); try pose proof (ascii_bound c);
    cbn [encode str_forall]; sextets; auto.
Qed.

Lemma encode_length s :
  String.length (encode s) = ((8 * String.length s + 5) / 6)%nat.
Proof.
  induction s as [|a|a b|a b c r IH] using three_ind; try done.
  cbn [encode String.length]. rewrite IH.
  replace (8 * S (S (S (String.length r))) + 5)%nat
    with (4 * 6 + (8 * String.length r + 5))%nat by lia.
  rewrite Nat.div_add_l by lia. done.
Qed.

#[export] Instance codec_laws : Base64UrlLaws.
Proof.
  split; [apply decode_encode|apply encode_length|apply encode_alphabet].
Qed.

End Base64Model.

(** ** Witnesses *)

Import Base64Model.

Lemma parse_generate_witness :
  let t := generate Bootstrap "0123456789abcdef" "0123456789abcdef0123456789abcdef" in
  parse (wire_format t) = Ok (Bootstrap, public_id t, secret t).
Proof.
  apply (parse_generate Bootstrap "0123456789abcdef" "0123456789abcdef0123456789abcdef");
    reflexivity.
Defined.

Lemma parse_sound_witness :
  let pid := "MDEyMzQ1Njc4OWFiY2RlZg" in
  let sec := "MDEyMzQ1Njc4OWFiY2RlZjAxMjM0NTY3ODlhYmNkZWY" in
  "lk_MDEyMzQ1Njc4OWFiY2RlZg.MDEyMzQ1Njc4OWFiY2RlZjAxMjM0NTY3ODlhYmNkZWY"
    = wire_format {| namespace := Agent; public_id := pid; secret := sec |} /\
  well_formed {| namespace := Agent; public_id := pid; secret := sec |}.
Proof. apply parse_sound. vm_compute. reflexivity. Defined.
