(* ===== verification/Argon2Helper.v ===== *)
(** * Secret hashing ([src/argon2_helper.rs])

    The [argon2] crate and the salt drawn from [getrandom] are parameters
    (class [Argon2Crate]); [hash] and [verify] are the wrappers the
    repositories and authenticators call. *)

From S2P Require Import Prelude.

Inductive VerifyOutcome := VerifyOk | VerifyPassword | VerifyOther.

Class Argon2Crate : Type := {
  params_new : Z -> Z -> Z -> option Z -> bool;
  phc_parses : string -> bool;
  hash_password : string -> string -> option string;
  verify_password : string -> string -> VerifyOutcome
}.

(** What the crate documents: the fixed parameters are in range, a hash it
    produced parses and verifies against its own password, and a different
    password is reported as [Error::Password]. *)
Class Argon2Laws `{Argon2Crate} : Prop := {
  params_in_range : params_new 4096 3 1 (Some 32) = true;
  hash_parses : forall s salt phc, hash_password s salt = Some phc -> phc_parses phc = true;
  hash_verifies : forall s salt phc,
    hash_password s salt = Some phc -> verify_password s phc = VerifyOk;
  hash_rejects : forall s s' salt phc,
    hash_password s salt = Some phc -> s' <> s -> verify_password s' phc = VerifyPassword
}.

Inductive HashError := HashErr | VerifyErr | ParamsErr.

Section Argon2.
Context `{Argon2Crate}.

Definition argon2 : result HashError unit :=
  if params_new 4096 3 1 (Some 32) then Ok tt else Err ParamsErr.

(** [salt] is the [SaltString] encoded from the bytes [getrandom] gave. *)
Definition hash (secret salt : string) : result HashError string :=
  let? _ := argon2 in
  ok_or HashErr (hash_password secret salt).

Definition verify (phc secret : string) : result HashError bool :=
  if phc_parses phc then
    let? _ := argon2 in
    match verify_password secret phc with
    | VerifyOk => Ok true
    | VerifyPassword => Ok false
    | VerifyOther => Err VerifyErr
    end
  else Err HashErr.

Lemma verify_true_iff phc secret :
  verify phc secret = Ok true <->
  phc_parses phc = true /\ argon2 = Ok tt /\ verify_password secret phc = VerifyOk.
Proof.
  unfold verify. destruct (phc_parses phc); [|naive_solver].
  destruct argon2 as [[]|]; [|naive_solver].
  destruct (verify_password secret phc); naive_solver.
Qed.

Context {Laws : Argon2Laws}.

Lemma hash_verify secret salt phc :
  hash secret salt = Ok phc ->
  forall s', verify phc s' = Ok (bool_decide (s' = secret)).
Proof.
  unfold hash, verify, argon2. rewrite params_in_range. intros Hh s'.
  destruct (hash_password secret salt) eqn:E; simplify_eq/=.
  erewrite hash_parses by eauto. case_bool_decide as Hs.
  - subst. by erewrite hash_verifies by eauto.
  - by erewrite hash_rejects by eauto.
Qed.
End Argon2.

#[export] Hint Resolve hash_verify : locksmith.

(** A concrete instance for the witnesses: the PHC string carries the salt
    and the secret in clear. *)
Module Argon2Model.

Definition phc_of (s salt : string) : string := "$argon2id$" +:+ salt +:+ "$" +:+ s.

Definition verify_clear (s phc : string) : VerifyOutcome :=
  match strip_prefix "$argon2id$" phc with
  | Some rest =>
      match split_once "$" rest with
      | Some (_, s') => if bool_decide (s' = s) then VerifyOk else VerifyPassword
      | None => VerifyOther
      end
  | None => VerifyOther
  end.

Definition no_dollar (salt : string) : bool := str_forall (fun d => negb (is_char "$" d)) salt.

#[export] Instance crate : Argon2Crate := {|
  params_new _ _ _ _ := true;
  phc_parses phc := starts_with "$argon2id$" phc;
  hash_password s salt := if no_dollar salt then Some (phc_of s salt) else None;
  verify_password := verify_clear
|}.

Lemma verify_clear_hash s s' salt :
  no_dollar salt = true ->
  verify_clear s' (phc_of s salt) = if bool_decide (s = s') then VerifyOk else VerifyPassword.
Proof.
  intros Hs. unfold verify_clear, phc_of. rewrite strip_prefix_app.
  change ("$" +:+ s) with (String "$" s).
  by rewrite (proj2 (split_once_Some "$" (salt +:+ String "$" s) salt s)).
Qed.

#[export] Instance crate_laws : Argon2Laws.
Proof.
  split; [done|..]; simpl; intros; case_match; simplify_eq.
  - unfold starts_with, phc_of. by rewrite strip_prefix_app.
  - rewrite verify_clear_hash by done. by rewrite bool_decide_eq_true_2.
  - rewrite verify_clear_hash by done. by rewrite bool_decide_eq_false_2.
Qed.

End Argon2Model.
