(* ===== verification/AgentRepo.v ===== *)
(** * The agent repository ([src/repo/agent.rs])

    The [agents] table, its queries and its error type.  The table's UNIQUE
    constraints on [public_id] and [name] are those of
    [migrations/0001_*.sql]; a pool that cannot reach the database is
    [online = false], and every query then fails with [Sqlx].  [now] is the
    clock ([unix_now]), and the freshly generated token and salt are
    arguments. *)

From S2P Require Import Prelude Json Token Argon2Helper.

Inductive RepoError :=
| AgentNameConflict (name : string)
| RotationInProgress (public_id : string)
| AgentNotFound
| InvalidCredential
| Hash (e : HashError)
| Sqlx
| JsonError.

Record AgentRecord := {
  ag_id : Z;
  ag_public_id : string;
  ag_name : string;
  ag_description : option string;
  ag_secret_hash : string;
  ag_tool_allowlist : option (list string);
  ag_tool_denylist : option (list string);
  ag_metadata : option Json;
  ag_cert_identity : option string;
  ag_registered_at : Z;
  ag_last_used_at : option Z;
  ag_expires_at : option Z;
  ag_revoked_at : option Z
}.

Definition is_active (r : AgentRecord) : bool := negb (isSome (ag_revoked_at r)).

Record AgentDb := {
  agents : list AgentRecord;
  next_id : Z;
  online : bool
}.

Definition set_agents (l : list AgentRecord) (db : AgentDb) : AgentDb :=
  {| agents := l; next_id := next_id db; online := online db |}.

(** A query runs only on a reachable database. *)
Definition query {A} (db : AgentDb) (k : result RepoError A * AgentDb)
  : result RepoError A * AgentDb :=
  if online db then k else (Err Sqlx, db).

(** The two WHERE clauses the statements use. *)
Definition by_public_id (pid : string) (r : AgentRecord) : bool :=
  bool_decide (ag_public_id r = pid).
Definition active_by_public_id (pid : string) (r : AgentRecord) : bool :=
  by_public_id pid r && is_active r.

Definition with_secret_hash (h : string) (r : AgentRecord) : AgentRecord :=
  {| ag_id := ag_id r; ag_public_id := ag_public_id r; ag_name := ag_name r;
     ag_description := ag_description r; ag_secret_hash := h;
     ag_tool_allowlist := ag_tool_allowlist r; ag_tool_denylist := ag_tool_denylist r;
     ag_metadata := ag_metadata r; ag_cert_identity := ag_cert_identity r;
     ag_registered_at := ag_registered_at r; ag_last_used_at := ag_last_used_at r;
     ag_expires_at := ag_expires_at r; ag_revoked_at := ag_revoked_at r |}.

Definition with_cert_identity (c : option string) (r : AgentRecord) : AgentRecord :=
  {| ag_id := ag_id r; ag_public_id := ag_public_id r; ag_name := ag_name r;
     ag_description := ag_description r; ag_secret_hash := ag_secret_hash r;
     ag_tool_allowlist := ag_tool_allowlist r; ag_tool_denylist := ag_tool_denylist r;
     ag_metadata := ag_metadata r; ag_cert_identity := c;
     ag_registered_at := ag_registered_at r; ag_last_used_at := ag_last_used_at r;
     ag_expires_at := ag_expires_at r; ag_revoked_at := ag_revoked_at r |}.

Definition with_revoked_at (t : option Z) (r : AgentRecord) : AgentRecord :=
  {| ag_id := ag_id r; ag_public_id := ag_public_id r; ag_name := ag_name r;
     ag_description := ag_description r; ag_secret_hash := ag_secret_hash r;
     ag_tool_allowlist := ag_tool_allowlist r; ag_tool_denylist := ag_tool_denylist r;
     ag_metadata := ag_metadata r; ag_cert_identity := ag_cert_identity r;
     ag_registered_at := ag_registered_at r; ag_last_used_at := ag_last_used_at r;
     ag_expires_at := ag_expires_at r; ag_revoked_at := t |}.

Definition with_last_used_at (t : option Z) (r : AgentRecord) : AgentRecord :=
  {| ag_id := ag_id r; ag_public_id := ag_public_id r; ag_name := ag_name r;
     ag_description := ag_description r; ag_secret_hash := ag_secret_hash r;
     ag_tool_allowlist := ag_tool_allowlist r; ag_tool_denylist := ag_tool_denylist r;
     ag_metadata := ag_metadata r; ag_cert_identity := ag_cert_identity r;
     ag_registered_at := ag_registered_at r; ag_last_used_at := t;
     ag_expires_at := ag_expires_at r; ag_revoked_at := ag_revoked_at r |}.

(** The SET list of [update_policy]: an absent field is left unchanged. *)
Definition with_policy (allow deny : option (option (list string)))
    (meta : option (option Json)) (expires : option (option Z)) (r : AgentRecord)
  : AgentRecord :=
  {| ag_id := ag_id r; ag_public_id := ag_public_id r; ag_name := ag_name r;
     ag_description := ag_description r; ag_secret_hash := ag_secret_hash r;
     ag_tool_allowlist := default (ag_tool_allowlist r) allow;
     ag_tool_denylist := default (ag_tool_denylist r) deny;
     ag_metadata := default (ag_metadata r) meta; ag_cert_identity := ag_cert_identity r;
     ag_registered_at := ag_registered_at r; ag_last_used_at := ag_last_used_at r;
     ag_expires_at := default (ag_expires_at r) expires; ag_revoked_at := ag_revoked_at r |}.

(** [UPDATE agents SET f WHERE p] with the [rows_affected() == 0] check. *)
Definition update_or_not_found (p : AgentRecord -> bool) (f : AgentRecord -> AgentRecord)
    (db : AgentDb) : result RepoError unit * AgentDb :=
  query db
    (if sql_exists p (agents db)
     then (Ok tt, set_agents (sql_update p f (agents db)) db)
     else (Err AgentNotFound, db)).

Section AgentRepo.
Context `{Base64Url} `{Argon2Crate}.

(** The token minted for [create] and [rotate]: what [getrandom] filled for
    the id, the secret and the salt. *)
Record Entropy := { id_bytes : string; secret_bytes : string; salt : string }.

Definition create (name : string) (description : option string)
    (allowlist denylist : option (list string)) (metadata : option Json)
    (expires_at : option Z) (rng : Entropy) (now : Z) (db : AgentDb)
  : result RepoError (string * string) * AgentDb :=
  let token := generate Agent (id_bytes rng) (secret_bytes rng) in
  match hash (secret token) (salt rng) with
  | Err e => (Err (Hash e), db)
  | Ok secret_hash =>
      query db
        (if sql_exists (fun r => bool_decide (ag_public_id r = public_id token)
                                 || bool_decide (ag_name r = name)) (agents db)
         then (Err (AgentNameConflict name), db)
         else
           let row := {|
             ag_id := next_id db; ag_public_id := public_id token; ag_name := name;
             ag_description := description; ag_secret_hash := secret_hash;
             ag_tool_allowlist := allowlist; ag_tool_denylist := denylist;
             ag_metadata := metadata; ag_cert_identity := None;
             ag_registered_at := now; ag_last_used_at := None;
             ag_expires_at := expires_at; ag_revoked_at := None |} in
           (Ok (public_id token, secret token),
            {| agents := agents db ++ [row]; next_id := next_id db + 1;
               online := online db |}))
  end.

Definition get_active_by_public_id (pid : string) (db : AgentDb)
  : result RepoError (option AgentRecord) :=
  if online db then Ok (find_first (active_by_public_id pid) (agents db)) else Err Sqlx.

Definition get_by_name (name : string) (db : AgentDb)
  : result RepoError (option AgentRecord) :=
  if online db
  then Ok (find_first (fun r => bool_decide (ag_name r = name)) (agents db)) else Err Sqlx.

Definition get_by_cert_identity (identity : string) (db : AgentDb)
  : result RepoError (option AgentRecord) :=
  if online db
  then Ok (find_first (fun r => bool_decide (ag_cert_identity r = Some identity)
                                && is_active r) (agents db))
  else Err Sqlx.

(** [ORDER BY registered_at DESC]. *)
Definition newest_first (a b : AgentRecord) : Prop := ag_registered_at b <= ag_registered_at a.

#[global] Instance newest_first_dec : RelDecision newest_first.
Proof. intros a b. unfold newest_first. apply _. Defined.

Definition list_agents (include_revoked : bool) (db : AgentDb)
  : result RepoError (list AgentRecord) :=
  if online db
  then Ok (merge_sort newest_first
             (List.filter (fun r => include_revoked || is_active r) (agents db)))
  else Err Sqlx.

Definition set_cert_identity (pid : string) (cert : option string) (db : AgentDb) :=
  update_or_not_found (by_public_id pid) (with_cert_identity cert) db.

Definition revoke (pid : string) (now : Z) (db : AgentDb) :=
  update_or_not_found (by_public_id pid) (with_revoked_at (Some now)) db.

(** The first statement of [rotate]: read the current hash and verify. *)
Definition rotate_read (pid current_secret : string) (db : AgentDb)
  : result RepoError string :=
  if online db then
    match find_first (active_by_public_id pid) (agents db) with
    | None => Err InvalidCredential
    | Some r =>
        match verify (ag_secret_hash r) current_secret with
        | Ok true => Ok (ag_secret_hash r)
        | Ok false => Err InvalidCredential
        | Err e => Err (Hash e)
        end
    end
  else Err Sqlx.

(** Its second statement: the compare-and-swap on [secret_hash]. *)
Definition rotate_cas (pid current_hash new_hash new_secret : string) (db : AgentDb)
  : result RepoError string * AgentDb :=
  let p r := active_by_public_id pid r && bool_decide (ag_secret_hash r = current_hash) in
  query db
    (if sql_exists p (agents db)
     then (Ok new_secret, set_agents (sql_update p (with_secret_hash new_hash) (agents db)) db)
     else (Err (RotationInProgress pid), db)).

Definition rotate (pid current_secret : string) (rng : Entropy) (db : AgentDb)
  : result RepoError string * AgentDb :=
  match rotate_read pid current_secret db with
  | Err e => (Err e, db)
  | Ok current_hash =>
      let new_token := generate Agent (id_bytes rng) (secret_bytes rng) in
      match hash (secret new_token) (salt rng) with
      | Err e => (Err (Hash e), db)
      | Ok new_hash => rotate_cas pid current_hash new_hash (secret new_token) db
      end
  end.

Definition touch_last_used (pid : string) (now : Z) (db : AgentDb)
  : result RepoError unit * AgentDb :=
  query db (Ok tt, set_agents (sql_update (by_public_id pid) (with_last_used_at (Some now))
                                          (agents db)) db).

Definition update_policy (pid : string) (allow deny : option (option (list string)))
    (meta : option (option Json)) (expires : option (option Z)) (db : AgentDb)
  : result RepoError unit * AgentDb :=
  if negb (isSome allow) && negb (isSome deny) && negb (isSome meta) && negb (isSome expires)
  then (Ok tt, db)
  else update_or_not_found (by_public_id pid) (with_policy allow deny meta expires) db.
End AgentRepo.

(** ** The table invariant

    Public ids, names and row ids are unique, and ids stay below the
    AUTOINCREMENT counter. *)
Record agents_wf (db : AgentDb) : Prop := {
  wf_public_id : NoDup (map ag_public_id (agents db));
  wf_name : NoDup (map ag_name (agents db));
  wf_id : NoDup (map ag_id (agents db));
  wf_next : forall r, r ∈ agents db -> ag_id r < next_id db
}.

Lemma agents_wf_update p f db :
  (forall r, ag_public_id (f r) = ag_public_id r) -> (forall r, ag_name (f r) = ag_name r) ->
  (forall r, ag_id (f r) = ag_id r) ->
  agents_wf db -> agents_wf (set_agents (sql_update p f (agents db)) db).
Proof.
  intros H1 H2 H3 [W1 W2 W3 W4]. split; simpl; rewrite ?sql_update_key by done; try done.
  intros r (r0 & Hr0 & ->)%elem_of_sql_update. destruct (p r0); [rewrite H3|]; auto.
Qed.

Lemma NoDup_map_snoc {A K} (key : A -> K) l x :
  NoDup (map key l) -> (forall y, y ∈ l -> key y <> key x) -> NoDup (map key (l ++ [x])).
Proof.
  intros Hl Hx. rewrite map_app. apply NoDup_app. split; [done|]. split.
  - intros k (y & <- & Hy%list_elem_of_In)%list_elem_of_In%in_map_iff Hk.
    apply list_elem_of_singleton in Hk. by apply (Hx y).
  - apply NoDup_singleton.
Qed.

#[export] Hint Resolve NoDup_map_snoc agents_wf_update : locksmith.

(** ** Every state-changing operation, as a label *)

Section AgentOps.
Context `{Base64Url} `{Argon2Crate}.

Inductive AgentOp :=
| OpCreate (name : string) (description : option string)
    (allowlist denylist : option (list string)) (metadata : option Json)
    (expires_at : option Z) (rng : Entropy) (now : Z)
| OpSetCert (pid : string) (cert : option string)
| OpRevoke (pid : string) (now : Z)
| OpRotate (pid current_secret : string) (rng : Entropy)
| OpTouch (pid : string) (now : Z)
| OpPolicy (pid : string) (allow deny : option (option (list string)))
    (meta : option (option Json)) (expires : option (option Z)).

Definition exec (o : AgentOp) (db : AgentDb) : AgentDb :=
  match o with
  | OpCreate n d a dl m e rng now => snd (create n d a dl m e rng now db)
  | OpSetCert pid c => snd (set_cert_identity pid c db)
  | OpRevoke pid now => snd (revoke pid now db)
  | OpRotate pid s rng => snd (rotate pid s rng db)
  | OpTouch pid now => snd (touch_last_used pid now db)
  | OpPolicy pid a d m e => snd (update_policy pid a d m e db)
  end.

Definition run (ops : list AgentOp) (db : AgentDb) : AgentDb :=
  fold_left (fun d o => exec o d) ops db.

(** Apart from an insert, an operation maps the rows one by one and keeps
    their keys; only [revoke] and nothing else touches [revoked_at], and it
    only sets it. *)
Definition row_step (r r' : AgentRecord) : Prop :=
  ag_id r' = ag_id r /\ ag_public_id r' = ag_public_id r /\ ag_name r' = ag_name r /\
  (isSome (ag_revoked_at r) = true -> isSome (ag_revoked_at r') = true).

Inductive db_step (db : AgentDb) : AgentDb -> Prop :=
| db_same : db_step db db
| db_update p f : (forall r, row_step r (f r)) ->
    db_step db (set_agents (sql_update p f (agents db)) db)
| db_insert row :
    ag_id row = next_id db ->
    (forall r, r ∈ agents db -> ag_public_id r <> ag_public_id row /\ ag_name r <> ag_name row) ->
    db_step db {| agents := agents db ++ [row]; next_id := next_id db + 1;
                  online := online db |}.

Lemma query_step {A} (k : result RepoError A * AgentDb) db :
  db_step db (snd k) -> db_step db (snd (query db k)).
Proof. unfold query. destruct (online db); [done|constructor]. Qed.

Lemma update_or_not_found_step p f db :
  (forall r, row_step r (f r)) -> db_step db (snd (update_or_not_found p f db)).
Proof.
  intros Hf. apply query_step. case_match; constructor; auto.
Qed.

Lemma rotate_cas_step pid h nh ns db : db_step db (snd (rotate_cas pid h nh ns db)).
Proof.
  apply query_step. case_match; constructor. by repeat split.
Qed.

Lemma create_step n d a dl m e rng now db : db_step db (snd (create n d a dl m e rng now db)).
Proof.
  unfold create. case_match; [|constructor]. apply query_step.
  destruct (sql_exists _ (agents db)) eqn:E; [constructor|].
  cbn [snd]. apply db_insert; [done|]. cbn [ag_public_id ag_name]. intros r Hr.
  pose proof (proj1 (sql_exists_false _ _) E r Hr) as [E1 E2]%orb_false_iff.
  by split_ands.
Qed.

Lemma exec_step o db : db_step db (exec o db).
Proof.
  destruct o; simpl.
  - apply create_step.
  - apply update_or_not_found_step. by repeat split.
  - apply update_or_not_found_step. by repeat split.
  - unfold rotate. repeat case_match; try constructor. apply rotate_cas_step.
  - apply query_step. constructor. by repeat split.
  - unfold update_policy. case_match; [constructor|].
    apply update_or_not_found_step. by repeat split.
Qed.

Lemma db_step_wf db db' : db_step db db' -> agents_wf db -> agents_wf db'.
Proof.
  intros [|p f Hf|row Hid Hu] W; [done|..].
  - apply agents_wf_update; [..|done]; intros r; apply Hf.
  - destruct W as [W1 W2 W3 W4]. split; simpl.
    + apply NoDup_map_snoc; [done|]. intros r Hr. by apply Hu.
    + apply NoDup_map_snoc; [done|]. intros r Hr. by apply Hu.
    + apply NoDup_map_snoc; [done|]. intros r Hr. specialize (W4 r Hr). lia.
    + intros r [Hr| ->%list_elem_of_singleton]%elem_of_app; [specialize (W4 r Hr)|]; lia.
Qed.

Lemma run_wf ops db : agents_wf db -> agents_wf (run ops db).
Proof.
  unfold run. revert db. induction ops as [|o ops IH]; [done|]. intros db W.
  apply IH. eapply db_step_wf; [apply exec_step|done].
Qed.

(** No sequence of repository operations creates two agents with the
    same public id, name or row id: a lookup by public id or by name can
    only ever find the one row with that key. *)
Theorem run_preserves_wf ops db :
  agents_wf db -> agents_wf (run ops db) /\
  (forall r r', r ∈ agents (run ops db) -> r' ∈ agents (run ops db) ->
     ag_public_id r = ag_public_id r' \/ ag_name r = ag_name r' -> r = r').
Proof.
  intros W%(run_wf ops). split; [done|]. intros r r' Hr Hr' [E|E].
  - pose proof (find_first_key ag_public_id _ _ (wf_public_id _ W) Hr) as F1.
    pose proof (find_first_key ag_public_id _ _ (wf_public_id _ W) Hr') as F2.
    rewrite E in F1. congruence.
  - pose proof (find_first_key ag_name _ _ (wf_name _ W) Hr) as F1.
    pose proof (find_first_key ag_name _ _ (wf_name _ W) Hr') as F2.
    rewrite E in F1. congruence.
Qed.

(** An agent row that exists and is revoked. *)
Definition revoked_in (pid : string) (db : AgentDb) : Prop :=
  exists r, r ∈ agents db /\ ag_public_id r = pid /\ isSome (ag_revoked_at r) = true.

Lemma db_step_revoked pid db db' :
  db_step db db' -> revoked_in pid db -> revoked_in pid db'.
Proof.
  intros [|p f Hf|row Hid Hu] (r & Hr & Hp & Hv).
  - by exists r.
  - exists (if p r then f r else r). split; [apply elem_of_sql_update; eauto|].
    destruct (p r); [|done]. destruct (Hf r) as (_ & -> & _ & Hmono). auto.
  - exists r. split; [apply elem_of_app; by left|done].
Qed.

Lemma run_revoked pid ops db : revoked_in pid db -> revoked_in pid (run ops db).
Proof.
  unfold run. revert db. induction ops as [|o ops IH]; [done|]. intros d Hd.
  apply IH. eapply db_step_revoked; [apply exec_step|done].
Qed.

Lemma revoked_not_active pid db :
  agents_wf db -> revoked_in pid db -> find_first (active_by_public_id pid) (agents db) = None.
Proof.
  intros W (r & Hr & <- & Hv). apply find_first_None. intros x Hx.
  unfold active_by_public_id, by_public_id. case_bool_decide as E; [|done]. simpl.
  pose proof (find_first_key ag_public_id _ r (wf_public_id _ W) Hr) as F1.
  pose proof (find_first_key ag_public_id _ x (wf_public_id _ W) Hx) as F2.
  rewrite E in F2. simplify_eq. unfold is_active. by rewrite Hv.
Qed.

Lemma revoke_revokes pid now db :
  fst (revoke pid now db) = Ok tt -> revoked_in pid (snd (revoke pid now db)).
Proof.
  unfold revoke, update_or_not_found, query.
  destruct (online db); [|done].
  destruct (sql_exists _ _) eqn:E; [|done]. intros _. simpl.
  unfold sql_exists in E. apply existsb_exists in E as (r & Hr%list_elem_of_In & E).
  exists (with_revoked_at (Some now) r). split.
  - simpl. apply elem_of_sql_update. exists r. by rewrite E.
  - split; [|done]. unfold by_public_id in E. by split_ands.
Qed.

(** Revocation is permanent: once [revoke] has succeeded for a public
    id, no later sequence of repository operations (create, rotate, policy
    updates, cert binding, touches, further revokes) makes a lookup of that
    id return an active agent again. *)
Theorem revoke_is_permanent pid now db ops :
  agents_wf db ->
  fst (revoke pid now db) = Ok tt ->
  online (run ops (snd (revoke pid now db))) = true ->
  get_active_by_public_id pid (run ops (snd (revoke pid now db))) = Ok None.
Proof.
  intros W Hr Hon. unfold get_active_by_public_id. rewrite Hon. f_equal.
  apply revoked_not_active.
  - apply run_wf. eapply db_step_wf; [|done]. apply (exec_step (OpRevoke pid now)).
  - by apply run_revoked, revoke_revokes.
Qed.
End AgentOps.

#[export] Hint Resolve exec_step db_step_wf run_revoked revoked_not_active : locksmith.

(** ** Concurrent rotations

    Several [rotate] calls for one agent run at once; each executes its two
    SQL statements atomically, in any interleaving, also with other
    operations that leave [secret_hash] alone.  A hash is produced from a
    fresh random salt, so it is one that was never in the table: [seen] holds
    every hash that ever was. *)
Section Rotation.
Context `{Argon2Crate} (pid : string).

Inductive Phase :=
| Start (current_secret : string)
| HasRead (h : string)
| Won (h : string)
| Lost (e : RepoError).

Record RotSys := { rdb : AgentDb; rotators : gmap nat Phase; seen : gset string }.

Definition set_phase (i : nat) (p : Phase) (s : RotSys) : gmap nat Phase :=
  <[i := p]> (rotators s).

Definition same_hashes (db db' : AgentDb) : Prop :=
  map (fun r => (ag_public_id r, ag_secret_hash r)) (agents db') =
  map (fun r => (ag_public_id r, ag_secret_hash r)) (agents db).

Inductive rot_step : RotSys -> RotSys -> Prop :=
| rot_read s i sec h :
    rotators s !! i = Some (Start sec) -> rotate_read pid sec (rdb s) = Ok h ->
    rot_step s {| rdb := rdb s; rotators := set_phase i (HasRead h) s; seen := seen s |}
| rot_read_fail s i sec e :
    rotators s !! i = Some (Start sec) -> rotate_read pid sec (rdb s) = Err e ->
    rot_step s {| rdb := rdb s; rotators := set_phase i (Lost e) s; seen := seen s |}
| rot_cas_won s i h nh ns db' :
    rotators s !! i = Some (HasRead h) -> nh ∉ seen s ->
    rotate_cas pid h nh ns (rdb s) = (Ok ns, db') ->
    rot_step s {| rdb := db'; rotators := set_phase i (Won h) s; seen := {[nh]} ∪ seen s |}
| rot_cas_lost s i h nh ns e db' :
    rotators s !! i = Some (HasRead h) -> nh ∉ seen s ->
    rotate_cas pid h nh ns (rdb s) = (Err e, db') ->
    rot_step s {| rdb := db'; rotators := set_phase i (Lost e) s; seen := seen s |}
| rot_other s db' :
    same_hashes (rdb s) db' ->
    rot_step s {| rdb := db'; rotators := rotators s; seen := seen s |}.

(** Starting point: every call is about to run, and [seen] covers the table. *)
Definition rot_init (s : RotSys) : Prop :=
  (forall i p, rotators s !! i = Some p -> exists sec, p = Start sec) /\
  (forall r, r ∈ agents (rdb s) -> ag_secret_hash r ∈ seen s) /\
  NoDup (map ag_public_id (agents (rdb s))).

(** Hashes read are in [seen]; a hash that was swapped out is no longer the
    agent's, and only one rotator swapped it out. *)
Record rot_inv (s : RotSys) : Prop := {
  ri_unique : NoDup (map ag_public_id (agents (rdb s)));
  ri_table : forall r, r ∈ agents (rdb s) -> ag_secret_hash r ∈ seen s;
  ri_read : forall i h, rotators s !! i = Some (HasRead h) -> h ∈ seen s;
  ri_won : forall i h, rotators s !! i = Some (Won h) ->
    h ∈ seen s /\ forall r, r ∈ agents (rdb s) -> ag_public_id r = pid -> ag_secret_hash r <> h;
  ri_once : forall i j h,
    rotators s !! i = Some (Won h) -> rotators s !! j = Some (Won h) -> i = j
}.

Lemma rot_init_inv s : rot_init s -> rot_inv s.
Proof.
  intros (Hs & Ht & Hu). split; [done|done|..].
  - intros i h Hi. by destruct (Hs _ _ Hi).
  - intros i h Hi. by destruct (Hs _ _ Hi).
  - intros i j h Hi. by destruct (Hs _ _ Hi).
Qed.

Lemma rotate_read_row sec db h :
  rotate_read pid sec db = Ok h ->
  exists r, r ∈ agents db /\ ag_public_id r = pid /\ ag_secret_hash r = h.
Proof.
  unfold rotate_read. destruct (online db); [|done].
  destruct (find_first _ _) as [r|] eqn:F; [|done].
  destruct (verify _ _) as [[]|]; try done. intros [= <-].
  apply find_first_Some in F as [F1 F2]. exists r.
  unfold active_by_public_id, by_public_id in F2. by split_ands.
Qed.

Lemma same_pid_same_row rows r r' :
  NoDup (map ag_public_id rows) -> r ∈ rows -> r' ∈ rows ->
  ag_public_id r = ag_public_id r' -> r = r'.
Proof.
  intros Hu Hr Hr' E. pose proof (find_first_key ag_public_id _ _ Hu Hr) as F1.
  pose proof (find_first_key ag_public_id _ _ Hu Hr') as F2. rewrite E in F1. congruence.
Qed.

(** A successful swap found the agent's row with the expected hash and left
    no row of that agent with it. *)
Lemma rotate_cas_won h nh ns db db' :
  NoDup (map ag_public_id (agents db)) ->
  rotate_cas pid h nh ns db = (Ok ns, db') ->
  map ag_public_id (agents db') = map ag_public_id (agents db) /\
  (exists r0, r0 ∈ agents db /\ ag_public_id r0 = pid /\ ag_secret_hash r0 = h) /\
  (forall r, r ∈ agents db' ->
    (r ∈ agents db /\ ag_public_id r <> pid) \/ ag_secret_hash r = nh).
Proof.
  intros Hu. unfold rotate_cas, query. destruct (online db); [|done].
  destruct (sql_exists _ _) eqn:E; intros [= <-]. simpl.
  unfold sql_exists in E. apply existsb_exists in E as (r0 & Hr0%list_elem_of_In & E).
  generalize E. unfold active_by_public_id, by_public_id in E. split_ands. intros Er0.
  split; [by apply sql_update_key|]. split; [by eauto|].
  intros r (r1 & Hr1 & ->)%elem_of_sql_update.
  destruct (active_by_public_id pid r1 && _) eqn:Ep; [by right|]. left. split; [done|].
  intros Hp. assert (r1 = r0) as -> by (eapply same_pid_same_row; eauto; congruence).
  congruence.
Qed.

Lemma rotate_cas_lost_db h nh ns db e db' :
  rotate_cas pid h nh ns db = (Err e, db') -> db' = db.
Proof. unfold rotate_cas, query. repeat case_match; intros [=]; congruence. Qed.

Lemma same_hashes_row db db' r :
  same_hashes db db' -> r ∈ agents db' ->
  exists r0, r0 ∈ agents db /\ ag_public_id r0 = ag_public_id r /\
             ag_secret_hash r0 = ag_secret_hash r.
Proof.
  intros Hs Hr. assert (Hin : (ag_public_id r, ag_secret_hash r) ∈
    map (fun r => (ag_public_id r, ag_secret_hash r)) (agents db')).
  { apply list_elem_of_In, in_map_iff. exists r. split; [done|by apply list_elem_of_In]. }
  rewrite Hs in Hin. apply list_elem_of_In, in_map_iff in Hin as (r0 & [= E1 E2] & Hr0).
  exists r0. by rewrite list_elem_of_In.
Qed.

Lemma same_hashes_pids db db' :
  same_hashes db db' -> map ag_public_id (agents db') = map ag_public_id (agents db).
Proof. intros Hs. apply (f_equal (map fst)) in Hs. by rewrite !map_map in Hs. Qed.

Ltac phases :=
  unfold set_phase in *; simpl in *;
  repeat match goal with
  | H : <[_ := _]> _ !! _ = Some _ |- _ => apply lookup_insert_Some in H as [[? ?]|[? ?]]
  end; simplify_eq.

(** A phase change that is neither a read nor a win keeps the invariant. *)
Lemma rot_inv_quiet s i p :
  (forall h, p = HasRead h -> h ∈ seen s) -> (forall h, p <> Won h) -> rot_inv s ->
  rot_inv {| rdb := rdb s; rotators := set_phase i p s; seen := seen s |}.
Proof.
  intros Hr Hw [Iu It Ir Iw Io]. split; [done|done|..].
  - intros j h Hj. phases; eauto.
  - intros j h Hj. phases; [by destruct (Hw h)|eauto].
  - intros j k h Hj Hk. phases; try by (exfalso; eapply Hw). eauto.
Qed.

Lemma rot_inv_cas_won s i h nh ns db' :
  rotators s !! i = Some (HasRead h) -> nh ∉ seen s ->
  rotate_cas pid h nh ns (rdb s) = (Ok ns, db') -> rot_inv s ->
  rot_inv {| rdb := db'; rotators := set_phase i (Won h) s; seen := {[nh]} ∪ seen s |}.
Proof.
  intros Hi Hnh Hc [Iu It Ir Iw Io].
  destruct (rotate_cas_won _ _ _ _ _ Iu Hc) as (Hk & (r0 & Hr0 & Hp0 & Hh0) & Hrows).
  assert (Hwon : forall j, rotators s !! j <> Some (Won h)).
  { intros j Hj. destruct (Iw _ _ Hj) as [_ Hn]. by apply (Hn r0). }
  split; simpl.
  - by rewrite Hk.
  - intros r Hr. destruct (Hrows r Hr) as [[Hr' _]| ->]; set_solver.
  - intros j h' Hj. phases. apply elem_of_union. right. eauto.
  - intros j h' Hj. phases; split.
    + apply elem_of_union. right. eauto.
    + intros r Hr Hp. destruct (Hrows r Hr) as [[_ ?]| ->]; [done|].
      intros ->. apply Hnh. eauto.
    + apply elem_of_union. right. by eapply Iw.
    + intros r Hr Hp. destruct (Hrows r Hr) as [[_ ?]| ->]; [done|].
      intros ->. apply Hnh. by eapply Iw.
  - intros j k h' Hj Hk'. phases; first [done | by (exfalso; eapply Hwon) | eauto].
Qed.

Lemma rot_step_inv s s' : rot_step s s' -> rot_inv s -> rot_inv s'.
Proof.
  intros Hst I. destruct Hst as [s i sec h Hi Hrd|s i sec e Hi Hrd|s i h nh ns db' Hi Hn Hc
    |s i h nh ns e db' Hi Hn Hc|s db' Hsh].
  - apply rot_inv_quiet; [|done|done]. intros h' [= <-].
    destruct (rotate_read_row _ _ _ Hrd) as (r & Hr & _ & <-). by apply I.
  - by apply rot_inv_quiet.
  - by eapply rot_inv_cas_won.
  - apply rotate_cas_lost_db in Hc as ->. by apply rot_inv_quiet.
  - destruct I as [Iu It Ir Iw Io]. split; simpl; [| |exact Ir| |exact Io].
    + by rewrite (same_hashes_pids _ _ Hsh).
    + intros r Hr. destruct (same_hashes_row _ _ _ Hsh Hr) as (r0 & ? & _ & <-). auto.
    + intros i h Hi. destruct (Iw _ _ Hi) as [? Hn]. split; [done|].
      intros r Hr Hp. destruct (same_hashes_row _ _ _ Hsh Hr) as (r0 & ? & Hp0 & <-).
      apply Hn; congruence.
Qed.

(** Of any number of concurrent [rotate] calls for one agent, at most
    one that read a given secret hash succeeds: the compare-and-swap in the
    UPDATE makes the first committer win, in every interleaving. *)
Theorem rotate_single_winner s0 s i j h :
  rot_init s0 -> rtc rot_step s0 s ->
  rotators s !! i = Some (Won h) -> rotators s !! j = Some (Won h) -> i = j.
Proof.
  intros H0 Hr. assert (I : rot_inv s).
  { apply rot_init_inv in H0. induction Hr; [done|]. eauto using rot_step_inv. }
  apply (ri_once _ I).
Qed.
End Rotation.

(** ** Witnesses *)

Module AgentWitness.
Import Base64Model Argon2Model.

Definition rng (k : string) : Entropy :=
  {| id_bytes := k +:+ "0123456789abcde"; secret_bytes := k +:+ "0123456789abcdef0123456789abcde";
     salt := "salt" +:+ k |}.

Definition empty_db : AgentDb := {| agents := []; next_id := 1; online := true |}.

Lemma empty_wf : agents_wf empty_db.
Proof. split; simpl; try apply NoDup_nil_2. intros r Hr. by apply not_elem_of_nil in Hr. Qed.

(** One registered agent, [dev]. *)
Definition dev_db : AgentDb :=
  snd (create "dev" None (Some ["anthropic"]) None None None (rng "a") 100 empty_db).

Definition dev_pid : string := public_id (generate Agent (id_bytes (rng "a")) "").
Definition dev_secret : string := secret (generate Agent "" (secret_bytes (rng "a"))).

Lemma dev_wf : agents_wf dev_db.
Proof.
  apply (run_wf [OpCreate "dev" None (Some ["anthropic"]) None None None (rng "a") 100]
           empty_db empty_wf).
Qed.

Lemma run_preserves_wf_witness :
  agents_wf (run [OpCreate "dev" None None None None None (rng "a") 100;
                  OpCreate "dev" None None None None None (rng "b") 101;
                  OpRevoke dev_pid 102] empty_db).
Proof. apply (run_preserves_wf _ _ empty_wf). Defined.

Lemma revoke_is_permanent_witness :
  get_active_by_public_id dev_pid
    (run [OpRotate dev_pid dev_secret (rng "b"); OpCreate "dev" None None None None None (rng "a") 300;
          OpPolicy dev_pid (Some None) None None None]
         (snd (revoke dev_pid 200 dev_db))) = Ok None.
Proof. apply revoke_is_permanent; [apply dev_wf|vm_compute; reflexivity|vm_compute; reflexivity]. Defined.

Definition race : RotSys :=
  {| rdb := dev_db; rotators := {[0%nat := Start dev_secret; 1%nat := Start dev_secret]};
     seen := list_to_set (map ag_secret_hash (agents dev_db)) |}.

Definition dev_hash : string := default "" (head (map ag_secret_hash (agents dev_db))).

Lemma race_init : rot_init race.
Proof.
  split; [|split].
  - intros i p Hi. unfold race in Hi. simpl in Hi.
    apply lookup_insert_Some in Hi as [[_ <-]|[_ Hi]]; [by eauto|].
    apply lookup_singleton_Some in Hi as [_ <-]. by eauto.
  - intros r Hr. unfold race in *. cbn [seen rdb] in *.
    apply elem_of_list_to_set, list_elem_of_In, in_map. by apply list_elem_of_In.
  - apply dev_wf.
Qed.

(** Both calls read the hash, then the first one swaps it. *)
Definition race_step (i : nat) (p : Phase) (s : RotSys) : RotSys :=
  {| rdb := rdb s; rotators := set_phase i p s; seen := seen s |}.

Definition both_read : RotSys :=
  race_step 1 (HasRead dev_hash) (race_step 0 (HasRead dev_hash) race).

Definition race_end : RotSys :=
  {| rdb := snd (rotate_cas dev_pid dev_hash "fresh" "s" dev_db);
     rotators := set_phase 0 (Won dev_hash) both_read;
     seen := {["fresh"]} ∪ seen both_read |}.

Lemma race_runs : rtc (rot_step dev_pid) race race_end.
Proof.
  eapply rtc_l; [apply (rot_read dev_pid race 0 dev_secret dev_hash); vm_compute; reflexivity|].
  eapply rtc_l; [apply (rot_read dev_pid (race_step 0 (HasRead dev_hash) race) 1 dev_secret dev_hash);
                 vm_compute; reflexivity|].
  eapply rtc_l; [|apply rtc_refl].
  apply (rot_cas_won dev_pid both_read 0 dev_hash "fresh" "s");
    [vm_compute; reflexivity| |vm_compute; reflexivity].
  apply (bool_decide_unpack _). vm_compute. exact I.
Qed.

Lemma rotate_single_winner_witness :
  rotators race_end !! 0%nat = Some (Won dev_hash) /\
  (forall j, rotators race_end !! j = Some (Won dev_hash) -> 0%nat = j).
Proof.
  split; [vm_compute; reflexivity|]. intros j Hj.
  apply (rotate_single_winner dev_pid race race_end 0 j dev_hash);
    [apply race_init|apply race_runs|vm_compute; reflexivity|exact Hj].
Defined.
End AgentWitness.
