(* ===== verification/BootstrapRepo.v ===== *)
(** * Bootstrap tokens ([src/repo/bootstrap.rs])

    The [bootstrap_tokens] table: minting, inspection, revocation and the
    atomic consume.  The [scope] column holds the value it is the text of,
    [online = false] is an unreachable pool, [now] is the clock, and the
    foreign key of [used_by_agent_id] to [agents(id)] is checked by
    [agent_exists].  [consume] is also given as its two SQL statements, for
    concurrent registrations. *)

From S2P Require Import Prelude Json Token Argon2Helper AgentRepo.

Inductive BootstrapStatus := BActive | BUsed | BRevoked | BExpired | BUnknown.

Record BootstrapScope := {
  sc_tool_allowlist : option (list string);
  sc_expires_at : option Z;
  sc_single_use : bool
}.

(** A row; [BootstrapTokenRecord] is the row without its hash. *)
Record BootstrapTokenRecord := {
  bt_id : Z;
  bt_public_id : string;
  bt_secret_hash : string;
  bt_scope : BootstrapScope;
  bt_created_by : string;
  bt_created_at : Z;
  bt_expires_at : option Z;
  bt_used_at : option Z;
  bt_used_by_agent_id : option Z;
  bt_revoked_at : option Z
}.

Record BootstrapTokenRepository := {
  tokens : list BootstrapTokenRecord;
  bt_next_id : Z;
  bt_online : bool
}.

Definition set_tokens (l : list BootstrapTokenRecord) (db : BootstrapTokenRepository)
  : BootstrapTokenRepository :=
  {| tokens := l; bt_next_id := bt_next_id db; bt_online := bt_online db |}.

Definition by_bt (pid : string) (r : BootstrapTokenRecord) : bool :=
  bool_decide (bt_public_id r = pid).

Definition with_use (used : option Z) (agent_id : option Z) (r : BootstrapTokenRecord)
  : BootstrapTokenRecord :=
  {| bt_id := bt_id r; bt_public_id := bt_public_id r; bt_secret_hash := bt_secret_hash r;
     bt_scope := bt_scope r; bt_created_by := bt_created_by r; bt_created_at := bt_created_at r;
     bt_expires_at := bt_expires_at r; bt_used_at := used; bt_used_by_agent_id := agent_id;
     bt_revoked_at := bt_revoked_at r |}.

Definition with_bt_revoked (t : Z) (r : BootstrapTokenRecord) : BootstrapTokenRecord :=
  {| bt_id := bt_id r; bt_public_id := bt_public_id r; bt_secret_hash := bt_secret_hash r;
     bt_scope := bt_scope r; bt_created_by := bt_created_by r; bt_created_at := bt_created_at r;
     bt_expires_at := bt_expires_at r; bt_used_at := bt_used_at r;
     bt_used_by_agent_id := bt_used_by_agent_id r; bt_revoked_at := Some t |}.

Definition bt_expired (now : Z) (r : BootstrapTokenRecord) : bool :=
  match bt_expires_at r with Some e => e <? now | None => false end.

(** Neither used, revoked nor expired. *)
Definition usable (now : Z) (r : BootstrapTokenRecord) : bool :=
  negb (isSome (bt_used_at r) || isSome (bt_revoked_at r)) && negb (bt_expired now r).

Section Tokens.
Context `{Base64Url} `{Argon2Crate}.

Definition mint (scope : BootstrapScope) (created_by : string) (rng : Entropy) (now : Z)
    (db : BootstrapTokenRepository) : result RepoError (string * string) * BootstrapTokenRepository :=
  let token := generate Bootstrap (id_bytes rng) (secret_bytes rng) in
  match hash (secret token) (salt rng) with
  | Err e => (Err (Hash e), db)
  | Ok secret_hash =>
      if negb (bt_online db) then (Err Sqlx, db)
      else if sql_exists (by_bt (public_id token)) (tokens db) then (Err Sqlx, db)
      else (Ok (public_id token, secret token),
            {| tokens := tokens db ++
                 [{| bt_id := bt_next_id db; bt_public_id := public_id token;
                     bt_secret_hash := secret_hash; bt_scope := scope; bt_created_by := created_by;
                     bt_created_at := now; bt_expires_at := sc_expires_at scope; bt_used_at := None;
                     bt_used_by_agent_id := None; bt_revoked_at := None |}];
               bt_next_id := bt_next_id db + 1; bt_online := bt_online db |})
  end.

Definition diagnose (pid : string) (now : Z) (db : BootstrapTokenRepository)
  : result RepoError BootstrapStatus :=
  if negb (bt_online db) then Err Sqlx
  else match find_first (by_bt pid) (tokens db) with
       | None => Ok BUnknown
       | Some r =>
           Ok (if isSome (bt_revoked_at r) then BRevoked
               else if isSome (bt_used_at r) then BUsed
               else if bt_expired now r then BExpired
               else BActive)
       end.

Definition preview_scope (pid : string) (now : Z) (db : BootstrapTokenRepository)
  : result RepoError BootstrapScope :=
  if negb (bt_online db) then Err Sqlx
  else match find_first (by_bt pid) (tokens db) with
       | None => Err InvalidCredential
       | Some r => if usable now r then Ok (bt_scope r) else Err InvalidCredential
       end.

(** [ORDER BY created_at DESC]. *)
Definition newest_token (a b : BootstrapTokenRecord) : Prop := bt_created_at b <= bt_created_at a.
#[global] Instance newest_token_dec : RelDecision newest_token.
Proof. intros a b. unfold newest_token. apply _. Defined.

Definition bt_list (db : BootstrapTokenRepository) : result RepoError (list BootstrapTokenRecord) :=
  if negb (bt_online db) then Err Sqlx else Ok (merge_sort newest_token (tokens db)).

Definition bt_revoke (pid : string) (now : Z) (db : BootstrapTokenRepository)
  : result RepoError unit * BootstrapTokenRepository :=
  if negb (bt_online db) then (Err Sqlx, db)
  else if sql_exists (by_bt pid) (tokens db)
  then (Ok tt, set_tokens (sql_update (by_bt pid) (with_bt_revoked now) (tokens db)) db)
  else (Err AgentNotFound, db).

(** The SELECT of [consume] and the checks on its row. *)
Definition consume_read (pid sec : string) (now : Z) (db : BootstrapTokenRepository)
  : result RepoError BootstrapScope :=
  if negb (bt_online db) then Err Sqlx
  else match find_first (by_bt pid) (tokens db) with
       | None => Err InvalidCredential
       | Some r =>
           if usable now r then
             match verify (bt_secret_hash r) sec with
             | Ok true => Ok (bt_scope r)
             | Ok false => Err InvalidCredential
             | Err e => Err (Hash e)
             end
           else Err InvalidCredential
       end.

(** Its UPDATE, guarded by [used_at IS NULL] for a single-use token. *)
Definition consume_mark (agent_exists : Z -> bool) (scope : BootstrapScope) (pid : string)
    (agent_id now : Z) (db : BootstrapTokenRepository)
  : result RepoError BootstrapScope * BootstrapTokenRepository :=
  let p r := by_bt pid r && (negb (sc_single_use scope) || negb (isSome (bt_used_at r))) in
  let f r := if sc_single_use scope then with_use (Some now) (Some agent_id) r
             else with_use (bt_used_at r) (Some agent_id) r in
  if negb (bt_online db) then (Err Sqlx, db)
  else if sql_exists p (tokens db) then
    if agent_exists agent_id
    then (Ok scope, set_tokens (sql_update p f (tokens db)) db)
    else (Err Sqlx, db)
  else if sc_single_use scope then (Err InvalidCredential, db)
  else (Ok scope, db).

Definition consume (agent_exists : Z -> bool) (pid sec : string) (agent_id now : Z)
    (db : BootstrapTokenRepository) : result RepoError BootstrapScope * BootstrapTokenRepository :=
  match consume_read pid sec now db with
  | Err e => (Err e, db)
  | Ok scope => consume_mark agent_exists scope pid agent_id now db
  end.
End Tokens.

(** ** Lemmas *)

Section BootstrapLemmas.
Context `{Base64Url} `{Argon2Crate}.

Record tokens_wf (db : BootstrapTokenRepository) : Prop := {
  tw_pid : NoDup (map bt_public_id (tokens db))
}.

Definition token_at (pid : string) (db : BootstrapTokenRepository) : option BootstrapTokenRecord :=
  find_first (by_bt pid) (tokens db).

Lemma token_at_update pid pid' p f db :
  (forall r, bt_public_id (f r) = bt_public_id r) ->
  (forall r, p r = true -> bt_public_id r = pid') -> pid <> pid' ->
  token_at pid (set_tokens (sql_update p f (tokens db)) db) = token_at pid db.
Proof.
  intros Hf Hp Hne. unfold token_at. simpl. rewrite find_first_sql_update.
  2: { intros r. unfold by_bt. by rewrite Hf. }
  destruct (find_first (by_bt pid) (tokens db)) as [r|] eqn:F; [|done]. simpl.
  apply find_first_Some in F as [_ F]. apply bool_decide_eq_true in F.
  destruct (p r) eqn:E; [|done]. apply Hp in E. congruence.
Qed.

(** A successful consume: the token was usable and its secret verified; a
    single-use token is now used by the agent, and no other token changed. *)
Lemma consume_ok ex pid sec aid now db scope db' :
  consume ex pid sec aid now db = (Ok scope, db') ->
  (exists r, token_at pid db = Some r /\ usable now r = true /\ bt_scope r = scope /\
     verify (bt_secret_hash r) sec = Ok true /\
     token_at pid db' = Some (with_use (if sc_single_use scope then Some now else bt_used_at r)
                                (Some aid) r)) /\
  (forall pid', pid' <> pid -> token_at pid' db' = token_at pid' db) /\
  bt_online db' = bt_online db.
Proof.
  unfold consume, consume_read. destruct (bt_online db) eqn:Hon; [|done]. simpl.
  destruct (find_first (by_bt pid) (tokens db)) as [r|] eqn:F; [|done].
  destruct (usable now r) eqn:Hu; [|done]. destruct (verify _ _) as [[]|] eqn:Ev; try done.
  unfold consume_mark. rewrite Hon. simpl.
  set (p := fun r0 => by_bt pid r0 && _). set (f := fun r0 => if sc_single_use (bt_scope r) then _ else _).
  assert (Hpr : p r = true).
  { unfold p. apply find_first_Some in F as [_ ->]. unfold usable in Hu.
    destruct (bt_used_at r); [done|]. simpl. by rewrite orb_true_r. }
  destruct (sql_exists p (tokens db)) eqn:Es.
  2: { pose proof (proj1 (sql_exists_false _ _) Es r) as Hn.
       rewrite Hpr in Hn. apply find_first_Some in F as [Hin _]. by specialize (Hn Hin). }
  destruct (ex aid); [|done]. intros [= <- <-].
  assert (Hf : forall x, bt_public_id (f x) = bt_public_id x)
    by (intros x; unfold f; by destruct (sc_single_use _)).
  split; [|split; [|exact Hon]].
  - exists r. repeat (split; [done|]). unfold token_at. simpl. rewrite find_first_sql_update.
    2: { intros x. unfold by_bt. by rewrite Hf. }
    rewrite F. simpl. rewrite Hpr. unfold f. by destruct (sc_single_use _).
  - intros pid' Hne. apply (token_at_update pid' pid); [done| |done].
    intros x [Hx _]%andb_prop. by apply bool_decide_eq_true in Hx.
Qed.

Lemma consume_err ex pid sec aid now db e db' :
  consume ex pid sec aid now db = (Err e, db') -> db' = db.
Proof. unfold consume, consume_mark. intros Hc. repeat case_match; by simplify_eq. Qed.

Lemma consume_wrong_secret ex pid sec aid now db r :
  bt_online db = true -> token_at pid db = Some r -> verify (bt_secret_hash r) sec = Ok false ->
  consume ex pid sec aid now db = (Err InvalidCredential, db).
Proof.
  intros Hon F Hv. unfold consume, consume_read. rewrite Hon. simpl. unfold token_at in F.
  rewrite F, Hv. by destruct (usable now r).
Qed.
End BootstrapLemmas.

(** ** Concurrent registrations

    Several [consume] calls for one token run at once; each of their two SQL
    statements is atomic, in any interleaving with each other, with calls that
    arrive or are for other tokens, mints and revocations.  [ex], the agents the foreign key finds, may
    change from step to step. *)
Section Consume.
Context `{Base64Url} `{Argon2Crate} (pid : string).

Inductive CPhase :=
| CStart (sec : string) (agent_id : Z)
| CRead (scope : BootstrapScope) (agent_id : Z)
| CWon (scope : BootstrapScope)
| CLost (e : RepoError).

Record ConSys := { cdb : BootstrapTokenRepository; consumers : gmap nat CPhase }.

Inductive con_step : ConSys -> ConSys -> Prop :=
| con_arrive s i sec aid :
    consumers s !! i = None ->
    con_step s {| cdb := cdb s; consumers := <[i := CStart sec aid]> (consumers s) |}
| con_read s i sec aid now scope :
    consumers s !! i = Some (CStart sec aid) -> consume_read pid sec now (cdb s) = Ok scope ->
    con_step s {| cdb := cdb s; consumers := <[i := CRead scope aid]> (consumers s) |}
| con_read_fail s i sec aid now e :
    consumers s !! i = Some (CStart sec aid) -> consume_read pid sec now (cdb s) = Err e ->
    con_step s {| cdb := cdb s; consumers := <[i := CLost e]> (consumers s) |}
| con_mark s i ex scope aid now db' :
    consumers s !! i = Some (CRead scope aid) ->
    consume_mark ex scope pid aid now (cdb s) = (Ok scope, db') ->
    con_step s {| cdb := db'; consumers := <[i := CWon scope]> (consumers s) |}
| con_mark_fail s i ex scope aid now e db' :
    consumers s !! i = Some (CRead scope aid) ->
    consume_mark ex scope pid aid now (cdb s) = (Err e, db') ->
    con_step s {| cdb := db'; consumers := <[i := CLost e]> (consumers s) |}
| con_other s pid' ex scope aid now :
    con_step s {| cdb := snd (consume_mark ex scope pid' aid now (cdb s)); consumers := consumers s |}
| con_mint s scope by_ rng now :
    con_step s {| cdb := snd (mint scope by_ rng now (cdb s)); consumers := consumers s |}
| con_revoke s pid' now :
    con_step s {| cdb := snd (bt_revoke pid' now (cdb s)); consumers := consumers s |}.

Definition con_init (s : ConSys) : Prop :=
  tokens_wf (cdb s) /\ forall i p, consumers s !! i = Some p -> exists sec aid, p = CStart sec aid.

(** The scope a call has read is the token's; a winner of a single-use token
    left it used; and there is one such winner. *)
Record con_inv (s : ConSys) : Prop := {
  ci_wf : tokens_wf (cdb s);
  ci_read : forall i scope aid, consumers s !! i = Some (CRead scope aid) ->
    exists r, r ∈ tokens (cdb s) /\ bt_public_id r = pid /\ bt_scope r = scope;
  ci_won : forall i scope, consumers s !! i = Some (CWon scope) ->
    exists r, r ∈ tokens (cdb s) /\ bt_public_id r = pid /\ bt_scope r = scope /\
      (sc_single_use scope = true -> isSome (bt_used_at r) = true);
  ci_once : forall i j scope scope', consumers s !! i = Some (CWon scope) ->
    consumers s !! j = Some (CWon scope') -> sc_single_use scope = true -> i = j
}.

(** How a step changes the table: rows keep their id, scope and use, or
    rows are added. *)
Definition table_grows (db db' : BootstrapTokenRepository) : Prop :=
  tokens_wf db -> tokens_wf db' /\
  forall r, r ∈ tokens db -> exists r', r' ∈ tokens db' /\ bt_public_id r' = bt_public_id r /\
    bt_scope r' = bt_scope r /\ (isSome (bt_used_at r) = true -> isSome (bt_used_at r') = true).

Lemma table_grows_refl db : table_grows db db.
Proof. intros W. split; [done|]. eauto 10. Qed.

Lemma table_grows_update p f db :
  (forall r, bt_public_id (f r) = bt_public_id r /\ bt_scope (f r) = bt_scope r /\
     (isSome (bt_used_at r) = true -> isSome (bt_used_at (f r)) = true)) ->
  table_grows db (set_tokens (sql_update p f (tokens db)) db).
Proof.
  intros Hf [W]. split.
  - split. simpl. rewrite sql_update_key; [done|]. intros r. apply Hf.
  - intros r Hr. exists (if p r then f r else r). split; [apply elem_of_sql_update; eauto|].
    destruct (p r); [apply Hf|done].
Qed.

Lemma mint_grows scope by_ rng now db : table_grows db (snd (mint scope by_ rng now db)).
Proof.
  unfold mint. destruct (hash _ _); [|apply table_grows_refl].
  destruct (bt_online db); [|apply table_grows_refl]. simpl.
  destruct (sql_exists _ _) eqn:E; [apply table_grows_refl|]. intros [W]. split.
  - split. simpl. apply NoDup_map_snoc; [done|]. intros r Hr. simpl.
    pose proof (proj1 (sql_exists_false _ _) E r Hr) as Hn. by apply bool_decide_eq_false in Hn.
  - intros r Hr. exists r. split; [apply elem_of_app; by left|done].
Qed.

Lemma revoke_grows pid' now db : table_grows db (snd (bt_revoke pid' now db)).
Proof.
  unfold bt_revoke. destruct (negb _); [apply table_grows_refl|].
  destruct (sql_exists _ _); [|apply table_grows_refl]. by apply table_grows_update.
Qed.

Lemma mark_grows ex scope pid' aid now db :
  table_grows db (snd (consume_mark ex scope pid' aid now db)).
Proof.
  unfold consume_mark. destruct (negb _); [apply table_grows_refl|].
  destruct (sql_exists _ _); [|by destruct (sc_single_use scope); apply table_grows_refl].
  destruct (ex aid); [|apply table_grows_refl]. apply table_grows_update.
  intros r. by destruct (sc_single_use scope).
Qed.

Lemma same_bt_same_row rows r r' :
  NoDup (map bt_public_id rows) -> r ∈ rows -> r' ∈ rows ->
  bt_public_id r = bt_public_id r' -> r = r'.
Proof.
  intros Hu Hr Hr' E. pose proof (find_first_key bt_public_id _ _ Hu Hr) as F1.
  pose proof (find_first_key bt_public_id _ _ Hu Hr') as F2. rewrite E in F1. congruence.
Qed.

(** A mark that wins a single-use token found it unused and leaves it used. *)
Lemma mark_wins ex scope aid now db db' :
  sc_single_use scope = true ->
  consume_mark ex scope pid aid now db = (Ok scope, db') ->
  (exists r, r ∈ tokens db /\ bt_public_id r = pid /\ bt_used_at r = None) /\
  (exists r, r ∈ tokens db' /\ bt_public_id r = pid /\ isSome (bt_used_at r) = true).
Proof.
  intros Hs. unfold consume_mark. destruct (negb _); [done|]. rewrite Hs. simpl.
  destruct (sql_exists _ _) eqn:E; [|done]. destruct (ex aid); [|done]. intros [= <-].
  unfold sql_exists in E. apply existsb_exists in E as (r & Hr%list_elem_of_In & E).
  assert (E' := E). apply andb_prop in E' as [E1 E2]. apply bool_decide_eq_true in E1. split.
  - exists r. repeat split; try done. by destruct (bt_used_at r).
  - exists (with_use (Some now) (Some aid) r). repeat split; try done. simpl.
    apply elem_of_sql_update. exists r. by rewrite E.
Qed.

Lemma con_inv_grows s db' m :
  table_grows (cdb s) db' -> con_inv s ->
  (forall i scope aid, m !! i = Some (CRead scope aid) -> consumers s !! i = Some (CRead scope aid) \/
     exists r, r ∈ tokens db' /\ bt_public_id r = pid /\ bt_scope r = scope) ->
  (forall i scope, m !! i = Some (CWon scope) -> consumers s !! i = Some (CWon scope)) ->
  con_inv {| cdb := db'; consumers := m |}.
Proof.
  intros Hg [W Ir Iw Io] Hr Hw. destruct (Hg W) as [W' Hrows]. split; simpl; [done|..].
  - intros i scope aid [Hi|?]%Hr; [|done]. destruct (Ir _ _ _ Hi) as (r & Hin & Hp & Hs).
    destruct (Hrows r Hin) as (r' & Hin' & Hp' & Hs' & _). exists r'. split; [done|]. split; congruence.
  - intros i scope Hi%Hw. destruct (Iw _ _ Hi) as (r & Hin & Hp & Hs & Hu).
    destruct (Hrows r Hin) as (r' & Hin' & Hp' & Hs' & Hu'). exists r'.
    split; [done|]. split; [congruence|]. split; [congruence|]. auto.
  - intros i j sc sc' Hi%Hw Hj%Hw. by apply (Io i j sc sc').
Qed.

Lemma con_inv_mark s i ex scope aid now db' :
  consumers s !! i = Some (CRead scope aid) ->
  consume_mark ex scope pid aid now (cdb s) = (Ok scope, db') -> con_inv s ->
  con_inv {| cdb := db'; consumers := <[i := CWon scope]> (consumers s) |}.
Proof.
  intros Hi Hm I. destruct I as [W Ir Iw Io].
  pose proof (mark_grows ex scope pid aid now (cdb s)) as Hg. rewrite Hm in Hg. simpl in Hg.
  destruct (Hg W) as [W' Hrows]. destruct (Ir _ _ _ Hi) as (r & Hin & Hp & Hs).
  destruct (Hrows r Hin) as (r' & Hin' & Hp' & Hs' & _).
  (* no earlier winner when the token is single use *)
  assert (Hno : sc_single_use scope = true -> forall j sc, consumers s !! j <> Some (CWon sc)).
  { intros Hsu j sc Hj. destruct (mark_wins _ _ _ _ _ _ Hsu Hm) as [(r0 & Hin0 & Hp0 & Hu0) _].
    destruct (Iw _ _ Hj) as (r1 & Hin1 & Hp1 & Hs1 & Hu1).
    assert (r1 = r) as -> by (eapply same_bt_same_row; [apply W|done|done|congruence]).
    assert (r0 = r) as -> by (eapply same_bt_same_row; [apply W|done|done|congruence]).
    rewrite Hu0 in Hu1. simpl in Hu1. by rewrite <- Hs1, Hs in Hu1; specialize (Hu1 Hsu). }
  split; simpl; [done|..].
  - intros j sc a Hj. apply lookup_insert_Some in Hj as [[_ ?]|[_ Hj]]; [done|].
    destruct (Ir _ _ _ Hj) as (x & Hx & Hxp & Hxs).
    destruct (Hrows x Hx) as (x' & Hx' & Hxp' & Hxs' & _). exists x'. split; [done|]. split; congruence.
  - intros j sc Hj. apply lookup_insert_Some in Hj as [[_ [= <-]]|[_ Hj]].
    + exists r'. split; [done|]. split; [congruence|]. split; [congruence|]. intros Hsu.
      destruct (mark_wins _ _ _ _ _ _ Hsu Hm) as [_ (r2 & Hin2 & Hp2 & Hu2)].
      assert (r2 = r') as -> by (eapply same_bt_same_row; [apply W'|done|done|congruence]). done.
    + destruct (Iw _ _ Hj) as (x & Hx & Hxp & Hxs & Hxu).
      destruct (Hrows x Hx) as (x' & Hx' & Hxp' & Hxs' & Hxu'). exists x'.
      split; [done|]. split; [congruence|]. split; [congruence|]. auto.
  - intros j k sc sc' Hj Hk Hsu.
    apply lookup_insert_Some in Hj as [[<- [= <-]]|[Hnj Hj]];
      apply lookup_insert_Some in Hk as [[<- [= <-]]|[Hnk Hk]]; try done.
    + by destruct (Hno Hsu k sc').
    + destruct (Iw _ _ Hj) as (x & Hx & Hxp & Hxs & _).
      assert (x = r) as -> by (eapply same_bt_same_row; [apply W|done|done|congruence]).
      destruct (Hno ltac:(congruence) j sc). done.
    + by apply (Io j k sc sc').
Qed.

Lemma con_step_inv s s' : con_step s s' -> con_inv s -> con_inv s'.
Proof.
  assert (Hq : forall (s : ConSys) i p, (forall sc a, p <> CRead sc a) -> (forall sc, p <> CWon sc) ->
    (forall j sc a, <[i := p]> (consumers s) !! j = Some (CRead sc a) ->
       consumers s !! j = Some (CRead sc a) \/
       exists r, r ∈ tokens (cdb s) /\ bt_public_id r = pid /\ bt_scope r = sc) /\
    (forall j sc, <[i := p]> (consumers s) !! j = Some (CWon sc) -> consumers s !! j = Some (CWon sc))).
  { intros s0 i p Hr Hw. split.
    - intros j sc a [[_ E]|[_ ?]]%lookup_insert_Some; [by destruct (Hr sc a)|by left].
    - intros j sc [[_ E]|[_ ?]]%lookup_insert_Some; [by destruct (Hw sc)|done]. }
  intros Hst I. destruct Hst as [s i sec aid Hi|s i sec aid now scope Hi Hrd|s i sec aid now e Hi Hrd
    |s i ex scope aid now db' Hi Hm|s i ex scope aid now e db' Hi Hm|s pid' ex scope aid now|s scope by_ rng now|s pid' now].
  - destruct (Hq s i (CStart sec aid)) as [Q1 Q2]; [done..|].
    by apply con_inv_grows with (s := s); [apply table_grows_refl|..].
  - apply con_inv_grows with (s := s); [apply table_grows_refl|done|..].
    + intros j sc a [[<- [= <- <-]]|[_ ?]]%lookup_insert_Some; [|by left]. right.
      unfold consume_read in Hrd. destruct (negb _); [done|].
      destruct (find_first _ _) as [r|] eqn:F; [|done]. destruct (usable now r); [|done].
      destruct (verify _ _) as [[]|]; try done. injection Hrd as <-.
      apply find_first_Some in F as [F1 F2]. apply bool_decide_eq_true in F2. by exists r.
    + by intros j sc [[_ ?]|[_ ?]]%lookup_insert_Some.
  - destruct (Hq s i (CLost e)) as [Q1 Q2]; [done..|].
    by apply con_inv_grows with (s := s); [apply table_grows_refl|..].
  - by eapply con_inv_mark.
  - destruct (Hq s i (CLost e)) as [Q1 Q2]; [done..|].
    assert (db' = cdb s) as -> by (unfold consume_mark in Hm; repeat case_match; by simplify_eq).
    by apply con_inv_grows with (s := s); [apply table_grows_refl|..].
  - apply con_inv_grows with (s := s); [apply mark_grows|done|by left|done].
  - apply con_inv_grows with (s := s); [apply mint_grows|done|by left|done].
  - apply con_inv_grows with (s := s); [apply revoke_grows|done|by left|done].
Qed.

Lemma con_init_inv s : con_init s -> con_inv s.
Proof.
  intros [W Hs]. split; [done|..].
  - intros k sc a Hk. destruct (Hs _ _ Hk) as (? & ? & ?). done.
  - intros k sc Hk. destruct (Hs _ _ Hk) as (? & ? & ?). done.
  - intros k l sc sc' Hk. destruct (Hs _ _ Hk) as (? & ? & ?). done.
Qed.

Lemma con_reachable s s' : con_inv s -> rtc con_step s s' -> con_inv s'.
Proof. intros I. induction 1; eauto using con_step_inv. Qed.
End Consume.

(** ** Witnesses *)

Module BootstrapWitness.
Import Base64Model Argon2Model AgentWitness.

Definition scope0 : BootstrapScope :=
  {| sc_tool_allowlist := Some ["tavily"]; sc_expires_at := Some 1000; sc_single_use := true |}.

Definition empty_tokens : BootstrapTokenRepository :=
  {| tokens := []; bt_next_id := 1; bt_online := true |}.

Definition minted : BootstrapTokenRepository := snd (mint scope0 "op" (rng "b") 10 empty_tokens).

Definition bt_pid : string := public_id (generate Bootstrap (id_bytes (rng "b")) "").
Definition bt_secret : string := secret (generate Bootstrap "" (secret_bytes (rng "b"))).

Definition con0 : ConSys :=
  {| cdb := minted; consumers := {[0%nat := CStart bt_secret 1; 1%nat := CStart bt_secret 2]} |}.

Lemma con0_init : con_init con0.
Proof.
  split.
  - split. apply (bool_decide_unpack _). vm_compute. exact I.
  - intros i p Hi. unfold con0 in Hi. simpl in Hi.
    apply lookup_insert_Some in Hi as [[_ <-]|[_ Hi]]; [by eauto|].
    apply lookup_singleton_Some in Hi as [_ <-]. by eauto.
Qed.

Definition con1 : ConSys :=
  {| cdb := minted; consumers := <[0%nat := CRead scope0 1]> (consumers con0) |}.
Definition con2 : ConSys :=
  {| cdb := minted; consumers := <[1%nat := CRead scope0 2]> (consumers con1) |}.
Definition con3 : ConSys :=
  {| cdb := snd (consume_mark (fun _ => true) scope0 bt_pid 2 20 minted);
     consumers := <[1%nat := CWon scope0]> (consumers con2) |}.

(** Both calls read the unused token; the second one marks it first. *)
Lemma con_runs : rtc (con_step bt_pid) con0 con3.
Proof.
  eapply rtc_l; [apply (con_read bt_pid con0 0 bt_secret 1 20 scope0); vm_compute; reflexivity|].
  eapply rtc_l; [apply (con_read bt_pid con1 1 bt_secret 2 20 scope0); vm_compute; reflexivity|].
  eapply rtc_l; [|apply rtc_refl].
  apply (con_mark bt_pid con2 1 (fun _ => true) scope0 2 20); vm_compute; reflexivity.
Qed.

(** The other call can no longer win. *)
Example con_single_winner i scope' : consumers con3 !! i = Some (CWon scope') -> 1%nat = i.
Proof.
  intros Hi. pose proof (con_reachable _ _ _ (con_init_inv bt_pid _ con0_init) con_runs) as I.
  by apply (ci_once _ _ I 1 i scope0 scope').
Qed.

End BootstrapWitness.
