(* ===== verification/AuditLog.v ===== *)
(** * The audit log ([src/repo/audit.rs])

    Events, the row an insert stores, the read path back to events, the
    filtered and paginated query and the retention sweep.  The [details]
    column holds the JSON value it is the text of; the JSONL mirror is the
    list of events appended to it. *)

From S2P Require Import Prelude Json Token Argon2Helper AgentRepo.

Inductive EventClass := Proxy | OperatorClass | Security.
Inductive Decision := Allowed | Denied | Error.

#[export] Instance EventClass_eq_dec : EqDecision EventClass.
Proof. solve_decision. Defined.
#[export] Instance Decision_eq_dec : EqDecision Decision.
Proof. solve_decision. Defined.

Definition event_class_as_str (c : EventClass) : string :=
  match c with Proxy => "proxy" | OperatorClass => "operator" | Security => "security" end.

Definition decision_as_str (d : Decision) : string :=
  match d with Allowed => "allowed" | Denied => "denied" | Error => "error" end.

Record AuditEvent := {
  ts_ms : Z;
  event_class : EventClass;
  event : string;
  agent_public_id : option string;
  agent_name : option string;
  operator_name : option string;
  tool : option string;
  upstream_host : option string;
  method : option string;
  path : option string;
  status : option Z;
  latency_ms : option Z;
  decision : Decision;
  auth_method : option string;
  origin_ip : option string;
  details : option Json
}.

(** [AuditEvent::default()]. *)
Definition default_event : AuditEvent :=
  {| ts_ms := 0; event_class := Proxy; event := ""; agent_public_id := None;
     agent_name := None; operator_name := None; tool := None; upstream_host := None;
     method := None; path := None; status := None; latency_ms := None;
     decision := Allowed; auth_method := None; origin_ip := None; details := None |}.

(** A row of the [audit] table: the bound columns. *)
Record AuditRow := {
  row_ts : Z;
  row_event_class : string;
  row_event : string;
  row_agent_public_id : option string;
  row_operator_name : option string;
  row_tool : option string;
  row_upstream_host : option string;
  row_method : option string;
  row_path : option string;
  row_status : option Z;
  row_latency_ms : option Z;
  row_decision : string;
  row_auth_method : option string;
  row_origin_ip : option string;
  row_details : option Json
}.

Record AuditFilter := {
  since_ms : option Z;
  until_ms : option Z;
  f_agent_public_id : option string;
  f_tool : option string;
  f_event_class : option EventClass;
  f_decision : option Decision
}.

Record AuditPage := { limit : nat; offset : nat }.
Definition default_page : AuditPage := {| limit := 100; offset := 0 |}.

(** [AuditRepository]: the table, whether an insert can succeed, and the
    optional JSONL mirror. *)
Record AuditRepository := {
  rows : list AuditRow;
  writable : bool;
  sink : option (list AuditEvent)
}.

Definition row_of (e : AuditEvent) : AuditRow :=
  {| row_ts := ts_ms e; row_event_class := event_class_as_str (event_class e);
     row_event := event e; row_agent_public_id := agent_public_id e;
     row_operator_name := operator_name e; row_tool := tool e;
     row_upstream_host := upstream_host e; row_method := method e; row_path := path e;
     row_status := status e; row_latency_ms := as_i64 <$> latency_ms e;
     row_decision := decision_as_str (decision e); row_auth_method := auth_method e;
     row_origin_ip := origin_ip e; row_details := details e |}.

Definition record (e : AuditEvent) (a : AuditRepository)
  : result RepoError unit * AuditRepository :=
  if writable a
  then (Ok tt, {| rows := rows a ++ [row_of e]; writable := true;
                  sink := (fun l => l ++ [e]) <$> sink a |})
  else (Err Sqlx, a).

Definition sweep_older_than (cutoff_ms : Z) (a : AuditRepository)
  : result RepoError Z * AuditRepository :=
  if writable a
  then let old r := row_ts r <? cutoff_ms in
       (Ok (Z.of_nat (List.length (List.filter old (rows a)))),
        {| rows := sql_delete old (rows a); writable := true; sink := sink a |})
  else (Err Sqlx, a).

Definition parse_event_class (s : string) : result RepoError EventClass :=
  if bool_decide (s = "proxy") then Ok Proxy
  else if bool_decide (s = "operator") then Ok OperatorClass
  else if bool_decide (s = "security") then Ok Security
  else Err JsonError.

Definition parse_decision (s : string) : result RepoError Decision :=
  if bool_decide (s = "allowed") then Ok Allowed
  else if bool_decide (s = "denied") then Ok Denied
  else if bool_decide (s = "error") then Ok Error
  else Err JsonError.

(** [AuditRow::into_event]; [joined] is the [agent_name] of the LEFT JOIN. *)
Definition into_event (joined : option string) (r : AuditRow) : result RepoError AuditEvent :=
  let? c := parse_event_class (row_event_class r) in
  let? d := parse_decision (row_decision r) in
  Ok {| ts_ms := row_ts r; event_class := c; event := row_event r;
        agent_public_id := row_agent_public_id r; agent_name := joined;
        operator_name := row_operator_name r; tool := row_tool r;
        upstream_host := row_upstream_host r; method := row_method r; path := row_path r;
        status := (let* s := row_status r in if is_u16 s then Some s else None);
        latency_ms := as_u64 <$> row_latency_ms r; decision := d;
        auth_method := row_auth_method r; origin_ip := row_origin_ip r;
        details := row_details r |}.

(** [AND col = ?] appended only when the filter field is set. *)
Definition opt_matches {A} (f : option A) (test : A -> bool) : bool :=
  match f with Some x => test x | None => true end.

Definition row_matches (f : AuditFilter) (r : AuditRow) : bool :=
  opt_matches (since_ms f) (fun v => v <=? row_ts r) &&
  opt_matches (until_ms f) (fun v => row_ts r <? v) &&
  opt_matches (f_agent_public_id f) (fun v => bool_decide (row_agent_public_id r = Some v)) &&
  opt_matches (f_tool f) (fun v => bool_decide (row_tool r = Some v)) &&
  opt_matches (f_event_class f) (fun v => bool_decide (row_event_class r = event_class_as_str v)) &&
  opt_matches (f_decision f) (fun v => bool_decide (row_decision r = decision_as_str v)).

(** [ORDER BY a.ts DESC]. *)
Definition newest_row (a b : AuditRow) : Prop := row_ts b <= row_ts a.
#[export] Instance newest_row_dec : RelDecision newest_row.
Proof. intros a b. unfold newest_row. apply _. Defined.

(** The LEFT JOIN on [public_id] (unique in [agents]). *)
Definition joined_name (adb : AgentDb) (r : AuditRow) : option string :=
  match row_agent_public_id r with
  | Some pid => ag_name <$> find_first (by_public_id pid) (agents adb)
  | None => None
  end.

Fixpoint map_results {A B E} (f : A -> result E B) (l : list A) : result E (list B) :=
  match l with
  | [] => Ok []
  | x :: l' => let? y := f x in let? ys := map_results f l' in Ok (y :: ys)
  end.

Definition query_audit (f : AuditFilter) (page : AuditPage) (adb : AgentDb) (a : AuditRepository)
  : result RepoError (list AuditEvent) :=
  if online adb then
    map_results (fun r => into_event (joined_name adb r) r)
      (take (limit page) (drop (offset page)
        (merge_sort newest_row (List.filter (row_matches f) (rows a)))))
  else Err Sqlx.

(** ** Lemmas *)

Lemma parse_event_class_as_str c : parse_event_class (event_class_as_str c) = Ok c.
Proof. by destruct c. Qed.

Lemma parse_decision_as_str d : parse_decision (decision_as_str d) = Ok d.
Proof. by destruct d. Qed.

(** The integer fields of an event are in their Rust types' ranges. *)
Definition event_ranges (e : AuditEvent) : Prop :=
  (forall s, status e = Some s -> is_u16 s = true) /\
  (forall l, latency_ms e = Some l -> is_u64 l = true).

Definition with_agent_name (n : option string) (e : AuditEvent) : AuditEvent :=
  {| ts_ms := ts_ms e; event_class := event_class e; event := event e;
     agent_public_id := agent_public_id e; agent_name := n; operator_name := operator_name e;
     tool := tool e; upstream_host := upstream_host e; method := method e; path := path e;
     status := status e; latency_ms := latency_ms e; decision := decision e;
     auth_method := auth_method e; origin_ip := origin_ip e; details := details e |}.

(** An audit event survives the table: reading back the row that an
    event was stored as gives the event, class, decision, status and latency
    included (the latency through its [u64]/[i64] casts), with only the agent
    name replaced by the joined one. *)
Theorem audit_row_roundtrip e joined :
  event_ranges e -> into_event joined (row_of e) = Ok (with_agent_name joined e).
Proof.
  intros [Hs Hl]. unfold into_event. simpl.
  rewrite parse_event_class_as_str, parse_decision_as_str.
  f_equal. unfold with_agent_name. f_equal.
  - destruct (status e) as [s|]; [|done]. simpl. by rewrite (Hs s).
  - destruct (latency_ms e) as [l|]; [|done]. simpl. by rewrite as_u64_as_i64 by auto.
Qed.

Lemma map_results_Forall2 {A B E} (f : A -> result E B) l ys :
  map_results f l = Ok ys -> Forall2 (fun x y => f x = Ok y) l ys.
Proof.
  revert ys. induction l as [|x l IH]; simpl; intros ys H; simplify_eq; [constructor|].
  destruct (f x) eqn:E1; [|done]. destruct (map_results f l) eqn:E2; [|done].
  simplify_eq. constructor; auto.
Qed.

Lemma into_event_ts joined r e : into_event joined r = Ok e -> ts_ms e = row_ts r.
Proof.
  unfold into_event. intros H. destruct (parse_event_class _); [|done].
  by destruct (parse_decision _); simplify_eq/=.
Qed.

#[export] Instance newest_row_total : Total newest_row.
Proof. intros a b. unfold newest_row. lia. Qed.
#[export] Instance newest_row_trans : Transitive newest_row.
Proof. intros a b c. unfold newest_row. lia. Qed.

Lemma Sorted_ts (l : list AuditRow) es (f : AuditRow -> result RepoError AuditEvent) :
  (forall r e, f r = Ok e -> ts_ms e = row_ts r) ->
  StronglySorted newest_row l -> Forall2 (fun x y => f x = Ok y) l es ->
  StronglySorted (fun a b => ts_ms b <= ts_ms a) es.
Proof.
  intros Hf Hs. revert es. induction Hs as [|r l Hs IH Hall]; intros es H2; inversion H2; subst.
  - constructor.
  - constructor; [auto|]. apply Forall_forall. intros e He.
    apply list_elem_of_lookup in He as [i Hi].
    destruct (Forall2_lookup_r _ _ _ _ _ H4 Hi) as (r' & Hr' & E').
    rewrite Forall_forall in Hall. specialize (Hall r' (list_elem_of_lookup_2 _ _ _ Hr')).
    unfold newest_row in Hall. rewrite (Hf _ _ E'), (Hf _ _ H1). done.
Qed.

Lemma sublist_In {A} (l k : list A) x : sublist k l -> x ∈ k -> x ∈ l.
Proof. intros Hs Hx. eapply elem_of_submseteq; [done|by apply sublist_submseteq]. Qed.

Lemma StronglySorted_sublist {A} (R : A -> A -> Prop) (l k : list A) :
  sublist k l -> StronglySorted R l -> StronglySorted R k.
Proof.
  intros Hsub. induction Hsub as [|x k l Hsub IH|x k l Hsub IH]; intros Hs; [done|..];
    inversion Hs; subst; [|auto].
  constructor; [auto|]. rewrite Forall_forall in *. intros y Hy.
  apply H2. by eapply sublist_In.
Qed.

(** An audit query returns at most [limit] events, newest first, and
    each of them is the stored form of a row that satisfies every filter
    field that was set. *)
Theorem query_audit_spec f page adb a es :
  query_audit f page adb a = Ok es ->
  (List.length es <= limit page)%nat /\
  StronglySorted (fun x y => ts_ms y <= ts_ms x) es /\
  (forall e, e ∈ es -> exists r, r ∈ rows a /\ row_matches f r = true /\
     into_event (joined_name adb r) r = Ok e).
Proof.
  unfold query_audit. destruct (online adb); [|done].
  intros H%map_results_Forall2.
  set (sel := merge_sort newest_row _) in *.
  assert (Hsub : sublist (take (limit page) (drop (offset page) sel)) sel).
  { etrans; [apply sublist_take|apply sublist_drop]. }
  split; [|split].
  - rewrite <- (Forall2_length _ _ _ H), length_take. lia.
  - eapply Sorted_ts; [|eapply StronglySorted_sublist; [exact Hsub|]|exact H].
    + intros r e. apply into_event_ts.
    + unfold sel. apply StronglySorted_merge_sort; apply _.
  - intros e He. apply list_elem_of_lookup in He as [i Hi].
    destruct (Forall2_lookup_r _ _ _ _ _ H Hi) as (r & Hr & E). exists r.
    assert (Hin : r ∈ sel) by (eapply sublist_In; [exact Hsub|by eapply list_elem_of_lookup_2]).
    unfold sel in Hin. rewrite merge_sort_Permutation in Hin.
    apply list_elem_of_In, filter_In in Hin as [Hin Hm].
    split; [by apply list_elem_of_In|done].
Qed.

(** ** The best-effort write every component uses

    [let Some(repo) = audit else return; if let Err(e) = repo.record(..)
    { warn }]: a missing repository or a failed insert changes nothing and is
    not reported. *)
Definition audit_record (audit : option AuditRepository) (e : AuditEvent)
  : option AuditRepository :=
  match audit with
  | None => None
  | Some repo => Some (snd (record e repo))
  end.

(** The rows visible through an optional repository. *)
Definition audit_rows (audit : option AuditRepository) : list AuditRow :=
  match audit with Some a => rows a | None => [] end.

Definition audit_writable (audit : option AuditRepository) : bool :=
  match audit with Some a => writable a | None => false end.

Lemma audit_record_rows audit e :
  audit_rows (audit_record audit e) =
  audit_rows audit ++ (if audit_writable audit then [row_of e] else []).
Proof.
  destruct audit as [a|]; simpl; [|done]. unfold record.
  destruct (writable a); simpl; [done|]. by rewrite app_nil_r.
Qed.

Lemma audit_record_writable audit e :
  audit_writable (audit_record audit e) = audit_writable audit.
Proof. destruct audit as [a|]; simpl; [|done]. unfold record. by destruct (writable a) eqn:?. Qed.

#[export] Hint Rewrite audit_record_rows audit_record_writable : locksmith.

(** ** Witnesses *)

Module AuditWitness.

Definition sample : AuditEvent :=
  {| ts_ms := 5; event_class := Security; event := "authz_denied"; agent_public_id := Some "p";
     agent_name := None; operator_name := None; tool := Some "github"; upstream_host := None;
     method := Some "GET"; path := Some "/api/github"; status := Some 403;
     latency_ms := Some 18446744073709551615; decision := Denied; auth_method := Some "bearer";
     origin_ip := None; details := Some (json_obj [("reason", JString "in_denylist")]) |}.

Definition log : AuditRepository :=
  snd (record sample (snd (record default_event {| rows := []; writable := true; sink := None |}))).

Definition filter_security : AuditFilter :=
  {| since_ms := Some 1; until_ms := None; f_agent_public_id := None; f_tool := Some "github";
     f_event_class := Some Security; f_decision := None |}.

Lemma audit_row_roundtrip_witness :
  into_event (Some "dev") (row_of sample) = Ok (with_agent_name (Some "dev") sample).
Proof. apply audit_row_roundtrip. split; intros x [= <-]; reflexivity. Defined.

Lemma query_audit_spec_witness :
  let es := [with_agent_name None sample] in
  query_audit filter_security default_page AgentWitness.empty_db log = Ok es /\
  (List.length es <= 100)%nat.
Proof.
  assert (E : query_audit filter_security default_page AgentWitness.empty_db log =
              Ok [with_agent_name None sample]) by (vm_compute; reflexivity).
  split; [exact E|]. exact (proj1 (query_audit_spec _ _ _ _ _ E)).
Defined.

End AuditWitness.
