(* ===== verification/AgentRows.v ===== *)
(** * The columns behind the records ([src/repo/agent.rs], [src/repo/bootstrap.rs])

    [AgentRepo] works on decoded records.  Here is the table itself, whose
    ACL and metadata columns hold JSON text: the encoding of the [INSERT] and
    [UPDATE] statements, the decoding of [AgentRow::into_record] with its
    error, and the statements on such rows.  The record level is an
    abstraction of it: every statement does to the rows what [AgentRepo] says
    it does to the records. *)

From S2P Require Import Prelude Json Token Argon2Helper AgentRepo BootstrapRepo AuditLog.

Record AgentRow := {
  ar_id : Z;
  ar_public_id : string;
  ar_name : string;
  ar_description : option string;
  ar_secret_hash : string;
  ar_tool_allowlist : option string;
  ar_tool_denylist : option string;
  ar_metadata : option string;
  ar_cert_identity : option string;
  ar_registered_at : Z;
  ar_last_used_at : option Z;
  ar_expires_at : option Z;
  ar_revoked_at : option Z
}.

Record AgentTable := { at_rows : list AgentRow; at_next_id : Z; at_online : bool }.

Definition set_at_rows (l : list AgentRow) (t : AgentTable) : AgentTable :=
  {| at_rows := l; at_next_id := at_next_id t; at_online := at_online t |}.

(** ** Columns *)

(** [Vec<String>] out of a JSON value. *)
Fixpoint json_strings (l : list Json) : option (list string) :=
  match l with
  | [] => Some []
  | JString s :: l => (cons s) <$> json_strings l
  | _ => None
  end.

Definition de_strings (j : Json) : option (list string) :=
  match j with JArray l => json_strings l | _ => None end.

Definition names_json (l : list string) : Json := JArray (map JString l).

Lemma de_strings_json l : de_strings (names_json l) = Some l.
Proof. simpl. induction l as [|s l IH]; simpl; [done|]. by rewrite IH. Qed.

(** ** Lists related element by element *)

Section Related.
Context {A B : Type} (R : A -> B -> Prop).

Lemma related_exists p q l k :
  (forall a b, R a b -> p a = q b) -> Forall2 R l k -> sql_exists p l = sql_exists q k.
Proof. intros Hp. induction 1 as [|a b l k Hab H IH]; [done|]. simpl. by rewrite (Hp a b Hab), IH. Qed.

Lemma related_find p q l k :
  (forall a b, R a b -> p a = q b) -> Forall2 R l k ->
  option_Forall2 R (find_first p l) (find_first q k).
Proof.
  intros Hp. induction 1 as [|a b l k Hab H IH]; simpl; [constructor|].
  rewrite (Hp a b Hab). destruct (q b); [by constructor|done].
Qed.

Lemma related_filter p q l k :
  (forall a b, R a b -> p a = q b) -> Forall2 R l k ->
  Forall2 R (List.filter p l) (List.filter q k).
Proof.
  intros Hp. induction 1 as [|a b l k Hab H IH]; simpl; [constructor|].
  rewrite (Hp a b Hab). destruct (q b); [by constructor|done].
Qed.

Lemma related_update p q f g l k :
  (forall a b, R a b -> p a = q b) -> (forall a b, R a b -> R (f a) (g b)) -> Forall2 R l k ->
  Forall2 R (sql_update p f l) (sql_update q g k).
Proof.
  intros Hp Hf. unfold sql_update. induction 1 as [|a b l k Hab H IH]; simpl; constructor; [|done].
  rewrite (Hp a b Hab). destruct (q b); auto.
Qed.

Context (le1 : A -> A -> Prop) `{!RelDecision le1} (le2 : B -> B -> Prop) `{!RelDecision le2}.
Hypothesis le_agree : forall a b a' b', R a b -> R a' b' -> le1 a a' <-> le2 b b'.

Lemma related_merge l1 k1 l2 k2 :
  Forall2 R l1 k1 -> Forall2 R l2 k2 -> Forall2 R (list_merge le1 l1 l2) (list_merge le2 k1 k2).
Proof.
  intros H1. revert l2 k2. induction H1 as [|a b l k Hab H1 IH1]; intros l2 k2 H2; [destruct H2; simpl; by constructor|].
  induction H2 as [|a' b' l' k' Hab' H2 IH2]; [by constructor|]. cbn [list_merge].
  unfold decide_rel. pose proof (le_agree _ _ _ _ Hab Hab') as E.
  destruct (decide (le1 a a')) as [d|d], (decide (le2 b b')) as [e|e]; try tauto.
  - constructor; [done|]. apply IH1. by constructor.
  - constructor; [done|]. apply IH2.
Qed.

Lemma related_stack st1 st2 l k :
  Forall2 (option_Forall2 (Forall2 R)) st1 st2 -> Forall2 R l k ->
  Forall2 (option_Forall2 (Forall2 R)) (merge_list_to_stack le1 st1 l) (merge_list_to_stack le2 st2 k).
Proof.
  intros H. revert l k. induction H as [|o1 o2 st1 st2 Ho H IH]; intros l k Hlk; simpl.
  - by repeat constructor.
  - destruct Ho as [m n Hmn|]; constructor; try constructor; try done. by apply IH, related_merge.
Qed.

Lemma related_merge_stack st1 st2 :
  Forall2 (option_Forall2 (Forall2 R)) st1 st2 ->
  Forall2 R (merge_stack le1 st1) (merge_stack le2 st2).
Proof.
  induction 1 as [|o1 o2 st1 st2 Ho H IH]; simpl; [constructor|].
  destruct Ho; [by apply related_merge|done].
Qed.

Lemma related_sort l k : Forall2 R l k -> Forall2 R (merge_sort le1 l) (merge_sort le2 k).
Proof.
  unfold merge_sort. intros H.
  assert (forall st1 st2, Forall2 (option_Forall2 (Forall2 R)) st1 st2 ->
    Forall2 R (merge_sort_aux le1 st1 l) (merge_sort_aux le2 st2 k)) as K; [|by apply K; constructor].
  induction H as [|a b l k Hab H IH]; intros st1 st2 Hst; simpl; [by apply related_merge_stack|].
  apply IH, related_stack; [done|by repeat constructor].
Qed.
End Related.

Lemma map_results_ok {A B E} (f : A -> result E B) l k :
  Forall2 (fun a b => f a = Ok b) l k -> map_results f l = Ok k.
Proof. induction 1 as [|a b l k Hab H IH]; simpl; [done|]. by rewrite Hab, IH. Qed.

Lemma map_results_related {A B C E} (R : A -> B -> Prop) (f : A -> result E C) (g : B -> result E C) l k :
  (forall a b, R a b -> f a = g b) -> Forall2 R l k -> map_results f l = map_results g k.
Proof. intros Hfg. induction 1 as [|a b l k Hab H IH]; simpl; [done|]. by rewrite (Hfg a b Hab), IH. Qed.

Section Rows.
Context `{SerdeJson} `{Base64Url} `{Argon2Crate}.

(** [.map(|s| serde_json::from_str(&s)).transpose()?]. *)
Definition read_column {A} (de : Json -> option A) (c : option string) : result RepoError (option A) :=
  match c with
  | None => Ok None
  | Some s => match from_slice s ≫= de with Some a => Ok (Some a) | None => Err JsonError end
  end.

Definition into_record (row : AgentRow) : result RepoError AgentRecord :=
  let? allow := read_column de_strings (ar_tool_allowlist row) in
  let? deny := read_column de_strings (ar_tool_denylist row) in
  let? meta := read_column Some (ar_metadata row) in
  Ok {| ag_id := ar_id row; ag_public_id := ar_public_id row; ag_name := ar_name row;
        ag_description := ar_description row; ag_secret_hash := ar_secret_hash row;
        ag_tool_allowlist := allow; ag_tool_denylist := deny; ag_metadata := meta;
        ag_cert_identity := ar_cert_identity row; ag_registered_at := ar_registered_at row;
        ag_last_used_at := ar_last_used_at row; ag_expires_at := ar_expires_at row;
        ag_revoked_at := ar_revoked_at row |}.

(** [.map(serde_json::to_string)]. *)
Definition strings_text (o : option (list string)) : option string :=
  (fun l => to_vec (names_json l)) <$> o.
Definition value_text (o : option Json) : option string := to_vec <$> o.

(** ** Statements *)

Definition row_active (row : AgentRow) : bool := negb (isSome (ar_revoked_at row)).
Definition row_by_public_id (pid : string) (row : AgentRow) : bool :=
  bool_decide (ar_public_id row = pid).

Definition row_query {A} (t : AgentTable) (k : result RepoError A * AgentTable)
  : result RepoError A * AgentTable :=
  if at_online t then k else (Err Sqlx, t).

Definition row_update_or_not_found (p : AgentRow -> bool) (f : AgentRow -> AgentRow)
    (t : AgentTable) : result RepoError unit * AgentTable :=
  row_query t
    (if sql_exists p (at_rows t)
     then (Ok tt, set_at_rows (sql_update p f (at_rows t)) t)
     else (Err AgentNotFound, t)).

Definition row_create (name : string) (description : option string)
    (allowlist denylist : option (list string)) (metadata : option Json)
    (expires_at : option Z) (rng : Entropy) (now : Z) (t : AgentTable)
  : result RepoError (string * string) * AgentTable :=
  let token := generate Agent (id_bytes rng) (secret_bytes rng) in
  match hash (secret token) (salt rng) with
  | Err e => (Err (Hash e), t)
  | Ok secret_hash =>
      row_query t
        (if sql_exists (fun r => bool_decide (ar_public_id r = public_id token)
                                 || bool_decide (ar_name r = name)) (at_rows t)
         then (Err (AgentNameConflict name), t)
         else
           let row := {|
             ar_id := at_next_id t; ar_public_id := public_id token; ar_name := name;
             ar_description := description; ar_secret_hash := secret_hash;
             ar_tool_allowlist := strings_text allowlist; ar_tool_denylist := strings_text denylist;
             ar_metadata := value_text metadata; ar_cert_identity := None;
             ar_registered_at := now; ar_last_used_at := None;
             ar_expires_at := expires_at; ar_revoked_at := None |} in
           (Ok (public_id token, secret token),
            {| at_rows := at_rows t ++ [row]; at_next_id := at_next_id t + 1;
               at_online := at_online t |}))
  end.

(** [fetch_optional], then [row.map(|r| r.into_record()).transpose()]. *)
Definition fetch_record (p : AgentRow -> bool) (t : AgentTable)
  : result RepoError (option AgentRecord) :=
  if at_online t then
    match find_first p (at_rows t) with
    | None => Ok None
    | Some row => let? r := into_record row in Ok (Some r)
    end
  else Err Sqlx.

Definition row_get_active_by_public_id (pid : string) : AgentTable -> result RepoError (option AgentRecord) :=
  fetch_record (fun r => row_by_public_id pid r && row_active r).
Definition row_get_by_name (name : string) : AgentTable -> result RepoError (option AgentRecord) :=
  fetch_record (fun r => bool_decide (ar_name r = name)).
Definition row_get_by_cert_identity (i : string) : AgentTable -> result RepoError (option AgentRecord) :=
  fetch_record (fun r => bool_decide (ar_cert_identity r = Some i) && row_active r).

Definition newer_row (a b : AgentRow) : Prop := ar_registered_at b <= ar_registered_at a.
#[global] Instance newer_row_dec : RelDecision newer_row.
Proof. intros a b. unfold newer_row. apply _. Defined.

Definition row_list (include_revoked : bool) (t : AgentTable) : result RepoError (list AgentRecord) :=
  if at_online t
  then map_results into_record
         (merge_sort newer_row (List.filter (fun r => include_revoked || row_active r) (at_rows t)))
  else Err Sqlx.

(** The SET lists. *)
Definition row_with_cert (c : option string) (r : AgentRow) : AgentRow :=
  {| ar_id := ar_id r; ar_public_id := ar_public_id r; ar_name := ar_name r;
     ar_description := ar_description r; ar_secret_hash := ar_secret_hash r;
     ar_tool_allowlist := ar_tool_allowlist r; ar_tool_denylist := ar_tool_denylist r;
     ar_metadata := ar_metadata r; ar_cert_identity := c;
     ar_registered_at := ar_registered_at r; ar_last_used_at := ar_last_used_at r;
     ar_expires_at := ar_expires_at r; ar_revoked_at := ar_revoked_at r |}.

Definition row_with_revoked (v : option Z) (r : AgentRow) : AgentRow :=
  {| ar_id := ar_id r; ar_public_id := ar_public_id r; ar_name := ar_name r;
     ar_description := ar_description r; ar_secret_hash := ar_secret_hash r;
     ar_tool_allowlist := ar_tool_allowlist r; ar_tool_denylist := ar_tool_denylist r;
     ar_metadata := ar_metadata r; ar_cert_identity := ar_cert_identity r;
     ar_registered_at := ar_registered_at r; ar_last_used_at := ar_last_used_at r;
     ar_expires_at := ar_expires_at r; ar_revoked_at := v |}.

Definition row_with_used (v : option Z) (r : AgentRow) : AgentRow :=
  {| ar_id := ar_id r; ar_public_id := ar_public_id r; ar_name := ar_name r;
     ar_description := ar_description r; ar_secret_hash := ar_secret_hash r;
     ar_tool_allowlist := ar_tool_allowlist r; ar_tool_denylist := ar_tool_denylist r;
     ar_metadata := ar_metadata r; ar_cert_identity := ar_cert_identity r;
     ar_registered_at := ar_registered_at r; ar_last_used_at := v;
     ar_expires_at := ar_expires_at r; ar_revoked_at := ar_revoked_at r |}.

Definition row_with_hash (h : string) (r : AgentRow) : AgentRow :=
  {| ar_id := ar_id r; ar_public_id := ar_public_id r; ar_name := ar_name r;
     ar_description := ar_description r; ar_secret_hash := h;
     ar_tool_allowlist := ar_tool_allowlist r; ar_tool_denylist := ar_tool_denylist r;
     ar_metadata := ar_metadata r; ar_cert_identity := ar_cert_identity r;
     ar_registered_at := ar_registered_at r; ar_last_used_at := ar_last_used_at r;
     ar_expires_at := ar_expires_at r; ar_revoked_at := ar_revoked_at r |}.

Definition row_with_policy (allow deny meta : option (option string)) (expires : option (option Z))
    (r : AgentRow) : AgentRow :=
  {| ar_id := ar_id r; ar_public_id := ar_public_id r; ar_name := ar_name r;
     ar_description := ar_description r; ar_secret_hash := ar_secret_hash r;
     ar_tool_allowlist := default (ar_tool_allowlist r) allow;
     ar_tool_denylist := default (ar_tool_denylist r) deny;
     ar_metadata := default (ar_metadata r) meta; ar_cert_identity := ar_cert_identity r;
     ar_registered_at := ar_registered_at r; ar_last_used_at := ar_last_used_at r;
     ar_expires_at := default (ar_expires_at r) expires; ar_revoked_at := ar_revoked_at r |}.

Definition row_set_cert_identity (pid : string) (cert : option string) (t : AgentTable) :=
  row_update_or_not_found (row_by_public_id pid) (row_with_cert cert) t.

Definition row_revoke (pid : string) (now : Z) (t : AgentTable) :=
  row_update_or_not_found (row_by_public_id pid) (row_with_revoked (Some now)) t.

Definition row_touch_last_used (pid : string) (now : Z) (t : AgentTable)
  : result RepoError unit * AgentTable :=
  row_query t (Ok tt, set_at_rows (sql_update (row_by_public_id pid) (row_with_used (Some now))
                                              (at_rows t)) t).

Definition row_rotate (pid current_secret : string) (rng : Entropy) (t : AgentTable)
  : result RepoError string * AgentTable :=
  if at_online t then
    match find_first (fun r => row_by_public_id pid r && row_active r) (at_rows t) with
    | None => (Err InvalidCredential, t)
    | Some r =>
        match verify (ar_secret_hash r) current_secret with
        | Err e => (Err (Hash e), t)
        | Ok false => (Err InvalidCredential, t)
        | Ok true =>
            let new_token := generate Agent (id_bytes rng) (secret_bytes rng) in
            match hash (secret new_token) (salt rng) with
            | Err e => (Err (Hash e), t)
            | Ok new_hash =>
                let p x := row_by_public_id pid x && row_active x
                           && bool_decide (ar_secret_hash x = ar_secret_hash r) in
                if sql_exists p (at_rows t)
                then (Ok (secret new_token),
                      set_at_rows (sql_update p (row_with_hash new_hash) (at_rows t)) t)
                else (Err (RotationInProgress pid), t)
            end
        end
    end
  else (Err Sqlx, t).

(** [sets.is_empty()]: nothing is asked of the database. *)
Definition row_update_policy (pid : string) (allow deny : option (option (list string)))
    (meta : option (option Json)) (expires : option (option Z)) (t : AgentTable)
  : result RepoError unit * AgentTable :=
  if negb (isSome allow) && negb (isSome deny) && negb (isSome meta) && negb (isSome expires)
  then (Ok tt, t)
  else row_update_or_not_found (row_by_public_id pid)
         (row_with_policy (strings_text <$> allow) (strings_text <$> deny) (value_text <$> meta)
                          expires) t.

(** ** The abstraction *)

(** Text that reads back as the value it was printed from. *)
Definition stable (v : Json) : Prop := from_slice (to_vec v) = Some v.

Definition represents (t : AgentTable) (db : AgentDb) : Prop :=
  Forall2 (fun row r => into_record row = Ok r) (at_rows t) (agents db) /\
  at_next_id t = next_id db /\ at_online t = online db.

(** The columns that are not JSON are the record's. *)
Lemma into_record_fields row r :
  into_record row = Ok r ->
  ar_public_id row = ag_public_id r /\ ar_name row = ag_name r /\
  ar_secret_hash row = ag_secret_hash r /\ ar_cert_identity row = ag_cert_identity r /\
  ar_registered_at row = ag_registered_at r /\ row_active row = is_active r.
Proof.
  unfold into_record. destruct (read_column de_strings (ar_tool_allowlist row)); [|done].
  destruct (read_column de_strings (ar_tool_denylist row)); [|done].
  destruct (read_column Some (ar_metadata row)); [|done]. by intros [= <-].
Qed.
(** A printed column reads back. *)
Hypothesis strings_stable : forall l, stable (names_json l).

Lemma read_strings_text o : read_column de_strings (strings_text o) = Ok o.
Proof.
  destruct o as [l|]; [|done]. simpl. rewrite (strings_stable l). simpl.
  by rewrite (de_strings_json l : json_strings (map JString l) = Some l).
Qed.

Lemma read_value_text o :
  (forall v, o = Some v -> stable v) -> read_column Some (value_text o) = Ok o.
Proof. intros Hs. destruct o as [v|]; [|done]. simpl. by rewrite (Hs v eq_refl). Qed.

Lemma into_record_inv row r :
  into_record row = Ok r ->
  read_column de_strings (ar_tool_allowlist row) = Ok (ag_tool_allowlist r) /\
  read_column de_strings (ar_tool_denylist row) = Ok (ag_tool_denylist r) /\
  read_column Some (ar_metadata row) = Ok (ag_metadata r).
Proof.
  unfold into_record. destruct (read_column de_strings (ar_tool_allowlist row)); [|done].
  destruct (read_column de_strings (ar_tool_denylist row)); [|done].
  destruct (read_column Some (ar_metadata row)); [|done]. by intros [= <-].
Qed.

(** The SET lists decode to the record updates. *)
Lemma policy_decodes allow deny meta expires row r :
  (forall v, meta = Some (Some v) -> stable v) -> into_record row = Ok r ->
  into_record (row_with_policy (strings_text <$> allow) (strings_text <$> deny)
                 (value_text <$> meta) expires row) = Ok (with_policy allow deny meta expires r).
Proof.
  intros Hm E. destruct (into_record_inv _ _ E) as (E1 & E2 & E3).
  unfold into_record, row_with_policy, with_policy. cbn [ar_tool_allowlist ar_tool_denylist ar_metadata].
  assert (read_column de_strings (default (ar_tool_allowlist row) (strings_text <$> allow)) =
          Ok (default (ag_tool_allowlist r) allow)) as -> by (destruct allow; [apply read_strings_text|done]).
  assert (read_column de_strings (default (ar_tool_denylist row) (strings_text <$> deny)) =
          Ok (default (ag_tool_denylist r) deny)) as -> by (destruct deny; [apply read_strings_text|done]).
  assert (read_column Some (default (ar_metadata row) (value_text <$> meta)) =
          Ok (default (ag_metadata r) meta)) as ->.
  { destruct meta as [o|]; [|done]. apply (read_value_text o). intros v ->. by apply Hm. }
  unfold into_record in E. rewrite E1, E2, E3 in E. by injection E as <-.
Qed.

Lemma scalar_decodes row r :
  into_record row = Ok r ->
  (forall c, into_record (row_with_cert c row) = Ok (with_cert_identity c r)) /\
  (forall v, into_record (row_with_revoked v row) = Ok (with_revoked_at v r)) /\
  (forall v, into_record (row_with_used v row) = Ok (with_last_used_at v r)) /\
  (forall h, into_record (row_with_hash h row) = Ok (with_secret_hash h r)).
Proof.
  intros E. destruct (into_record_inv _ _ E) as (E1 & E2 & E3).
  unfold into_record in *. simpl. rewrite E1, E2, E3 in *. by injection E as <-.
Qed.

Lemma by_id_agrees pid row r :
  into_record row = Ok r -> row_by_public_id pid row = by_public_id pid r.
Proof. intros (E & _)%into_record_fields. unfold row_by_public_id, by_public_id. by rewrite E. Qed.

Lemma active_agrees pid row r :
  into_record row = Ok r -> row_by_public_id pid row && row_active row = active_by_public_id pid r.
Proof.
  intros E. unfold active_by_public_id. rewrite (by_id_agrees _ _ _ E).
  by destruct (into_record_fields _ _ E) as (_ & _ & _ & _ & _ & ->).
Qed.

Lemma update_refines p q f g t db :
  represents t db ->
  (forall row r, into_record row = Ok r -> p row = q r) ->
  (forall row r, into_record row = Ok r -> into_record (f row) = Ok (g r)) ->
  let '(x, t') := row_update_or_not_found p f t in
  let '(y, db') := update_or_not_found q g db in
  x = y /\ represents t' db'.
Proof.
  intros Hrep Hp Hf. pose proof Hrep as (HR & Hn & Ho).
  unfold row_update_or_not_found, update_or_not_found, row_query, query. rewrite Ho.
  destruct (online db); [|done]. rewrite (related_exists _ p q _ _ Hp HR). destruct (sql_exists q (agents db)); [|done].
  split; [done|]. split; [|apply Hrep]. by apply related_update.
Qed.

(** ** Refinement *)

(** The reply of a statement, without its type. *)
Definition pair_reply (x : result RepoError (string * string)) : result RepoError (list string) :=
  let? p := x in Ok [p.1; p.2].
Definition one_reply (x : result RepoError string) : result RepoError (list string) :=
  let? s := x in Ok [s].
Definition unit_reply (x : result RepoError unit) : result RepoError (list string) :=
  let? _ := x in Ok [].

Definition row_exec (o : AgentOp) (t : AgentTable) : result RepoError (list string) * AgentTable :=
  match o with
  | OpCreate n d a dl m e rng now =>
      let '(x, t) := row_create n d a dl m e rng now t in (pair_reply x, t)
  | OpSetCert pid c => let '(x, t) := row_set_cert_identity pid c t in (unit_reply x, t)
  | OpRevoke pid now => let '(x, t) := row_revoke pid now t in (unit_reply x, t)
  | OpRotate pid s rng => let '(x, t) := row_rotate pid s rng t in (one_reply x, t)
  | OpTouch pid now => let '(x, t) := row_touch_last_used pid now t in (unit_reply x, t)
  | OpPolicy pid a d m e => let '(x, t) := row_update_policy pid a d m e t in (unit_reply x, t)
  end.

Definition agent_reply (o : AgentOp) (db : AgentDb) : result RepoError (list string) :=
  match o with
  | OpCreate n d a dl m e rng now => pair_reply (fst (create n d a dl m e rng now db))
  | OpSetCert pid c => unit_reply (fst (set_cert_identity pid c db))
  | OpRevoke pid now => unit_reply (fst (revoke pid now db))
  | OpRotate pid s rng => one_reply (fst (rotate pid s rng db))
  | OpTouch pid now => unit_reply (fst (touch_last_used pid now db))
  | OpPolicy pid a d m e => unit_reply (fst (update_policy pid a d m e db))
  end.

(** The metadata an operation writes reads back. *)
Definition op_stable (o : AgentOp) : Prop :=
  match o with
  | OpCreate _ _ _ _ (Some v) _ _ _ | OpPolicy _ _ _ (Some (Some v)) _ => stable v
  | _ => True
  end.

Lemma create_refines n d a dl m e rng now t db :
  represents t db -> (forall v, m = Some v -> stable v) ->
  let '(x, t') := row_create n d a dl m e rng now t in
  let '(y, db') := create n d a dl m e rng now db in x = y /\ represents t' db'.
Proof.
  intros Hrep Hm. pose proof Hrep as (HR & Hn & Ho). unfold row_create, create, row_query, query.
  destruct (hash _ _) as [h|]; [|done]. rewrite Ho. destruct (online db); [|done].
  rewrite (related_exists _ _ (fun r => bool_decide (ag_public_id r =
             public_id (generate Agent (id_bytes rng) (secret_bytes rng)))
             || bool_decide (ag_name r = n)) _ _) by
    first [exact HR | intros row r (-> & -> & _)%into_record_fields; done].
  destruct (sql_exists _ (agents db)); [done|]. split; [done|]. split; [|by split; simpl; [rewrite Hn|]].
  simpl. apply Forall2_app; [done|]. constructor; [|constructor]. unfold into_record. simpl.
  by rewrite !read_strings_text, read_value_text, Hn.
Qed.

Lemma cas_agrees pid h row r :
  into_record row = Ok r ->
  row_by_public_id pid row && row_active row && bool_decide (ar_secret_hash row = h) =
  active_by_public_id pid r && bool_decide (ag_secret_hash r = h).
Proof.
  intros E. rewrite (active_agrees _ _ _ E).
  by destruct (into_record_fields _ _ E) as (_ & _ & -> & _).
Qed.

Lemma rotate_refines pid s rng t db :
  represents t db ->
  let '(x, t') := row_rotate pid s rng t in
  let '(y, db') := rotate pid s rng db in x = y /\ represents t' db'.
Proof.
  intros Hrep. pose proof Hrep as (HR & Hn & Ho).
  unfold row_rotate, rotate, rotate_read, rotate_cas, query. rewrite Ho.
  destruct (online db); [|done].
  destruct (related_find _ _ _ _ _ (active_agrees pid) HR) as [row r E|]; [|done].
  destruct (into_record_fields _ _ E) as (_ & _ & -> & _).
  destruct (verify (ag_secret_hash r) s) as [[]|]; [|done|done].
  destruct (hash _ _) as [h|]; [|done].
  rewrite (related_exists _ _ _ _ _ (cas_agrees pid (ag_secret_hash r)) HR).
  destruct (sql_exists _ (agents db)); [|done]. split; [done|]. split; [|apply Hrep].
  apply related_update; [apply cas_agrees|intros; by apply scalar_decodes|done].
Qed.

(** C18: every write does to the rows what it does to the records, with the same
    reply, and every row still decodes. *)
Theorem agent_rows_refine o t db :
  represents t db -> op_stable o ->
  fst (row_exec o t) = agent_reply o db /\ represents (snd (row_exec o t)) (exec o db).
Proof.
  intros Hrep Hs. destruct o as [n d a dl m e rng now|pid c|pid now|pid s rng|pid now|pid a d m e]; simpl.
  - pose proof (create_refines n d a dl m e rng now t db Hrep) as C.
    destruct (row_create _ _ _ _ _ _ _ _ t), (create _ _ _ _ _ _ _ _ db).
    destruct C as [-> C]; [by intros v ->|done].
  - pose proof (update_refines _ _ _ _ t db Hrep (by_id_agrees pid)
      (fun row r E => proj1 (scalar_decodes row r E) c)) as U.
    unfold row_set_cert_identity, set_cert_identity.
    destruct (row_update_or_not_found _ _ t), (update_or_not_found _ _ db). by destruct U as [-> U].
  - pose proof (update_refines _ _ _ _ t db Hrep (by_id_agrees pid)
      (fun row r E => proj1 (proj2 (scalar_decodes row r E)) (Some now))) as U.
    unfold row_revoke, revoke.
    destruct (row_update_or_not_found _ _ t), (update_or_not_found _ _ db). by destruct U as [-> U].
  - pose proof (rotate_refines pid s rng t db Hrep) as C.
    destruct (row_rotate _ _ _ t), (rotate _ _ _ db). by destruct C as [-> C].
  - pose proof Hrep as (HR & Hn & Ho). unfold row_touch_last_used, touch_last_used, row_query, query.
    rewrite Ho. destruct (online db); [|done]. split; [done|]. split; [|apply Hrep].
    apply related_update; [apply by_id_agrees|intros; by apply scalar_decodes|done].
  - unfold row_update_policy, update_policy. destruct (_ && _); [done|].
    pose proof (update_refines _ _ _ _ t db Hrep (by_id_agrees pid)
      (fun row r => policy_decodes a d m e row r (fun v Hv => ltac:(subst; exact Hs)))) as U.
    destruct (row_update_or_not_found _ _ t), (update_or_not_found _ _ db). by destruct U as [-> U].
Qed.

(** And every read answers as the record level does. *)
Lemma fetch_refines p q t db :
  represents t db -> (forall row r, into_record row = Ok r -> p row = q r) ->
  fetch_record p t = if online db then Ok (find_first q (agents db)) else Err Sqlx.
Proof.
  intros (HR & Hn & Ho) Hp. unfold fetch_record. rewrite Ho. destruct (online db); [|done].
  destruct (related_find _ _ _ _ _ Hp HR) as [row r E|]; [|done]. by rewrite E.
Qed.

Theorem agent_reads_refine t db :
  represents t db ->
  (forall pid, row_get_active_by_public_id pid t = get_active_by_public_id pid db) /\
  (forall n, row_get_by_name n t = get_by_name n db) /\
  (forall i, row_get_by_cert_identity i t = get_by_cert_identity i db) /\
  (forall all, row_list all t = list_agents all db).
Proof.
  intros Hrep. split_and!.
  - intros pid. apply fetch_refines; [done|]. apply active_agrees.
  - intros n. apply fetch_refines; [done|]. by intros row r (_ & -> & _)%into_record_fields.
  - intros i. apply fetch_refines; [done|].
    by intros row r (_ & _ & _ & -> & _ & ->)%into_record_fields.
  - intros all. destruct Hrep as (HR & Hn & Ho). unfold row_list, list_agents. rewrite Ho.
    destruct (online db); [|done]. apply map_results_ok, related_sort.
    + intros a b a' b' (_ & _ & _ & _ & Ea & _)%into_record_fields
        (_ & _ & _ & _ & Eb & _)%into_record_fields.
      unfold newer_row, newest_first. by rewrite Ea, Eb.
    + apply related_filter; [|done]. by intros row r (_ & _ & _ & _ & _ & ->)%into_record_fields.
Qed.
End Rows.

(** ** Bootstrap tokens: the scope column *)

Definition scope_value (s : BootstrapScope) : Json :=
  json_obj [("tool_allowlist", json_opt names_json (sc_tool_allowlist s));
            ("expires_at", json_opt JInt (sc_expires_at s));
            ("single_use", JBool (sc_single_use s))].

Definition opt_field {A} (de : Json -> option A) (o : option Json) : option (option A) :=
  match o with
  | None | Some JNull => Some None
  | Some j => Some <$> de j
  end.

Definition de_i64 (j : Json) : option Z :=
  match j with
  | JInt z => if (- 9223372036854775808 <=? z) && (z <=? 9223372036854775807) then Some z else None
  | _ => None
  end.

Definition de_json_bool (j : Json) : option bool := match j with JBool b => Some b | _ => None end.

(** The derived [Deserialize] of [BootstrapScope]: an object with unknown
    fields ignored, or the fields in order. *)
Definition de_scope (j : Json) : option BootstrapScope :=
  let fields := match j with
                | JObject m => Some (obj_get "tool_allowlist" m, obj_get "expires_at" m, obj_get "single_use" m)
                | JArray [a; e; u] => Some (Some a, Some e, Some u)
                | _ => None
                end in
  let* (a, e, u) := fields in
  let* allow := opt_field de_strings a in
  let* expires := opt_field de_i64 e in
  let* single := u ≫= de_json_bool in
  Some {| sc_tool_allowlist := allow; sc_expires_at := expires; sc_single_use := single |}.

Definition in_i64 (z : Z) : Prop := - 9223372036854775808 <= z <= 9223372036854775807.

Lemma de_scope_json s :
  (forall e, sc_expires_at s = Some e -> in_i64 e) -> de_scope (scope_value s) = Some s.
Proof.
  intros He. destruct s as [allow expires single]. unfold de_scope, scope_value. simpl in *.
  destruct allow as [l|], expires as [e|]; simpl; rewrite ?(de_strings_json l : json_strings _ = _);
    simpl; try done; specialize (He e eq_refl); unfold in_i64 in He;
    by rewrite (proj2 (Z.leb_le _ _) (proj1 He)), (proj2 (Z.leb_le _ _) (proj2 He)).
Qed.

Record BootstrapRow := {
  br_id : Z;
  br_public_id : string;
  br_scope : string;
  br_created_by : string;
  br_created_at : Z;
  br_expires_at : option Z;
  br_used_at : option Z;
  br_used_by_agent_id : option Z;
  br_revoked_at : option Z
}.

Section BootstrapRows.
Context `{SerdeJson}.

(** The record of the model carries the hash, which [list] does not select. *)
Definition bootstrap_into_record (secret_hash : string) (row : BootstrapRow)
  : result RepoError BootstrapTokenRecord :=
  match from_slice (br_scope row) ≫= de_scope with
  | None => Err JsonError
  | Some scope =>
      Ok {| bt_id := br_id row; bt_public_id := br_public_id row; bt_secret_hash := secret_hash;
            bt_scope := scope; bt_created_by := br_created_by row; bt_created_at := br_created_at row;
            bt_expires_at := br_expires_at row; bt_used_at := br_used_at row;
            bt_used_by_agent_id := br_used_by_agent_id row; bt_revoked_at := br_revoked_at row |}
  end.

(** The row [mint] inserts for a record. *)
Definition bootstrap_row (r : BootstrapTokenRecord) : BootstrapRow :=
  {| br_id := bt_id r; br_public_id := bt_public_id r; br_scope := to_vec (scope_value (bt_scope r));
     br_created_by := bt_created_by r; br_created_at := bt_created_at r;
     br_expires_at := bt_expires_at r; br_used_at := bt_used_at r;
     br_used_by_agent_id := bt_used_by_agent_id r; br_revoked_at := bt_revoked_at r |}.

(** A stored token reads back as it was minted. *)
Lemma bootstrap_row_roundtrip r :
  stable (scope_value (bt_scope r)) -> (forall e, sc_expires_at (bt_scope r) = Some e -> in_i64 e) ->
  bootstrap_into_record (bt_secret_hash r) (bootstrap_row r) = Ok r.
Proof.
  intros Hs He. unfold bootstrap_into_record. simpl. rewrite Hs. simpl. rewrite de_scope_json by done.
  by destruct r.
Qed.
End BootstrapRows.

(** One row with a text that does not parse makes the whole listing fail. *)
Lemma corrupt_row_fails_list `{SerdeJson} t row text :
  at_online t = true -> row ∈ at_rows t -> row_active row = true ->
  ar_tool_allowlist row = Some text -> from_slice text = None ->
  exists e, row_list false t = Err e.
Proof.
  intros Ho Hin Ha Ht Hf. unfold row_list. rewrite Ho.
  assert (Hm : row ∈ merge_sort newer_row (List.filter (fun r => false || row_active r) (at_rows t))).
  { rewrite merge_sort_Permutation. apply list_elem_of_In, filter_In. by rewrite <- list_elem_of_In. }
  assert (E : into_record row = Err JsonError) by (unfold into_record; rewrite Ht; simpl; by rewrite Hf).
  revert Hm. generalize (merge_sort newer_row (List.filter (fun r => false || row_active r) (at_rows t))).
  intros l. induction l as [|x l IH]; [by intros ?%not_elem_of_nil|]. simpl.
  intros [<-|Hm]%elem_of_cons; [rewrite E; by eexists|].
  destruct (into_record x); [|by eexists]. destruct (IH Hm) as [e ->]. by eexists.
Qed.

(** ** Witness *)

Module AgentRowsWitness.
Import Base64Model Argon2Model.

(** A printer and parser for lists of strings: every character is announced
    by a one and every end by a zero. *)
Fixpoint enc_str (s : string) : string :=
  match s with EmptyString => "0" | String c s => String "1" (String c (enc_str s)) end.
Fixpoint enc_list (l : list string) : string :=
  match l with [] => "0" | s :: l => String "1" (enc_str s +:+ enc_list l) end.

Fixpoint dec (acc : list string) (cur : option string) (s : string) : option (list string) :=
  match s with
  | EmptyString => None
  | String b s' =>
      match cur with
      | None => if is_char "0" b then Some acc else dec acc (Some "") s'
      | Some w =>
          if is_char "0" b then dec (acc ++ [w]) None s'
          else match s' with
               | EmptyString => None
               | String c s'' => dec acc (Some (w +:+ String c "")) s''
               end
      end
  end.

#[export] Instance list_json : SerdeJson :=
  {| from_slice s := names_json <$> dec [] None s;
     to_vec j := match de_strings j with Some l => enc_list l | None => "" end |}.

Lemma app_assoc_str (a b c : string) : (a +:+ b) +:+ c = a +:+ (b +:+ c).
Proof. induction a; simpl; congruence. Qed.

Lemma app_nil_str (a : string) : a +:+ "" = a.
Proof. induction a; simpl; congruence. Qed.

Lemma dec_str acc w s r : dec acc (Some w) (enc_str s +:+ r) = dec (acc ++ [w +:+ s]) None r.
Proof.
  revert w. induction s as [|c s IH]; intros w; simpl; [by rewrite app_nil_str|].
  rewrite IH. by rewrite app_assoc_str.
Qed.

Lemma dec_list acc l : dec acc None (enc_list l) = Some (acc ++ l).
Proof.
  revert acc. induction l as [|s l IH]; intros acc; simpl; [by rewrite app_nil_r|].
  rewrite dec_str, IH. by rewrite <- app_assoc.
Qed.

Lemma lists_stable l : stable (names_json l).
Proof. unfold stable. simpl. rewrite (de_strings_json l : json_strings _ = _), dec_list. done. Qed.

Definition rng0 : Entropy := {| id_bytes := "id"; secret_bytes := "secret"; salt := "salt" |}.

Definition op0 : AgentOp := OpCreate "bot" None (Some ["gh"; "lf"]) None None None rng0 100.
Definition op1 (pid : string) : AgentOp := OpPolicy pid (Some None) (Some (Some ["aws"])) None None.

Definition table0 : AgentTable := {| at_rows := []; at_next_id := 1; at_online := true |}.
Definition db0 : AgentDb := {| agents := []; next_id := 1; online := true |}.

Lemma empty_represents : represents table0 db0.
Proof. split; [constructor|done]. Qed.

Definition table1 : AgentTable := snd (row_exec op0 table0).

Example table1_column : ar_tool_allowlist <$> at_rows table1 = [Some "11g1h011l1f00"].
Proof. vm_compute. reflexivity. Qed.

Lemma agent_rows_refine_witness :
  fst (row_exec op0 table0) = agent_reply op0 db0 /\ represents table1 (exec op0 db0).
Proof. apply agent_rows_refine; [apply lists_stable|apply empty_represents|exact I]. Defined.

Lemma agent_reads_refine_witness :
  row_list true table0 = list_agents true db0 /\ row_get_by_name "bot" table0 = get_by_name "bot" db0.
Proof.
  destruct (agent_reads_refine table0 db0 empty_represents) as (_ & N & _ & L).
  split; [apply L|apply N].
Defined.
End AgentRowsWitness.
