(* ===== verification/Calendar.v ===== *)
(** * UTC dates ([src/audit_sink.rs])

    The conversion of Unix seconds to a civil date that names the audit
    sink's daily files, with the Gregorian calendar as its reference. *)

From S2P Require Import Prelude.

Definition as_i32 (z : Z) : Z := (z + 2147483648) mod 4294967296 - 2147483648.
Definition as_u32 (z : Z) : Z := z mod 4294967296.

(** Signed division truncates ([Z.quot]); the unsigned one is [Z.div]. *)
Definition ymd_from_unix_secs (secs : Z) : Z * Z * Z :=
  let days := secs / 86400 in
  let z := days + 719468 in
  let era := if 0 <=? z then Z.quot z 146097 else Z.quot (z - 146096) 146097 in
  let doe := as_u64 (z - era * 146097) in
  let yoe := (doe - doe / 1460 + doe / 36524 - doe / 146096) / 365 in
  let y := as_i64 yoe + era * 400 in
  let doy := doe - (365 * yoe + yoe / 4 - yoe / 100) in
  let mp := (5 * doy + 2) / 153 in
  let d := doy - (153 * mp + 2) / 5 + 1 in
  let m := if mp <? 10 then mp + 3 else mp - 9 in
  let year := as_i32 (y + (if m <=? 2 then 1 else 0)) in
  (year, as_u32 m, as_u32 d).

(** [{:0w}]: zero padding, after the sign. *)
Fixpoint zeros (n : nat) : string :=
  match n with O => "" | S n' => "0" +:+ zeros n' end.

Definition fmt_padded (w : nat) (z : Z) : string :=
  let digits := pretty.pretty (Z.abs z) in
  let sign := if z <? 0 then "-" else "" in
  sign +:+ zeros (w - String.length sign - String.length digits) +:+ digits.

(** [now] is the clock in seconds since the epoch; a clock before it reads 0. *)
Definition utc_date (now : Z) : string :=
  let secs := if 0 <=? now then as_i64 now else 0 in
  let '(y, m, d) := ymd_from_unix_secs secs in
  fmt_padded 4 y +:+ "-" +:+ fmt_padded 2 m +:+ "-" +:+ fmt_padded 2 d.

(** The Gregorian calendar: the date after a date. *)
Definition is_leap (y : Z) : bool :=
  (y mod 4 =? 0) && (negb (y mod 100 =? 0) || (y mod 400 =? 0)).

Definition month_length (y m : Z) : Z :=
  if m =? 2 then (if is_leap y then 29 else 28)
  else if (m =? 4) || (m =? 6) || (m =? 9) || (m =? 11) then 30 else 31.

Definition next_day (date : Z * Z * Z) : Z * Z * Z :=
  let '(y, m, d) := date in
  if d <? month_length y m then (y, m, d + 1)
  else if m <? 12 then (y, m + 1, 1) else (y + 1, 1, 1).

Definition valid_date (date : Z * Z * Z) : Prop :=
  let '(y, m, d) := date in 0 <= y /\ 1 <= m <= 12 /\ 1 <= d <= month_length y m.

(** Days since the epoch of a date. *)
Definition day_number (date : Z * Z * Z) : Z :=
  let '(y, m, d) := date in
  let y' := if m <=? 2 then y - 1 else y in
  let mp := if m <=? 2 then m + 9 else m - 3 in
  365 * y' + y' / 4 - y' / 100 + y' / 400 + (153 * mp + 2) / 5 + d - 1 - 719468.

Lemma is_leap_spec y :
  is_leap y = true <-> y mod 4 = 0 /\ (y mod 100 <> 0 \/ y mod 400 = 0).
Proof. unfold is_leap. rewrite andb_true_iff, orb_true_iff, negb_true_iff. lia. Qed.

(** Evaluate the comparisons of numerals. *)
Ltac eval_cmp :=
  repeat match goal with
  | |- context [?a <=? ?b] => let v := eval vm_compute in (a <=? b) in change (a <=? b) with v
  | |- context [?a <? ?b] => let v := eval vm_compute in (a <? b) in change (a <? b) with v
  | |- context [?a =? ?b] => let v := eval vm_compute in (a =? b) in change (a =? b) with v
  end.

Ltac month_cases m :=
  let Hm := fresh in
  assert (Hm : m = 1 \/ m = 2 \/ m = 3 \/ m = 4 \/ m = 5 \/ m = 6 \/ m = 7 \/ m = 8 \/
               m = 9 \/ m = 10 \/ m = 11 \/ m = 12) by lia;
  destruct Hm as [->|[->|[->|[->|[->|[->|[->|[->|[->|[->|[->| ->]]]]]]]]]]].

Lemma next_day_valid date : valid_date date -> valid_date (next_day date).
Proof.
  destruct date as [[y m] d]. unfold next_day, valid_date. intros (Hy & Hm & Hd).
  destruct (Z.ltb_spec d (month_length y m)); [lia|].
  destruct (Z.ltb_spec m 12); [|cbn; lia].
  repeat split; try lia. unfold month_length. repeat case_match_goal; lia.
Qed.

Lemma next_day_number date :
  valid_date date -> day_number (next_day date) = day_number date + 1.
Proof.
  destruct date as [[y m] d]. unfold next_day, valid_date. intros (Hy & Hm & Hd).
  destruct (Z.ltb_spec d (month_length y m)) as [Hlt|Hge]; [cbn -[Z.div Z.mul]; lia|].
  assert (E : d = month_length y m) by lia. subst d. clear Hd Hge. unfold month_length.
  destruct (is_leap y) eqn:L;
    [apply is_leap_spec in L | apply not_true_iff_false in L; rewrite is_leap_spec in L];
    month_cases m; unfold day_number; do 2 (eval_cmp; cbv beta iota zeta delta [orb]);
    Z.div_mod_to_equations; lia.
Qed.

(** The year of a 400-year era is recovered from the day in the era. *)
Lemma year_of_era yoe doy :
  0 <= yoe < 400 -> 0 <= doy <= 365 ->
  (doy = 365 -> (yoe + 1) mod 4 = 0 /\ ((yoe + 1) mod 100 <> 0 \/ yoe = 399)) ->
  let doe := 365 * yoe + yoe / 4 - yoe / 100 + doy in
  0 <= doe < 146097 /\
  (doe - doe / 1460 + doe / 36524 - doe / 146096) / 365 = yoe.
Proof. intros H1 H2 H3 doe. subst doe. Z.div_mod_to_equations. lia. Qed.

(** March-based months: the last day of one is the day before the next. *)
Lemma doy_of_date y m d :
  1 <= m <= 12 -> 1 <= d <= month_length y m ->
  let mp := if m <=? 2 then m + 9 else m - 3 in
  let doy := (153 * mp + 2) / 5 + d - 1 in
  0 <= doy <= 365 /\ (doy = 365 -> is_leap y = true /\ m = 2) /\
  (5 * doy + 2) / 153 = mp /\ doy - (153 * mp + 2) / 5 + 1 = d /\
  (if mp <? 10 then mp + 3 else mp - 9) = m.
Proof.
  unfold month_length. intros Hm Hd.
  month_cases m; revert Hd; eval_cmp; cbv beta iota zeta delta [orb]; eval_cmp;
    try destruct (is_leap y); intros Hd; repeat split; intros; try done;
    Z.div_mod_to_equations; lia.
Qed.

Lemma leap_yoe y yoe :
  is_leap y = true -> yoe = (y - 1) mod 400 ->
  (yoe + 1) mod 4 = 0 /\ ((yoe + 1) mod 100 <> 0 \/ yoe = 399).
Proof.
  intros [H4 H]%is_leap_spec ->. set (k := (y - 1) / 400).
  assert (E : (y - 1) mod 400 + 1 = y + 100 * (- 4 * k))
    by (subst k; pose proof (Z.div_mod (y - 1) 400); lia).
  rewrite E. split.
  - replace (100 * (-4 * k)) with ((-100 * k) * 4) by lia. by rewrite Z.mod_add.
  - destruct H as [H|H]; [left|right].
    + replace (100 * (-4 * k)) with ((-4 * k) * 100) by lia. by rewrite Z.mod_add.
    + Z.div_mod_to_equations; lia.
Qed.

Lemma ymd_day_number secs date :
  valid_date date -> date.1.1 < 2147483648 -> secs / 86400 = day_number date ->
  0 <= secs / 86400 -> ymd_from_unix_secs secs = date.
Proof.
  destruct date as [[y m] d]. unfold valid_date. cbn [fst]. intros (Hy & Hm & Hd) Hy31 E H0.
  pose proof (doy_of_date y m d Hm Hd) as (Hdoy & Hleap & Emp & Ed & Em).
  unfold ymd_from_unix_secs. rewrite E in *. clear E secs. unfold day_number in *. cbv zeta in *.
  set (y' := if m <=? 2 then y - 1 else y) in *.
  set (mp := if m <=? 2 then m + 9 else m - 3) in *.
  set (doy := (153 * mp + 2) / 5 + d - 1) in *.
  set (yoe := y' mod 400). set (era := y' / 400).
  set (doe := 365 * yoe + yoe / 4 - yoe / 100 + doy).
  assert (Hyy : y' = if m <=? 2 then y - 1 else y) by done.
  assert (Hdd : (153 * mp + 2) / 5 = doy - d + 1) by lia.
  rewrite Hdd in H0 |- *.
  assert (Hy' : 0 <= y') by (clearbody y' doy; clear -H0 Hdoy; Z.div_mod_to_equations; lia).
  assert (Hl : doy = 365 -> (yoe + 1) mod 4 = 0 /\ ((yoe + 1) mod 100 <> 0 \/ yoe = 399)).
  { intros [L Em2]%Hleap. rewrite Em2 in Hyy. apply (leap_yoe y); [done|].
    subst yoe. by rewrite Hyy. }
  assert (Hyoe : 0 <= yoe < 400) by (subst yoe; apply Z.mod_pos_bound; lia).
  pose proof (year_of_era yoe doy Hyoe Hdoy Hl) as [Hdoe Eyoe].
  fold doe in Hdoe, Eyoe.
  assert (Ez : 365 * y' + y' / 4 - y' / 100 + era + (doy - d + 1) + d - 1 - 719468
               + 719468 = era * 146097 + doe).
  { subst doe era yoe. clearbody y' doy. clear. Z.div_mod_to_equations; lia. }
  rewrite Ez. clear Ez H0.
  assert (Hera : 0 <= era) by (subst era; apply Z.div_pos; lia).
  rewrite (proj2 (Z.leb_le 0 _)) by lia.
  rewrite Z.quot_div_nonneg by lia.
  rewrite Z.div_add_l by lia. rewrite (Z.div_small doe) by lia. rewrite Z.add_0_r.
  replace (era * 146097 + doe - era * 146097) with doe by lia.
  unfold as_u64, as_i64, as_i32, as_u32, two64, two63.
  rewrite (Z.mod_small doe) by lia. rewrite Eyoe.
  replace (doe - (365 * yoe + yoe / 4 - yoe / 100)) with doy by lia.
  rewrite Emp, Hdd. replace (doy - (doy - d + 1) + 1) with d by lia. rewrite Em.
  assert (d <= 31) by (clear -Hd; revert Hd; unfold month_length; repeat case_match_goal; lia).
  rewrite (Z.mod_small m), (Z.mod_small d), (Z.mod_small (yoe + _)) by lia.
  replace (yoe + 9223372036854775808 - 9223372036854775808 + era * 400) with y'
    by (subst yoe era; clearbody y'; clear; Z.div_mod_to_equations; lia).
  f_equal; f_equal. rewrite Hyy. rewrite Z.mod_small; destruct (m <=? 2); lia.
Qed.

Lemma calendar_day n :
  let date := Nat.iter n next_day (1970, 1, 1) in
  valid_date date /\ day_number date = Z.of_nat n.
Proof.
  cbv zeta. induction n as [|n [IH1 IH2]]; [split; [repeat split; by vm_compute|done]|].
  change (Nat.iter (S n) next_day (1970, 1, 1))
    with (next_day (Nat.iter n next_day (1970, 1, 1))).
  split; [by apply next_day_valid|]. rewrite next_day_number by done. lia.
Qed.

Lemma day_number_year date : valid_date date -> 365 * date.1.1 <= day_number date + 720000.
Proof.
  destruct date as [[y m] d]. unfold valid_date, day_number. cbn [fst]. intros (Hy & Hm & Hd).
  assert (0 <= (153 * (if m <=? 2 then m + 9 else m - 3) + 2) / 5).
  { apply Z.div_pos; [|lia]. destruct (Z.leb_spec m 2); lia. }
  destruct (m <=? 2); Z.div_mod_to_equations; lia.
Qed.

(** The date of a Unix time is the Gregorian calendar run from 1 January 1970
    for as many days as have passed. *)
Theorem ymd_gregorian secs :
  0 <= secs < 2 ^ 55 ->
  ymd_from_unix_secs secs = Nat.iter (Z.to_nat (secs / 86400)) next_day (1970, 1, 1).
Proof.
  intros Hs. assert (H0 : 0 <= secs / 86400) by (apply Z.div_pos; lia).
  destruct (calendar_day (Z.to_nat (secs / 86400))) as [Hv Hn].
  rewrite Z2Nat.id in Hn by done.
  apply ymd_day_number; [done| |by rewrite Hn|done].
  pose proof (day_number_year _ Hv). rewrite Hn in H.
  assert (secs / 86400 < 2 ^ 39) by (apply Z.div_lt_upper_bound; lia). lia.
Qed.

Module CalendarWitness.

Lemma ymd_gregorian_witness :
  ymd_from_unix_secs 5184001 = Nat.iter 60 next_day (1970, 1, 1) /\
  ymd_from_unix_secs 5184001 = (1970, 3, 2).
Proof. split; [apply (ymd_gregorian 5184001); lia | vm_compute; reflexivity]. Defined.

End CalendarWitness.
