(* ===== verification/AuditSink.v ===== *)
(** * The JSONL audit sink ([src/audit_sink.rs])

    The choice of a file, appending with its two rotations, and pruning,
    over a model of the sink's directory: names bound to inodes, inodes holding bytes and a
    modification time, so that an open file that has been unlinked is still
    the file being written.  What the operating system answers to one call
    (clock, failures, listing order) is the argument [Io].  File names are
    taken to be UTF-8. *)

From S2P Require Import Prelude Json Token Argon2Helper AgentRepo AuditLog.
From S2P Require Import Calendar.

(** ** The directory *)

Record Inode := { content : string; mtime : Z }.

(** The parent directory of the sink's base path. *)
Record Fs := {
  dir : list (string * nat);
  inodes : gmap nat Inode;
  next_ino : nat
}.

Definition dir_lookup (name : string) (fs : Fs) : option nat :=
  snd <$> find_first (fun kv => bool_decide (kv.1 = name)) (dir fs).

Definition exists_file (name : string) (fs : Fs) : bool := isSome (dir_lookup name fs).

(** What the operating system answers during one call. *)
Record Io := {
  now : Z;
  stamp : Z;
  can_create_dir : bool;
  can_open : string -> bool;
  can_stat : string -> bool;
  write_failure : option nat;
  can_read_dir : bool;
  listing : list (string * nat) -> list (string * nat);
  can_remove : string -> bool
}.

(** [OpenOptions::new().create(true).append(true).open(path)]. *)
Definition open_append (io : Io) (name : string) (fs : Fs) : option nat * Fs :=
  if can_open io name then
    match dir_lookup name fs with
    | Some ino => (Some ino, fs)
    | None =>
        (Some (next_ino fs),
         {| dir := dir fs ++ [(name, next_ino fs)];
            inodes := <[next_ino fs := {| content := ""; mtime := stamp io |}]> (inodes fs);
            next_ino := S (next_ino fs) |})
    end
  else (None, fs).

Definition file_len (ino : nat) (fs : Fs) : Z :=
  match inodes fs !! ino with
  | Some f => Z.of_nat (String.length (content f))
  | None => 0
  end.

(** [write_all] through an append handle: everything, or a prefix and an
    error. *)
Definition write_all (io : Io) (ino : nat) (line : string) (fs : Fs) : bool * Fs :=
  let put bytes :=
    {| dir := dir fs;
       inodes := alter (fun f => {| content := content f +:+ bytes; mtime := stamp io |}) ino
                       (inodes fs);
       next_ino := next_ino fs |} in
  match write_failure io with
  | None => (true, put line)
  | Some n => (false, put (str_take n line))
  end.

(** [remove_file]: the name goes, an open handle keeps the inode. *)
Definition remove_file (io : Io) (name : string) (fs : Fs) : Fs :=
  if can_remove io name
  then {| dir := List.filter (fun kv => negb (bool_decide (kv.1 = name))) (dir fs);
          inodes := inodes fs; next_ino := next_ino fs |}
  else fs.

(** ** The sink *)

(** A base path as the code looks at it: [parent()] and the text of
    [file_name()]. *)
Record BasePath := { parent : option string; file_name : option string }.

Record JsonlSinkConfig := { cfg_path : BasePath; max_bytes : Z; keep_files : nat }.

Record SinkState := { file : option nat; written : Z; today : string }.

Record JsonlSink := { cfg : JsonlSinkConfig; state : SinkState }.

Definition stem_of (base : BasePath) : string := default "audit.jsonl" (file_name base).

Definition active_path (base : BasePath) (day : string) : string :=
  stem_of base +:+ "." +:+ day.

Definition overflow_path (base : BasePath) (day : string) (i : nat) : string :=
  stem_of base +:+ "." +:+ day +:+ "." +:+ pretty.pretty (N.of_nat i).

Definition next_target (base : BasePath) (day : string) (fs : Fs) : string :=
  let primary := active_path base day in
  if negb (exists_file primary fs) then primary
  else match find_first (fun i => negb (exists_file (overflow_path base day i) fs))
                        (seq 1 (Z.to_nat 10000)) with
       | Some i => overflow_path base day i
       | None => primary
       end.

(** [sort_by_key], which is stable. *)
Fixpoint insert_by_time (x : Z * string) (l : list (Z * string)) : list (Z * string) :=
  match l with
  | [] => [x]
  | y :: l' => if x.1 <=? y.1 then x :: l else y :: insert_by_time x l'
  end.

Definition sort_by_time (l : list (Z * string)) : list (Z * string) :=
  foldr insert_by_time [] l.

(** The rotated files of the listing with their modification times. *)
Definition stem_files (io : Io) (stem : string) (fs : Fs) : list (Z * string) :=
  omap (fun kv =>
          if starts_with stem kv.1 && can_stat io kv.1
          then (fun f => (mtime f, kv.1)) <$> inodes fs !! kv.2
          else None)
       (listing io (dir fs)).

Definition prune_oldest (io : Io) (base : BasePath) (keep : nat) (fs : Fs) : Fs :=
  if (keep =? 0)%nat then fs
  else match parent base with
       | None => fs
       | Some p =>
           if bool_decide (p = "") then fs
           else match file_name base with
                | None => fs
                | Some stem =>
                    if negb (can_read_dir io) then fs
                    else
                      let files := stem_files io stem fs in
                      if (List.length files <=? keep)%nat then fs
                      else
                        let to_remove := (List.length files - keep)%nat in
                        fold_left (fun fs kv => remove_file io kv.2 fs)
                                  (take to_remove (sort_by_time files)) fs
                end
       end.

Definition rotate_to (io : Io) (day : string) (s : JsonlSink) (fs : Fs) : JsonlSink * Fs :=
  let candidate := next_target (cfg_path (cfg s)) day fs in
  let '(st, fs') :=
    match open_append io candidate fs with
    | (Some ino, fs') =>
        ({| file := Some ino;
            written := if can_stat io candidate then file_len ino fs' else 0;
            today := day |}, fs')
    | (None, fs') => ({| file := None; written := 0; today := day |}, fs')
    end in
  ({| cfg := cfg s; state := st |},
   prune_oldest io (cfg_path (cfg s)) (keep_files (cfg s)) fs').

Inductive IoError := NoParent | CreateDir | Open | Metadata.

(** [JsonlSink::new]. *)
Definition new_sink (io : Io) (c : JsonlSinkConfig) (fs : Fs) : result IoError JsonlSink * Fs :=
  match parent (cfg_path c) with
  | None => (Err NoParent, fs)
  | Some p =>
      if negb (bool_decide (p = "")) && negb (can_create_dir io) then (Err CreateDir, fs)
      else
        let day := utc_date (now io) in
        let active := active_path (cfg_path c) day in
        match open_append io active fs with
        | (None, fs') => (Err Open, fs')
        | (Some ino, fs') =>
            if can_stat io active
            then (Ok {| cfg := c;
                        state := {| file := Some ino; written := file_len ino fs';
                                    today := day |} |}, fs')
            else (Err Metadata, fs')
        end
  end.

Section Append.
Context `{SerdeJson}.

Definition serialize (e : AuditEvent) : string :=
  to_vec (json_obj
    [("ts_ms", JInt (ts_ms e));
     ("event_class", JString (event_class_as_str (event_class e)));
     ("event", JString (event e));
     ("agent_public_id", json_opt JString (agent_public_id e));
     ("operator_name", json_opt JString (operator_name e));
     ("tool", json_opt JString (tool e));
     ("upstream_host", json_opt JString (upstream_host e));
     ("method", json_opt JString (method e));
     ("path", json_opt JString (path e));
     ("status", json_opt JInt (status e));
     ("latency_ms", json_opt JInt (latency_ms e));
     ("decision", JString (decision_as_str (decision e)));
     ("auth_method", json_opt JString (auth_method e));
     ("origin_ip", json_opt JString (origin_ip e));
     ("details", json_opt id (details e))])
  +:+ String (ascii_of_N 10) "".

Definition line_len (line : string) : Z := Z.of_nat (String.length line).

(** The write at the end of [append]: a failed one closes the file. *)
Definition append_open (io : Io) (line : string) (s : JsonlSink) (fs : Fs) : JsonlSink * Fs :=
  let st := state s in
  match file st with
  | Some ino =>
      let '(ok, fs') := write_all io ino line fs in
      let st' :=
        if ok then {| file := file st;
                      written := saturating_add (written st) (line_len line);
                      today := today st |}
        else {| file := None; written := written st; today := today st |} in
      ({| cfg := cfg s; state := st' |}, fs')
  | None => (s, fs)
  end.

(** [JsonlSink::append] under the state's lock. *)
Definition append (io : Io) (e : AuditEvent) (s : JsonlSink) (fs : Fs) : JsonlSink * Fs :=
  let line := serialize e in
  let day := utc_date (now io) in
  let '(s, fs) :=
    if bool_decide (day <> today (state s)) then rotate_to io day s fs else (s, fs) in
  let would_be := saturating_add (written (state s)) (line_len line) in
  let '(s, fs) :=
    if (max_bytes (cfg s) <? would_be) && (0 <? written (state s))
    then rotate_to io day s fs else (s, fs) in
  append_open io line s fs.

End Append.

(** ** Pruning *)

Lemma sort_by_time_perm l : sort_by_time l ≡ₚ l.
Proof.
  unfold sort_by_time. induction l as [|x l IH]; [done|]. simpl. rewrite <- IH at 2.
  generalize (foldr insert_by_time [] l). intros k. clear. induction k as [|y k IH]; [done|].
  simpl. destruct (_ <=? _); [done|]. rewrite IH. by constructor.
Qed.

Definition older (a b : Z * string) : Prop := a.1 <= b.1.

Lemma sort_by_time_sorted l : StronglySorted older (sort_by_time l).
Proof.
  unfold sort_by_time. induction l as [|x l IH]; [constructor|]. simpl.
  revert IH. generalize (foldr insert_by_time [] l). intros k. clear.
  induction 1 as [|y k Hs IH Hy]; [repeat constructor|]. simpl.
  destruct (Z.leb_spec x.1 y.1) as [Hxy|Hxy].
  - repeat constructor; [done|done|done|]. eapply Forall_impl; [exact Hy|].
    unfold older. intros z. lia.
  - constructor; [done|]. assert (P : insert_by_time x k ≡ₚ x :: k).
    { clear. induction k as [|z k IH]; [done|]. simpl. destruct (_ <=? _); [done|].
      rewrite IH. constructor. }
    rewrite P. constructor; [unfold older; lia|done].
Qed.

Lemma sorted_split n l a b :
  StronglySorted older l -> a ∈ take n l -> b ∈ drop n l -> older a b.
Proof.
  revert n. induction l as [|x l IH]; intros n Hs Ha Hb; [by rewrite drop_nil in Hb; set_solver|].
  destruct n as [|n]; simpl in *; [set_solver|].
  apply StronglySorted_inv in Hs as [Hs Hx]. apply elem_of_cons in Ha as [->|Ha]; [|eauto].
  rewrite Forall_forall in Hx. apply Hx. rewrite <- (take_drop n l), elem_of_app. by right.
Qed.

Lemma filter_filter {A} (p q : A -> bool) l :
  List.filter p (List.filter q l) = List.filter (fun x => q x && p x) l.
Proof.
  induction l as [|x l IH]; [done|]. cbn [List.filter].
  destruct (q x); cbn [List.filter andb]; by rewrite IH.
Qed.

Lemma remove_files_dir io names fs :
  (forall n, can_remove io n = true) ->
  let fs' := fold_left (fun fs (kv : Z * string) => remove_file io kv.2 fs) names fs in
  dir fs' = List.filter (fun kv => negb (bool_decide (kv.1 ∈ names.*2))) (dir fs) /\
  inodes fs' = inodes fs.
Proof.
  intros Hr. cbv zeta. revert fs. induction names as [|[t n] names IH]; intros fs; simpl.
  - split; [|done]. symmetry. induction (dir fs) as [|kv l IHl]; [done|].
    cbn [List.filter negb]. by f_equal.
  - destruct (IH (remove_file io n fs)) as [E1 E2]. unfold remove_file in *.
    rewrite Hr in *. simpl in *. split; [|done]. rewrite E1, filter_filter.
    apply List.filter_ext. intros kv. rewrite <- negb_orb, <- bool_decide_or. f_equal.
    apply bool_decide_ext. clear. set_solver.
Qed.

Definition names_unique (fs : Fs) : Prop := NoDup (dir fs).*1.

Lemma stem_files_names io stem l fs :
  NoDup l.*1 ->
  NoDup (omap (fun kv =>
          if starts_with stem kv.1 && can_stat io kv.1
          then (fun f => (mtime f, kv.1)) <$> inodes fs !! kv.2 else None) l).*2.
Proof.
  induction l as [|kv l IH]; [constructor|]. simpl. intros [Hk Hn]%NoDup_cons.
  destruct (_ && _); [|by apply IH]. destruct (inodes fs !! kv.2); [|by apply IH].
  simpl. constructor; [|by apply IH]. contradict Hk.
  apply list_elem_of_fmap in Hk as ([t n] & -> & Hk).
  apply list_elem_of_omap in Hk as (kv' & Hin & E).
  destruct (_ && _); [|done]. destruct (inodes fs !! kv'.2); simplify_eq/=.
  apply list_elem_of_fmap. eauto.
Qed.

Section Prune.
Context (io : Io) (base : BasePath) (keep : nat) (fs : Fs) (p stem : string).
Context (Hkeep : (0 < keep)%nat) (Hparent : parent base = Some p) (Hp : p <> "").
Context (Hstem : file_name base = Some stem) (Hdir : can_read_dir io = true).
Context (Hremove : forall n, can_remove io n = true).
Context (Hlisting : forall l, listing io l ≡ₚ l) (Hunique : names_unique fs).

Let files := stem_files io stem fs.
Let fs' := prune_oldest io base keep fs.

Lemma prune_oldest_dir :
  let gone := take (List.length files - keep) (sort_by_time files) in
  dir fs' = List.filter (fun kv => negb (bool_decide (kv.1 ∈ gone.*2))) (dir fs) /\
  inodes fs' = inodes fs.
Proof.
  cbv zeta. subst fs' files. unfold prune_oldest.
  rewrite (proj2 (Nat.eqb_neq keep 0)) by lia. rewrite Hparent, Hstem, Hdir.
  rewrite bool_decide_eq_false_2 by done. cbn [negb].
  destruct (Nat.leb_spec (List.length (stem_files io stem fs)) keep) as [Hle|Hgt].
  - replace (_ - keep)%nat with 0%nat by lia. by apply (remove_files_dir io [] fs).
  - by apply remove_files_dir.
Qed.

Lemma filter_keeps {A} (q : A -> bool) l :
  (forall x, x ∈ l -> q x = true) -> List.filter q l = l.
Proof.
  induction l as [|x l IH]; [done|]. cbn [List.filter]. intros Hq.
  rewrite Hq by left. f_equal. apply IH. intros y Hy. apply Hq. by right.
Qed.

Lemma filter_drops {A} (q : A -> bool) l :
  (forall x, x ∈ l -> q x = false) -> List.filter q l = [].
Proof.
  induction l as [|x l IH]; [done|]. cbn [List.filter]. intros Hq.
  rewrite Hq by left. apply IH. intros y Hy. apply Hq. by right.
Qed.

Lemma filter_perm {A} (q : A -> bool) l k : l ≡ₚ k -> List.filter q l ≡ₚ List.filter q k.
Proof.
  induction 1; simpl; repeat case_match_goal; try (constructor; done); try done.
  by etransitivity.
Qed.

Lemma omap_filter_names {B} (f : string * nat -> option (B * string)) q l :
  (forall kv b, f kv = Some b -> b.2 = kv.1) ->
  omap f (List.filter (fun kv => q kv.1) l) = List.filter (fun b => q b.2) (omap f l).
Proof.
  intros Hf. induction l as [|kv l IH]; [done|]. cbn [List.filter].
  destruct (f kv) as [b|] eqn:Ef; [pose proof (Hf _ _ Ef) as Eb|]; destruct (q kv.1) eqn:Eq;
    cbn; rewrite Ef; cbn; rewrite ?Eb, ?Eq; try f_equal; apply IH.
Qed.

(** After pruning the newest [keep] files remain. *)
Lemma prune_oldest_files :
  stem_files io stem fs' ≡ₚ drop (List.length files - keep) (sort_by_time files).
Proof.
  destruct prune_oldest_dir as [E1 E2].
  assert (Hnd : NoDup (sort_by_time files).*2).
  { rewrite sort_by_time_perm. apply stem_files_names. by rewrite Hlisting. }
  unfold stem_files at 1. rewrite E1, E2, Hlisting.
  set (g := take _ _) in *.
  pose (q := fun n : string => negb (bool_decide (n ∈ g.*2))).
  change (List.filter _ (dir fs)) with (List.filter (fun kv => q kv.1) (dir fs)).
  rewrite (omap_filter_names _ q).
  2: { intros kv b. destruct (_ && _); [|done]. destruct (inodes fs !! kv.2); by intros [= <-]. }
  rewrite (filter_perm _ _ (sort_by_time files)).
  2: { rewrite sort_by_time_perm. subst files. unfold stem_files. by rewrite Hlisting. }
  rewrite <- (take_drop (List.length files - keep) (sort_by_time files)) at 1. fold g.
  rewrite <- (take_drop (List.length files - keep) (sort_by_time files)) in Hnd. fold g in Hnd.
  rewrite fmap_app in Hnd. apply NoDup_app in Hnd as (_ & Hdis & _).
  rewrite List.filter_app.
  replace (List.filter _ g) with (@nil (Z * string)).
  2: { symmetry. apply filter_drops. intros b Hb. subst q. cbn. rewrite bool_decide_eq_true_2; [done|].
       apply list_elem_of_fmap. eauto. }
  rewrite filter_keeps; [done|]. intros b Hb. subst q. cbn. rewrite bool_decide_eq_false_2; [done|].
  intros Hg. apply (Hdis b.2 Hg). apply list_elem_of_fmap. eauto.
Qed.
(** Pruning leaves the newest [keep] of the files of the stem, removes only
    older ones, and touches no other name and no file's bytes. *)
Theorem prune_keeps_newest :
  let files := stem_files io stem fs in
  let left := stem_files io stem (prune_oldest io base keep fs) in
  List.length left = Nat.min keep (List.length files) /\
  (exists gone, files ≡ₚ gone ++ left /\ forall a b, a ∈ gone -> b ∈ left -> a.1 <= b.1) /\
  (forall kv, kv ∈ dir fs -> starts_with stem kv.1 = false ->
     kv ∈ dir (prune_oldest io base keep fs)) /\
  inodes (prune_oldest io base keep fs) = inodes fs.
Proof.
  cbv zeta. destruct prune_oldest_dir as [Ed Ei]. pose proof prune_oldest_files as P.
  fold fs'. fold files. set (n := (List.length files - keep)%nat) in *. split_and!.
  - rewrite P, length_drop, sort_by_time_perm. subst n. lia.
  - exists (take n (sort_by_time files)). split.
    + by rewrite P, take_drop, sort_by_time_perm.
    + intros a b Ha. rewrite P. intros Hb.
      exact (sorted_split n _ a b (sort_by_time_sorted files) Ha Hb).
  - intros kv Hkv Hs. rewrite Ed, list_elem_of_In, filter_In, <- list_elem_of_In.
    split; [done|]. rewrite bool_decide_eq_false_2; [done|].
    intros ([t k] & E & Hin)%list_elem_of_fmap. subst.
    assert (Hf : (t, k) ∈ files).
    { rewrite <- sort_by_time_perm, <- (take_drop n), elem_of_app. by left. }
    apply list_elem_of_omap in Hf as (kv' & _ & E'). simpl in E.
    destruct (starts_with stem kv'.1) eqn:S'; simpl in E'; [|done].
    destruct (can_stat io kv'.1); [|done]. destruct (inodes fs !! kv'.2); simplify_eq/=.
    congruence.
  - done.
Qed.
End Prune.

(** ** Appending *)

Lemma prune_oldest_inodes io base keep fs :
  inodes (prune_oldest io base keep fs) = inodes fs /\
  next_ino (prune_oldest io base keep fs) = next_ino fs.
Proof.
  unfold prune_oldest. repeat case_match_goal; try done.
  generalize (take (List.length (stem_files io s0 fs) - keep)
                   (sort_by_time (stem_files io s0 fs))). intros l. clear.
  revert fs. induction l as [|kv l IH]; intros fs; [done|]. simpl.
  destruct (IH (remove_file io kv.2 fs)) as [-> ->]. unfold remove_file.
  by destruct (can_remove io kv.2).
Qed.

(** Inode numbers below [next_ino] are the ones in use. *)
Definition inodes_fresh (fs : Fs) : Prop :=
  forall ino, isSome (inodes fs !! ino) = true -> (ino < next_ino fs)%nat.

(** [written] is the size of the open file. *)
Definition healthy (s : JsonlSink) (fs : Fs) : Prop :=
  exists ino f, file (state s) = Some ino /\ inodes fs !! ino = Some f /\
    written (state s) = Z.of_nat (String.length (content f)).

Definition no_faults (io : Io) : Prop :=
  (forall n, can_open io n = true) /\ (forall n, can_stat io n = true) /\
  write_failure io = None.

(** The bytes of an inode, none when it does not exist yet. *)
Definition bytes_of (ino : nat) (fs : Fs) : string :=
  match inodes fs !! ino with Some f => content f | None => "" end.

Lemma rotate_to_fresh io day s fs :
  no_faults io -> inodes_fresh fs ->
  exists_file (next_target (cfg_path (cfg s)) day fs) fs = false ->
  let '(s', fs') := rotate_to io day s fs in
  s' = {| cfg := cfg s;
          state := {| file := Some (next_ino fs); written := 0; today := day |} |} /\
  inodes fs' = <[next_ino fs := {| content := ""; mtime := stamp io |}]> (inodes fs) /\
  next_ino fs' = S (next_ino fs).
Proof.
  intros (Ho & Hs & _) Hfresh Hfree. unfold rotate_to, open_append. rewrite Ho.
  unfold exists_file in Hfree. destruct (dir_lookup _ fs) as [?|] eqn:E; [done|].
  rewrite Hs. set (fs1 := {| dir := _; inodes := _; next_ino := _ |}).
  destruct (prune_oldest_inodes io (cfg_path (cfg s)) (keep_files (cfg s)) fs1) as [-> ->].
  unfold file_len. subst fs1. cbn [inodes next_ino]. by rewrite lookup_insert_eq.
Qed.

Section AppendSpec.
Context `{SerdeJson}.

(** Writing a line to a healthy sink. *)
Lemma append_open_line io line s fs :
  write_failure io = None -> inodes_fresh fs -> healthy s fs ->
  written (state s) + line_len line < two64 ->
  let '(s', fs') := append_open io line s fs in
  exists ino,
    file (state s) = Some ino /\ file (state s') = Some ino /\
    today (state s') = today (state s) /\ cfg s' = cfg s /\
    bytes_of ino fs' = bytes_of ino fs +:+ line /\
    (forall j, j <> ino -> inodes fs' !! j = inodes fs !! j) /\
    healthy s' fs' /\ inodes_fresh fs' /\
    written (state s) = Z.of_nat (String.length (bytes_of ino fs)).
Proof.
  intros Hw Hfresh (ino & f & Ef & Ei & Ew) Hlt. unfold append_open, write_all. rewrite Ef, Hw.
  exists ino. unfold bytes_of. cbn [cfg state file today inodes].
  rewrite lookup_alter_eq, Ei. cbn. split_and!; try done.
  - intros j Hj. by rewrite lookup_alter_ne.
  - eexists ino, _. cbn. rewrite lookup_alter_eq, Ei. split_and!; [done|done|].
    cbn. rewrite str_app_length, Nat2Z.inj_add, <- Ew. unfold saturating_add, line_len in *. lia.
  - intros j Hj. cbn in *. apply Hfresh. destruct (decide (j = ino)) as [->|Hne]; [by rewrite Ei|].
    by rewrite lookup_alter_ne in Hj.
Qed.

Lemma rotated_healthy io day s fs :
  no_faults io -> inodes_fresh fs ->
  exists_file (next_target (cfg_path (cfg s)) day fs) fs = false ->
  let '(s', fs') := rotate_to io day s fs in
  healthy s' fs' /\ inodes_fresh fs' /\ written (state s') = 0 /\ today (state s') = day /\
  cfg s' = cfg s /\ (forall j, bytes_of j fs' = bytes_of j fs) /\
  (forall j, file (state s') <> Some j -> inodes fs' !! j = inodes fs !! j) /\
  (forall j, file (state s') = Some j -> bytes_of j fs = "").
Proof.
  intros Hio Hfresh Hfree. pose proof (rotate_to_fresh io day s fs Hio Hfresh Hfree) as R.
  destruct (rotate_to io day s fs) as [s' fs']. destruct R as (-> & Ei & En).
  assert (Hnew : inodes fs !! next_ino fs = None).
  { destruct (inodes fs !! next_ino fs) eqn:E; [|done].
    specialize (Hfresh (next_ino fs)). rewrite E in Hfresh. specialize (Hfresh eq_refl). lia. }
  unfold healthy, inodes_fresh, bytes_of. cbn [cfg state file written today]. rewrite Ei, En.
  split_and!; try done.
  - eexists _, _. by rewrite lookup_insert_eq.
  - intros j Hj. destruct (decide (next_ino fs = j)) as [->|Hne]; [lia|].
    rewrite lookup_insert_ne in Hj by done. specialize (Hfresh j Hj). lia.
  - intros j. destruct (decide (next_ino fs = j)) as [<-|Hne].
    + by rewrite lookup_insert_eq, Hnew.
    + by rewrite lookup_insert_ne.
  - intros j Hj. rewrite lookup_insert_ne; [done|congruence].
  - intros j [= <-]. by rewrite Hnew.
Qed.

(** With a free slot an append rotates at most once. *)
Lemma append_cases io e s fs :
  no_faults io -> inodes_fresh fs -> healthy s fs ->
  exists_file (next_target (cfg_path (cfg s)) (utc_date (now io)) fs) fs = false ->
  (append io e s fs = append_open io (serialize e) s fs /\
     today (state s) = utc_date (now io) /\
     (saturating_add (written (state s)) (line_len (serialize e)) <= max_bytes (cfg s) \/
      written (state s) = 0)) \/
  append io e s fs =
    append_open io (serialize e) (rotate_to io (utc_date (now io)) s fs).1
                (rotate_to io (utc_date (now io)) s fs).2.
Proof.
  intros Hio Hfresh (ino & f & _ & _ & Ew) Hfree. unfold append.
  pose proof (rotated_healthy io (utc_date (now io)) s fs Hio Hfresh Hfree) as R.
  case_bool_decide as Hday.
  - right. destruct (rotate_to _ _ s fs) as [s1 fs1]. destruct R as (_ & _ & -> & _).
    by rewrite andb_false_r.
  - destruct (_ && _) eqn:E.
    + right. by destruct (rotate_to _ _ s fs) as [s1 fs1].
    + left. split_and!; [done|done|]. apply andb_false_iff in E as [E%Z.ltb_ge|E%Z.ltb_ge]; lia.
Qed.

(** An append writes its whole line at the end of exactly one file, the one
    of the current day, and rotates first when the line would push a
    non-empty file over the cap. *)
Theorem append_writes_line io e s fs :
  no_faults io -> inodes_fresh fs -> healthy s fs ->
  written (state s) + line_len (serialize e) < two64 ->
  exists_file (next_target (cfg_path (cfg s)) (utc_date (now io)) fs) fs = false ->
  let '(s', fs') := append io e s fs in
  exists ino,
    file (state s') = Some ino /\ today (state s') = utc_date (now io) /\
    bytes_of ino fs' = bytes_of ino fs +:+ serialize e /\
    (forall j, j <> ino -> inodes fs' !! j = inodes fs !! j) /\
    (bytes_of ino fs = "" \/
     Z.of_nat (String.length (bytes_of ino fs')) <= max_bytes (cfg s)) /\
    healthy s' fs' /\ inodes_fresh fs'.
Proof.
  intros Hio Hfresh Hh Hlt Hfree.
  destruct (append_cases io e s fs Hio Hfresh Hh Hfree) as [(-> & Hday & Hcap)| ->].
  - pose proof (append_open_line io (serialize e) s fs (proj2 (proj2 Hio)) Hfresh Hh Hlt) as A.
    destruct (append_open _ _ s fs) as [s' fs']. destruct A as (ino & A). split_ands.
    exists ino. split_and!; try congruence; try done.
    unfold bytes_of in *. destruct Hcap as [Hcap|Hz]; [right|left; destruct (inodes fs !! ino); [|done]].
    + unfold saturating_add, line_len in *. rewrite H4, str_app_length. lia.
    + destruct (content i); [done|]. simpl in *. lia.
  - pose proof (rotated_healthy io (utc_date (now io)) s fs Hio Hfresh Hfree) as R.
    destruct (rotate_to _ _ s fs) as [s1 fs1]. cbn [fst snd].
    destruct R as (Hh1 & Hf1 & Hw1 & Hd1 & Hc1 & Hb1 & Hi1 & He1).
    assert (Hlt1 : written (state s1) + line_len (serialize e) < two64).
    { destruct Hh as (? & ? & _ & _ & Ew). lia. }
    pose proof (append_open_line io (serialize e) s1 fs1 (proj2 (proj2 Hio)) Hf1 Hh1 Hlt1) as A.
    destruct (append_open _ _ s1 fs1) as [s' fs']. destruct A as (ino & A). split_ands.
    exists ino. split_and!; try congruence; try done.
    + intros j Hj. rewrite H5 by done. apply Hi1. congruence.
    + left. by apply He1.
Qed.

(** After a failed write the sink is silent: until the day or the cap forces
    a rotation, no later event reaches any file. *)
Theorem failed_write_silences io1 e1 n s1 fs1 s fs :
  write_failure io1 = Some n -> append_open io1 (serialize e1) s1 fs1 = (s, fs) ->
  forall io e,
    utc_date (now io) = today (state s) ->
    written (state s) = 0 \/ written (state s) + line_len (serialize e) <= max_bytes (cfg s) ->
    append io e s fs = (s, fs).
Proof.
  intros Hw E io e Hday Hcap.
  assert (Hnone : file (state s) = None).
  { unfold append_open, write_all in E. rewrite Hw in E. branches E; done. }
  unfold append. rewrite bool_decide_eq_false_2 by (intros []; done).
  replace (_ && _) with false; [unfold append_open; by rewrite Hnone|].
  symmetry. apply andb_false_iff. unfold saturating_add.
  destruct Hcap as [->|Hle]; [by right|left]. apply Z.ltb_ge. lia.
Qed.
End AppendSpec.

Module SinkWitness.

#[export] Instance json : SerdeJson :=
  {| from_slice _ := None; to_vec v := match json_get "event" v with
                                       | Some (JString s) => s | _ => "" end |}.

Definition os : Io :=
  {| now := 1709164800; stamp := 50; can_create_dir := true; can_open _ := true;
     can_stat _ := true; write_failure := None; can_read_dir := true; listing l := rev l;
     can_remove _ := true |}.

Definition base : BasePath := {| parent := Some "/var/log"; file_name := Some "audit.jsonl" |}.

Definition disk : Fs :=
  {| dir := [("audit.jsonl.2024-02-29", 0%nat); ("other.log", 1%nat);
             ("audit.jsonl.2024-02-28", 2%nat)];
     inodes := <[0%nat := {| content := "abcdefgh"; mtime := 9 |}]>
              (<[1%nat := {| content := "x"; mtime := 1 |}]>
              (<[2%nat := {| content := "old"; mtime := 5 |}]> ∅));
     next_ino := 3 |}.

Definition sink : JsonlSink :=
  {| cfg := {| cfg_path := base; max_bytes := 10; keep_files := 2 |};
     state := {| file := Some 0%nat; written := 8; today := "2024-02-29" |} |}.

Definition ev : AuditEvent :=
  {| ts_ms := 1; event_class := Security; event := "hello"; agent_public_id := None;
     agent_name := None; operator_name := None; tool := None; upstream_host := None;
     method := None; path := None; status := None; latency_ms := None;
     decision := Denied; auth_method := None; origin_ip := None; details := None |}.

Example leap_day : utc_date 1709164800 = "2024-02-29".
Proof. vm_compute. reflexivity. Qed.

Example leap_day_after : utc_date 1709251200 = "2024-03-01".
Proof. vm_compute. reflexivity. Qed.

Example new_year : utc_date 1767225600 = "2026-01-01".
Proof. vm_compute. reflexivity. Qed.

(** The line goes to the next overflow file and the oldest file is pruned. *)
Example append_rotates :
  (append os ev sink disk).2.(dir) =
  [("audit.jsonl.2024-02-29", 0%nat); ("other.log", 1%nat);
   ("audit.jsonl.2024-02-29.1", 3%nat)].
Proof. vm_compute. reflexivity. Qed.

Lemma append_writes_line_witness :
  let '(s', fs') := append os ev sink disk in
  exists ino,
    file (state s') = Some ino /\ today (state s') = utc_date (now os) /\
    bytes_of ino fs' = bytes_of ino disk +:+ serialize ev /\
    (forall j, j <> ino -> inodes fs' !! j = inodes disk !! j) /\
    (bytes_of ino disk = "" \/
     Z.of_nat (String.length (bytes_of ino fs')) <= max_bytes (cfg sink)) /\
    healthy s' fs' /\ inodes_fresh fs'.
Proof.
  apply (append_writes_line os ev sink disk).
  - by split_and!.
  - intros ino. unfold disk. cbn [inodes next_ino]. destruct (decide (ino < 3)%nat); [done|].
    rewrite !lookup_insert_ne by lia. by rewrite lookup_empty.
  - exists 0%nat. eexists. split_and!; vm_compute; reflexivity.
  - vm_compute; reflexivity.
  - vm_compute; reflexivity.
Defined.

Lemma prune_keeps_newest_witness :
  let files := stem_files os "audit.jsonl" disk in
  let left := stem_files os "audit.jsonl" (prune_oldest os base 1 disk) in
  List.length left = Nat.min 1 (List.length files) /\
  (exists gone, files ≡ₚ gone ++ left /\ forall a b, a ∈ gone -> b ∈ left -> a.1 <= b.1) /\
  (forall kv, kv ∈ dir disk -> starts_with "audit.jsonl" kv.1 = false ->
     kv ∈ dir (prune_oldest os base 1 disk)) /\
  inodes (prune_oldest os base 1 disk) = inodes disk.
Proof.
  apply (prune_keeps_newest os base 1 disk "/var/log" "audit.jsonl"); try done.
  - lia.
  - intros l. symmetry. apply Permutation_rev.
  - unfold names_unique. apply (bool_decide_unpack _). vm_compute. exact I.
Defined.

Definition full : Io :=
  {| now := 1709164800; stamp := 50; can_create_dir := true; can_open _ := true;
     can_stat _ := true; write_failure := Some 2%nat; can_read_dir := true; listing l := l;
     can_remove _ := true |}.

Definition after_failure : JsonlSink * Fs :=
  append_open full (serialize ev) sink disk.

Lemma failed_write_silences_witness :
  append os {| ts_ms := 1; event_class := Security; event := "x"; agent_public_id := None;
     agent_name := None; operator_name := None; tool := None; upstream_host := None;
     method := None; path := None; status := None; latency_ms := None;
     decision := Denied; auth_method := None; origin_ip := None; details := None |}
    after_failure.1 after_failure.2 = after_failure.
Proof.
  apply (failed_write_silences full ev 2 sink disk after_failure.1 after_failure.2).
  - reflexivity.
  - unfold after_failure. by destruct (append_open _ _ _ _).
  - vm_compute; reflexivity.
  - right. vm_compute. discriminate.
Defined.

End SinkWitness.
