(* ===== verification/Strings.v ===== *)
(** * Byte strings: searching, lines and segments

    More of [str] than the prelude has, with the facts the matchers and the
    line-oriented parsers rest on. *)

From S2P Require Import Prelude.

(** ** Strings and their decompositions *)

Lemma str_find_first pat s n :
  str_find pat s = Some n ->
  s = str_take n s +:+ pat +:+ str_drop (n + String.length pat) s /\
  forall a b, s = a +:+ pat +:+ b -> (n <= String.length a)%nat.
Proof.
  revert n. induction s as [|c s IH]; intros n; simpl.
  - destruct (starts_with pat "") eqn:E; [|done]. intros [= <-].
    unfold starts_with in E. destruct (strip_prefix pat "") as [r|] eqn:P; [|done].
    apply strip_prefix_Some in P. destruct pat; [|done]. simpl. split; [done|]. lia.
  - destruct (starts_with pat (String c s)) eqn:E.
    + intros [= <-]. unfold starts_with in E.
      destruct (strip_prefix pat (String c s)) as [r|] eqn:P; [|done].
      apply strip_prefix_Some in P. rewrite P. simpl. split; [|lia].
      assert (D : forall p q, str_drop (String.length p) (p +:+ q) = q)
        by (clear; intros p q; induction p; simpl; [by destruct q|done]).
      by rewrite D.
    + destruct (str_find pat s) as [m|]; [|done]. intros [= <-].
      destruct (IH m eq_refl) as [E1 E2]. simpl. split; [by rewrite <- E1|].
      intros [|d a] b Hab; simpl in *.
      * exfalso. unfold starts_with in E. rewrite Hab, strip_prefix_app in E. done.
      * injection Hab as -> Hab. specialize (E2 a b Hab). lia.
Qed.

Lemma str_find_None pat s : str_find pat s = None -> forall a b, s <> a +:+ pat +:+ b.
Proof.
  induction s as [|c s IH]; simpl; intros E a b Hab.
  - destruct (starts_with pat "") eqn:S; [done|]. unfold starts_with in S.
    destruct a, pat; simpl in *; try done.
  - destruct (starts_with pat (String c s)) eqn:S; [done|].
    destruct (str_find pat s) as [m|] eqn:F; [done|].
    destruct a as [|d a]; simpl in *.
    + unfold starts_with in S. by rewrite Hab, strip_prefix_app in S.
    + injection Hab as -> Hab. by eapply IH.
Qed.

Lemma ends_with_iff suf s : ends_with suf s = true <-> exists a, s = a +:+ suf.
Proof.
  induction s as [|c s IH]; simpl.
  - rewrite orb_false_r, bool_decide_eq_true. split.
    + intros <-. by exists "".
    + intros [[|] H]; [done|discriminate H].
  - rewrite orb_true_iff, bool_decide_eq_true, IH. split.
    + intros [<-|[a ->]]; [by exists ""|by exists (String c a)].
    + intros [[|d a] H]; simpl in H; [by left|]. injection H as -> H. right. eauto.
Qed.

Lemma str_app_inj_length (a b x y : string) :
  a +:+ x = b +:+ y -> String.length a = String.length b -> a = b /\ x = y.
Proof.
  revert b. induction a as [|c a IH]; intros [|d b]; simpl; try done.
  intros [= -> H] [= L]. destruct (IH b H L) as [-> ->]. done.
Qed.

(** Of two ways to cut a string, the longer prefix extends the shorter. *)
Lemma str_app_cut (a b x y : string) :
  a +:+ x = b +:+ y -> (String.length a <= String.length b)%nat ->
  exists c, b = a +:+ c /\ x = c +:+ y.
Proof.
  revert b. induction a as [|d a IH]; intros b; simpl.
  - intros -> _. by exists b.
  - destruct b as [|e b]; simpl; [lia|]. intros [= -> H] L.
    destruct (IH b H) as (c & -> & ->); [lia|]. by exists c.
Qed.

(** ** Lines *)

(** [str::lines]. *)
Fixpoint lines_from (cur : string) (s : string) : list string :=
  match s with
  | "" => if bool_decide (cur = "") then [] else [cur]
  | String c s' =>
      if bool_decide (c = ascii_of_N 10)
      then (if ends_with (String (ascii_of_N 13) "") cur
            then str_take (String.length cur - 1) cur else cur) :: lines_from "" s'
      else lines_from (cur +:+ String c "") s'
  end.

Definition lines (s : string) : list string := lines_from "" s.

Definition nl : string := String (ascii_of_N 10) "".

Lemma lines_from_line cur x rest :
  str_forall (fun c => negb (is_char (ascii_of_N 10) c) && negb (is_char (ascii_of_N 13) c)) (cur +:+ x)
    = true ->
  lines_from cur (x +:+ nl +:+ rest) = (cur +:+ x) :: lines_from "" rest.
Proof.
  revert cur. induction x as [|c x IH]; intros cur Hf.
  - rewrite str_app_nil_r in *.
    change ("" +:+ nl +:+ rest) with (String (ascii_of_N 10) rest). cbn [lines_from].
    rewrite (bool_decide_eq_true_2 (ascii_of_N 10 = _)) by done.
    destruct (ends_with (String (ascii_of_N 13) "") cur) eqn:E; [|done].
    exfalso. apply ends_with_iff in E as [a ->]. rewrite str_forall_app in Hf.
    apply andb_prop in Hf as [_ Hf]. done.
  - assert (Hc : c <> ascii_of_N 10).
    { rewrite str_forall_app in Hf. cbn [str_forall] in Hf. intros ->.
      apply andb_prop in Hf as [_ Hf]. done. }
    change (String c x +:+ nl +:+ rest) with (String c (x +:+ nl +:+ rest)). cbn [lines_from].
    rewrite bool_decide_eq_false_2 by done. rewrite IH.
    + by rewrite <- str_app_assoc.
    + by rewrite <- str_app_assoc.
Qed.

(** ** Segments *)

Lemma split_free c s : str_forall (fun d => negb (is_char c d)) s = true -> split (is_char c) s = [s].
Proof.
  induction s as [|d s IH]; [done|]. cbn [str_forall split]. intros [H1%negb_true_iff H2]%andb_prop.
  by rewrite H1, IH.
Qed.

Lemma split_cons c s t :
  str_forall (fun d => negb (is_char c d)) s = true ->
  split (is_char c) (s +:+ String c t) = s :: split (is_char c) t.
Proof.
  induction s as [|d s IH]; cbn [str_forall append split].
  - intros _. unfold is_char at 1. by rewrite bool_decide_eq_true_2.
  - intros [H1%negb_true_iff H2]%andb_prop. by rewrite H1, IH.
Qed.
