(* ===== verification/Http.v ===== *)
(** * HTTP messages

    The data of [axum]'s requests and responses that the handlers read and
    build.  A header map is the list of its (name, value) entries in
    iteration order; names compare without case.  [HeaderValue::to_str] is
    the [http] crate's (class [HttpCrate]). *)

From S2P Require Import Prelude Json.

Abbreviation HeaderMap := (list (string * string)) (only parsing).

(** [HeaderMap::get]: the first value under a name. *)
Definition header_get (name : string) (hs : HeaderMap) : option string :=
  snd <$> find_first (fun kv => eq_ignore_ascii_case kv.1 name) hs.

Definition header_contains (name : string) (hs : HeaderMap) : bool := isSome (header_get name hs).

(** [HeaderMap::insert]: drops the previous entries of the name. *)
Definition header_insert (name value : string) (hs : HeaderMap) : HeaderMap :=
  List.filter (fun kv => negb (eq_ignore_ascii_case kv.1 name)) hs ++ [(name, value)].

(** [to_str] succeeds on visible ASCII and then returns the same text. *)
Class HttpCrate : Type := { to_str : string -> option string }.
Class HttpLaws `{HttpCrate} : Prop := { to_str_same : forall v s, to_str v = Some s -> s = v }.

Inductive Body :=
| EmptyBody
| JsonBody (j : Json)
| TextBody (s : string)
| BytesBody (bytes : string)
| StreamBody (chunks : list string).

Record Response := {
  resp_status : Z;
  resp_headers : HeaderMap;
  resp_body : Body
}.

(** [(status, Json(body)).into_response()]. *)
Definition json_response (code : Z) (j : Json) : Response :=
  {| resp_status := code; resp_headers := [("content-type", "application/json")];
     resp_body := JsonBody j |}.

Definition status_response (code : Z) : Response :=
  {| resp_status := code; resp_headers := []; resp_body := EmptyBody |}.

Module HttpModel.

Definition visible (c : ascii) : bool :=
  let n := N_of_ascii c in ((32 <=? n) && (n <? 127) || (n =? 9))%N.

#[export] Instance crate : HttpCrate :=
  {| to_str v := if str_forall visible v then Some v else None |}.

#[export] Instance crate_laws : HttpLaws.
Proof. split. simpl. intros v s H. by destruct (str_forall visible v); simplify_eq. Qed.

End HttpModel.
