(* ===== verification/Auth.v ===== *)
(** * Authentication ([src/auth_v2/], [src/mtls/authenticator.rs], [src/auth.rs])

    Identities and the tool ACL, the error type and its wire rendering, the
    per-agent bearer authenticator, the operator authenticator, the mTLS
    authenticator and the middleware that composes them.  A call threads the
    agents table, the audit log and a count of argon2 verifications (the
    timing of a failed login); [now] is the clock in seconds and [now_ms] in
    milliseconds. *)

From S2P Require Import Prelude Json Token Argon2Helper AgentRepo AuditLog.
From S2P Require Import Http.

(** ** [AuthError] *)

Inductive AuthError :=
| MissingCredential
| InvalidCredential
| Revoked
| Expired
| RateLimited (retry_after_secs : Z)
| Backend (detail : string) (* log-only text, never on the wire *)
| MtlsMisconfigured.

Definition auth_status (e : AuthError) : Z :=
  match e with
  | MissingCredential | InvalidCredential | Revoked | Expired => 401
  | RateLimited _ => 429
  | Backend _ | MtlsMisconfigured => 500
  end.

Definition auth_code (e : AuthError) : string :=
  match e with
  | MissingCredential | InvalidCredential => "invalid_credential"
  | Revoked => "revoked"
  | Expired => "expired"
  | RateLimited _ => "rate_limited"
  | Backend _ => "backend_error"
  | MtlsMisconfigured => "internal_error"
  end.

(** The [Display] text of each variant. *)
Definition auth_message (e : AuthError) : string :=
  match e with
  | MissingCredential => "missing credential"
  | InvalidCredential => "invalid credential"
  | Revoked => "revoked"
  | Expired => "expired"
  | RateLimited _ => "rate limited"
  | Backend _ | MtlsMisconfigured => "internal error"
  end.

(** Decimal digits of a duration in seconds ([u64::to_string]). *)
Definition show_secs (n : Z) : string := pretty.pretty n.

Definition auth_error_response (e : AuthError) : Response :=
  let resp := json_response (auth_status e)
    (error_envelope [("message", JString (auth_message e)); ("type", JString "auth_error");
                     ("code", JString (auth_code e))]) in
  match e with
  | RateLimited retry_after =>
      {| resp_status := resp_status resp;
         resp_headers := header_insert "retry-after" (show_secs retry_after) (resp_headers resp);
         resp_body := resp_body resp |}
  | _ => resp
  end.

(** ** Agent identity and the tool ACL *)

Record AgentIdentity := {
  id_id : Z;
  id_public_id : string;
  id_name : string;
  id_tool_allowlist : option (list string);
  id_tool_denylist : option (list string)
}.

Definition list_has (l : list string) (t : string) : bool :=
  existsb (fun x => bool_decide (x = t)) l.

Definition allows_tool (id : AgentIdentity) (tool_name : string) : result string unit :=
  if match id_tool_denylist id with Some deny => list_has deny tool_name | None => false end
  then Err "in_denylist"
  else if match id_tool_allowlist id with
          | Some allow => negb (list_has allow tool_name) | None => false end
  then Err "not_in_allowlist"
  else Ok tt.

Lemma list_has_iff l t : list_has l t = true <-> t ∈ l.
Proof.
  unfold list_has. rewrite existsb_exists. setoid_rewrite <- list_elem_of_In. split.
  - intros (x & Hx & E). by apply bool_decide_eq_true in E as ->.
  - intros Ht. exists t. by rewrite bool_decide_eq_true_2.
Qed.

(** The tool ACL: a tool is permitted exactly when it is not on the
    denylist and, if there is an allowlist, is on it; a tool on both lists is
    refused with the denylist's reason, and an empty allowlist refuses every
    tool. *)
Theorem allows_tool_spec id t :
  (allows_tool id t = Ok tt <->
     (forall deny, id_tool_denylist id = Some deny -> t ∉ deny) /\
     (forall allow, id_tool_allowlist id = Some allow -> t ∈ allow)) /\
  (forall deny, id_tool_denylist id = Some deny -> t ∈ deny ->
     allows_tool id t = Err "in_denylist") /\
  (id_tool_allowlist id = Some [] -> is_ok (allows_tool id t) = false).
Proof.
  unfold allows_tool. split; [|split].
  - destruct (id_tool_denylist id) as [deny|].
    + destruct (list_has deny t) eqn:E.
      * apply list_has_iff in E. naive_solver.
      * rewrite <- not_true_iff_false, list_has_iff in E.
        destruct (id_tool_allowlist id) as [allow|]; [|naive_solver].
        destruct (list_has allow t) eqn:E2; simpl.
        -- apply list_has_iff in E2. naive_solver.
        -- rewrite <- not_true_iff_false, list_has_iff in E2. naive_solver.
    + destruct (id_tool_allowlist id) as [allow|]; [|naive_solver].
      destruct (list_has allow t) eqn:E2; simpl.
      * apply list_has_iff in E2. naive_solver.
      * rewrite <- not_true_iff_false, list_has_iff in E2. naive_solver.
  - intros deny -> Hin%list_has_iff. by rewrite Hin.
  - intros ->. by repeat case_match.
Qed.

(** ** The per-agent bearer authenticator ([src/auth_v2/agent.rs]) *)

Record AuthSt := {
  as_agents : AgentDb;
  as_audit : option AuditRepository;
  as_verifies : nat
}.

Definition st_audit (e : AuditEvent) (s : AuthSt) : AuthSt :=
  {| as_agents := as_agents s; as_audit := audit_record (as_audit s) e;
     as_verifies := as_verifies s |}.

(** One argon2 verification was run. *)
Definition st_verified (s : AuthSt) : AuthSt :=
  {| as_agents := as_agents s; as_audit := as_audit s; as_verifies := S (as_verifies s) |}.

Definition st_agents (db : AgentDb) (s : AuthSt) : AuthSt :=
  {| as_agents := db; as_audit := as_audit s; as_verifies := as_verifies s |}.

(** The audit row of a failed login. *)
Definition failure_event (now_ms : Z) (ev : string) (pid opname : option string)
    (am : string) (det : Json) : AuditEvent :=
  {| ts_ms := now_ms; event_class := Security; event := ev; agent_public_id := pid;
     agent_name := None; operator_name := opname; tool := None; upstream_host := None;
     method := None; path := None; status := None; latency_ms := None; decision := Denied;
     auth_method := Some am; origin_ip := None; details := Some det |}.

Definition reason_json (reason : string) : Json := json_obj [("reason", JString reason)].

Section Bearer.
Context `{Base64Url} `{Argon2Crate}.
Context (decoy_hash : string) (now now_ms : Z).

Definition audit_failure (pid : option string) (reason : string) (s : AuthSt) : AuthSt :=
  st_audit (failure_event now_ms "auth_failure" pid None "bearer" (reason_json reason)) s.

Definition identity_of (r : AgentRecord) : AgentIdentity :=
  {| id_id := ag_id r; id_public_id := ag_public_id r; id_name := ag_name r;
     id_tool_allowlist := ag_tool_allowlist r; id_tool_denylist := ag_tool_denylist r |}.

Definition expired_at (r : AgentRecord) : bool :=
  match ag_expires_at r with Some e => e <? now | None => false end.

(** [let _ = argon2_helper::verify(hash, secret)]: the result is dropped. *)
Definition decoy_verify (phc sec : string) (s : AuthSt) : AuthSt := st_verified s.

Definition resolve (pid sec : string) (s : AuthSt) : result AuthError AgentIdentity * AuthSt :=
  match get_active_by_public_id pid (as_agents s) with
  | Err _ => (Err (Backend "repository"), s)
  | Ok None =>
      (Err InvalidCredential,
       audit_failure None "unknown_public_id" (decoy_verify decoy_hash sec s))
  | Ok (Some r) =>
      if expired_at r then
        (Err Expired,
         audit_failure (Some (ag_public_id r)) "expired"
           (decoy_verify (ag_secret_hash r) sec s))
      else
        match verify (ag_secret_hash r) sec with
        | Ok true =>
            let s := st_verified s in
            (Ok (identity_of r),
             st_agents (snd (touch_last_used (ag_public_id r) now (as_agents s))) s)
        | Ok false =>
            (Err InvalidCredential,
             audit_failure (Some (ag_public_id r)) "secret_mismatch" (st_verified s))
        | Err _ => (Err (Backend "argon2"), st_verified s)
        end
  end.

Definition authenticate_bearer (header : string) (s : AuthSt)
  : result AuthError AgentIdentity * AuthSt :=
  match strip_prefix "Bearer " header with
  | None => (Err MissingCredential, audit_failure None "missing_credential" s)
  | Some raw =>
      match parse raw with
      | Err _ =>
          (Err InvalidCredential,
           audit_failure None "malformed_token" (decoy_verify decoy_hash "dummy" s))
      | Ok (ns, pid, sec) =>
          if negb (bool_decide (ns = Agent)) then
            (Err InvalidCredential, audit_failure (Some pid) "wrong_namespace" s)
          else resolve pid sec s
      end
  end.

(** *** Soundness and completeness *)

(** The header carries a well-formed agent token for [r], which is active,
    unexpired and verifies. *)
Definition presents (header : string) (s : AuthSt) (r : AgentRecord) : Prop :=
  exists pid sec,
    strip_prefix "Bearer " header =
      Some (wire_format {| namespace := Agent; public_id := pid; secret := sec |}) /\
    well_formed {| namespace := Agent; public_id := pid; secret := sec |} /\
    find_first (active_by_public_id pid) (agents (as_agents s)) = Some r /\
    expired_at r = false /\ verify (ag_secret_hash r) sec = Ok true.

(** C3: bearer authentication accepts exactly the right credentials: with
    the database reachable it succeeds as identity [id] if and only if the
    header is [Bearer] followed by a well-formed agent token whose public id
    names an unrevoked, unexpired agent whose stored hash verifies the
    secret, and [id] is that agent's. *)
Theorem authenticate_bearer_iff header s id :
  online (as_agents s) = true ->
  fst (authenticate_bearer header s) = Ok id <->
  exists r, presents header s r /\ id = identity_of r.
Proof.
  intros Hon. unfold authenticate_bearer, presents. split.
  - destruct (strip_prefix "Bearer " header) as [raw|]; [|done].
    destruct (parse raw) as [[[ns pid] sec]|] eqn:Ep; [|done].
    case_bool_decide as Hns; [|done]. subst. simpl.
    destruct (parse_ok_shape _ _ _ _ Ep) as [-> Hwf].
    unfold resolve, get_active_by_public_id. rewrite Hon.
    destruct (find_first _ _) as [r|] eqn:F; [|done].
    destruct (expired_at r) eqn:Ee; [done|].
    destruct (verify _ _) as [[]|] eqn:Ev; try done. simpl. intros [= <-].
    exists r. split; [|done]. exists pid, sec. done.
  - intros (r & (pid & sec & -> & Hwf & F & Ee & Ev) & ->).
    rewrite (parse_wire_format _ Hwf). simpl.
    unfold resolve, get_active_by_public_id. rewrite Hon, F, Ee, Ev. done.
Qed.

(** Audit coverage of logins: a rejected bearer login appends exactly
    one Security/Denied [auth_failure] row when the log is writable (a
    repository or hash failure, reported as a 500, appends none), and an
    accepted one appends none. *)
Theorem authenticate_bearer_audit header s :
  let '(r, s') := authenticate_bearer header s in
  match r with
  | Ok _ | Err (Backend _) => audit_rows (as_audit s') = audit_rows (as_audit s)
  | Err _ => audit_writable (as_audit s) = true ->
      exists pid reason,
        audit_rows (as_audit s') = audit_rows (as_audit s) ++
          [row_of (failure_event now_ms "auth_failure" pid None "bearer" (reason_json reason))]
  end.
Proof.
  unfold authenticate_bearer, resolve, audit_failure, decoy_verify.
  repeat case_match; simplify_eq/=; try done;
    intros Hw; do 2 eexists; autorewrite with locksmith; rewrite Hw; reflexivity.
Qed.

(** What an observer of one login attempt sees: the wire response and the
    number of argon2 verifications spent. *)
Definition observe (header : string) (s : AuthSt) : option Response * nat :=
  let '(r, s') := authenticate_bearer header s in
  (match r with Ok _ => None | Err e => Some (auth_error_response e) end,
   as_verifies s' - as_verifies s)%nat.

(** Rejected agent tokens are indistinguishable on the wire: for a
    reachable database, a malformed token, a token with an unknown (or
    revoked) public id and a token with the wrong secret get the same
    response after the same one argon2 verification. *)
Theorem rejections_indistinguishable raw s :
  online (as_agents s) = true ->
  match parse raw with
  | Err _ => True
  | Ok (ns, pid, sec) => ns = Agent /\
      (find_first (active_by_public_id pid) (agents (as_agents s)) = None \/
       exists r, find_first (active_by_public_id pid) (agents (as_agents s)) = Some r /\
                 expired_at r = false /\ verify (ag_secret_hash r) sec = Ok false)
  end ->
  observe ("Bearer " +:+ raw) s = (Some (auth_error_response InvalidCredential), 1%nat).
Proof.
  intros Hon Hp. unfold observe, authenticate_bearer. rewrite strip_prefix_app.
  destruct (parse raw) as [[[ns pid] sec]|]; simpl.
  - destruct Hp as [-> Hp]. simpl. unfold resolve, get_active_by_public_id. rewrite Hon.
    destruct Hp as [-> | (r & -> & -> & ->)]; simpl; f_equal; lia.
  - f_equal; lia.
Qed.
End Bearer.

(** ** The operator authenticator ([src/auth_v2/operator.rs]) *)

Record OperatorIdentity := {
  op_name : string;
  op_scope : option Json;
  op_auth_method : option string
}.

Record OperatorRecord := {
  rec_name : string;
  rec_public_id : string;
  rec_token_hash : string;
  rec_scope : option Json;
  rec_cert_identity : option string
}.

Section OperatorAuth.
Context `{Base64Url} `{Argon2Crate}.
Context (records : list OperatorRecord) (op_decoy_hash : string) (now_ms : Z).

Definition op_audit_failure (name : option string) (reason : string) (s : AuthSt) : AuthSt :=
  st_audit (failure_event now_ms "operator_auth_failure" None name "bearer"
              (reason_json reason)) s.

Definition op_authenticate_bearer (header : string) (s : AuthSt)
  : result AuthError OperatorIdentity * AuthSt :=
  match strip_prefix "Bearer " header with
  | None => (Err MissingCredential, s)
  | Some raw =>
      match parse raw with
      | Err _ => (Err InvalidCredential, op_audit_failure None "malformed_token" (st_verified s))
      | Ok (ns, pid, sec) =>
          if negb (bool_decide (ns = Operator)) then
            (Err InvalidCredential, op_audit_failure None "wrong_namespace" s)
          else
            match find_first (fun r => bool_decide (rec_public_id r = pid)) records with
            | None =>
                (Err InvalidCredential,
                 op_audit_failure None "unknown_public_id" (st_verified s))
            | Some r =>
                match verify (rec_token_hash r) sec with
                | Ok true =>
                    (Ok {| op_name := rec_name r; op_scope := rec_scope r;
                           op_auth_method := None |}, st_verified s)
                | Ok false =>
                    (Err InvalidCredential,
                     op_audit_failure (Some (rec_name r)) "secret_mismatch" (st_verified s))
                | Err _ => (Err (Backend "argon2"), st_verified s)
                end
            end
      end
  end.

Definition audit_cert_identity_failure (cert : string) (s : AuthSt) : AuthSt :=
  st_audit (failure_event now_ms "operator_auth_failure" None None "mtls"
    (json_obj [("reason", JString "unknown_cert_identity"); ("cert_identity", JString cert)])) s.

Definition authenticate_cert_identity (cert : string) (s : AuthSt)
  : result AuthError OperatorIdentity * AuthSt :=
  match find_first (fun r => bool_decide (rec_cert_identity r = Some cert)) records with
  | Some r =>
      (Ok {| op_name := rec_name r; op_scope := rec_scope r;
             op_auth_method := Some "mtls" |}, s)
  | None => (Err InvalidCredential, audit_cert_identity_failure cert s)
  end.

(** An operator login succeeds only for the operator namespace and a
    verified secret: agent and bootstrap tokens never authenticate an
    operator, whatever the operators file holds. *)
Theorem op_authenticate_sound header s id :
  fst (op_authenticate_bearer header s) = Ok id ->
  exists pid sec r,
    header = "Bearer " +:+ wire_format {| namespace := Operator; public_id := pid; secret := sec |} /\
    r ∈ records /\ rec_public_id r = pid /\ verify (rec_token_hash r) sec = Ok true /\
    id = {| op_name := rec_name r; op_scope := rec_scope r; op_auth_method := None |}.
Proof.
  unfold op_authenticate_bearer.
  destruct (strip_prefix "Bearer " header) as [raw|] eqn:Eh; [|done].
  apply strip_prefix_Some in Eh as ->.
  destruct (parse raw) as [[[ns pid] sec]|] eqn:Ep; [|done].
  case_bool_decide as Hns; [|done]. subst. simpl.
  destruct (parse_ok_shape _ _ _ _ Ep) as [-> _].
  destruct (find_first _ _) as [r|] eqn:F; [|done].
  destruct (verify _ _) as [[]|] eqn:Ev; try done. simpl. intros [= <-].
  apply find_first_Some in F as [F1 F2]. split_ands.
  by exists pid, sec, r.
Qed.
End OperatorAuth.

(** ** mTLS ([src/mtls/validator.rs], [src/mtls/authenticator.rs])

    Certificate parsing and chain verification belong to [x509-parser] and
    [webpki]: class [X509Crate].  A certificate's serial is its big-endian
    bytes; common names and subject alternative names are what the parser
    lists ([None] for a name that is not a string). *)

Inductive GeneralName := DNSName (s : string) | URI (s : string) | OtherName.

Record Certificate := {
  not_before : Z;
  not_after : Z;
  serial : string;
  common_names : list (option string);
  subject_alt_names : option (list GeneralName)
}.

Class X509Crate : Type := {
  x509_from_der : string -> result string Certificate;
  end_entity : string -> result string unit;
  trust_anchor : string -> bool;
  verify_for_usage : list string -> string -> Z -> bool
}.

Inductive MtlsError :=
| UntrustedChain | CertExpired | NotYetValid | MalformedCert (detail : string) | NoIdentity
| RevokedByCRL (serial : string) | RevokedByBlocklist (serial : string).

Record MtlsIdentity := { mi_value : string; mi_kind : string; mi_serial_hex : string }.

Record MtlsValidator := {
  roots : list string;
  crl : option (list string);
  blocklist : option (list string)
}.

(** [format!("{b:02x}")] over the bytes. *)
Definition hex_digit (n : N) : ascii :=
  if (n <? 10)%N then ascii_of_N (n + 48) else ascii_of_N (n + 87).

Fixpoint hex (s : string) : string :=
  match s with
  | EmptyString => EmptyString
  | String c s' =>
      String (hex_digit (N_of_ascii c / 16)) (String (hex_digit (N_of_ascii c mod 16)) (hex s'))
  end.

(** [Blocklist::contains] and [CrlStore::contains] (sets of lowercase serials). *)
Definition serial_listed (l : option (list string)) (serial_hex : string) : bool :=
  match l with Some serials => list_has serials (to_ascii_lowercase serial_hex) | None => false end.

Definition nonempty (s : string) : bool := negb (bool_decide (s = "")).

Definition first_dns (names : list GeneralName) : option string :=
  let* n := find_first (fun n => match n with DNSName s => nonempty s | _ => false end) names in
  match n with DNSName s => Some s | _ => None end.

Definition first_uri (names : list GeneralName) : option string :=
  let* n := find_first (fun n => match n with URI s => nonempty s | _ => false end) names in
  match n with URI s => Some s | _ => None end.

(** The SAN fallback: the first non-empty DNS name, then the first URI. *)
Definition san_identity (c : Certificate) (serial_hex : string) : result MtlsError MtlsIdentity :=
  let mk v k := Ok {| mi_value := v; mi_kind := k; mi_serial_hex := serial_hex |} in
  match subject_alt_names c with
  | None => Err NoIdentity
  | Some names =>
      match first_dns names, first_uri names with
      | Some s, _ => mk s "san_dns"
      | None, Some s => mk s "san_uri"
      | None, None => Err NoIdentity
      end
  end.

Definition extract_identity (c : Certificate) (serial_hex : string)
  : result MtlsError MtlsIdentity :=
  match common_names c with
  | Some cn :: _ =>
      if nonempty cn
      then Ok {| mi_value := cn; mi_kind := "cn"; mi_serial_hex := serial_hex |}
      else san_identity c serial_hex
  | _ => san_identity c serial_hex
  end.

Section Mtls.
Context `{X509Crate}.

Definition validate (v : MtlsValidator) (now : Z) (der : string)
  : result MtlsError MtlsIdentity :=
  let? c := map_err (fun e => MalformedCert ("DER parse: " +:+ e)) (x509_from_der der) in
  if now <? not_before c then Err NotYetValid
  else if not_after c <? now then Err CertExpired
  else
    let? _ := map_err (fun e => MalformedCert ("webpki parse: " +:+ e)) (end_entity der) in
    let anchors := List.filter trust_anchor (roots v) in
    if match anchors with [] => true | _ => false end then Err UntrustedChain
    else if negb (verify_for_usage anchors der now) then Err UntrustedChain
    else
      let serial_hex := hex (serial c) in
      if serial_listed (blocklist v) serial_hex then Err (RevokedByBlocklist serial_hex)
      else if serial_listed (crl v) serial_hex then Err (RevokedByCRL serial_hex)
      else extract_identity c serial_hex.

Definition mtls_reason (e : MtlsError) : string :=
  match e with
  | UntrustedChain => "untrusted_chain"
  | CertExpired => "cert_expired"
  | NotYetValid => "cert_not_yet_valid"
  | MalformedCert _ => "malformed_cert"
  | NoIdentity => "no_identity"
  | RevokedByCRL _ => "revoked_by_crl"
  | RevokedByBlocklist _ => "revoked_by_blocklist"
  end.

Definition mtls_message (e : MtlsError) : string :=
  match e with
  | UntrustedChain => "untrusted chain"
  | CertExpired => "certificate expired"
  | NotYetValid => "certificate not yet valid"
  | MalformedCert d => "malformed certificate: " +:+ d
  | NoIdentity => "no identity extractable from cert"
  | RevokedByCRL s => "revoked by CRL (serial " +:+ s +:+ ")"
  | RevokedByBlocklist s => "revoked by local blocklist (serial " +:+ s +:+ ")"
  end.

(** Recorded at once; the code spawns a task for it. *)
Definition audit_failure_blocking (now_ms : Z) (e : MtlsError) (s : AuthSt) : AuthSt :=
  st_audit (failure_event now_ms "mtls_auth_failure" None None "mtls"
    (json_obj [("reason", JString (mtls_reason e)); ("message", JString (mtls_message e));
               ("serial_hex", JNull)])) s.

Definition audit_unknown_identity (now_ms : Z) (i : MtlsIdentity) (s : AuthSt) : AuthSt :=
  st_audit (failure_event now_ms "mtls_unknown_identity" None None "mtls"
    (json_obj [("identity", JString (mi_value i)); ("kind", JString (mi_kind i));
               ("serial_hex", JString (mi_serial_hex i))])) s.

Definition authenticate_cert (v : MtlsValidator) (now now_ms : Z) (der : string) (s : AuthSt)
  : result AuthError AgentIdentity * AuthSt :=
  match validate v now der with
  | Err e => (Err InvalidCredential, audit_failure_blocking now_ms e s)
  | Ok i =>
      match get_by_cert_identity (mi_value i) (as_agents s) with
      | Ok (Some r) => (Ok (identity_of r), s)
      | Ok None => (Err InvalidCredential, audit_unknown_identity now_ms i s)
      | Err _ => (Err (Backend "repository"), s)
      end
  end.

Lemma validate_ok v now der i :
  validate v now der = Ok i ->
  exists c, x509_from_der der = Ok c /\ not_before c <= now <= not_after c /\
    (exists anchors, anchors <> [] /\ (forall a, a ∈ anchors -> a ∈ roots v) /\
       verify_for_usage anchors der now = true) /\
    serial_listed (blocklist v) (hex (serial c)) = false /\
    serial_listed (crl v) (hex (serial c)) = false /\
    extract_identity c (hex (serial c)) = Ok i.
Proof.
  unfold validate. destruct (x509_from_der der) as [c|]; simpl; [|done].
  destruct (Z.ltb_spec now (not_before c)); [done|].
  destruct (Z.ltb_spec (not_after c) now); [done|].
  destruct (end_entity der) as [[]|]; simpl; [|done].
  destruct (List.filter trust_anchor (roots v)) as [|a l] eqn:Ea; [done|].
  destruct (verify_for_usage _ _ _) eqn:Ev; simpl; [|done].
  destruct (serial_listed (blocklist v) _) eqn:Eb; [done|].
  destruct (serial_listed (crl v) _) eqn:Ec; [done|].
  intros Hx. exists c. repeat split; try done.
  exists (a :: l). repeat split; [done| |done].
  intros x Hx'%list_elem_of_In. rewrite <- Ea in Hx'.
  apply filter_In in Hx' as [? _]. by apply list_elem_of_In.
Qed.

(** C33: a client certificate authenticates an agent only if it parses, is
    inside its validity window, chains to a configured root for client
    authentication, its serial is on neither revocation list, and an
    unrevoked agent is bound to the identity it carries. *)
Theorem authenticate_cert_sound v now now_ms der s id :
  fst (authenticate_cert v now now_ms der s) = Ok id ->
  exists c i r,
    x509_from_der der = Ok c /\ not_before c <= now <= not_after c /\
    (exists anchors, anchors <> [] /\ (forall a, a ∈ anchors -> a ∈ roots v) /\
       verify_for_usage anchors der now = true) /\
    serial_listed (blocklist v) (hex (serial c)) = false /\
    serial_listed (crl v) (hex (serial c)) = false /\
    extract_identity c (hex (serial c)) = Ok i /\
    r ∈ agents (as_agents s) /\ is_active r = true /\
    ag_cert_identity r = Some (mi_value i) /\ id = identity_of r.
Proof.
  unfold authenticate_cert. destruct (validate v now der) as [i|] eqn:Ev; [|done].
  destruct (validate_ok _ _ _ _ Ev) as (c & H1 & H2 & H3 & H4 & H5 & H6).
  unfold get_by_cert_identity. destruct (online _); [|done].
  destruct (find_first _ _) as [r|] eqn:F; [|done]. simpl. intros [= <-].
  apply find_first_Some in F as [F1 F2]. split_ands.
  exists c, i, r. naive_solver.
Qed.

(** The mTLS path does not look at [expires_at]: an agent past its
    expiry is refused with [Expired] when it presents its bearer token, but
    a valid certificate bound to the same record authenticates it. *)
Theorem mtls_ignores_expiry `{Argon2Crate} decoy v now now_ms der s i r pid sec :
  online (as_agents s) = true ->
  expired_at now r = true ->
  find_first (active_by_public_id pid) (agents (as_agents s)) = Some r ->
  validate v now der = Ok i ->
  find_first (fun r => bool_decide (ag_cert_identity r = Some (mi_value i)) && is_active r)
    (agents (as_agents s)) = Some r ->
  fst (resolve decoy now now_ms pid sec s) = Err Expired /\
  fst (authenticate_cert v now now_ms der s) = Ok (identity_of r).
Proof.
  intros Hon He F1 Hv F2. split.
  - unfold resolve, get_active_by_public_id. by rewrite Hon, F1, He.
  - unfold authenticate_cert, get_by_cert_identity. by rewrite Hv, Hon, F2.
Qed.
End Mtls.

(** ** The middleware ([src/auth.rs]) *)

Inductive AuthenticatedAs := Bearer | Mtls.
Inductive AuthMode := BearerMode | MtlsMode | BothMode.

(** The request extensions the middleware and the handlers read. *)
Record Extensions := {
  peer_cert : option (option string);
  authenticated_as : option AuthenticatedAs;
  identity : option AgentIdentity
}.

Record Request := {
  req_method : string;
  req_path : string;
  req_query : option string;
  req_headers : HeaderMap;
  req_body : string;
  req_ext : Extensions
}.

Definition stamp (how : AuthenticatedAs) (id : option AgentIdentity) (req : Request) : Request :=
  {| req_method := req_method req; req_path := req_path req; req_query := req_query req;
     req_headers := req_headers req; req_body := req_body req;
     req_ext := {| peer_cert := peer_cert (req_ext req); authenticated_as := Some how;
                   identity := match id with Some _ => id | None => identity (req_ext req) end |} |}.

Record InboundAuth := { ia_mode : string; ia_token : option string }.

(** The parts of [AppState] the middleware consults. *)
Record AuthConfig := {
  auth_mode : AuthMode;
  mtls_authenticator : option MtlsValidator;
  agent_auth : option string; (* the wired BearerAuthenticator, by its decoy hash *)
  inbound_auth : option InboundAuth
}.

(** [next.run(req)] or an early response. *)
Inductive Outcome := Next (req : Request) | Respond (r : Response).

Section Middleware.
Context `{Base64Url} `{Argon2Crate} `{HttpCrate} `{X509Crate}.
Context (cfg : AuthConfig) (now now_ms : Z).

Definition header_str (name : string) (req : Request) : option string :=
  let* v := header_get name (req_headers req) in to_str v.

Definition run_bearer_branch (decoy : string) (req : Request) (s : AuthSt) : Outcome * AuthSt :=
  let header := default "" (header_str "authorization" req) in
  match authenticate_bearer decoy now now_ms header s with
  | (Ok id, s') => (Next (stamp Bearer (Some id) req), s')
  | (Err e, s') => (Respond (auth_error_response e), s')
  end.

(** M0/M1: one shared bearer token, or none configured. *)
Definition shared_bearer (req : Request) : Outcome :=
  let pass := Next (stamp Bearer None req) in
  match inbound_auth cfg with
  | Some a =>
      if bool_decide (ia_mode a = "bearer") then
        match ia_token a with
        | None => pass
        | Some expected =>
            match (let* h := header_str "authorization" req in strip_prefix "Bearer " h) with
            | Some token =>
                if bool_decide (token = expected) then pass
                else Respond (json_response 401
                  (error_envelope [("message", JString "Unauthorized"); ("type", JString "auth_error")]))
            | None => Respond (json_response 401
                (error_envelope [("message", JString "Unauthorized"); ("type", JString "auth_error")]))
            end
        end
      else pass
  | None => pass
  end.

Definition is_probe (p : string) : bool := list_has ["/livez"; "/readyz"; "/version"; "/health"] p.
Definition is_transport (p : string) : bool :=
  bool_decide (p = "/transport") || starts_with "/transport/" p.

(** The bearer half: per-agent when an authenticator is wired, else shared. *)
Definition bearer_path (req : Request) (s : AuthSt) : Outcome * AuthSt :=
  match agent_auth cfg with
  | Some decoy => run_bearer_branch decoy req s
  | None => (shared_bearer req, s)
  end.

Definition mtls_path (cert : string) (req : Request) (s : AuthSt) : Outcome * AuthSt :=
  match mtls_authenticator cfg with
  | None => (Respond (auth_error_response MtlsMisconfigured), s)
  | Some v =>
      match authenticate_cert v now now_ms cert s with
      | (Ok id, s') => (Next (stamp Mtls (Some id) req), s')
      | (Err e, s') => (Respond (auth_error_response e), s')
      end
  end.

Definition auth_middleware (req : Request) (s : AuthSt) : Outcome * AuthSt :=
  if is_probe (req_path req) then (Next req, s)
  else if is_transport (req_path req) then (Next req, s)
  else if bool_decide (req_path req = "/skill")
          && negb (header_contains "authorization" (req_headers req)) then (Next req, s)
  else
    match auth_mode cfg with
    | BearerMode => bearer_path req s
    | mode =>
        match peer_cert (req_ext req) with
        | Some (Some cert) => mtls_path cert req s
        | _ =>
            match mode with
            | MtlsMode => (Respond (auth_error_response MissingCredential), s)
            | _ => bearer_path req s
            end
        end
    end.

(** Paths that reach their handler without credentials. *)
Definition exempt (req : Request) : bool :=
  is_probe (req_path req) || is_transport (req_path req) ||
  bool_decide (req_path req = "/skill") && negb (header_contains "authorization" (req_headers req)).

Lemma middleware_next req s req' s' decoy :
  agent_auth cfg = Some decoy ->
  auth_middleware req s = (Next req', s') ->
  exempt req = false ->
  exists id, identity (req_ext req') = Some id /\
    ((authenticated_as (req_ext req') = Some Bearer /\ auth_mode cfg <> MtlsMode /\
      fst (authenticate_bearer decoy now now_ms
             (default "" (header_str "authorization" req)) s) = Ok id)
     \/
     (authenticated_as (req_ext req') = Some Mtls /\ auth_mode cfg <> BearerMode /\
      exists v cert, mtls_authenticator cfg = Some v /\
        peer_cert (req_ext req) = Some (Some cert) /\
        fst (authenticate_cert v now now_ms cert s) = Ok id)).
Proof.
  intros Hd Hm He. unfold exempt in He.
  apply orb_false_iff in He as [[He1 He2]%orb_false_iff He3].
  unfold auth_middleware in Hm. rewrite He1, He2, He3 in Hm.
  assert (Hb : bearer_path req s = (Next req', s') -> exists id,
    identity (req_ext req') = Some id /\ authenticated_as (req_ext req') = Some Bearer /\
    fst (authenticate_bearer decoy now now_ms
           (default "" (header_str "authorization" req)) s) = Ok id).
  { unfold bearer_path, run_bearer_branch. rewrite Hd.
    destruct (authenticate_bearer _ _ _ _ _) as [[id|] s2]; intros [= <- <-]. by exists id. }
  assert (Hc : forall cert, mtls_path cert req s = (Next req', s') -> exists id v,
    identity (req_ext req') = Some id /\ authenticated_as (req_ext req') = Some Mtls /\
    mtls_authenticator cfg = Some v /\ fst (authenticate_cert v now now_ms cert s) = Ok id).
  { intros cert. unfold mtls_path. destruct (mtls_authenticator cfg) as [v|]; [|done].
    destruct (authenticate_cert _ _ _ _ _) as [[id|] s2] eqn:E; intros [= <- <-].
    exists id, v. by rewrite E. }
  destruct (auth_mode cfg) eqn:Em.
  - destruct (Hb Hm) as (id & ? & ? & ?). exists id. naive_solver.
  - destruct (peer_cert (req_ext req)) as [[cert|]|]; try done.
    destruct (Hc _ Hm) as (id & v & ? & ? & ? & ?). exists id. split; [done|]. right. naive_solver.
  - destruct (peer_cert (req_ext req)) as [[cert|]|].
    + destruct (Hc _ Hm) as (id & v & ? & ? & ? & ?). exists id. split; [done|]. right. naive_solver.
    + destruct (Hb Hm) as (id & ? & ? & ?). exists id. naive_solver.
    + destruct (Hb Hm) as (id & ? & ? & ?). exists id. naive_solver.
Qed.

(** When per-agent authentication is wired (the admin substrate), no
    request reaches a handler of a non-exempt path without an identity: it
    carries the agent that its bearer token or its client certificate
    authenticated, and under [auth_mode: mtls] only a certificate counts. *)
Theorem middleware_authenticates req s req' s' decoy :
  agent_auth cfg = Some decoy ->
  auth_middleware req s = (Next req', s') ->
  exempt req = false ->
  exists id, identity (req_ext req') = Some id /\
    ((authenticated_as (req_ext req') = Some Bearer /\ auth_mode cfg <> MtlsMode /\
      fst (authenticate_bearer decoy now now_ms
             (default "" (header_str "authorization" req)) s) = Ok id)
     \/
     (authenticated_as (req_ext req') = Some Mtls /\ auth_mode cfg <> BearerMode /\
      exists v cert, mtls_authenticator cfg = Some v /\
        peer_cert (req_ext req) = Some (Some cert) /\
        fst (authenticate_cert v now now_ms cert s) = Ok id)).
Proof. apply middleware_next. Qed.
End Middleware.

(** ** Witnesses *)

Module AuthWitness.
Import Base64Model Argon2Model HttpModel AgentWitness.

Definition st0 : AuthSt :=
  {| as_agents := dev_db; as_audit := Some {| rows := []; writable := true; sink := None |};
     as_verifies := 0 |}.

Definition dev_header : string := "Bearer lk_" +:+ dev_pid +:+ "." +:+ dev_secret.
Definition dev_id : AgentIdentity :=
  {| id_id := 1; id_public_id := dev_pid; id_name := "dev";
     id_tool_allowlist := Some ["anthropic"]; id_tool_denylist := None |}.

Lemma authenticate_bearer_iff_witness :
  exists r, presents 150 dev_header st0 r /\ dev_id = identity_of r.
Proof.
  apply (authenticate_bearer_iff "decoy" 150 150000 dev_header st0 dev_id);
    vm_compute; reflexivity.
Defined.

(** A well-formed token with an id nobody registered. *)
Definition ghost : string :=
  wire_format (generate Agent "ffffffffffffffff" "ffffffffffffffffffffffffffffffff").

Lemma rejections_indistinguishable_witness :
  observe "decoy" 150 150000 ("Bearer " +:+ ghost) st0 =
    (Some (auth_error_response InvalidCredential), 1%nat) /\
  observe "decoy" 150 150000 "Bearer nonsense" st0 =
    (Some (auth_error_response InvalidCredential), 1%nat).
Proof.
  split.
  - apply rejections_indistinguishable; [reflexivity|]. vm_compute. auto.
  - apply (rejections_indistinguishable "decoy" 150 150000 "nonsense"); [reflexivity|exact I].
Defined.

Definition op_secret : string := secret (generate Operator "" (secret_bytes (rng "a"))).
Definition operators : list OperatorRecord :=
  [{| rec_name := "alice"; rec_public_id := dev_pid; rec_token_hash := phc_of op_secret "s";
      rec_scope := None; rec_cert_identity := None |}].

Definition op_header : string := "Bearer lkop_" +:+ dev_pid +:+ "." +:+ op_secret.
Definition alice : OperatorIdentity :=
  {| op_name := "alice"; op_scope := None; op_auth_method := None |}.

Lemma op_authenticate_sound_witness :
  exists pid sec r,
    op_header = "Bearer " +:+ wire_format {| namespace := Operator; public_id := pid; secret := sec |} /\
    r ∈ operators /\ rec_public_id r = pid /\ verify (rec_token_hash r) sec = Ok true /\
    alice = {| op_name := rec_name r; op_scope := rec_scope r; op_auth_method := None |}.
Proof. apply (op_authenticate_sound operators 0 op_header st0 alice). vm_compute. reflexivity. Defined.

(** A certificate for [dev], valid in [100, 200], under the root ["ca"]. *)
Definition dev_cert : Certificate :=
  {| not_before := 100; not_after := 200; serial := "K"; common_names := [Some "dev.local"];
     subject_alt_names := None |}.

#[export] Instance x509 : X509Crate := {|
  x509_from_der d := if bool_decide (d = "dev-der") then Ok dev_cert else Err "bad der";
  end_entity _ := Ok tt;
  trust_anchor a := bool_decide (a = "ca");
  verify_for_usage anchors _ _ := list_has anchors "ca"
|}.

Definition validator : MtlsValidator :=
  {| roots := ["ca"]; crl := Some ["ff"]; blocklist := None |}.

(** [dev] bound to the certificate and expired at 120. *)
Definition bound_db : AgentDb :=
  snd (update_policy dev_pid None None None (Some (Some 120))
        (snd (set_cert_identity dev_pid (Some "dev.local") dev_db))).
Definition st1 : AuthSt := st_agents bound_db st0.
Definition bound_row : AgentRecord :=
  with_policy None None None (Some (Some 120))
    (with_cert_identity (Some "dev.local") (default
      (with_policy None None None None {| ag_id := 0; ag_public_id := ""; ag_name := "";
         ag_description := None; ag_secret_hash := ""; ag_tool_allowlist := None;
         ag_tool_denylist := None; ag_metadata := None; ag_cert_identity := None;
         ag_registered_at := 0; ag_last_used_at := None; ag_expires_at := None;
         ag_revoked_at := None |}) (head (agents dev_db)))).

Lemma authenticate_cert_sound_witness :
  exists c i r,
    x509_from_der "dev-der" = Ok c /\ not_before c <= 150 <= not_after c /\
    (exists anchors, anchors <> [] /\ (forall a, a ∈ anchors -> a ∈ roots validator) /\
       verify_for_usage anchors "dev-der" 150 = true) /\
    serial_listed (blocklist validator) (hex (serial c)) = false /\
    serial_listed (crl validator) (hex (serial c)) = false /\
    extract_identity c (hex (serial c)) = Ok i /\
    r ∈ agents (as_agents st1) /\ is_active r = true /\
    ag_cert_identity r = Some (mi_value i) /\ dev_id = identity_of r.
Proof.
  apply (authenticate_cert_sound validator 150 150000 "dev-der" st1 dev_id).
  vm_compute. reflexivity.
Defined.

Lemma mtls_ignores_expiry_witness :
  fst (resolve "decoy" 150 150000 dev_pid dev_secret st1) = Err Expired /\
  fst (authenticate_cert validator 150 150000 "dev-der" st1) = Ok (identity_of bound_row).
Proof.
  apply (mtls_ignores_expiry "decoy" validator 150 150000 "dev-der" st1
    {| mi_value := "dev.local"; mi_kind := "cn"; mi_serial_hex := "4b" |} bound_row
    dev_pid dev_secret); vm_compute; reflexivity.
Defined.

Definition cfg_both : AuthConfig :=
  {| auth_mode := BothMode; mtls_authenticator := Some validator; agent_auth := Some "decoy";
     inbound_auth := None |}.

Definition dev_request : Request :=
  {| req_method := "POST"; req_path := "/api/anthropic/v1/messages"; req_query := None;
     req_headers := [("authorization", dev_header)]; req_body := "";
     req_ext := {| peer_cert := Some None; authenticated_as := None; identity := None |} |}.

Lemma middleware_authenticates_witness :
  exists id, identity (req_ext (stamp Bearer (Some dev_id) dev_request)) = Some id /\
    ((authenticated_as (req_ext (stamp Bearer (Some dev_id) dev_request)) = Some Bearer /\
      auth_mode cfg_both <> MtlsMode /\
      fst (authenticate_bearer "decoy" 150 150000
             (default "" (header_str "authorization" dev_request)) st0) = Ok id)
     \/
     (authenticated_as (req_ext (stamp Bearer (Some dev_id) dev_request)) = Some Mtls /\
      auth_mode cfg_both <> BearerMode /\
      exists v cert, mtls_authenticator cfg_both = Some v /\
        peer_cert (req_ext dev_request) = Some (Some cert) /\
        fst (authenticate_cert v 150 150000 cert st0) = Ok id)).
Proof.
  apply (middleware_authenticates cfg_both 150 150000 dev_request st0 _
    (snd (authenticate_bearer "decoy" 150 150000 dev_header st0)) "decoy");
    vm_compute; reflexivity.
Defined.

End AuthWitness.
