(* ===== verification/Revocation.v ===== *)
(** * Certificate revocation ([src/mtls/crl.rs], [src/mtls/blocklist.rs])

    The CRL store with its refresh, the file-backed emergency blocklist with
    its polling reload, the command that writes the file
    ([cli/commands/mtls.rs]), the validator's constructor and what the daemon
    makes of the mTLS configuration.  PEM and DER parsing are parameters.  The
    file is read and its time stamp queried by separate system calls, so a
    reload is given the three observations it makes. *)

From S2P Require Import Prelude Json Http Token AgentRepo AuditLog.
From S2P Require Import Auth Strings.

(** [pem::parse_many]: tag and contents of every block; the serials (bytes) a
    DER revocation list revokes. *)
Class PemCrate : Type := {
  parse_many : string -> result string (list (string * string));
  crl_from_der : string -> result string (list string)
}.

(** ** The CRL store *)

Record CrlState := { revoked_serials : gset string; last_success_unix_secs : Z }.
Record CrlStore := { crl_state : CrlState; failures : Z }.

Inductive CrlParseError := CrlPem (e : string) | CrlDer (e : string).

Definition new_crl_store : CrlStore :=
  {| crl_state := {| revoked_serials := ∅; last_success_unix_secs := 0 |}; failures := 0 |}.

Definition crl_contains (serial_hex : string) (s : CrlStore) : bool :=
  bool_decide (to_ascii_lowercase serial_hex ∈ revoked_serials (crl_state s)).

Definition i64_max : Z := two63 - 1.

Definition age_secs (now : Z) (s : CrlStore) : Z :=
  let last := last_success_unix_secs (crl_state s) in
  if last =? 0 then i64_max else now - last.

(** [fetch_add] wraps. *)
Definition note_failure (s : CrlStore) : CrlStore :=
  {| crl_state := crl_state s; failures := (failures s + 1) mod two64 |}.

Section Crl.
Context `{PemCrate}.

(** The loop over the PEM blocks: CRL blocks seen and serials collected. *)
Fixpoint collect_serials (blocks : list (string * string)) (seen : nat) (serials : gset string)
  : result CrlParseError (nat * gset string) :=
  match blocks with
  | [] => Ok (seen, serials)
  | (tag, contents) :: rest =>
      if negb (bool_decide (tag = "X509 CRL")) then collect_serials rest seen serials
      else
        let? revoked := map_err CrlDer (crl_from_der contents) in
        collect_serials rest (S seen) (serials ∪ list_to_set (map hex revoked))
  end.

Definition apply_pem (now : Z) (pem : string) (s : CrlStore)
  : result CrlParseError nat * CrlStore :=
  match (let? blocks := map_err CrlPem (parse_many pem) in collect_serials blocks 0 ∅) with
  | Err e => (Err e, s)
  | Ok (O, _) => (Err (CrlPem "no `X509 CRL` PEM blocks in input"), s)
  | Ok (_, serials) =>
      (Ok (size serials),
       {| crl_state := {| revoked_serials := serials; last_success_unix_secs := now |};
          failures := failures s |})
  end.

(** What the HTTP client makes of the request. *)
Inductive Fetch :=
| ClientBuildFailed
| SendFailed
| Fetched (status : Z) (body : option string).

Definition is_success (status : Z) : bool := (200 <=? status) && (status <? 300).

Definition refresh_once (now : Z) (f : Fetch) (s : CrlStore) : CrlStore :=
  match f with
  | ClientBuildFailed | SendFailed => note_failure s
  | Fetched status body =>
      if is_success status then
        match body with
        | None => note_failure s
        | Some b =>
            match apply_pem now b s with
            | (Ok _, s') => s'
            | (Err _, s') => note_failure s'
            end
        end
      else note_failure s
  end.

(** The serials a PEM text revokes, when all of it parses. *)
Definition listed_in (pem : string) (serial : string) : Prop :=
  exists blocks contents revoked raw,
    parse_many pem = Ok blocks /\ ("X509 CRL", contents) ∈ blocks /\
    crl_from_der contents = Ok revoked /\ raw ∈ revoked /\ serial = hex raw.

Lemma collect_serials_spec blocks n ser m res x :
  collect_serials blocks n ser = Ok (m, res) ->
  (n <= m)%nat /\
  (x ∈ res <-> x ∈ ser \/ exists contents revoked raw, ("X509 CRL", contents) ∈ blocks /\
     crl_from_der contents = Ok revoked /\ raw ∈ revoked /\ x = hex raw).
Proof.
  revert n ser. induction blocks as [|[tag c] blocks IH]; intros n ser; cbn [collect_serials].
  - intros [= <- <-]. split; [done|]. split; [by left|]. intros [?|(? & ? & ? & Hx & _)]; [done|].
    by apply not_elem_of_nil in Hx.
  - case_bool_decide as Ht; cbn [negb].
    2: { intros [Hm Hx]%IH. split; [done|]. rewrite Hx. f_equiv. repeat (f_equiv; intros ?).
         rewrite elem_of_cons. split; [intros (? & ?); split; [by right|done]|].
         intros ([[= ??]|?] & ?); [done|split; done]. }
    subst tag. destruct (crl_from_der c) as [rv|] eqn:Ec; cbn; [|done]. intros [Hm Hx]%IH.
    split; [lia|]. rewrite Hx, elem_of_union, elem_of_list_to_set, list_elem_of_fmap. split.
    + intros [[?|(raw & -> & Hr)]|(c' & rv' & raw & Hb & ?)]; [by left| |].
      * right. exists c, rv, raw. split; [by left|done].
      * right. exists c', rv', raw. split; [by right|done].
    + intros [?|(c' & rv' & raw & [[= ->]|Hb]%elem_of_cons & E & Hr & ->)]; [by left; left| |].
      * left. right. exists raw. split; [done|]. congruence.
      * right. by exists c', rv', raw.
Qed.

(** A refresh is all or nothing: after a 2xx answer whose blocks all parse,
    the snapshot holds exactly the serials they revoke and carries the time
    of the refresh; in every other case the previous snapshot stands and the
    failure counter, modulo 2^64, goes up by one. *)
Theorem crl_refresh_spec now f s :
  let s' := refresh_once now f s in
  (crl_state s' = crl_state s /\ failures s' = (failures s + 1) mod two64) \/
  (failures s' = failures s /\ last_success_unix_secs (crl_state s') = now /\
   exists status body blocks n set,
     f = Fetched status (Some body) /\ is_success status = true /\
     parse_many body = Ok blocks /\ collect_serials blocks 0 ∅ = Ok (S n, set) /\
     forall serial, crl_contains serial s' = true <-> listed_in body (to_ascii_lowercase serial)).
Proof.
  destruct f as [| |status [body|]]; cbn [refresh_once]; try (by left);
    destruct (is_success status) eqn:Es; try (by left).
  unfold apply_pem. destruct (parse_many body) as [blocks|] eqn:Ep; cbn; [|by left].
  destruct (collect_serials blocks 0 ∅) as [[[|n] set]|] eqn:Ec; cbn; try (by left).
  right. split_and!; [done..|]. exists status, body, blocks, n, set. split_and!; [done..|].
  intros serial. unfold crl_contains. cbn. rewrite bool_decide_eq_true.
  rewrite (proj2 (collect_serials_spec _ _ _ _ _ (to_ascii_lowercase serial) Ec)). unfold listed_in.
  split.
  - intros [Hx|(c & rv & raw & Hx)]; [by apply elem_of_empty in Hx|]. by exists blocks, c, rv, raw.
  - intros (b & c & rv & raw & E & Hx). rewrite Ep in E. injection E as <-. right.
    by exists c, rv, raw.
Qed.
End Crl.

(** ** The blocklist *)

Record Snapshot := { serials : list string; mtime_secs : Z }.
Record Blocklist := { bl_path : string; bl_state : Snapshot }.

(** The serials of a blocklist file. *)
Definition parse_serials (raw : string) : list string :=
  map to_ascii_lowercase
    (List.filter (fun l => negb (bool_decide (l = "")) && negb (starts_with "#" l))
       (map trim (lines raw))).

(** [Blocklist::read]: the text, then the time stamp, each its own call. *)
Definition bl_read (text : option string) (mtime : option Z) : option Snapshot :=
  (fun raw => {| serials := parse_serials raw; mtime_secs := default 0 mtime |}) <$> text.

Definition bl_open (path : string) (text : option string) (mtime : option Z) : Blocklist :=
  {| bl_path := path;
     bl_state := default {| serials := []; mtime_secs := 0 |} (bl_read text mtime) |}.

(** [meta] is the first [metadata] call (its inner option the time stamp),
    [text] and [mtime] what the read inside sees. *)
Definition reload_if_changed (meta : option (option Z)) (text : option string) (mtime : option Z)
    (b : Blocklist) : bool * Blocklist :=
  match meta with
  | None => (false, b)
  | Some m =>
      if default 0 m =? mtime_secs (bl_state b) then (false, b)
      else match bl_read text mtime with
           | Some snap => (true, {| bl_path := bl_path b; bl_state := snap |})
           | None => (false, b)
           end
  end.

Definition bl_contains (serial_hex : string) (b : Blocklist) : bool :=
  serial_listed (Some (serials (bl_state b))) serial_hex.

(** A poll of a file nobody is writing. *)
Definition poll (text : string) (mtime : Z) (b : Blocklist) : Blocklist :=
  (reload_if_changed (Some (Some mtime)) (Some text) (Some mtime) b).2.

(** [locksmith mtls revoke]: the text it writes over [existing]. *)
Definition revoke_text (existing : string) (serial : string) (reason : option string) : string :=
  let normalized := to_ascii_lowercase (trim serial) in
  let existing := if negb (bool_decide (existing = "")) && negb (ends_with nl existing)
                  then existing +:+ nl else existing in
  let existing := match reason with
                  | Some r => existing +:+ "# " +:+ r +:+ nl
                  | None => existing
                  end in
  existing +:+ normalized +:+ nl.

(** [locksmith mtls list-blocklist] prints the lines that are not comments. *)
Definition list_blocklist (raw : string) : list string :=
  List.filter (fun l => negb (bool_decide (l = "")) && negb (starts_with "#" l))
    (map trim (lines raw)).

(** *** Lines of the written file *)

Definition is_break (c : ascii) : bool := is_char (ascii_of_N 10) c || is_char (ascii_of_N 13) c.
Definition one_line (s : string) : bool := str_forall (fun c => negb (is_break c)) s.

Lemma lines_from_app cur a b :
  lines_from cur (a +:+ nl +:+ b) = lines_from cur (a +:+ nl) ++ lines b.
Proof.
  revert cur. induction a as [|c a IH]; intros cur.
  - change ("" +:+ nl +:+ b) with (String (ascii_of_N 10) b).
    change ("" +:+ nl) with (String (ascii_of_N 10) ""). cbn [lines_from].
    rewrite (bool_decide_eq_true_2 (ascii_of_N 10 = _)) by done. done.
  - change (String c a +:+ nl +:+ b) with (String c (a +:+ nl +:+ b)).
    change (String c a +:+ nl) with (String c (a +:+ nl)). cbn [lines_from].
    case_bool_decide; rewrite IH; done.
Qed.

Lemma ends_with_cons p c s : s <> "" -> p <> "" -> String.length p = 1%nat ->
  ends_with p (String c s) = ends_with p s.
Proof.
  intros Hs _ Hl. apply eq_true_iff_eq. rewrite !ends_with_iff. split.
  - intros [[|d a] E]; simpl in E.
    + exfalso. subst p. simpl in Hl. destruct s; [done|]. simpl in Hl. lia.
    + exists a. by injection E.
  - intros [a ->]. by exists (String c a).
Qed.

(** A final line break changes nothing when there are no carriage returns. *)
Lemma lines_from_nl cur a :
  str_forall (fun c => negb (is_char (ascii_of_N 13) c)) (cur +:+ a) = true ->
  (a = "" -> cur <> "") -> ends_with nl a = false ->
  lines_from cur (a +:+ nl) = lines_from cur a.
Proof.
  revert cur. induction a as [|c a IH]; intros cur Hf Hc He.
  - change ("" +:+ nl) with (String (ascii_of_N 10) ""). cbn [lines_from].
    rewrite (bool_decide_eq_true_2 (ascii_of_N 10 = _)) by done.
    rewrite (bool_decide_eq_true_2 ("" = "")), (bool_decide_eq_false_2 (cur = "")) by auto.
    destruct (ends_with (String (ascii_of_N 13) "") cur) eqn:E; [|done].
    apply ends_with_iff in E as [x ->]. rewrite str_app_nil_r, str_forall_app in Hf.
    apply andb_prop in Hf as [_ Hf]. done.
  - change (String c a +:+ nl) with (String c (a +:+ nl)). cbn [lines_from].
    assert (Ha : ends_with nl a = false).
    { destruct a as [|d a]; [done|]. by rewrite ends_with_cons in He. }
    case_bool_decide as Hn.
    + destruct a as [|d a]; [by subst c|]. f_equal. apply IH; [|done|done].
      rewrite str_forall_app in Hf. apply andb_prop in Hf as [_ Hf]. cbn [str_forall] in Hf.
      by apply andb_prop in Hf as [_ Hf].
    + apply IH; [by rewrite <- str_app_assoc| |done]. intros _. by destruct cur.
Qed.

(** *** Trimming *)

Definition solid (c : ascii) : bool :=
  (N_of_ascii c <? 128)%N && negb (is_whitespace (N_of_ascii c)).

Lemma all_whitespace_solid c s : solid c = true -> all_whitespace (String c s) = false.
Proof.
  unfold solid. intros [Hc Hw%negb_true_iff]%andb_prop. unfold all_whitespace, utf8_chars.
  cbn [String.length utf8_fuel]. unfold next_char. rewrite Hc.
  destruct (utf8_fuel _ s); cbn; [|done]. by rewrite Hw.
Qed.

Lemma trim_start_solid c s : solid c = true -> trim_start (String c s) = String c s.
Proof.
  intros Hs. unfold trim_start. cbn [String.length trim_start_fuel]. unfold next_char.
  unfold solid in Hs. apply andb_prop in Hs as [-> Hw%negb_true_iff]. by rewrite Hw.
Qed.

Lemma trim_solid s : str_forall solid s = true -> trim s = s.
Proof.
  intros Hs. unfold trim. replace (trim_start s) with s.
  - induction s as [|c s IH]; [done|]. cbn [str_forall] in Hs. apply andb_prop in Hs as [Hc Hs].
    cbn [trim_end]. by rewrite all_whitespace_solid, IH.
  - destruct s as [|c s]; [done|]. cbn [str_forall] in Hs. apply andb_prop in Hs as [Hc _].
    by rewrite trim_start_solid.
Qed.

Lemma trim_comment s : starts_with "#" (trim (String "#" s)) = true.
Proof.
  unfold trim. rewrite trim_start_solid by done. cbn [trim_end].
  by rewrite all_whitespace_solid.
Qed.

(** *** Revoking a serial *)

Definition is_hex (c : ascii) : bool :=
  let n := N_of_ascii c in
  ((48 <=? n) && (n <=? 57) || (97 <=? n) && (n <=? 102) || (65 <=? n) && (n <=? 70))%N.

Lemma hex_lower c :
  is_hex c = true ->
  is_hex (to_lower c) = true /\ solid (to_lower c) = true /\ is_break (to_lower c) = false /\
  to_lower c <> "#"%char.
Proof. destruct c as [[] [] [] [] [] [] [] []]; vm_compute; intros [=]; by repeat split. Qed.

Lemma hex_lower_all s :
  str_forall is_hex s = true ->
  str_forall solid (to_ascii_lowercase s) = true /\ one_line (to_ascii_lowercase s) = true /\
  starts_with "#" (to_ascii_lowercase s) = false.
Proof.
  intros Hs. split_and!.
  - induction s as [|c s IH]; [done|]. cbn [str_forall] in Hs. apply andb_prop in Hs as [Hc Hs].
    cbn. apply hex_lower in Hc as (_ & -> & _). by apply IH.
  - induction s as [|c s IH]; [done|]. cbn [str_forall] in Hs. apply andb_prop in Hs as [Hc Hs].
    cbn. apply hex_lower in Hc as (_ & _ & -> & _). by apply IH.
  - destruct s as [|c s]; [done|]. cbn [str_forall] in Hs. apply andb_prop in Hs as [Hc _].
    apply hex_lower in Hc as (_ & _ & _ & Hn). unfold starts_with, to_ascii_lowercase.
    cbn. rewrite bool_decide_eq_false_2 by done. done.
Qed.

Lemma parse_serials_app a b :
  parse_serials (a +:+ nl +:+ b) = parse_serials (a +:+ nl) ++ parse_serials b.
Proof.
  unfold parse_serials, lines at 1 2. rewrite lines_from_app. by rewrite map_app, List.filter_app, map_app.
Qed.

Lemma lines_one s rest : one_line s = true -> lines (s +:+ nl +:+ rest) = s :: lines rest.
Proof.
  intros Hs. unfold lines. rewrite lines_from_line; [done|]. cbn [append].
  unfold one_line in Hs. eapply str_forall_impl; [|exact Hs]. intros c. unfold is_break.
  by destruct (is_char _ c), (is_char _ c).
Qed.

Lemma parse_serials_line s :
  one_line s = true ->
  parse_serials (s +:+ nl) =
    if negb (bool_decide (trim s = "")) && negb (starts_with "#" (trim s))
    then [to_ascii_lowercase (trim s)] else [].
Proof.
  intros Hs. unfold parse_serials. rewrite <- (str_app_nil_r nl), lines_one by done. cbn.
  by destruct (negb _ && negb _).
Qed.

Lemma parse_serials_comment r : one_line r = true -> parse_serials ("# " +:+ r +:+ nl) = [].
Proof.
  intros Hr. rewrite str_app_assoc, parse_serials_line by done.
  change ("# " +:+ r) with (String "#" (" " +:+ r)). rewrite trim_comment. by rewrite andb_false_r.
Qed.

(** The line break added before appending keeps the serials. *)
Lemma parse_serials_terminate s :
  str_forall (fun c => negb (is_char (ascii_of_N 13) c)) s = true ->
  let t := if negb (bool_decide (s = "")) && negb (ends_with nl s) then s +:+ nl else s in
  parse_serials t = parse_serials s /\ (t = "" \/ exists u, t = u +:+ nl).
Proof.
  intros Hs. cbv zeta. case_bool_decide as He; cbn [negb andb]; [by auto|].
  destruct (ends_with nl s) eqn:E; cbn [negb].
  - apply ends_with_iff in E as [u ->]. split; [done|]. right. by exists u.
  - split; [|right; by exists s]. unfold parse_serials, lines. by rewrite lines_from_nl.
Qed.

Lemma parse_serials_cat t u : (t = "" \/ exists v, t = v +:+ nl) ->
  parse_serials (t +:+ u) = parse_serials t ++ parse_serials u.
Proof. intros [->|[v ->]]; [done|]. rewrite <- str_app_assoc. apply parse_serials_app. Qed.

Section Revoke.
Context (existing serial : string) (reason : option string).
Hypothesis Hno_cr : str_forall (fun c => negb (is_char (ascii_of_N 13) c)) existing = true.
Hypothesis Hserial : str_forall is_hex (trim serial) = true.
Hypothesis Hnonempty : trim serial <> "".
Hypothesis Hreason : forall r, reason = Some r -> one_line r = true.

(** What the command writes is read back as the serials listed before,
    followed by the new one. *)
Lemma revoke_adds_serial :
  parse_serials (revoke_text existing serial reason)
    = parse_serials existing ++ [to_ascii_lowercase (trim serial)].
Proof.
  unfold revoke_text. destruct (parse_serials_terminate existing Hno_cr) as [<- Ht].
  set (t := if negb (bool_decide (existing = "")) && _ then _ else _) in *.
  destruct (hex_lower_all (trim serial) Hserial) as (H1 & H2 & H3).
  assert (L : parse_serials (to_ascii_lowercase (trim serial) +:+ nl)
              = [to_ascii_lowercase (trim serial)]).
  { rewrite parse_serials_line, trim_solid, H3 by done. rewrite bool_decide_eq_false_2.
    - cbn. by rewrite to_ascii_lowercase_idem.
    - destruct (trim serial); [done|]. by intros. }
  destruct reason as [r|]; [|by rewrite parse_serials_cat, L].
  rewrite <- str_app_assoc, parse_serials_cat by done. f_equal.
  rewrite parse_serials_cat, L, parse_serials_comment by (auto; right; by exists ("# " +:+ r)).
  done.
Qed.
End Revoke.

(** ** The validator and the daemon *)

Section Validator.
Context `{PemCrate} `{X509Crate}.

(** [MtlsValidator::new]. *)
Definition validator_new (ca_bundle_pem : string) : result MtlsError MtlsValidator :=
  let? blocks := map_err (fun e => MalformedCert ("CA bundle: " +:+ e)) (parse_many ca_bundle_pem) in
  let roots := map snd (List.filter (fun b => bool_decide (b.1 = "CERTIFICATE")) blocks) in
  match roots with
  | [] => Err (MalformedCert "CA bundle contains no CERTIFICATE blocks")
  | _ => Ok {| roots := roots; crl := None; blocklist := None |}
  end.

Definition with_crl (s : CrlStore) (v : MtlsValidator) : MtlsValidator :=
  {| roots := roots v; crl := Some (elements (revoked_serials (crl_state s)));
     blocklist := blocklist v |}.

Definition with_blocklist (b : Blocklist) (v : MtlsValidator) : MtlsValidator :=
  {| roots := roots v; crl := crl v; blocklist := Some (serials (bl_state b)) |}.

Record MtlsConfig := {
  ca_bundle_path : string;
  server_cert_path : option string;
  server_key_path : option string;
  crl_url : option string;
  crl_refresh_interval_seconds : Z;
  blocklist_path : option string;
  blocklist_reload_interval_seconds : Z
}.

(** The validator the daemon gives the agent listener. *)
Definition daemon_validator (read_to_string : string -> result string string) (cfg : MtlsConfig)
  : result string MtlsValidator :=
  let? ca_pem := map_err (fun e => "read mtls.ca_bundle_path " +:+ ca_bundle_path cfg +:+ ": " +:+ e)
                   (read_to_string (ca_bundle_path cfg)) in
  map_err (fun e => "mtls validator: " +:+ mtls_message e) (validator_new ca_pem).

Lemma listed_refused v now der c :
  x509_from_der der = Ok c -> serial_listed (blocklist v) (hex (serial c)) = true ->
  is_ok (validate v now der) = false.
Proof.
  intros Hc Hl. destruct (validate v now der) as [i|] eqn:E; [|done].
  destruct (validate_ok _ _ _ _ E) as (c' & Hc' & _ & _ & Hb & _). rewrite Hc in Hc'.
  injection Hc' as <-. congruence.
Qed.

(** The library's emergency lever: were a polled blocklist attached to the
    validator (no code of the daemon does it, [daemon_ignores_revocation]),
    then after [mtls revoke] wrote the file and a poll saw its new time stamp
    a certificate with that serial, or with one listed before, would be
    refused, whatever its chain. *)
Theorem revocation_takes_effect existing serial0 reason b m v now der c :
  str_forall (fun c => negb (is_char (ascii_of_N 13) c)) existing = true ->
  str_forall is_hex (trim serial0) = true -> trim serial0 <> "" ->
  (forall r, reason = Some r -> one_line r = true) ->
  m <> mtime_secs (bl_state b) ->
  x509_from_der der = Ok c ->
  to_ascii_lowercase (hex (serial c)) = to_ascii_lowercase (trim serial0) \/
    to_ascii_lowercase (hex (serial c)) ∈ parse_serials existing ->
  is_ok (validate (with_blocklist (poll (revoke_text existing serial0 reason) m b) v) now der) = false.
Proof.
  intros Hcr Hhex Hne Hr Hm Hc Hs. eapply listed_refused; [exact Hc|].
  unfold poll, reload_if_changed. cbn. destruct (Z.eqb_spec m (mtime_secs (bl_state b))); [done|].
  cbn. rewrite revoke_adds_serial by done. apply list_has_iff, elem_of_app.
  destruct Hs as [->|Hs]; [|by left]. right. by left.
Qed.

(** A write that lands between the two system calls of a reload is lost: the
    snapshot keeps the old serials under the new time stamp, so every later
    poll of the new file leaves it as it is. *)
Theorem racing_write_lost old m1 m2 b polls :
  m1 <> mtime_secs (bl_state b) ->
  let b' := (reload_if_changed (Some (Some m1)) (Some old) (Some m2) b).2 in
  fold_left (fun b text => poll text m2 b) polls b' = b' /\ serials (bl_state b') = parse_serials old.
Proof.
  intros Hm b'. assert (E : mtime_secs (bl_state b') = m2 /\ serials (bl_state b') = parse_serials old).
  { unfold b', reload_if_changed. cbn. by destruct (Z.eqb_spec m1 (mtime_secs (bl_state b))). }
  destruct E as [Em Es]. split; [|done]. clear Es. clearbody b'.
  induction polls as [|t polls IH]; [done|]. cbn [fold_left].
  replace (poll t m2 b') with b'; [done|]. unfold poll, reload_if_changed. cbn.
  by rewrite Em, Z.eqb_refl.
Qed.

(** The daemon never attaches a revocation list: whatever CRL URL and
    blocklist the configuration names, a certificate its validator accepts
    for its chain and dates is never refused for its serial. *)
Theorem daemon_ignores_revocation read cfg v now der serial0 :
  daemon_validator read cfg = Ok v ->
  validate v now der <> Err (RevokedByCRL serial0) /\
  validate v now der <> Err (RevokedByBlocklist serial0).
Proof.
  unfold daemon_validator. destruct (read _) as [pem|]; cbn; [|done].
  unfold validator_new. destruct (parse_many pem) as [blocks|]; cbn; [|done].
  destruct (map snd _) as [|r rs]; cbn; [done|]. intros [= <-].
  unfold validate. cbn. destruct (x509_from_der der) as [c|]; cbn; [|done].
  destruct (now <? _); [done|]. destruct (_ <? now); [done|].
  destruct (end_entity der); cbn; [|done]. destruct (if trust_anchor r then _ else _); [done|].
  destruct (verify_for_usage _ _ _); cbn; [|done].
  unfold extract_identity, san_identity. by repeat case_match.
Qed.
End Validator.

Module RevocationWitness.
Import AuthWitness.

(** One block per text: CRL texts revoke the serial they hold. *)
#[export] Instance pem0 : PemCrate := {|
  parse_many t := if starts_with "<html>" t then Err "not PEM"
                  else if starts_with "CA" t then Ok [("CERTIFICATE", "ca")]
                  else Ok [("X509 CRL", t)];
  crl_from_der d := Ok [d]
|}.

Example crl_keeps_snapshot :
  crl_contains "4b" (refresh_once 9 (Fetched 200 (Some "<html>"))
    (refresh_once 5 (Fetched 200 (Some "K")) new_crl_store)) = true.
Proof. vm_compute. reflexivity. Qed.

Definition file0 : string := "# old" +:+ nl +:+ "0A" .
Definition list0 : Blocklist := bl_open "blocklist" (Some file0) (Some 7).

Lemma revocation_takes_effect_witness :
  is_ok (validate (with_blocklist (poll (revoke_text file0 " 4B" (Some "stolen")) 9 list0) validator)
           150 "dev-der") = false.
Proof.
  apply (revocation_takes_effect file0 " 4B" (Some "stolen") list0 9 validator 150 "dev-der" dev_cert);
    try (vm_compute; reflexivity); try (vm_compute; discriminate).
  - intros r [= <-]. vm_compute. reflexivity.
  - left. vm_compute. reflexivity.
Defined.

Lemma racing_write_lost_witness :
  fold_left (fun b text => poll text 9 b) [revoke_text file0 "4b" None]
    (reload_if_changed (Some (Some 8)) (Some file0) (Some 9) list0).2
  = (reload_if_changed (Some (Some 8)) (Some file0) (Some 9) list0).2 /\
  serials (bl_state (reload_if_changed (Some (Some 8)) (Some file0) (Some 9) list0).2)
    = parse_serials file0.
Proof.
  apply (racing_write_lost file0 8 9 list0 [revoke_text file0 "4b" None]). vm_compute. discriminate.
Defined.

Definition mtls_cfg : MtlsConfig :=
  {| ca_bundle_path := "ca.pem"; server_cert_path := None; server_key_path := None;
     crl_url := Some "https://ca/crl"; crl_refresh_interval_seconds := 3600;
     blocklist_path := Some "blocklist"; blocklist_reload_interval_seconds := 30 |}.

Lemma daemon_ignores_revocation_witness :
  validate {| roots := ["ca"]; crl := None; blocklist := None |} 150 "dev-der"
    <> Err (RevokedByCRL "4b") /\
  validate {| roots := ["ca"]; crl := None; blocklist := None |} 150 "dev-der"
    <> Err (RevokedByBlocklist "4b").
Proof.
  apply (daemon_ignores_revocation (fun _ => Ok "CA") mtls_cfg). vm_compute. reflexivity.
Defined.

End RevocationWitness.
