(* ===== verification/CodexBody.v ===== *)
(** * The codex request-body fixup ([src/codex_body.rs])

    Four rules rewrite the top-level object of a request body bound for the
    codex [/responses] endpoint; anything that is not a JSON object passes
    through.  Parsing and printing are [serde_json]'s. *)

From S2P Require Import Prelude Json.

Definition MAX_BODY_BYTES : Z := 1024 * 1024.
Definition DEFAULT_INSTRUCTIONS : string := "You are a helpful assistant.".

Inductive CodexBodyError := TooLarge.

Record FixupSummary := {
  fields_added : list string;
  fields_overridden : list string;
  fields_removed : list string
}.

Definition default_summary : FixupSummary :=
  {| fields_added := []; fields_overridden := []; fields_removed := [] |}.

Definition is_noop (s : FixupSummary) : bool :=
  match fields_added s, fields_overridden s, fields_removed s with
  | [], [], [] => true
  | _, _, _ => false
  end.

Definition push_added (f : string) (s : FixupSummary) : FixupSummary :=
  {| fields_added := fields_added s ++ [f]; fields_overridden := fields_overridden s;
     fields_removed := fields_removed s |}.
Definition push_overridden (f : string) (s : FixupSummary) : FixupSummary :=
  {| fields_added := fields_added s; fields_overridden := fields_overridden s ++ [f];
     fields_removed := fields_removed s |}.
Definition push_removed (f : string) (s : FixupSummary) : FixupSummary :=
  {| fields_added := fields_added s; fields_overridden := fields_overridden s;
     fields_removed := fields_removed s ++ [f] |}.

(** The [&mut Map] and [&mut FixupSummary] the rules thread. *)
Abbreviation Fix := (list (string * Json) * FixupSummary)%type (only parsing).

Definition apply_store_rule (st : Fix) : Fix :=
  let '(m, s) := st in
  match obj_get "store" m with
  | Some (JBool false) => (m, s)
  | Some _ => (obj_insert "store" (JBool false) m, push_overridden "store" s)
  | None => (obj_insert "store" (JBool false) m, push_added "store" s)
  end.

Definition apply_stream_rule (st : Fix) : Fix :=
  let '(m, s) := st in
  match obj_get "stream" m with
  | Some (JBool true) => (m, s)
  | Some _ => (obj_insert "stream" (JBool true) m, push_overridden "stream" s)
  | None => (obj_insert "stream" (JBool true) m, push_added "stream" s)
  end.

Definition apply_instructions_rule (st : Fix) : Fix :=
  let '(m, s) := st in
  if negb (obj_contains_key "instructions" m)
  then (obj_insert "instructions" (JString DEFAULT_INSTRUCTIONS) m, push_added "instructions" s)
  else (m, s).

Definition apply_max_output_tokens_rule (st : Fix) : Fix :=
  let '(m, s) := st in
  if isSome (obj_get "max_output_tokens" m)
  then (obj_remove "max_output_tokens" m, push_removed "max_output_tokens" s)
  else (obj_remove "max_output_tokens" m, s).

(** The four rules in the order [fixup] runs them. *)
Definition fixup_map (m : list (string * Json)) : Fix :=
  apply_max_output_tokens_rule (apply_instructions_rule
    (apply_stream_rule (apply_store_rule (m, default_summary)))).

Definition fixup `{SerdeJson} (body : string)
  : result CodexBodyError (string * FixupSummary) :=
  if MAX_BODY_BYTES <? Z.of_nat (String.length body) then Err TooLarge
  else
    match from_slice body with
    | None => Ok (body, default_summary)
    | Some (JObject map) =>
        let '(map, summary) := fixup_map map in
        if is_noop summary then Ok (body, summary)
        else Ok (to_vec (JObject map), summary)
    | Some _ => Ok (body, default_summary)
    end.

(** ** What the endpoint accepts *)

(** The four conditions the rules enforce. *)
Definition compliant (m : list (string * Json)) : Prop :=
  obj_get "store" m = Some (JBool false) /\ obj_get "stream" m = Some (JBool true) /\
  isSome (obj_get "instructions" m) = true /\ obj_get "max_output_tokens" m = None.

Definition managed : list string := ["store"; "stream"; "instructions"; "max_output_tokens"].

(** One rule: the key it manages gets its value and no other key changes. *)
Lemma store_rule m s :
  let m' := (apply_store_rule (m, s)).1 in
  obj_get "store" m' = Some (JBool false) /\
  (forall k, k <> "store" -> obj_get k m' = obj_get k m).
Proof.
  simpl. repeat case_match; simplify_eq/=; split; try done;
    try (by rewrite obj_get_insert_eq); intros k Hk; by apply obj_get_insert_ne.
Qed.

Lemma stream_rule m s :
  let m' := (apply_stream_rule (m, s)).1 in
  obj_get "stream" m' = Some (JBool true) /\
  (forall k, k <> "stream" -> obj_get k m' = obj_get k m).
Proof.
  simpl. repeat case_match; simplify_eq/=; split; try done;
    try (by rewrite obj_get_insert_eq); intros k Hk; by apply obj_get_insert_ne.
Qed.

Lemma instructions_rule m s :
  let m' := (apply_instructions_rule (m, s)).1 in
  obj_get "instructions" m' =
    Some (default (JString DEFAULT_INSTRUCTIONS) (obj_get "instructions" m)) /\
  (forall k, k <> "instructions" -> obj_get k m' = obj_get k m).
Proof.
  simpl. unfold obj_contains_key. destruct (obj_get "instructions" m) eqn:E; simpl.
  - done.
  - split; [by rewrite obj_get_insert_eq|]. intros k Hk. by apply obj_get_insert_ne.
Qed.

Lemma max_tokens_rule m s :
  let m' := (apply_max_output_tokens_rule (m, s)).1 in
  obj_get "max_output_tokens" m' = None /\
  (forall k, k <> "max_output_tokens" -> obj_get k m' = obj_get k m).
Proof.
  simpl. case_match; simpl; (split; [by rewrite obj_get_remove_eq|]);
    intros k Hk; by apply obj_get_remove_ne.
Qed.

Lemma fixup_map_compose m :
  exists m1 s1 m2 s2 m3 s3,
    apply_store_rule (m, default_summary) = (m1, s1) /\
    apply_stream_rule (m1, s1) = (m2, s2) /\
    apply_instructions_rule (m2, s2) = (m3, s3) /\
    fixup_map m = apply_max_output_tokens_rule (m3, s3).
Proof.
  unfold fixup_map. destruct (apply_store_rule _) as [m1 s1] eqn:E1.
  destruct (apply_stream_rule _) as [m2 s2] eqn:E2.
  destruct (apply_instructions_rule _) as [m3 s3] eqn:E3.
  exists m1, s1, m2, s2, m3, s3. done.
Qed.

Lemma fixup_map_get m :
  let m' := (fixup_map m).1 in
  obj_get "store" m' = Some (JBool false) /\ obj_get "stream" m' = Some (JBool true) /\
  obj_get "instructions" m' =
    Some (default (JString DEFAULT_INSTRUCTIONS) (obj_get "instructions" m)) /\
  obj_get "max_output_tokens" m' = None /\
  (forall k, k ∉ managed -> obj_get k m' = obj_get k m).
Proof.
  destruct (fixup_map_compose m) as (m1 & s1 & m2 & s2 & m3 & s3 & E1 & E2 & E3 & ->).
  pose proof (store_rule m default_summary) as R1. rewrite E1 in R1. destruct R1 as [A1 B1].
  pose proof (stream_rule m1 s1) as R2. rewrite E2 in R2. destruct R2 as [A2 B2].
  pose proof (instructions_rule m2 s2) as R3. rewrite E3 in R3. destruct R3 as [A3 B3].
  destruct (max_tokens_rule m3 s3) as [A4 B4]. cbn [fst] in *.
  repeat split.
  - by rewrite B4, B3, B2.
  - by rewrite B4, B3.
  - by rewrite B4, A3, B2, B1.
  - done.
  - intros k Hk. unfold managed in Hk.
    rewrite B4, B3, B2, B1; [done|set_solver..].
Qed.

Lemma is_noop_push f s :
  is_noop (push_added f s) = false /\ is_noop (push_overridden f s) = false /\
  is_noop (push_removed f s) = false.
Proof. destruct s as [[|? ?] [|? ?] [|? ?]]; done. Qed.

(** A rule that reports nothing found its condition met and changed nothing. *)
Lemma store_noop m s :
  is_noop (apply_store_rule (m, s)).2 = true ->
  is_noop s = true /\ obj_get "store" m = Some (JBool false) /\
  apply_store_rule (m, s) = (m, s).
Proof.
  simpl. destruct (is_noop_push "store" s) as (? & ? & _).
  intros Hn. repeat case_match; simplify_eq/=; first [done | congruence].
Qed.

Lemma stream_noop m s :
  is_noop (apply_stream_rule (m, s)).2 = true ->
  is_noop s = true /\ obj_get "stream" m = Some (JBool true) /\
  apply_stream_rule (m, s) = (m, s).
Proof.
  simpl. destruct (is_noop_push "stream" s) as (? & ? & _).
  intros Hn. repeat case_match; simplify_eq/=; first [done | congruence].
Qed.

Lemma instructions_noop m s :
  is_noop (apply_instructions_rule (m, s)).2 = true ->
  is_noop s = true /\ isSome (obj_get "instructions" m) = true /\
  apply_instructions_rule (m, s) = (m, s).
Proof.
  simpl. destruct (is_noop_push "instructions" s) as (? & _ & _). unfold obj_contains_key.
  intros Hn. destruct (isSome _); simplify_eq/=; first [done | congruence].
Qed.

Lemma max_tokens_noop m s :
  is_noop (apply_max_output_tokens_rule (m, s)).2 = true ->
  is_noop s = true /\ obj_get "max_output_tokens" m = None /\
  apply_max_output_tokens_rule (m, s) = (m, s).
Proof.
  simpl. destruct (is_noop_push "max_output_tokens" s) as (_ & _ & ?).
  intros Hn. destruct (obj_get "max_output_tokens" m) eqn:E; simplify_eq/=; [congruence|].
  by rewrite obj_remove_None.
Qed.

(** Only a compliant map yields an empty summary, and it is left alone. *)
Lemma fixup_map_noop m :
  is_noop (fixup_map m).2 = true <-> compliant m.
Proof.
  unfold compliant. split.
  - destruct (fixup_map_compose m) as (m1 & s1 & m2 & s2 & m3 & s3 & E1 & E2 & E3 & ->).
    intros (N3 & H4 & _)%max_tokens_noop.
    pose proof (instructions_noop m2 s2) as R3. rewrite E3 in R3.
    destruct (R3 N3) as (N2 & H3 & [= -> ->]).
    pose proof (stream_noop m1 s1) as R2. rewrite E2 in R2.
    destruct (R2 N2) as (N1 & H2 & [= -> ->]).
    pose proof (store_noop m default_summary) as R1. rewrite E1 in R1.
    by destruct (R1 N1) as (_ & H1 & [= -> ->]).
  - intros (H1 & H2 & H3 & H4). unfold fixup_map, apply_store_rule. rewrite H1.
    unfold apply_stream_rule. rewrite H2.
    unfold apply_instructions_rule, obj_contains_key. rewrite H3.
    simpl. by rewrite H4.
Qed.

Lemma fixup_map_noop_same m : is_noop (fixup_map m).2 = true -> (fixup_map m).1 = m.
Proof.
  intros (H1 & H2 & H3 & H4)%fixup_map_noop. unfold fixup_map, apply_store_rule. rewrite H1.
  unfold apply_stream_rule. rewrite H2.
  unfold apply_instructions_rule, obj_contains_key. rewrite H3.
  simpl. rewrite H4. simpl. by apply obj_remove_None.
Qed.

(** ** [fixup] *)

Section Fixup.
Context `{SerdeJson}.

(** The codex fixup on every input: a body over the cap is the only
    error; a body that is not a JSON object passes through byte for byte with
    an empty summary; an object is forwarded with [store] false, [stream]
    true, the agent's [instructions] (or the default), no
    [max_output_tokens], and every other key as the agent sent it. *)
Theorem fixup_spec body :
  match fixup body with
  | Err TooLarge => MAX_BODY_BYTES < Z.of_nat (String.length body)
  | Ok (out, summary) =>
      Z.of_nat (String.length body) <= MAX_BODY_BYTES /\
      match from_slice body with
      | Some (JObject m) =>
          exists m', (out = body /\ m' = m /\ is_noop summary = true \/
                      out = to_vec (JObject m') /\ is_noop summary = false) /\
            obj_get "store" m' = Some (JBool false) /\
            obj_get "stream" m' = Some (JBool true) /\
            obj_get "instructions" m' =
              Some (default (JString DEFAULT_INSTRUCTIONS) (obj_get "instructions" m)) /\
            obj_get "max_output_tokens" m' = None /\
            (forall k, k ∉ managed -> obj_get k m' = obj_get k m)
      | _ => out = body /\ summary = default_summary
      end
  end.
Proof.
  unfold fixup. destruct (Z.ltb_spec MAX_BODY_BYTES (Z.of_nat (String.length body))); [done|].
  destruct (from_slice body) as [[| | | | | |m]|]; try done.
  destruct (fixup_map m) as [m' s] eqn:E.
  pose proof (fixup_map_get m) as G. pose proof (fixup_map_noop_same m) as Hn.
  rewrite E in G, Hn. cbn [fst snd] in *.
  destruct (is_noop s) eqn:N; (split; [done|]); exists m'; split; auto.
Qed.

(** The fixup is stable: when the printed body parses back to the object
    it prints and is within the cap, fixing up a fixed-up body changes nothing
    and reports nothing, so a retry through the proxy sends the same bytes. *)
Theorem fixup_idempotent body out summary m :
  from_slice body = Some (JObject m) ->
  fixup body = Ok (out, summary) ->
  from_slice (to_vec (JObject (fixup_map m).1)) = Some (JObject (fixup_map m).1) ->
  Z.of_nat (String.length out) <= MAX_BODY_BYTES ->
  fixup out = Ok (out, default_summary).
Proof.
  intros Hb Hf Hrt Hlen.
  assert (Hc : compliant (fixup_map m).1).
  { destruct (fixup_map_get m) as (G1 & G2 & G3 & G4 & _). unfold compliant. by rewrite G3. }
  assert (Hp : from_slice out = Some (JObject (fixup_map m).1)).
  { unfold fixup in Hf. rewrite Hb in Hf. case_match; [done|].
    pose proof (fixup_map_noop_same m) as Hs.
    destruct (fixup_map m) as [m' s]. cbn [fst snd] in *.
    destruct (is_noop s); simplify_eq; [|done]. by rewrite Hs. }
  unfold fixup. rewrite Hp. destruct (Z.ltb_spec MAX_BODY_BYTES (Z.of_nat (String.length out))); [lia|].
  apply fixup_map_noop in Hc.
  destruct (fixup_map (fixup_map m).1) as [m2 s2]. cbn [snd] in Hc. rewrite Hc.
  destruct s2 as [[|? ?] [|? ?] [|? ?]]; done.
Qed.
End Fixup.

(** ** Witness: a printer and parser for two bodies *)

Module CodexWitness.

Definition m0 : list (string * Json) :=
  [("max_output_tokens", JInt 16); ("model", JString "gpt"); ("store", JBool true)].

Definition b0 : string := "body".
Definition b1 : string := "fixed".

#[export] Instance serde : SerdeJson :=
  {| from_slice s :=
       if bool_decide (s = b0) then Some (JObject m0)
       else if bool_decide (s = b1) then Some (JObject (fixup_map m0).1) else None;
     to_vec _ := b1 |}.

Lemma fixup_idempotent_witness : fixup b1 = Ok (b1, default_summary).
Proof.
  apply (fixup_idempotent b0 b1 (fixup_map m0).2 m0);
    first [vm_compute; reflexivity | vm_compute; discriminate].
Defined.

End CodexWitness.
