(* ===== verification/ResponseControls.v ===== *)
(** * Per-tool response controls ([src/response_controls.rs])

    Size cap, content-type allowlist and redaction of a buffered response,
    and the byte-counting stream adapter of the streaming path.  The [regex]
    and [sha2] crates are parameters. *)

From S2P Require Import Prelude.

(** ** The crates *)

(** [Regex::new], the matches [find_iter] yields, and [replace_all]. *)
Class RegexCrate : Type := {
  Regex : Type;
  regex_new : string -> option Regex;
  find_iter : Regex -> string -> list string;
  replace_all : Regex -> string -> string -> string
}.

(** [replace_all] returns the haystack itself when nothing matches. *)
Class RegexLaws `{RegexCrate} : Prop := {
  replace_all_no_match : forall r text rep, find_iter r text = [] -> replace_all r text rep = text
}.

(** The digest of the concatenation of the [update]s. *)
Class Sha2Crate : Type := { sha256 : string -> string }.

Record RedactionPatternConfig := {
  rp_id : string;
  rp_regex : string;
  rp_replacement : option string
}.

Record ResponseControlsConfig := {
  cfg_max_size_bytes : option Z;
  cfg_content_type_allowlist : option (list string);
  cfg_redaction_patterns : list RedactionPatternConfig
}.

Record RedactionRecord := {
  pattern_id : string;
  matches : nat;
  match_hash : string
}.

Inductive ApplyOutcome :=
| AllowedBody (body : string) (redactions : list RedactionRecord)
| SizeExceeded (observed : Z) (cap : Z)
| ContentTypeDisallowed (observed : string).

(** [format!("{b:02x}")] of each byte. *)
Definition hex_digit (n : N) : ascii :=
  if (n <? 10)%N then ascii_of_N (48 + n) else ascii_of_N (87 + n).

Fixpoint hex_sha256 (bytes : string) : string :=
  match bytes with
  | EmptyString => EmptyString
  | String b rest =>
      let n := N_of_ascii b in
      String (hex_digit (n / 16)) (String (hex_digit (n mod 16)) (hex_sha256 rest))
  end.

Section Controls.
Context `{RegexCrate} `{Sha2Crate}.

Record CompiledPattern := { cp_id : string; cp_regex : Regex; cp_replacement : string }.

Record ResponseControls := {
  max_size_bytes : option Z;
  content_type_allowlist : option (list string);
  patterns : list CompiledPattern
}.

(** [None] is [Err(regex::Error)]. *)
Definition compile_pattern (p : RedactionPatternConfig) : option CompiledPattern :=
  let* r := regex_new (rp_regex p) in
  Some {| cp_id := rp_id p; cp_regex := r;
          cp_replacement := default ("[REDACTED:" +:+ rp_id p +:+ "]") (rp_replacement p) |}.

Fixpoint compile_patterns (l : list RedactionPatternConfig) : option (list CompiledPattern) :=
  match l with
  | [] => Some []
  | p :: l' => let* c := compile_pattern p in let* cs := compile_patterns l' in Some (c :: cs)
  end.

Definition compile (cfg : ResponseControlsConfig) : option ResponseControls :=
  let* ps := compile_patterns (cfg_redaction_patterns cfg) in
  Some {| max_size_bytes := cfg_max_size_bytes cfg;
          content_type_allowlist := cfg_content_type_allowlist cfg; patterns := ps |}.

(** [split(';').next().trim().to_ascii_lowercase()]. *)
Definition media_type (content_type : string) : string :=
  to_ascii_lowercase (trim (first_segment (is_char ";") content_type)).

Definition streaming_size_cap (c : ResponseControls) : option Z := max_size_bytes c.

Definition has_redaction_patterns (c : ResponseControls) : bool :=
  match patterns c with [] => false | _ => true end.

Definition streaming_content_type_allowed (c : ResponseControls) (content_type : option string)
  : bool :=
  match content_type_allowlist c with
  | None => true
  | Some allow =>
      let observed := media_type (default "" content_type) in
      existsb (fun a => eq_ignore_ascii_case a observed) allow
  end.

(** The body of the [for pattern in &self.patterns] loop. *)
Definition redact_step (st : string * list RedactionRecord) (p : CompiledPattern)
  : string * list RedactionRecord :=
  let '(working, records) := st in
  let found := find_iter (cp_regex p) working in
  if bool_decide (List.length found = 0%nat) then (working, records)
  else (replace_all (cp_regex p) working (cp_replacement p),
        records ++ [{| pattern_id := cp_id p; matches := List.length found;
                       match_hash := hex_sha256 (sha256 (String.concat "" found)) |}]).

Definition apply_non_streaming (c : ResponseControls) (content_type : option string)
    (body : string) : ApplyOutcome :=
  let len := Z.of_nat (String.length body) in
  let too_big := match max_size_bytes c with Some cap => cap <? len | None => false end in
  if too_big then SizeExceeded len (default 0 (max_size_bytes c))
  else
    let disallowed :=
      match content_type_allowlist c with
      | None => false
      | Some allow =>
          let observed := media_type (default "" content_type) in
          negb (existsb (fun a => eq_ignore_ascii_case a observed) allow)
      end in
    if disallowed then ContentTypeDisallowed (default "" content_type)
    else
      match patterns c with
      | [] => AllowedBody body []
      | ps =>
          if negb (is_utf8 body) then AllowedBody body []
          else
            let '(working, records) := fold_left redact_step ps (body, []) in
            AllowedBody working records
      end.

(** ** The buffered path *)

(** Redaction without the no-match shortcut: every pattern replaces in turn. *)
Definition redact_all (ps : list CompiledPattern) (text : string) : string :=
  fold_left (fun w p => replace_all (cp_regex p) w (cp_replacement p)) ps text.

(** The text each pattern sees, with the pattern. *)
Fixpoint redact_trace (ps : list CompiledPattern) (text : string)
  : list (CompiledPattern * string) :=
  match ps with
  | [] => []
  | p :: ps' => (p, text) :: redact_trace ps' (replace_all (cp_regex p) text (cp_replacement p))
  end.

(** The audit record of a pattern on a text. *)
Definition record_for (pt : CompiledPattern * string) : RedactionRecord :=
  let found := find_iter (cp_regex pt.1) pt.2 in
  {| pattern_id := cp_id pt.1; matches := List.length found;
     match_hash := hex_sha256 (sha256 (String.concat "" found)) |}.

Definition matched (pt : CompiledPattern * string) : bool :=
  negb (bool_decide (find_iter (cp_regex pt.1) pt.2 = [])).

Lemma redact_fold `{!RegexLaws} ps text records :
  fold_left redact_step ps (text, records) =
  (redact_all ps text,
   records ++ map record_for (List.filter matched (redact_trace ps text))).
Proof.
  revert text records. induction ps as [|p ps IH]; intros text records; simpl.
  { by rewrite app_nil_r. }
  unfold matched. simpl. destruct (find_iter (cp_regex p) text) as [|m ms] eqn:E; simpl.
  - rewrite IH. by rewrite replace_all_no_match.
  - rewrite IH, <- app_assoc. unfold record_for at 2. simpl. by rewrite E.
Qed.

(** The buffered controls, branch by branch: the size cap is checked
    first and exactly; then the content type, by the same test the streaming
    path uses; a UTF-8 body is then rewritten by every pattern in order, with
    one record per pattern that matched; any other body passes unchanged. *)
Theorem apply_non_streaming_spec `{!RegexLaws} c ct body :
  let len := Z.of_nat (String.length body) in
  match apply_non_streaming c ct body with
  | SizeExceeded observed cap => observed = len /\ max_size_bytes c = Some cap /\ cap < len
  | ContentTypeDisallowed observed =>
      (forall cap, max_size_bytes c = Some cap -> len <= cap) /\
      streaming_content_type_allowed c ct = false /\ observed = default "" ct
  | AllowedBody out records =>
      (forall cap, max_size_bytes c = Some cap -> len <= cap) /\
      streaming_content_type_allowed c ct = true /\
      (if is_utf8 body
       then out = redact_all (patterns c) body /\
            records = map record_for (List.filter matched (redact_trace (patterns c) body))
       else out = body /\ records = [])
  end.
Proof.
  intros len. unfold apply_non_streaming, streaming_content_type_allowed. fold len.
  assert (Hcap : match max_size_bytes c with Some cap => cap <? len | None => false end = false ->
                 forall cap, max_size_bytes c = Some cap -> len <= cap).
  { intros Hs cap E. rewrite E in Hs. by apply Z.ltb_ge in Hs. }
  assert (Hbig : match max_size_bytes c with Some cap => cap <? len | None => false end = true ->
                 max_size_bytes c = Some (default 0 (max_size_bytes c)) /\
                 default 0 (max_size_bytes c) < len).
  { destruct (max_size_bytes c) as [cap|]; [|done]. by intros Hs%Z.ltb_lt. }
  destruct (match max_size_bytes c with Some cap => cap <? len | None => false end);
    [by destruct (Hbig eq_refl)|]. specialize (Hcap eq_refl).
  set (test := match content_type_allowlist c with None => true | Some _ => _ end).
  replace (match content_type_allowlist c with None => false | Some _ => _ end) with (negb test)
    by (subst test; by destruct (content_type_allowlist c)).
  destruct test; cbn [negb]; [|done].
  destruct (patterns c) as [|p ps]; [by destruct (is_utf8 body)|].
  destruct (is_utf8 body); cbn [negb]; [|done].
  by rewrite redact_fold.
Qed.
End Controls.

(** ** [SizeCappedStream]

    The inner stream is the list of what its successive polls give; after the
    list it is finished.  [calls] logs the invocations of [on_truncate]. *)

Definition STREAM_TRUNCATION_MARKER : string :=
  let nl := String (ascii_of_N 10) EmptyString in
  let q := String (ascii_of_N 34) EmptyString in
  nl +:+ "{" +:+ q +:+ "_locksmith" +:+ q +:+ ":" +:+ q +:+ "response_size_exceeded" +:+ q
     +:+ "}" +:+ nl.

Inductive StreamItem := Chunk (bytes : string) | StreamError (e : string).

(** What one poll gives: [Pending], [Ready(None)], [Ready(Some(item))]. *)
Inductive Poll := Pending | Done | Item (i : StreamItem).

(** [None] in the list is a poll that is pending. *)
Record SizeCappedStream := {
  inner : list (option StreamItem);
  sc_cap : option Z;
  sc_seen : Z;
  truncated : bool;
  pending_marker : option string;
  on_truncate : bool;
  calls : list Z
}.

Definition new_stream (inner : list (option StreamItem)) (cap : option Z) : SizeCappedStream :=
  {| inner := inner; sc_cap := cap; sc_seen := 0; truncated := false; pending_marker := None;
     on_truncate := true; calls := [] |}.

Definition inner_poll (l : list (option StreamItem)) : Poll * list (option StreamItem) :=
  match l with
  | [] => (Done, [])
  | None :: l' => (Pending, l')
  | Some i :: l' => (Item i, l')
  end.

Definition with_inner (l : list (option StreamItem)) (seen : Z) (s : SizeCappedStream)
  : SizeCappedStream :=
  {| inner := l; sc_cap := sc_cap s; sc_seen := seen; truncated := truncated s;
     pending_marker := pending_marker s; on_truncate := on_truncate s; calls := calls s |}.

(** [take]s the callback, so it runs at most once. *)
Definition fire_truncation (s : SizeCappedStream) : SizeCappedStream :=
  {| inner := inner s; sc_cap := sc_cap s; sc_seen := sc_seen s; truncated := true;
     pending_marker := Some STREAM_TRUNCATION_MARKER; on_truncate := false;
     calls := if on_truncate s then calls s ++ [sc_seen s] else calls s |}.

Definition poll_next (s : SizeCappedStream) : Poll * SizeCappedStream :=
  match pending_marker s with
  | Some m =>
      (Item (Chunk m),
       {| inner := inner s; sc_cap := sc_cap s; sc_seen := sc_seen s; truncated := truncated s;
          pending_marker := None; on_truncate := on_truncate s; calls := calls s |})
  | None =>
      if truncated s then (Done, s)
      else
        let '(p, l) := inner_poll (inner s) in
        match sc_cap s with
        | None => (p, with_inner l (sc_seen s) s)
        | Some cap =>
            match p with
            | Item (Chunk chunk) =>
                let new_total := saturating_add (sc_seen s) (Z.of_nat (String.length chunk)) in
                if new_total <=? cap
                then (Item (Chunk chunk), with_inner l new_total s)
                else
                  let allowed := saturating_sub cap (sc_seen s) in
                  let prefix := str_take (Z.to_nat allowed) chunk in
                  (Item (Chunk prefix), fire_truncation (with_inner l cap s))
            | _ => (p, with_inner l (sc_seen s) s)
            end
        end
  end.

(** The client polls until the stream is done, collecting the bytes. *)
Fixpoint drain (fuel : nat) (s : SizeCappedStream) : option (string * SizeCappedStream) :=
  match fuel with
  | O => None
  | S fuel' =>
      match poll_next s with
      | (Done, s') => Some (EmptyString, s')
      | (Item (Chunk b), s') => let* (out, s'') := drain fuel' s' in Some (b +:+ out, s'')
      | (_, s') => drain fuel' s'
      end
  end.

(** The bytes the upstream sends. *)
Fixpoint payload (l : list (option StreamItem)) : string :=
  match l with
  | [] => EmptyString
  | Some (Chunk b) :: l' => b +:+ payload l'
  | _ :: l' => payload l'
  end.

Definition str_len (s : string) : Z := Z.of_nat (String.length s).

Lemma str_take_app_le n (a b : string) :
  (n <= String.length a)%nat -> str_take n (a +:+ b) = str_take n a.
Proof.
  revert a. induction n as [|n IH]; intros a Hn; [done|].
  destruct a as [|c a]; simpl in *; [lia|]. rewrite IH; [done|lia].
Qed.

Lemma str_take_app_ge n (a b : string) :
  (String.length a <= n)%nat ->
  str_take n (a +:+ b) = a +:+ str_take (n - String.length a) b.
Proof.
  revert n. induction a as [|c a IH]; intros n Hn; simpl in *.
  { by rewrite Nat.sub_0_r. }
  destruct n as [|n]; [lia|]. simpl. rewrite IH; [done|lia].
Qed.

(** Once truncated, two more polls give the marker and the end. *)
Lemma drain_truncated fuel s :
  (2 <= fuel)%nat ->
  exists s', drain fuel (fire_truncation s) = Some (STREAM_TRUNCATION_MARKER, s') /\ calls s' = calls (fire_truncation s).
Proof.
  intros Hf. destruct fuel as [|[|fuel]]; try lia.
  eexists. cbn -[STREAM_TRUNCATION_MARKER]. by rewrite str_app_nil_r.
Qed.

(** What the adapter delivers, and whether it truncates, for a payload and
    the bytes the cap still allows. *)
Definition delivered (room : Z) (p : string) : string :=
  if str_len p <=? room then p
  else str_take (Z.to_nat room) p +:+ STREAM_TRUNCATION_MARKER.

Lemma str_len_app a b : str_len (a +:+ b) = str_len a + str_len b.
Proof. unfold str_len. rewrite str_app_length. lia. Qed.

Lemma str_len_nonneg a : 0 <= str_len a.
Proof. unfold str_len. lia. Qed.

Lemma delivered_fits room b p :
  str_len b <= room -> delivered room (b +:+ p) = b +:+ delivered (room - str_len b) p.
Proof.
  intros Hb. unfold delivered. rewrite str_len_app.
  destruct (Z.leb_spec (str_len b + str_len p) room);
    destruct (Z.leb_spec (str_len p) (room - str_len b)); try lia; [done|].
  unfold str_len in *. rewrite str_take_app_ge by lia. rewrite <- str_app_assoc.
  do 3 f_equal. lia.
Qed.

Lemma delivered_cut room b p :
  0 <= room < str_len b ->
  delivered room (b +:+ p) = str_take (Z.to_nat room) b +:+ STREAM_TRUNCATION_MARKER.
Proof.
  intros Hb. unfold delivered. rewrite str_len_app. pose proof (str_len_nonneg p).
  destruct (Z.leb_spec (str_len b + str_len p) room); [lia|].
  unfold str_len in *. by rewrite str_take_app_le by lia.
Qed.

Lemma drain_uncapped l s fuel :
  inner s = l -> sc_cap s = None -> truncated s = false -> pending_marker s = None ->
  (List.length l < fuel)%nat ->
  exists s', drain fuel s = Some (payload l, s') /\ calls s' = calls s.
Proof.
  revert s fuel. induction l as [|o l IH]; intros s fuel Hi Hc Ht Hp Hf;
    (destruct fuel as [|fuel]; [simpl in Hf; lia|]); cbn [drain]; unfold poll_next;
    rewrite Hp, Ht, Hi, Hc; cbn [inner_poll]; [by eexists|].
  destruct (IH (with_inner l (sc_seen s) s) fuel) as (s' & E & Hs); try done;
    [simpl in Hf; lia|].
  destruct o as [[b|e]|]; rewrite E; by eexists.
Qed.

(** The capped stream from any point before truncation. *)
Lemma drain_capped l s fuel cap :
  inner s = l -> sc_cap s = Some cap -> truncated s = false -> pending_marker s = None ->
  on_truncate s = true -> 0 <= sc_seen s <= cap ->
  sc_seen s + str_len (payload l) < two64 ->
  (List.length l + 2 < fuel)%nat ->
  exists s', drain fuel s = Some (delivered (cap - sc_seen s) (payload l), s') /\
    calls s' = calls s ++ (if str_len (payload l) <=? cap - sc_seen s then [] else [cap]).
Proof.
  revert s fuel. induction l as [|o l IH]; intros s fuel Hi Hc Ht Hp Ho Hs Hlt Hf;
    (destruct fuel as [|fuel]; [simpl in Hf; lia|]); cbn [drain]; unfold poll_next;
    rewrite Hp, Ht, Hi, Hc; cbn [inner_poll].
  { exists (with_inner [] (sc_seen s) s). unfold delivered. cbn [payload].
    rewrite (proj2 (Z.leb_le (str_len "") _)) by (unfold str_len; simpl; lia).
    by rewrite app_nil_r. }
  assert (Hf' : (List.length l + 2 < fuel)%nat) by (simpl in Hf; lia).
  destruct o as [[b|e]|]; cbn [payload] in *;
    [|destruct (IH (with_inner l (sc_seen s) s) fuel) as (s' & E & Hcalls); try done;
      rewrite E; by eexists..].
  rewrite str_len_app in *. fold (str_len b). unfold saturating_add, saturating_sub.
  pose proof (str_len_nonneg b). pose proof (str_len_nonneg (payload l)).
  destruct (Z.leb_spec (Z.min (sc_seen s + str_len b) (two64 - 1)) cap) as [Hle|Hgt].
  - rewrite Z.min_l in * by lia.
    destruct (IH (with_inner l (sc_seen s + str_len b) s) fuel) as (s' & E & Hcalls);
      simpl; try done; try lia.
    rewrite E, delivered_fits by lia. simpl in *. eexists. split; [do 4 f_equal; lia|].
    rewrite Hcalls. f_equal. repeat case_match; try done; lia.
  - destruct (drain_truncated fuel (with_inner l cap s)) as (s' & E & Hcalls); [lia|].
    rewrite E, delivered_cut by lia. rewrite Z.max_l by lia. eexists. split; [done|].
    rewrite Hcalls, (proj2 (Z.leb_gt _ _)) by lia. simpl. by rewrite Ho.
Qed.

(** C36: the streaming size cap: draining the adapter over any upstream (with
    pending polls and stream errors interleaved) terminates and delivers the
    upstream's bytes in order; when they exceed the cap, exactly the first
    [cap] of them followed by the truncation marker, and the truncation
    callback runs exactly once, with the cap; otherwise every byte and no
    callback. *)
Theorem size_capped_stream_spec l cap fuel :
  (forall c, cap = Some c -> is_u64 c = true) ->
  str_len (payload l) < two64 ->
  (List.length l + 2 < fuel)%nat ->
  exists s', drain fuel (new_stream l cap) =
      Some (match cap with None => payload l | Some c => delivered c (payload l) end, s') /\
    calls s' = match cap with
               | None => []
               | Some c => if str_len (payload l) <=? c then [] else [c]
               end.
Proof.
  intros Hc Hp Hf. destruct cap as [c|].
  - assert (0 <= c) by (specialize (Hc c eq_refl); unfold is_u64 in Hc; lia).
    destruct (drain_capped l (new_stream l (Some c)) fuel c) as (s' & E & Hs); simpl; try done.
    simpl in *. rewrite Z.sub_0_r in *. by eexists.
  - destruct (drain_uncapped l (new_stream l None) fuel) as (s' & E & Hs); try done; [lia|].
    by eexists.
Qed.

(** ** Witnesses *)

Module ControlsWitness.

(** Patterns that match one literal text. *)
Definition literal_find (pat text : string) : list string :=
  if str_contains pat text then [pat] else [].

#[export] Instance literal_regex : RegexCrate :=
  {| Regex := string; regex_new s := if bool_decide (s = "(") then None else Some s;
     find_iter := literal_find;
     replace_all pat text rep :=
       match str_find pat text with
       | Some i => str_take i text +:+ rep +:+ str_drop (i + String.length pat) text
       | None => text
       end |}.

Lemma str_find_contains pat text : str_contains pat text = false -> str_find pat text = None.
Proof.
  induction text as [|c text IH]; simpl; destruct (starts_with pat _); simpl; try done.
  intros Hc. by rewrite IH.
Qed.

#[export] Instance literal_laws : RegexLaws.
Proof.
  split. simpl. unfold literal_find. intros r text rep. destruct (str_contains r text) eqn:E; [done|].
  intros _. by rewrite str_find_contains.
Qed.

#[export] Instance toy_sha : Sha2Crate := {| sha256 s := s |}.

Definition controls : ResponseControls :=
  {| max_size_bytes := Some 40; content_type_allowlist := Some ["application/json"];
     patterns := [{| cp_id := "key"; cp_regex := "sk-1"; cp_replacement := "[REDACTED:key]" |}] |}.

Lemma apply_non_streaming_spec_witness :
  (forall cap, max_size_bytes controls = Some cap -> 8 <= cap) /\
  streaming_content_type_allowed controls (Some "application/JSON; charset=utf-8") = true /\
  "a [REDACTED:key] b" = redact_all (patterns controls) "a sk-1 b" /\
  [{| pattern_id := "key"; matches := 1; match_hash := "736b2d31" |}] =
    map record_for (List.filter matched (redact_trace (patterns controls) "a sk-1 b")).
Proof.
  exact (apply_non_streaming_spec controls (Some "application/JSON; charset=utf-8") "a sk-1 b").
Defined.

Definition upstream : list (option StreamItem) :=
  [Some (Chunk "abc"); None; Some (Chunk "defg"); Some (StreamError "reset"); Some (Chunk "h")].

Lemma size_capped_stream_spec_witness :
  exists s', drain 10 (new_stream upstream (Some 5)) =
      Some ("abcde" +:+ STREAM_TRUNCATION_MARKER, s') /\ calls s' = [5].
Proof.
  apply (size_capped_stream_spec upstream (Some 5) 10);
    [intros c [= <-]; reflexivity | vm_compute; reflexivity | simpl; lia].
Defined.

End ControlsWitness.
