(* ===== verification/Secret.v ===== *)
(** * Secret references and their resolution ([src/secret/])

    The typed references of [tool.auth.value], the environment backend with
    its textual [${VAR}] expander, and the dispatching resolver.  The process
    environment is a function from names to values; the sealed-file backend
    is a parameter of the resolver. *)

From S2P Require Import Prelude.

Abbreviation Env := (string -> option string) (only parsing).

Inductive SecretRef :=
| Inline (value : string)
| LegacyString (raw : string)
| FromEnv (var : string) (prefix : option string)
| FromFileSealed (path : string)
| FromVault (mount path field : string)
| FromAwsSecretsManager (secret_id : string) (version_stage field : option string).

Inductive BackendError :=
| Missing (what : string)
| NotImplemented (what : string)
| Io (what : string)
| Other (what : string).

Definition looks_present (r : SecretRef) : bool :=
  match r with
  | Inline s => negb (bool_decide (s = ""))
  | LegacyString s => negb (bool_decide (s = ""))
  | _ => true
  end.

(** One iteration of the [while let Some(start) = result.find("${")] loop;
    [None] when the loop is left. *)
Definition expand_step (env : Env) (result : string) : option string :=
  let* start := str_find "${" result in
  let* e := str_find "}" (str_drop start result) in
  let var_name := str_take (e - 2) (str_drop (start + 2) result) in
  let value := default "" (env var_name) in
  Some (str_take start result +:+ value +:+ str_drop (start + e + 1) result).

(** The loop; [None] when the fuel runs out before it ends. *)
Fixpoint expand_legacy (fuel : nat) (env : Env) (input : string) : option string :=
  match fuel with
  | O => None
  | S fuel' =>
      match expand_step env input with
      | None => Some input
      | Some result => expand_legacy fuel' env result
      end
  end.

(** The bound on the loop used when the environment is plain. *)
Fixpoint count_char (c : ascii) (s : string) : nat :=
  match s with
  | EmptyString => 0
  | String d s' => (if is_char c d then 1 else 0) + count_char c s'
  end.

(** [EnvBackend::resolve] and its synchronous sibling on the two variants
    they handle; the expansion runs with the caller's fuel. *)
Definition env_resolve (fuel : nat) (env : Env) (r : SecretRef)
  : option (result BackendError string) :=
  match r with
  | LegacyString raw => Ok <$> expand_legacy fuel env raw
  | FromEnv var prefix =>
      Some match env var with
           | None => Err (Missing var)
           | Some value => Ok (match prefix with Some p => p +:+ value | None => value end)
           end
  | Inline _ => Some (Err (NotImplemented "EnvBackend received Inline (resolver bug)"))
  | FromFileSealed _ => Some (Err (NotImplemented "from_file_sealed (use FileSealedBackend)"))
  | FromVault _ _ _ => Some (Err (NotImplemented "from_vault (stub only)"))
  | FromAwsSecretsManager _ _ _ =>
      Some (Err (NotImplemented "from_aws_secrets_manager (stub only)"))
  end.

(** [SecretResolver]: the optional sealed-file backend. *)
Record SecretResolver := { file_sealed : option (string -> result BackendError string) }.

Definition resolve_secret (fuel : nat) (env : Env) (rs : SecretResolver) (sr : SecretRef)
  : option (result BackendError string) :=
  match sr with
  | Inline s => Some (Ok s)
  | LegacyString _ | FromEnv _ _ => env_resolve fuel env sr
  | FromFileSealed path =>
      Some match file_sealed rs with
           | Some b => b path
           | None => Err (NotImplemented "from_file_sealed (no FileSealedBackend configured)")
           end
  | FromVault _ _ _ => Some (Err (NotImplemented "from_vault (M6+ — stub only)"))
  | FromAwsSecretsManager _ _ _ =>
      Some (Err (NotImplemented "from_aws_secrets_manager (M6+ — stub only)"))
  end.

(** ** Termination of the expander *)

Lemma str_take_drop n s : str_take n s +:+ str_drop n s = s.
Proof. revert n. induction s as [|c s IH]; intros [|n]; simpl; try done. by rewrite IH. Qed.

Lemma str_drop_drop n k s : str_drop n (str_drop k s) = str_drop (k + n) s.
Proof.
  revert k. induction s as [|c s IH]; intros [|k]; simpl; auto; by destruct n.
Qed.

Lemma str_drop_app (a b : string) : str_drop (String.length a) (a +:+ b) = b.
Proof. induction a; simpl; done. Qed.

Lemma str_find_Some pat s i :
  str_find pat s = Some i -> str_drop i s = pat +:+ str_drop (i + String.length pat) s.
Proof.
  revert i. induction s as [|c s IH]; intros i; simpl.
  - destruct (starts_with pat "") eqn:E; [|done]. intros [= <-]. simpl.
    unfold starts_with in E. by destruct pat.
  - destruct (starts_with pat (String c s)) eqn:E.
    + intros [= <-]. unfold starts_with in E.
      destruct (strip_prefix pat (String c s)) as [r|] eqn:Er; [|done].
      apply strip_prefix_Some in Er. rewrite Er. cbn [Nat.add].
      rewrite str_drop_app. by destruct pat.
    + destruct (str_find pat s) as [j|] eqn:Ej; [|done]. intros [= <-]. simpl. by apply IH.
Qed.

Lemma count_char_app c a b : count_char c (a +:+ b) = (count_char c a + count_char c b)%nat.
Proof. induction a as [|d a IH]; simpl; [done|]. rewrite IH. lia. Qed.

Lemma count_char_drop_le c n s : (count_char c (str_drop n s) <= count_char c s)%nat.
Proof. rewrite <- (str_take_drop n s) at 2. rewrite count_char_app. lia. Qed.

(** No environment value contains a dollar sign. *)
Definition plain_env (env : Env) : Prop :=
  forall v s, env v = Some s -> count_char "$" s = 0%nat.

Lemma expand_step_decreases env s s' :
  plain_env env -> expand_step env s = Some s' ->
  (count_char "$" s' < count_char "$" s)%nat.
Proof.
  intros He. unfold expand_step.
  destruct (str_find "${" s) as [i|] eqn:Ei; [|done].
  apply str_find_Some in Ei. cbn [String.length] in Ei. rewrite Ei.
  destruct (str_find "}" _) as [e|] eqn:Ee; [|done].
  set (v := default "" _). assert (Hv : count_char "$" v = 0%nat).
  { unfold v. destruct (env _) as [x|] eqn:Ex; [|done]. simpl. by eapply He. }
  intros [= <-]. rewrite !count_char_app, Hv.
  assert (Hs : count_char "$" s = (count_char "$" (str_take i s) +
                 S (count_char "$" (str_drop (i + 2) s)))%nat).
  { rewrite <- (str_take_drop i s) at 1. by rewrite count_char_app, Ei. }
  simpl in Ee. destruct (str_find "}" (str_drop (i + 2) s)) as [k|]; [|done].
  simpl in Ee. injection Ee as <-.
  replace (i + S (S k) + 1)%nat with (i + 2 + (k + 1))%nat by lia.
  rewrite <- str_drop_drop. pose proof (count_char_drop_le "$" (k + 1) (str_drop (i + 2) s)).
  lia.
Qed.

Lemma expand_step_none env s :
  expand_step env s = None ->
  str_find "${" s = None \/ exists i, str_find "${" s = Some i /\ str_find "}" (str_drop i s) = None.
Proof.
  unfold expand_step. destruct (str_find "${" s) as [i|]; [|by left].
  destruct (str_find "}" (str_drop i s)) eqn:E; [done|]. right. by exists i.
Qed.

(** C40: the [${VAR}] expander terminates when no environment value contains
    a dollar sign: as many iterations as the text has dollar signs are enough,
    and the result has no expandable reference left. *)
Theorem expand_legacy_terminates env s fuel :
  plain_env env -> (count_char "$" s < fuel)%nat ->
  exists out, expand_legacy fuel env s = Some out /\ expand_step env out = None.
Proof.
  intros He. revert s. induction fuel as [|fuel IH]; intros s Hf; [lia|]. simpl.
  destruct (expand_step env s) as [s'|] eqn:E; [|by eexists].
  apply IH. pose proof (expand_step_decreases _ _ _ He E). lia.
Qed.

Lemma expand_step_self env s :
  env "SELF" = Some "${SELF}" -> expand_step env ("${SELF}" +:+ s) = Some ("${SELF}" +:+ s).
Proof. intros He. unfold expand_step. simpl. by rewrite He. Qed.

(** The expander does not terminate for every environment: a variable
    whose value refers to itself keeps the loop running, without a result,
    for any number of iterations. *)
Theorem expand_legacy_diverges env s fuel :
  env "SELF" = Some "${SELF}" -> expand_legacy fuel env ("${SELF}" +:+ s) = None.
Proof.
  intros He. induction fuel as [|fuel IH]; [done|].
  cbn [expand_legacy]. rewrite expand_step_self by done. exact IH.
Qed.

(** ** Witnesses *)

Module SecretWitness.

Definition env0 (v : string) : option string :=
  if bool_decide (v = "TOKEN") then Some "s3cr3t" else None.

Lemma expand_legacy_terminates_witness :
  exists out, expand_legacy 3 env0 "Bearer ${TOKEN}${NOPE}" = Some out /\
              expand_step env0 out = None.
Proof.
  apply expand_legacy_terminates; [|simpl; lia].
  intros v s. unfold env0. case_bool_decide; [|done]. intros [= <-]. reflexivity.
Defined.

Definition env_self (v : string) : option string :=
  if bool_decide (v = "SELF") then Some "${SELF}" else None.

Lemma expand_legacy_diverges_witness : expand_legacy 1000 env_self ("${SELF}" +:+ ":x") = None.
Proof. apply expand_legacy_diverges. reflexivity. Defined.

End SecretWitness.
