(* ===== verification/Sealed.v ===== *)
(** * Sealed credential files ([src/secret/file_sealed.rs])

    The sealed-file backend with its per-path cache.  A call that misses the
    cache looks at the file's mode and then reads its bytes, by separate
    system calls: an [Observation] is what the two of them see. *)

From S2P Require Import Prelude Secret Strings.

(** ** The sealed-file backend *)

Record FileSealedBackend := {
  cache : gmap string string;
  enforce_permissions : bool
}.

Definition new_file_sealed : FileSealedBackend := {| cache := ∅; enforce_permissions := true |}.

(** What one call sees of the path: [metadata] and [read], or their errors. *)
Record Observation := {
  ob_mode : result string Z;
  ob_bytes : result string string
}.

(** [{:#o}]. *)
Fixpoint octal_digits (fuel : nat) (n : Z) (acc : string) : string :=
  match fuel with
  | O => acc
  | S fuel' =>
      let acc := String (ascii_of_N (Z.to_N (48 + n mod 8))) acc in
      if n / 8 =? 0 then acc else octal_digits fuel' (n / 8) acc
  end.
Definition show_octal (n : Z) : string := "0o" +:+ octal_digits 11 n "".

Definition check_permissions (path : string) (o : Observation) : result BackendError unit :=
  let? m := map_err Io (ob_mode o) in
  let mode := Z.land m 511 in
  if negb (Z.land mode 63 =? 0) then
    Err (Other (path +:+ ": file mode " +:+ show_octal mode +:+ " permits group or world read; "
                +:+ "sealed credentials must be chmod 0600 or 0400"))
  else Ok tt.

(** [strip_suffix(b"\n")]. *)
Definition strip_newline (s : string) : string :=
  if ends_with nl s then str_take (String.length s - 1) s else s.

Definition read_path (utf8_error : string -> string) (path : string) (o : Observation)
    (b : FileSealedBackend) : result BackendError string :=
  let? _ := if enforce_permissions b then check_permissions path o else Ok tt in
  let? bytes := map_err Io (ob_bytes o) in
  let trimmed := strip_newline bytes in
  if is_utf8 trimmed then Ok trimmed
  else Err (Other (path +:+ ": file is not valid UTF-8: " +:+ utf8_error trimmed)).

Definition sealed_resolve (utf8_error : string -> string) (o : Observation) (r : SecretRef)
    (b : FileSealedBackend) : result BackendError string * FileSealedBackend :=
  match r with
  | FromFileSealed path =>
      match cache b !! path with
      | Some v => (Ok v, b)
      | None =>
          match read_path utf8_error path o b with
          | Err e => (Err e, b)
          | Ok v => (Ok v, {| cache := <[path := v]> (cache b);
                              enforce_permissions := enforce_permissions b |})
          end
      end
  | LegacyString _ | FromEnv _ _ =>
      (Err (NotImplemented "FileSealedBackend received env variant (resolver bug)"), b)
  | Inline _ => (Err (NotImplemented "FileSealedBackend received Inline (resolver bug)"), b)
  | FromVault _ _ _ => (Err (NotImplemented "from_vault (stub only)"), b)
  | FromAwsSecretsManager _ _ _ =>
      (Err (NotImplemented "from_aws_secrets_manager (stub only)"), b)
  end.

(** ** The backend trait and its implementations *)

(** What a call has to work with: the environment with the fuel of the
    textual expansion, and what a read of the file sees. *)
Record BackendCall := {
  call_fuel : nat;
  call_env : string -> option string;
  call_sees : Observation;
  call_utf8_error : string -> string
}.

(** [None] when the fuel of an expansion runs out. *)
Class SecretBackend (B : Type) := {
  resolve_with : BackendCall -> SecretRef -> B -> option (result BackendError string) * B;
  backend_kind : B -> string
}.

(** The environment backend warns about the legacy form once. *)
Record EnvBackend := { warned_legacy : bool }.

Definition new_env_backend : EnvBackend := {| warned_legacy := false |}.

Definition note_legacy (r : SecretRef) (b : EnvBackend) : EnvBackend :=
  match r with LegacyString _ => {| warned_legacy := true |} | _ => b end.

Definition resolve_sync (c : BackendCall) (r : SecretRef) (b : EnvBackend)
  : option (result BackendError string) * EnvBackend :=
  (match r with
   | LegacyString raw => Ok <$> expand_legacy (call_fuel c) (call_env c) raw
   | FromEnv var prefix =>
       Some match call_env c var with
            | None => Err (Missing var)
            | Some value => Ok (match prefix with Some p => p +:+ value | None => value end)
            end
   | _ => Some (Err (NotImplemented "EnvBackend::resolve_sync only handles LegacyString and FromEnv"))
   end, note_legacy r b).

#[export] Instance env_backend : SecretBackend EnvBackend :=
  {| resolve_with c r b := (env_resolve (call_fuel c) (call_env c) r, note_legacy r b);
     backend_kind _ := "env" |}.

#[export] Instance file_sealed_backend : SecretBackend FileSealedBackend :=
  {| resolve_with c r b :=
       let '(res, b) := sealed_resolve (call_utf8_error c) (call_sees c) r b in (Some res, b);
     backend_kind _ := "file_sealed" |}.

Record VaultBackend := { vault_addr : option string }.
Record AwsSecretsManagerBackend := { aws_region : option string }.

#[export] Instance vault_backend : SecretBackend VaultBackend :=
  {| resolve_with _ _ b :=
       (Some (Err (NotImplemented "VaultBackend is a v2 stub; live impl tracked post-v2")), b);
     backend_kind _ := "vault" |}.

#[export] Instance aws_backend : SecretBackend AwsSecretsManagerBackend :=
  {| resolve_with _ _ b :=
       (Some (Err (NotImplemented "AwsSecretsManagerBackend is a v2 stub; live impl tracked post-v2")), b);
     backend_kind _ := "aws_secrets_manager" |}.

Definition env_only : SecretResolver := {| file_sealed := None |}.

(** The references a backend takes; every other one it refuses without
    touching its state. *)
Class BackendLaws (B : Type) `{SecretBackend B} (takes : SecretRef -> bool) : Prop := {
  refuses : forall c r b, takes r = false ->
    exists what, resolve_with c r b = (Some (Err (NotImplemented what)), b)
}.

Definition env_takes (r : SecretRef) : bool :=
  match r with LegacyString _ | FromEnv _ _ => true | _ => false end.
Definition sealed_takes (r : SecretRef) : bool :=
  match r with FromFileSealed _ => true | _ => false end.

#[export] Instance env_backend_laws : BackendLaws EnvBackend env_takes.
Proof. split. intros c [] b; try done; by eexists. Qed.

#[export] Instance file_sealed_laws : BackendLaws FileSealedBackend sealed_takes.
Proof. split. intros c [] b; try done; by eexists. Qed.

#[export] Instance vault_laws : BackendLaws VaultBackend (fun _ => false).
Proof. split. intros c r b _. by eexists. Qed.

#[export] Instance aws_laws : BackendLaws AwsSecretsManagerBackend (fun _ => false).
Proof. split. intros c r b _. by eexists. Qed.

(** The synchronous resolver agrees with the asynchronous one where it has an
    answer, and warns alike. *)
Lemma resolve_sync_agrees c r b :
  env_takes r = true -> resolve_sync c r b = resolve_with c r b.
Proof. by destruct r. Qed.

(** The dispatching resolver never asks a backend for a reference that is not
    its own: on the environment's references and on sealed files it is the
    backend's answer. *)
Lemma resolver_dispatch c sealed r :
  resolve_secret (call_fuel c) (call_env c)
    {| file_sealed := Some (fun p => fst (sealed_resolve (call_utf8_error c) (call_sees c)
                                            (FromFileSealed p) sealed)) |} r =
  if env_takes r then fst (resolve_with c r new_env_backend)
  else if sealed_takes r then fst (resolve_with c r sealed)
  else match r with
       | Inline s => Some (Ok s)
       | FromVault _ _ _ => Some (Err (NotImplemented "from_vault (M6+ — stub only)"))
       | _ => Some (Err (NotImplemented "from_aws_secrets_manager (M6+ — stub only)"))
       end.
Proof.
  destruct r; try done. simpl. destruct (cache sealed !! path); [done|].
  by destruct (read_path _ _ _ _).
Qed.

(** A run of calls, each with what it saw. *)
Fixpoint sealed_run (utf8_error : string -> string) (calls : list (Observation * SecretRef))
    (b : FileSealedBackend) : list (result BackendError string) * FileSealedBackend :=
  match calls with
  | [] => ([], b)
  | (o, r) :: rest =>
      let '(x, b) := sealed_resolve utf8_error o r b in
      let '(xs, b) := sealed_run utf8_error rest b in
      (x :: xs, b)
  end.

Section SealedSpec.
Context (utf8_error : string -> string).

(** A call in [past] read [v] from a file with no group or world bits. *)
Definition vetted (past : list (Observation * SecretRef)) (path v : string) : Prop :=
  exists o m bytes, (o, FromFileSealed path) ∈ past /\ ob_mode o = Ok m /\ Z.land m 63 = 0 /\
    ob_bytes o = Ok bytes /\ v = strip_newline bytes /\ is_utf8 v = true.

Definition cache_vetted (past : list (Observation * SecretRef)) (b : FileSealedBackend) : Prop :=
  enforce_permissions b = true /\ forall p v, cache b !! p = Some v -> vetted past p v.

Lemma vetted_more past past' p v : past ⊆ past' -> vetted past p v -> vetted past' p v.
Proof. intros Hs (o & m & bs & Ho & H). exists o, m, bs. split; [by apply Hs|done]. Qed.

Lemma mode_mask m : Z.land (Z.land m 511) 63 = Z.land m 63.
Proof. by rewrite <- Z.land_assoc. Qed.

Lemma read_path_vetted path o b v :
  enforce_permissions b = true -> read_path utf8_error path o b = Ok v ->
  vetted [(o, FromFileSealed path)] path v.
Proof.
  intros He. unfold read_path. rewrite He. unfold check_permissions.
  destruct (ob_mode o) as [m|] eqn:Em; cbn; [|done].
  destruct (Z.eqb_spec (Z.land (Z.land m 511) 63) 0) as [Hm|]; [|done]. cbn.
  destruct (ob_bytes o) as [bs|] eqn:Eb; cbn; [|done].
  destruct (is_utf8 (strip_newline bs)) eqn:Eu; [|done]. intros [= <-].
  exists o, m, bs. split; [by left|]. rewrite mode_mask in Hm. done.
Qed.

Lemma sealed_resolve_vetted past o r b x b' :
  cache_vetted past b -> sealed_resolve utf8_error o r b = (x, b') ->
  cache_vetted (past ++ [(o, r)]) b' /\
  (forall p v, r = FromFileSealed p -> x = Ok v ->
     vetted (past ++ [(o, r)]) p v /\ cache b' !! p = Some v) /\
  cache b ⊆ cache b'.
Proof.
  intros [He Hc] E.
  assert (Hk : forall p v, cache b !! p = Some v -> vetted (past ++ [(o, r)]) p v).
  { intros p v Hp. eapply vetted_more; [|by apply Hc]. set_solver. }
  destruct r as [| | |path| |]; cbn in E; try (injection E as <- <-; by split_and!).
  destruct (cache b !! path) as [w|] eqn:Ep.
  - injection E as <- <-. split; [done|]. split; [|done]. intros p v [= <-] [= <-]. auto.
  - destruct (read_path utf8_error path o b) as [w|e] eqn:Er; injection E as <- <-.
    + apply read_path_vetted in Er; [|done].
      assert (Hw : vetted (past ++ [(o, FromFileSealed path)]) path w)
        by (eapply vetted_more; [|exact Er]; set_solver).
      split; [split; [done|]|split].
      * intros p v Hp. cbn in Hp. apply lookup_insert_Some in Hp as [[<- <-]|[_ Hp]]; [done|auto].
      * intros p v [= <-] [= <-]. split; [done|]. apply lookup_insert_eq.
      * by apply insert_subseteq.
    + by split_and!.
Qed.

Lemma sealed_run_vetted calls past b xs b' :
  cache_vetted past b -> sealed_run utf8_error calls b = (xs, b') ->
  forall i o p v, calls !! i = Some (o, FromFileSealed p) -> xs !! i = Some (Ok v) ->
    vetted (past ++ take (S i) calls) p v /\
    forall j o' x, (i <= j)%nat -> calls !! j = Some (o', FromFileSealed p) -> xs !! j = Some x ->
      x = Ok v.
Proof.
  assert (S : forall calls b xs b' p v, cache b !! p = Some v ->
    sealed_run utf8_error calls b = (xs, b') ->
    forall j o x, calls !! j = Some (o, FromFileSealed p) -> xs !! j = Some x -> x = Ok v).
  { clear. induction calls as [|[o r] calls IH]; intros b xs b' p v Hp E [|j] o' x Hj Hx;
      cbn in E, Hj; try done; destruct (sealed_resolve _ o r b) as [y b1] eqn:Ey;
      destruct (sealed_run _ calls b1) as [ys b2] eqn:Eys; injection E as <- <-; cbn in Hx.
    - injection Hj as -> ->. injection Hx as <-. cbn in Ey. rewrite Hp in Ey. by injection Ey.
    - refine (IH b1 ys b2 p v _ Eys j o' x Hj Hx).
      cbn in Ey. destruct r as [| | |q| |]; cbn in Ey; try (injection Ey as <- <-; done).
      destruct (cache b !! q) eqn:Eq; [by injection Ey as <- <-|].
      destruct (read_path _ q o b); injection Ey as <- <-; [|done]. cbn.
      rewrite lookup_insert_ne; [done|]. congruence. }
  revert past b xs b'. induction calls as [|[o r] calls IH]; intros past b xs b' Hb E; [done|].
  cbn in E. destruct (sealed_resolve utf8_error o r b) as [y b1] eqn:Ey.
  destruct (sealed_run utf8_error calls b1) as [ys b2] eqn:Eys. injection E as <- <-.
  destruct (sealed_resolve_vetted _ _ _ _ _ _ Hb Ey) as (Hb1 & Hx & _).
  intros [|i] o' p v Hi Hv; cbn in Hi, Hv.
  - injection Hi as -> ->. injection Hv as ->. destruct (Hx p v eq_refl eq_refl) as [H1 H2].
    split; [exact H1|]. intros [|j] o'' x _ Hj Hxj; cbn in Hj, Hxj; [congruence|].
    by eapply (S calls b1 ys b2 p v H2 Eys).
  - destruct (IH _ _ _ _ Hb1 Eys i o' p v Hi Hv) as [H1 H2]. rewrite <- app_assoc in H1.
    split; [exact H1|]. intros [|j] o'' x Hj; [lia|]. apply H2. lia.
Qed.

(** Sealed credentials are vetted and stable: every value the backend
    returns is the text, less one final newline, of a read of that path at or
    before the call, made after the mode showed no group or world bits; and
    once a path has resolved, every later call returns the same value,
    whatever has become of the file. *)
Theorem sealed_values_vetted calls i o path v :
  calls !! i = Some (o, FromFileSealed path) ->
  (sealed_run utf8_error calls new_file_sealed).1 !! i = Some (Ok v) ->
  vetted (take (S i) calls) path v /\
  forall j o', (i <= j)%nat -> calls !! j = Some (o', FromFileSealed path) ->
    (sealed_run utf8_error calls new_file_sealed).1 !! j = Some (Ok v).
Proof.
  intros Hi Hv. destruct (sealed_run utf8_error calls new_file_sealed) as [xs b'] eqn:E. cbn in *.
  assert (Hb : cache_vetted [] new_file_sealed) by done.
  destruct (sealed_run_vetted _ _ _ _ _ Hb E i o path v Hi Hv) as [H1 H2]. split; [done|].
  intros j o' Hj Hc. assert (L : List.length xs = List.length calls).
  { revert E. clear. revert xs b'. generalize new_file_sealed.
    induction calls as [|[o r] calls IH]; intros b xs b'; cbn; [by intros [= <- <-]|].
    destruct (sealed_resolve _ o r b) as [y b1]. destruct (sealed_run _ calls b1) as [ys b2] eqn:Eys.
    intros [= <- <-]. cbn. f_equal. by eapply IH. }
  destruct (xs !! j) as [x|] eqn:Ex; [by rewrite (H2 j o' x Hj Hc Ex)|].
  apply lookup_ge_None in Ex. apply lookup_lt_Some in Hc. lia.
Qed.
End SealedSpec.

Module SealedWitness.

Definition seen (mode : Z) (bytes : string) : Observation :=
  {| ob_mode := Ok mode; ob_bytes := Ok bytes |}.

(** 0644 is refused, 0600 accepted, the later change of the file not seen. *)
Definition calls0 : list (Observation * SecretRef) :=
  [(seen 33188 ("k1" +:+ nl), FromFileSealed "/run/c"); (seen 33152 ("k1" +:+ nl), FromFileSealed "/run/c");
   (seen 33188 "k2", FromFileSealed "/run/c")].

Example outcomes :
  (sealed_run id calls0 new_file_sealed).1 =
  [Err (Other ("/run/c: file mode 0o644 permits group or world read; "
               +:+ "sealed credentials must be chmod 0600 or 0400")); Ok "k1"; Ok "k1"].
Proof. vm_compute. reflexivity. Qed.

Lemma sealed_values_vetted_witness :
  vetted (take 2 calls0) "/run/c" "k1" /\
  forall j o', (1 <= j)%nat -> calls0 !! j = Some (o', FromFileSealed "/run/c") ->
    (sealed_run id calls0 new_file_sealed).1 !! j = Some (Ok "k1").
Proof.
  apply (sealed_values_vetted id calls0 1 (seen 33152 ("k1" +:+ nl)) "/run/c" "k1");
    vm_compute; reflexivity.
Defined.

End SealedWitness.
