(* ===== verification/Config.v ===== *)
(** * Tool configuration ([src/config.rs], [src/secret/mod.rs])

    The [tools] section of the configuration, its load-time validation, the
    listings of active tools and the resolution of tool credentials at
    startup. *)

From S2P Require Import Prelude ResponseControls Secret.

Inductive EgressMode := Direct | Proxied.

(** [#[default]]. *)
Definition default_egress : EgressMode := Direct.

Record ToolTimeouts := { request_seconds : Z; idle_seconds : Z }.
Definition default_timeouts : ToolTimeouts := {| request_seconds := 30; idle_seconds := 60 |}.
Definition default_body_limit : Z := 10 * 1024 * 1024.

Record ToolRequestRule := { rule_method : string; rule_path : string }.

Record ToolAuthConfig := {
  ta_header : string;
  ta_force_replace : bool;
  ta_value : SecretRef
}.

Record ToolConfig := {
  tc_name : string;
  tc_description : string;
  tc_upstream : string;
  tc_egress : EgressMode;
  tc_credential_handles : list string;
  tc_request_allowlist : option (list ToolRequestRule);
  tc_auth : option ToolAuthConfig;
  tc_timeouts : ToolTimeouts;
  tc_body_limit_bytes : Z;
  tc_response : option ResponseControlsConfig
}.

(** The section of the configuration file the modelled code reads. *)
Record AppConfig := { tools : list ToolConfig }.

Abbreviation ResolvedCreds := (gmap string string) (only parsing).

(** [path.contains(['%', '?', '#', '\\'])]. *)
Definition forbidden_path_char (c : ascii) : bool :=
  is_char "%" c || is_char "?" c || is_char "#" c || is_char "\" c.

Definition is_dot_segment (s : string) : bool := bool_decide (s = ".") || bool_decide (s = "..").

Definition is_literal_request_path (path : string) : bool :=
  starts_with "/" path
  && negb (str_contains "//" path)
  && negb (contains_char forbidden_path_char path)
  && negb (existsb (fun c => is_whitespace c || is_control c) (chars path))
  && negb (existsb is_dot_segment (split (is_char "/") path)).

Definition active_tools (cfg : AppConfig) : list ToolConfig :=
  List.filter (fun t => match tc_auth t with Some a => looks_present (ta_value a) | None => true end)
    (tools cfg).

Definition active_tools_against (cfg : AppConfig) (resolved : ResolvedCreds) : list ToolConfig :=
  List.filter (fun t => match tc_auth t with
                        | Some _ => bool_decide (is_Some (resolved !! tc_name t))
                        | None => true
                        end) (tools cfg).

Section Validation.
Context `{RegexCrate}.
(** [Method::from_bytes(..).is_ok()]. *)
Variable method_ok : string -> bool.

Definition rule_ok (r : ToolRequestRule) : bool :=
  bool_decide (rule_method r = to_ascii_uppercase (rule_method r))
  && method_ok (rule_method r) && is_literal_request_path (rule_path r).

(** The error carries the name of the offending tool. *)
Fixpoint validate_request_allowlists_in (ts : list ToolConfig) : result string unit :=
  match ts with
  | [] => Ok tt
  | t :: ts' =>
      match tc_request_allowlist t with
      | None => validate_request_allowlists_in ts'
      | Some rules =>
          if forallb rule_ok rules then validate_request_allowlists_in ts' else Err (tc_name t)
      end
  end.

Definition validate_request_allowlists (cfg : AppConfig) : result string unit :=
  validate_request_allowlists_in (tools cfg).

(** The inner loop over one tool's patterns; [seen] is the [HashSet] of ids. *)
Fixpoint validate_patterns (seen : list string) (ps : list RedactionPatternConfig) : bool :=
  match ps with
  | [] => true
  | p :: ps' =>
      negb (existsb (fun i => bool_decide (i = rp_id p)) seen)
      && isSome (regex_new (rp_regex p))
      && validate_patterns (rp_id p :: seen) ps'
  end.

Fixpoint validate_response_controls_in (ts : list ToolConfig) : result string unit :=
  match ts with
  | [] => Ok tt
  | t :: ts' =>
      match tc_response t with
      | None => validate_response_controls_in ts'
      | Some rc =>
          if validate_patterns [] (cfg_redaction_patterns rc)
          then validate_response_controls_in ts' else Err (tc_name t)
      end
  end.

Definition validate_response_controls (cfg : AppConfig) : result string unit :=
  validate_response_controls_in (tools cfg).

Lemma validate_patterns_compile seen ps :
  validate_patterns seen ps = true -> isSome (compile_patterns ps) = true.
Proof.
  revert seen. induction ps as [|p ps IH]; intros seen; simpl; [done|].
  intros Hv. split_ands. unfold compile_pattern. destruct (regex_new (rp_regex p)); [|done].
  specialize (IH _ H1). by destruct (compile_patterns ps).
Qed.

(** A configuration that passes load-time validation never fails on the
    hot path: every tool's response controls compile, and every rule of a
    request allowlist is an upper-case method with a literal path. *)
Theorem validated_config_usable cfg t :
  validate_response_controls cfg = Ok tt -> validate_request_allowlists cfg = Ok tt ->
  t ∈ tools cfg ->
  (forall rc, tc_response t = Some rc -> isSome (compile rc) = true) /\
  (forall rules r, tc_request_allowlist t = Some rules -> r ∈ rules ->
     rule_method r = to_ascii_uppercase (rule_method r) /\
     is_literal_request_path (rule_path r) = true).
Proof.
  unfold validate_response_controls, validate_request_allowlists.
  induction (tools cfg) as [|u ts IH]; simpl; intros Hr Ha Ht.
  { by apply not_elem_of_nil in Ht. }
  assert (Hr' : (forall rc, tc_response u = Some rc ->
            validate_patterns [] (cfg_redaction_patterns rc) = true) /\
          validate_response_controls_in ts = Ok tt).
  { destruct (tc_response u) as [rc|]; [|done]. destruct (validate_patterns _ _) eqn:E; [|done].
    split; [|done]. by intros ? [= <-]. }
  assert (Ha' : (forall rules, tc_request_allowlist u = Some rules ->
            forallb rule_ok rules = true) /\ validate_request_allowlists_in ts = Ok tt).
  { destruct (tc_request_allowlist u) as [rs|]; [|done]. destruct (forallb _ _) eqn:E; [|done].
    split; [|done]. by intros ? [= <-]. }
  destruct Hr' as [Hr1 Hr2], Ha' as [Ha1 Ha2].
  apply elem_of_cons in Ht as [->|Ht]; [|by apply IH]. split.
  - intros rc E%Hr1. apply validate_patterns_compile in E. unfold compile.
    by destruct (compile_patterns _).
  - intros rules r E%Ha1 Hin. rewrite forallb_forall in E.
    specialize (E r (proj1 (list_elem_of_In _ _) Hin)). unfold rule_ok in E. by split_ands.
Qed.
End Validation.

(** ** Literal paths

    What a server may do to a path before it matches a route: percent
    decoding and removal of dot segments (RFC 3986, 5.2.4). *)

Definition hex_value (c : ascii) : option N :=
  let n := N_of_ascii c in
  if ((48 <=? n) && (n <=? 57))%N then Some (n - 48)%N
  else if ((65 <=? n) && (n <=? 70))%N then Some (n - 55)%N
  else if ((97 <=? n) && (n <=? 102))%N then Some (n - 87)%N
  else None.

Fixpoint percent_decode (s : string) : string :=
  match s with
  | String c s' =>
      match s' with
      | String a (String b rest) =>
          if is_char "%" c then
            match hex_value a, hex_value b with
            | Some x, Some y => String (ascii_of_N (16 * x + y)) (percent_decode rest)
            | _, _ => String c (percent_decode s')
            end
          else String c (percent_decode s')
      | _ => String c (percent_decode s')
      end
  | EmptyString => EmptyString
  end.

Definition remove_dots (segs : list string) : list string :=
  rev (fold_left (fun acc s =>
    if bool_decide (s = ".") then acc
    else if bool_decide (s = "..") then tail acc
    else s :: acc) segs []).

Definition normalize_path (p : string) : string :=
  join "/" (remove_dots (split (is_char "/") (percent_decode p))).

Lemma percent_decode_id s :
  str_forall (fun c => negb (is_char "%" c)) s = true -> percent_decode s = s.
Proof.
  induction s as [|c s IH]; [done|]. cbn [str_forall]. intros [Hc Hs]%andb_prop.
  apply negb_true_iff in Hc. cbn [percent_decode]. rewrite Hc, (IH Hs).
  by destruct s as [|a [|b rest]].
Qed.

Lemma split_nonempty p s : exists x l, split p s = x :: l.
Proof.
  induction s as [|c s (x & l & IH)]; simpl; [by do 2 eexists|].
  destruct (p c); [by do 2 eexists|]. rewrite IH. by do 2 eexists.
Qed.

Lemma join_split c s : join (String c "") (split (is_char c) s) = s.
Proof.
  induction s as [|d s IH]; [done|]. cbn [split].
  destruct (split_nonempty (is_char c) s) as (x & l & E). rewrite E in IH |- *.
  unfold is_char at 1. case_bool_decide as Hd.
  - subst d. change (join (String c "") ("" :: x :: l)) with (String c (join (String c "") (x :: l))).
    by rewrite IH.
  - destruct l as [|y l].
    + simpl in IH |- *. by rewrite IH.
    + change (join (String c "") (String d x :: y :: l))
        with (String d (join (String c "") (x :: y :: l))). by rewrite IH.
Qed.

Lemma remove_dots_id segs :
  existsb is_dot_segment segs = false -> remove_dots segs = segs.
Proof.
  intros Hd. unfold remove_dots. rewrite <- (app_nil_r segs) at 2. rewrite <- (rev_involutive segs) at 2.
  rewrite <- rev_append_rev. rewrite rev_append_rev.
  enough (G : forall acc, fold_left (fun acc s =>
    if bool_decide (s = ".") then acc
    else if bool_decide (s = "..") then tail acc
    else s :: acc) segs acc = rev segs ++ acc).
  { rewrite G, app_nil_r. by rewrite app_nil_r. }
  induction segs as [|s segs IH]; intros acc; [done|]. simpl in *.
  apply orb_false_iff in Hd as [[H1 H2]%orb_false_iff Hd]. rewrite H1, H2, (IH Hd).
  by rewrite <- app_assoc.
Qed.

(** A literal path means the same to every server: percent decoding and
    dot-segment removal leave it unchanged, so the path the allowlist compares
    is the path any upstream routes on. *)
Theorem literal_path_stable p : is_literal_request_path p = true -> normalize_path p = p.
Proof.
  unfold is_literal_request_path, normalize_path, contains_char. intros Hp. split_ands.
  rewrite percent_decode_id.
  - rewrite remove_dots_id by done. apply join_split.
  - eapply str_forall_impl; [|done]. intros c. unfold forbidden_path_char.
    intros Hc%negb_true_iff. repeat (apply orb_false_iff in Hc as [Hc ?]). by rewrite Hc.
Qed.

(** ** Credential resolution at startup *)

Section Resolve.
Context (fuel : nat) (env : string -> option string).

(** The shared shape of the two loops: [one] resolves a reference, and a
    failed or empty credential leaves the tool out of the map. *)
Fixpoint resolve_creds_loop (one : SecretRef -> option (option string)) (ts : list ToolConfig)
    (out : ResolvedCreds) : option ResolvedCreds :=
  match ts with
  | [] => Some out
  | t :: ts' =>
      match tc_auth t with
      | None => resolve_creds_loop one ts' out
      | Some auth =>
          match one (ta_value auth) with
          | None => None
          | Some (Some value) =>
              resolve_creds_loop one ts'
                (if bool_decide (value = "") then out else <[tc_name t := value]> out)
          | Some None => resolve_creds_loop one ts' out
          end
      end
  end.

Definition ok_value {E A} (r : result E A) : option A :=
  match r with Ok a => Some a | Err _ => None end.

Definition resolve_tool_creds (rs : SecretResolver) (cfg : AppConfig) : option ResolvedCreds :=
  resolve_creds_loop (fun v => ok_value <$> resolve_secret fuel env rs v) (tools cfg) ∅.

Definition resolve_tool_creds_sync_env_only (cfg : AppConfig) : option ResolvedCreds :=
  resolve_creds_loop (fun v =>
    match v with
    | Inline s => Some (Some s)
    | LegacyString _ | FromEnv _ _ => ok_value <$> env_resolve fuel env v
    | _ => Some None
    end) (tools cfg) ∅.

Lemma resolve_creds_loop_sound one ts out m :
  resolve_creds_loop one ts out = Some m ->
  forall k v, m !! k = Some v ->
    out !! k = Some v \/
    v <> "" /\ exists t a, t ∈ ts /\ tc_name t = k /\ tc_auth t = Some a /\
      one (ta_value a) = Some (Some v).
Proof.
  revert out. induction ts as [|t ts IH]; intros out; simpl.
  { intros [= ->]. by left. }
  assert (Hskip : resolve_creds_loop one ts out = Some m ->
    forall k v, m !! k = Some v -> out !! k = Some v \/
      v <> "" /\ exists u a, u ∈ t :: ts /\ tc_name u = k /\ tc_auth u = Some a /\
      one (ta_value a) = Some (Some v)).
  { intros E k v Hk. destruct (IH _ E k v Hk) as [?|(Hv & u & a & Hu & ?)]; [by left|].
    right. split; [done|]. exists u, a. split; [by right|done]. }
  destruct (tc_auth t) as [a|] eqn:Ea; [|done].
  destruct (one (ta_value a)) as [[v|]|] eqn:Eo; [|done|done].
  case_bool_decide as Hv; [done|]. intros E k w Hk.
  destruct (IH _ E k w Hk) as [Hi|(Hw & u & b & Hu & ?)].
  - apply lookup_insert_Some in Hi as [[<- <-]|[_ Hi]]; [|by left].
    right. split; [done|]. exists t, a. by repeat split; [left|..].
  - right. split; [done|]. exists u, b. split; [by right|done].
Qed.

(** A tool is only ever given a credential that its own reference
    resolved to, and never an empty one: a tool whose reference fails to
    resolve is left out of the map and the others are unaffected. *)
Theorem resolve_tool_creds_sound rs cfg m :
  resolve_tool_creds rs cfg = Some m ->
  forall name v, m !! name = Some v ->
    v <> "" /\ exists t a, t ∈ tools cfg /\ tc_name t = name /\ tc_auth t = Some a /\
      resolve_secret fuel env rs (ta_value a) = Some (Ok v).
Proof.
  intros E name v Hm.
  destruct (resolve_creds_loop_sound _ _ _ _ E name v Hm) as [Hn|(Hv & t & a & Ht & Hn & Ha & Ho)].
  { by rewrite lookup_empty in Hn. }
  split; [done|]. exists t, a. repeat split; try done.
  destruct (resolve_secret fuel env rs (ta_value a)) as [[]|]; by simplify_eq/=.
Qed.
End Resolve.

(** ** Witnesses *)

Module ConfigWitness.
Import ControlsWitness.

Definition tool0 : ToolConfig :=
  {| tc_name := "github"; tc_description := ""; tc_upstream := "https://api.github.com";
     tc_egress := Direct; tc_credential_handles := ["h1"];
     tc_request_allowlist := Some [{| rule_method := "GET"; rule_path := "/repos/x" |}];
     tc_auth := Some {| ta_header := "Authorization"; ta_force_replace := true;
                        ta_value := LegacyString "Bearer ${TOKEN}" |};
     tc_timeouts := default_timeouts; tc_body_limit_bytes := default_body_limit;
     tc_response := Some {| cfg_max_size_bytes := None; cfg_content_type_allowlist := None;
       cfg_redaction_patterns := [{| rp_id := "k"; rp_regex := "sk-"; rp_replacement := None |}] |} |}.

Definition cfg0 : AppConfig := {| tools := [tool0] |}.

Lemma validated_config_usable_witness :
  (forall rc, tc_response tool0 = Some rc -> isSome (compile rc) = true) /\
  (forall rules r, tc_request_allowlist tool0 = Some rules -> r ∈ rules ->
     rule_method r = to_ascii_uppercase (rule_method r) /\
     is_literal_request_path (rule_path r) = true).
Proof.
  apply (validated_config_usable (fun _ => true) cfg0 tool0);
    [vm_compute; reflexivity | vm_compute; reflexivity | left].
Defined.

Lemma literal_path_stable_witness : normalize_path "/v1/messages" = "/v1/messages".
Proof. apply literal_path_stable. vm_compute. reflexivity. Defined.

Lemma resolve_tool_creds_sound_witness :
  "Bearer s3cr3t" <> "" /\ exists t a, t ∈ tools cfg0 /\ tc_name t = "github" /\
    tc_auth t = Some a /\
    resolve_secret 5 SecretWitness.env0 {| file_sealed := None |} (ta_value a)
      = Some (Ok "Bearer s3cr3t").
Proof.
  apply (resolve_tool_creds_sound 5 SecretWitness.env0 {| file_sealed := None |} cfg0
           {["github" := "Bearer s3cr3t"]}); vm_compute; reflexivity.
Defined.

End ConfigWitness.
