(* ===== verification/Deprecation.v ===== *)
(** * Legacy configuration fields ([src/deprecation.rs], [src/config.rs])

    The deprecation registry, which warns once per field, and the rewriting
    of the untyped YAML tree that the loader does before the typed
    deserialisation.  [serde_yaml]'s parser and deserialiser are parameters;
    a [Mapping] is the list of its entries, looked up by key.  Warnings are
    the list of what is logged. *)

From S2P Require Import Prelude Json ResponseControls Secret Config.

(** ** The registry *)

Inductive DeprecationDisposition :=
| Renamed (new_name : string)
| Deprecated
| Removed.

Record DeprecationEntry := {
  field_path : string;
  disposition : DeprecationDisposition;
  since_version : string;
  removal_target : option string
}.

Record DeprecationRegistry := {
  entries : list DeprecationEntry;
  warned_once : gset string
}.

Definition new_registry (es : list DeprecationEntry) : DeprecationRegistry :=
  {| entries := es; warned_once := ∅ |}.

Definition lookup_entry (path : string) (reg : DeprecationRegistry) : option DeprecationEntry :=
  find_first (fun e => bool_decide (field_path e = path)) (entries reg).

Definition notice (path : string) (reg : DeprecationRegistry) : bool * DeprecationRegistry :=
  match lookup_entry path reg with
  | None => (false, reg)
  | Some _ =>
      (bool_decide (path ∉ warned_once reg),
       {| entries := entries reg; warned_once := {[path]} ∪ warned_once reg |})
  end.

Definition default_registry : DeprecationRegistry :=
  new_registry
    [{| field_path := "tools[].cloud"; disposition := Renamed "tools[].egress";
        since_version := "0.2.0"; removal_target := Some "0.3.0" |};
     {| field_path := "telemetry"; disposition := Removed;
        since_version := "0.2.0"; removal_target := None |};
     {| field_path := "tools[].timeout_seconds";
        disposition := Renamed "tools[].timeouts.request_seconds";
        since_version := "0.2.0"; removal_target := Some "0.3.0" |};
     {| field_path := "inbound_auth.token"; disposition := Deprecated;
        since_version := "2.0.0"; removal_target := None |}].

(** What [warn!] logs: the field and the entry it names. *)
Record Warning := { w_field : string; w_entry : DeprecationEntry }.

Definition emit_deprecation (path : string) (reg : DeprecationRegistry)
  : DeprecationRegistry * list Warning :=
  let '(first, reg') := notice path reg in
  if negb first then (reg', [])
  else match lookup_entry path reg' with
       | None => (reg', [])
       | Some e => (reg', [{| w_field := path; w_entry := e |}])
       end.

Definition emit_inbound_auth_token_runtime_deprecation
    (reg : DeprecationRegistry) (admin_substrate_enabled inbound_auth_token_set : bool)
  : DeprecationRegistry * list Warning :=
  if negb (admin_substrate_enabled && inbound_auth_token_set) then (reg, [])
  else emit_deprecation "inbound_auth.token" reg.

(** ** YAML values *)

#[local] Set Warnings "-register-all".

Inductive Yaml :=
| YNull
| YBool (b : bool)
| YNumber (repr : string)
| YString (s : string)
| YSequence (l : list Yaml)
| YMapping (m : list (Yaml * Yaml))
| YTagged (tag : string) (v : Yaml).

Definition is_key (k : string) (y : Yaml) : bool :=
  match y with YString s => bool_decide (s = k) | _ => false end.

Definition yget (k : string) (m : list (Yaml * Yaml)) : option Yaml :=
  snd <$> find_first (fun kv => is_key k kv.1) m.

Definition ycontains (k : string) (m : list (Yaml * Yaml)) : bool := isSome (yget k m).

Definition yremove (k : string) (m : list (Yaml * Yaml)) : list (Yaml * Yaml) :=
  List.filter (fun kv => negb (is_key k kv.1)) m.

(** [Mapping::insert]: replaces the value of a present key. *)
Fixpoint yinsert (k : string) (v : Yaml) (m : list (Yaml * Yaml)) : list (Yaml * Yaml) :=
  match m with
  | [] => [(YString k, v)]
  | kv :: m' => if is_key k kv.1 then (kv.1, v) :: m' else kv :: yinsert k v m'
  end.

Lemma is_key_ne k k' y : k <> k' -> is_key k y = true -> is_key k' y = false.
Proof.
  destruct y; simpl; try done. intros Hne E%bool_decide_eq_true. subst.
  by apply bool_decide_eq_false_2.
Qed.

Lemma yget_remove_eq k m : yget k (yremove k m) = None.
Proof.
  unfold yget, yremove. induction m as [|kv m IH]; [done|]. cbn [List.filter].
  destruct (is_key k kv.1) eqn:E; cbn; [done|]. by rewrite E.
Qed.

Lemma yget_remove_ne k k' m : k <> k' -> yget k' (yremove k m) = yget k' m.
Proof.
  intros Hne. unfold yget, yremove. induction m as [|kv m IH]; [done|]. cbn.
  destruct (is_key k kv.1) eqn:E; cbn.
  - by rewrite (is_key_ne _ _ _ Hne E).
  - by destruct (is_key k' kv.1).
Qed.

Lemma yget_insert_eq k v m : yget k (yinsert k v m) = Some v.
Proof.
  unfold yget. induction m as [|kv m IH]; cbn; [by rewrite bool_decide_eq_true_2|].
  destruct (is_key k kv.1) eqn:E; cbn; by rewrite E.
Qed.

Lemma yget_insert_ne k k' v m : k <> k' -> yget k' (yinsert k v m) = yget k' m.
Proof.
  intros Hne. unfold yget. induction m as [|kv m IH]; cbn.
  - by rewrite bool_decide_eq_false_2.
  - destruct (is_key k kv.1) eqn:E; cbn; [by rewrite (is_key_ne _ _ _ Hne E)|].
    by destruct (is_key k' kv.1).
Qed.

Lemma yremove_absent k m : yget k m = None -> yremove k m = m.
Proof.
  unfold yget, yremove. induction m as [|kv m IH]; [done|]. cbn.
  destruct (is_key k kv.1) eqn:E; cbn; [done|]. intros H. by rewrite IH.
Qed.

Lemma yinsert_same k v m : yget k m = Some v -> yinsert k v m = m.
Proof.
  unfold yget. induction m as [|[k' v'] m IH]; cbn; [done|]. destruct (is_key k k'); cbn.
  - by intros [= ->].
  - intros H. by rewrite IH.
Qed.

#[export] Hint Rewrite yget_remove_eq yget_insert_eq : locksmith.
#[global] Arguments yget : simpl never.
#[global] Arguments yinsert : simpl never.
#[global] Arguments yremove : simpl never.
#[global] Arguments ycontains : simpl never.

(** ** The rewriting *)

Abbreviation YamlMap := (list (Yaml * Yaml)) (only parsing).

Definition translate_cloud (tool_map : YamlMap) (reg : DeprecationRegistry)
  : YamlMap * DeprecationRegistry * list Warning :=
  match yget "cloud" tool_map with
  | None => (tool_map, reg, [])
  | Some cloud_val =>
      let tool_map := yremove "cloud" tool_map in
      let '(reg, w) := emit_deprecation "tools[].cloud" reg in
      if ycontains "egress" tool_map then (tool_map, reg, w)
      else
        let new_egress :=
          match cloud_val with
          | YBool true => "proxied"
          | YBool false => "direct"
          | _ => "direct"
          end in
        (yinsert "egress" (YString new_egress) tool_map, reg, w)
  end.

Definition translate_timeout_seconds (tool_map : YamlMap) (reg : DeprecationRegistry)
  : YamlMap * DeprecationRegistry * list Warning :=
  match yget "timeout_seconds" tool_map with
  | None => (tool_map, reg, [])
  | Some legacy_val =>
      let tool_map := yremove "timeout_seconds" tool_map in
      let '(reg, w) := emit_deprecation "tools[].timeout_seconds" reg in
      match yget "timeouts" tool_map with
      | Some (YMapping existing) =>
          if ycontains "request_seconds" existing then (tool_map, reg, w)
          else (yinsert "timeouts" (YMapping (yinsert "request_seconds" legacy_val existing))
                        tool_map, reg, w)
      | Some _ => (tool_map, reg, w)
      | None =>
          (yinsert "timeouts" (YMapping (yinsert "request_seconds" legacy_val [])) tool_map,
           reg, w)
      end
  end.

Definition translate_tool (tool : Yaml) (reg : DeprecationRegistry)
  : Yaml * DeprecationRegistry * list Warning :=
  match tool with
  | YMapping tool_map =>
      let '(tool_map, reg, w1) := translate_cloud tool_map reg in
      let '(tool_map, reg, w2) := translate_timeout_seconds tool_map reg in
      (YMapping tool_map, reg, w1 ++ w2)
  | _ => (tool, reg, [])
  end.

(** The [for tool in tools] loop. *)
Fixpoint translate_tools (ts : list Yaml) (reg : DeprecationRegistry)
  : list Yaml * DeprecationRegistry * list Warning :=
  match ts with
  | [] => ([], reg, [])
  | t :: ts' =>
      let '(t, reg, w1) := translate_tool t reg in
      let '(ts', reg, w2) := translate_tools ts' reg in
      (t :: ts', reg, w1 ++ w2)
  end.

Definition apply_deprecations (value : Yaml) (reg : DeprecationRegistry)
  : Yaml * DeprecationRegistry * list Warning :=
  match value with
  | YMapping top =>
      let '(top, reg, w1) :=
        if ycontains "telemetry" top
        then let '(reg, w) := emit_deprecation "telemetry" reg in
             (yremove "telemetry" top, reg, w)
        else (top, reg, []) in
      match yget "tools" top with
      | Some (YSequence ts) =>
          let '(ts, reg, w2) := translate_tools ts reg in
          (YMapping (yinsert "tools" (YSequence ts) top), reg, w1 ++ w2)
      | _ => (YMapping top, reg, w1)
      end
  | _ => (value, reg, [])
  end.

(** [parse_with_registry] and [parse_config_str]; [fuel] bounds the
    environment expansion, [None] when it does not suffice. *)
Inductive ParseError :=
| YamlSyntax
| Typed
| InvalidTool (name : string).

Section Parse.
Context `{RegexCrate}.
Variable method_ok : string -> bool.
Variable yaml_from_str : string -> option Yaml.
Variable yaml_from_value : Yaml -> option AppConfig.

Definition parse_with_registry (yaml : string) (reg : DeprecationRegistry)
  : result ParseError AppConfig * DeprecationRegistry * list Warning :=
  match yaml_from_str yaml with
  | None => (Err YamlSyntax, reg, [])
  | Some value =>
      let '(value, reg, w) := apply_deprecations value reg in
      let r :=
        let? config := ok_or Typed (yaml_from_value value) in
        let? _ := map_err InvalidTool (validate_response_controls config) in
        let? _ := map_err InvalidTool (validate_request_allowlists method_ok config) in
        Ok config in
      (r, reg, w)
  end.

Definition parse_config_str (fuel : nat) (env : Env) (raw : string)
  : option (result ParseError AppConfig * list Warning) :=
  let* expanded := expand_legacy fuel env raw in
  let '(r, _, w) := parse_with_registry expanded default_registry in
  Some (r, w).

End Parse.

(** ** Each field warns once *)

(** Between two states of a registry: what was logged was new, is recorded,
    and is logged once. *)
Record warned (reg reg' : DeprecationRegistry) (w : list Warning) : Prop := {
  warned_nodup : NoDup (w_field <$> w);
  warned_new : forall x, x ∈ (w_field <$> w) -> (x ∉ warned_once reg) /\ x ∈ warned_once reg';
  warned_mono : warned_once reg ⊆ warned_once reg';
  warned_entries : entries reg' = entries reg
}.

Lemma warned_refl reg : warned reg reg [].
Proof. split; [constructor|set_solver|done|done]. Qed.

Lemma warned_app r1 r2 r3 w1 w2 :
  warned r1 r2 w1 -> warned r2 r3 w2 -> warned r1 r3 (w1 ++ w2).
Proof.
  intros [N1 W1 M1 E1] [N2 W2 M2 E2]. split.
  - rewrite fmap_app. apply NoDup_app. split_and!; [done| |done].
    intros x Hx Hx2. destruct (W1 x Hx), (W2 x Hx2). done.
  - intros x. rewrite fmap_app, elem_of_app. intros [Hx|Hx].
    + destruct (W1 x Hx). eauto.
    + destruct (W2 x Hx). eauto.
  - by etransitivity.
  - congruence.
Qed.

Lemma emit_warned path reg :
  warned reg (emit_deprecation path reg).1 (emit_deprecation path reg).2.
Proof.
  unfold emit_deprecation, notice. destruct (lookup_entry path reg) as [e|] eqn:E;
    cbn [negb fst snd]; [|apply warned_refl].
  case_bool_decide as Hn; cbn [negb].
  - match goal with |- context [lookup_entry path ?r] => change (lookup_entry path r)
      with (lookup_entry path reg) end.
    rewrite E. split; cbn; [apply NoDup_singleton|clear -Hn; set_solver|clear; set_solver|done].
  - split; cbn; [constructor|clear; set_solver|clear; set_solver|done].
Qed.

#[export] Hint Resolve warned_refl warned_app emit_warned : locksmith.

Lemma translate_cloud_warned m reg :
  let '(_, reg', w) := translate_cloud m reg in
  warned reg reg' w.
Proof.
  unfold translate_cloud. pose proof (emit_warned "tools[].cloud" reg).
  destruct (emit_deprecation _ _); repeat case_match_goal; simplify_eq; eauto with locksmith.
Qed.

Lemma translate_timeout_warned m reg :
  let '(_, reg', w) := translate_timeout_seconds m reg in warned reg reg' w.
Proof.
  unfold translate_timeout_seconds. pose proof (emit_warned "tools[].timeout_seconds" reg).
  destruct (emit_deprecation _ _); repeat case_match_goal; simplify_eq; eauto with locksmith.
Qed.

Lemma translate_tool_warned t reg :
  let '(_, reg', w) := translate_tool t reg in warned reg reg' w.
Proof.
  destruct t; try apply warned_refl. cbn.
  pose proof (translate_cloud_warned m reg) as W1.
  destruct (translate_cloud m reg) as [[m1 r1] w1].
  pose proof (translate_timeout_warned m1 r1) as W2.
  destruct (translate_timeout_seconds m1 r1) as [[m2 r2] w2]. eauto with locksmith.
Qed.

Lemma translate_tools_warned ts reg :
  let '(_, reg', w) := translate_tools ts reg in warned reg reg' w.
Proof.
  revert reg. induction ts as [|t ts IH]; intros reg; cbn; [apply warned_refl|].
  pose proof (translate_tool_warned t reg) as W1. destruct (translate_tool t reg) as [[t1 r1] w1].
  specialize (IH r1). destruct (translate_tools ts r1) as [[ts2 r2] w2]. eauto with locksmith.
Qed.

Lemma apply_deprecations_warned v reg :
  let '(_, reg', w) := apply_deprecations v reg in warned reg reg' w.
Proof.
  destruct v; try apply warned_refl. cbn.
  pose proof (emit_warned "telemetry" reg) as W.
  destruct (emit_deprecation "telemetry" reg) as [r1 w1]. cbn in W.
  assert (W1 : let '(_, r, w) := if ycontains "telemetry" m
            then (yremove "telemetry" m, r1, w1) else (m, reg, []) in warned reg r w).
  { destruct (ycontains _ _); [done|apply warned_refl]. }
  destruct (if ycontains "telemetry" m then _ else _) as [[top r] w0].
  destruct (yget "tools" top) as [[]|]; try done.
  pose proof (translate_tools_warned l r) as W2.
  destruct (translate_tools l r) as [[ts2 r2] w2]. eauto with locksmith.
Qed.

(** *** Exactly the fields that are there *)

(** The legacy fields a tool, and a document, mentions. *)
Definition tool_legacy (t : Yaml) : gset string :=
  match t with
  | YMapping m =>
      (if ycontains "cloud" m then {["tools[].cloud"]} else ∅)
      ∪ (if ycontains "timeout_seconds" m then {["tools[].timeout_seconds"]} else ∅)
  | _ => ∅
  end.

Definition tools_legacy (ts : list Yaml) : gset string := ⋃ (tool_legacy <$> ts).

Definition legacy_fields (v : Yaml) : gset string :=
  match v with
  | YMapping top =>
      (if ycontains "telemetry" top then {["telemetry"]} else ∅)
      ∪ match yget "tools" top with Some (YSequence ts) => tools_legacy ts | _ => ∅ end
  | _ => ∅
  end.

(** From one state of a registry to the next the fields [E] were met: those
    not yet warned about are logged, and all are recorded. *)
Record logs (reg reg' : DeprecationRegistry) (w : list Warning) (E : gset string) : Prop := {
  logs_fields : forall x, x ∈ (w_field <$> w) <-> x ∈ E /\ x ∉ warned_once reg;
  logs_warned : warned_once reg' = E ∪ warned_once reg;
  logs_entries : entries reg' = entries reg
}.

Lemma logs_refl reg : logs reg reg [] ∅.
Proof. split; [set_solver|set_solver|done]. Qed.

Lemma logs_app r1 r2 r3 w1 w2 E1 E2 :
  logs r1 r2 w1 E1 -> logs r2 r3 w2 E2 -> logs r1 r3 (w1 ++ w2) (E1 ∪ E2).
Proof.
  intros [F1 W1 N1] [F2 W2 N2]. split.
  - intros x. rewrite fmap_app, elem_of_app, F1, F2, W1. destruct (decide (x ∈ E1)); set_solver.
  - rewrite W2, W1. set_solver.
  - congruence.
Qed.

Lemma emit_logs path reg :
  isSome (lookup_entry path reg) = true ->
  logs reg (emit_deprecation path reg).1 (emit_deprecation path reg).2 {[path]}.
Proof.
  unfold emit_deprecation, notice. destruct (lookup_entry path reg) as [e|] eqn:E; [intros _|done].
  case_bool_decide as Hn; cbn [negb].
  - match goal with |- context [lookup_entry path ?r] => change (lookup_entry path r)
      with (lookup_entry path reg) end.
    rewrite E. split; cbn; [intros x; rewrite list_elem_of_singleton; clear -Hn; set_solver|done|done].
  - split; cbn; [|done|done]. intros x. clear -Hn. set_solver.
Qed.

(** A registry that knows the fields the loader rewrites. *)
Definition registered (reg : DeprecationRegistry) : Prop := entries reg = entries default_registry.

Lemma registered_known reg path :
  registered reg -> path ∈ ["tools[].cloud"; "telemetry"; "tools[].timeout_seconds"] ->
  isSome (lookup_entry path reg) = true.
Proof.
  unfold lookup_entry. intros -> Hp. rewrite !elem_of_cons in Hp.
  destruct Hp as [->|[->|[->|[]%not_elem_of_nil]]]; reflexivity.
Qed.

Lemma translate_cloud_logs m reg :
  registered reg ->
  let '(_, reg', w) := translate_cloud m reg in
  logs reg reg' w (if ycontains "cloud" m then {["tools[].cloud"]} else ∅).
Proof.
  intros R. unfold translate_cloud, ycontains at 2.
  pose proof (emit_logs "tools[].cloud" reg (registered_known _ "tools[].cloud" R ltac:(set_solver))) as L.
  destruct (yget "cloud" m); [|apply logs_refl]. cbn [isSome].
  destruct (emit_deprecation _ _). by repeat case_match_goal.
Qed.

Lemma translate_timeout_logs m reg :
  registered reg ->
  let '(_, reg', w) := translate_timeout_seconds m reg in
  logs reg reg' w (if ycontains "timeout_seconds" m then {["tools[].timeout_seconds"]} else ∅).
Proof.
  intros R. unfold translate_timeout_seconds, ycontains at 2.
  pose proof (emit_logs "tools[].timeout_seconds" reg (registered_known _ "tools[].timeout_seconds" R ltac:(set_solver))) as L.
  destruct (yget "timeout_seconds" m); [|apply logs_refl]. cbn [isSome].
  destruct (emit_deprecation _ _). by repeat case_match_goal.
Qed.

(** The key a tool loses first does not hide the other one. *)
Lemma translate_cloud_keeps m reg :
  ycontains "timeout_seconds" (translate_cloud m reg).1.1 = ycontains "timeout_seconds" m.
Proof.
  unfold translate_cloud. destruct (yget "cloud" m); [|done]. destruct (emit_deprecation _ _).
  unfold ycontains at 1 3. destruct (ycontains "egress" _); cbn;
    by rewrite ?(yget_insert_ne "egress"), (yget_remove_ne "cloud") by done.
Qed.

Lemma translate_tool_logs t reg :
  registered reg -> let '(_, reg', w) := translate_tool t reg in logs reg reg' w (tool_legacy t).
Proof.
  intros R. destruct t; try apply logs_refl. cbn.
  pose proof (translate_cloud_logs m reg R) as L1. pose proof (translate_cloud_keeps m reg) as K.
  destruct (translate_cloud m reg) as [[m1 r1] w1]. cbn in K.
  pose proof (translate_timeout_logs m1 r1 (eq_trans (logs_entries _ _ _ _ L1) R)) as L2. rewrite K in L2.
  destruct (translate_timeout_seconds m1 r1) as [[m2 r2] w2]. by eapply logs_app.
Qed.

Lemma translate_tools_logs ts reg :
  registered reg -> let '(_, reg', w) := translate_tools ts reg in logs reg reg' w (tools_legacy ts).
Proof.
  revert reg. induction ts as [|t ts IH]; intros reg R; cbn; [apply logs_refl|].
  pose proof (translate_tool_logs t reg R) as L1. destruct (translate_tool t reg) as [[t1 r1] w1].
  specialize (IH r1 (eq_trans (logs_entries _ _ _ _ L1) R)).
  destruct (translate_tools ts r1) as [[ts2 r2] w2]. by eapply logs_app.
Qed.

(** A load warns about each legacy field the document mentions that was not
    warned about before, and about nothing else. *)
Lemma apply_deprecations_logs v reg :
  registered reg -> let '(_, reg', w) := apply_deprecations v reg in logs reg reg' w (legacy_fields v).
Proof.
  intros R. destruct v; try apply logs_refl. cbn.
  pose proof (emit_logs "telemetry" reg (registered_known _ "telemetry" R ltac:(set_solver))) as L.
  destruct (emit_deprecation "telemetry" reg) as [r1 w1]. cbn in L.
  assert (L1 : let '(top, r, w) := if ycontains "telemetry" m
            then (yremove "telemetry" m, r1, w1) else (m, reg, []) in
          logs reg r w (if ycontains "telemetry" m then {["telemetry"]} else ∅) /\
          yget "tools" top = yget "tools" m).
  { destruct (ycontains _ _); [|by split; [apply logs_refl|]].
    split; [done|]. by rewrite (yget_remove_ne "telemetry"). }
  destruct (if ycontains "telemetry" m then (yremove _ _, _, _) else _) as [[top r] w0].
  destruct L1 as [L1 ->].
  assert (L0 : logs reg r w0 ((if ycontains "telemetry" m then {["telemetry"]} else ∅) ∪ ∅))
    by (by rewrite (right_id_L ∅ (∪))).
  destruct (yget "tools" m) as [[]|]; try done.
  pose proof (translate_tools_logs l r (eq_trans (logs_entries _ _ _ _ L1) R)) as L2.
  destruct (translate_tools l r) as [[ts2 r2] w2]. by eapply logs_app.
Qed.

(** Loading one document after another against the same registry. *)
Fixpoint apply_all (vs : list Yaml) (reg : DeprecationRegistry)
  : DeprecationRegistry * list Warning :=
  match vs with
  | [] => (reg, [])
  | v :: vs' =>
      let '(_, reg, w1) := apply_deprecations v reg in
      let '(reg, w2) := apply_all vs' reg in (reg, w1 ++ w2)
  end.

(** However many documents and tools mention a legacy field, a registry logs
    it at most once, and never again after it has. *)
Theorem warnings_once vs reg :
  let '(reg', w) := apply_all vs reg in
  NoDup (w_field <$> w) /\
  (forall x, x ∈ (w_field <$> w) -> (x ∉ warned_once reg) /\ x ∈ warned_once reg').
Proof.
  assert (W : let '(reg', w) := apply_all vs reg in warned reg reg' w).
  { revert reg. induction vs as [|v vs IH]; intros reg; cbn; [apply warned_refl|].
    pose proof (apply_deprecations_warned v reg) as W1.
    destruct (apply_deprecations v reg) as [[v1 r1] w1].
    specialize (IH r1). destruct (apply_all vs r1) as [r2 w2]. eauto with locksmith. }
  destruct (apply_all vs reg) as [reg' w]. by destruct W.
Qed.

(** ** What the rewriting does to a tool *)

(** The value a legacy [cloud] flag stands for. *)
Definition egress_of_cloud (v : Yaml) : Yaml :=
  YString (match v with YBool true => "proxied" | _ => "direct" end).

(** The [timeouts] of the rewritten tool. *)
Definition timeouts_of (legacy timeouts : option Yaml) : option Yaml :=
  match legacy, timeouts with
  | None, t => t
  | Some v, None => Some (YMapping [(YString "request_seconds", v)])
  | Some v, Some (YMapping t) =>
      Some (YMapping (if ycontains "request_seconds" t then t else yinsert "request_seconds" v t))
  | Some _, Some t => Some t
  end.

Lemma translate_cloud_get m reg k :
  yget k (translate_cloud m reg).1.1 =
    if bool_decide (k = "cloud") then None
    else if bool_decide (k = "egress") then
      match yget "egress" m with
      | Some e => Some e
      | None => egress_of_cloud <$> yget "cloud" m
      end
    else yget k m.
Proof.
  unfold translate_cloud, ycontains. destruct (yget "cloud" m) as [v|] eqn:E.
  - destruct (emit_deprecation _ reg) as [r w]. rewrite yget_remove_ne by done.
    repeat case_bool_decide; subst; try done; destruct (yget "egress" m) eqn:Ee; cbn;
      rewrite ?yget_insert_eq, ?(yget_insert_ne "egress"), ?yget_remove_eq,
        ?(yget_remove_ne "cloud") by done; try done; by destruct v as [|[]| | | | |].
  - cbn. repeat case_bool_decide; subst; try done. by destruct (yget "egress" m).
Qed.

Lemma translate_timeout_get m reg k :
  yget k (translate_timeout_seconds m reg).1.1 =
    if bool_decide (k = "timeout_seconds") then None
    else if bool_decide (k = "timeouts")
         then timeouts_of (yget "timeout_seconds" m) (yget "timeouts" m)
    else yget k m.
Proof.
  unfold translate_timeout_seconds. destruct (yget "timeout_seconds" m) as [v|] eqn:E.
  - destruct (emit_deprecation _ reg) as [r w]. rewrite yget_remove_ne by done.
    repeat case_bool_decide; subst; try done; destruct (yget "timeouts" m) as [[]|] eqn:Et;
      cbn; try destruct (ycontains "request_seconds" _); cbn;
      rewrite ?yget_insert_eq, ?(yget_insert_ne "timeouts"), ?yget_remove_eq,
        ?(yget_remove_ne "timeout_seconds") by done; done.
  - cbn. repeat case_bool_decide; subst; done.
Qed.

(** A rewritten tool has no legacy key; [egress] and
    [timeouts.request_seconds] are the operator's own when set and the legacy
    value otherwise; every other key is as it was. *)
Theorem translate_tool_spec m reg :
  exists m', (translate_tool (YMapping m) reg).1.1 = YMapping m' /\
  yget "cloud" m' = None /\ yget "timeout_seconds" m' = None /\
  yget "egress" m' = match yget "egress" m with
                     | Some e => Some e
                     | None => egress_of_cloud <$> yget "cloud" m
                     end /\
  yget "timeouts" m' = timeouts_of (yget "timeout_seconds" m) (yget "timeouts" m) /\
  (forall k, k ∉ ["cloud"; "egress"; "timeout_seconds"; "timeouts"] -> yget k m' = yget k m).
Proof.
  cbn. pose proof (translate_cloud_get m reg) as C.
  destruct (translate_cloud m reg) as [[m1 r1] w1]. cbn in C.
  pose proof (translate_timeout_get m1 r1) as T.
  destruct (translate_timeout_seconds m1 r1) as [[m2 r2] w2]. cbn in T.
  exists m2. split; [done|]. rewrite !T, !C. cbn. split_and!; try done.
  intros k Hk. rewrite !not_elem_of_cons in Hk. destruct Hk as (?&?&?&?&_).
  rewrite T, !bool_decide_eq_false_2 by done. by rewrite C, !bool_decide_eq_false_2.
Qed.

(** ** The rewriting is idempotent *)

Definition tool_clean (t : Yaml) : Prop :=
  match t with
  | YMapping m => yget "cloud" m = None /\ yget "timeout_seconds" m = None
  | _ => True
  end.

Lemma translate_tool_clean t reg : tool_clean (translate_tool t reg).1.1.
Proof.
  destruct t; try done. destruct (translate_tool_spec m reg) as (m' & -> & H1 & H2 & _). done.
Qed.

Lemma translate_clean_tool t reg : tool_clean t -> translate_tool t reg = (t, reg, []).
Proof.
  destruct t; try done. cbn. intros [H1 H2].
  unfold translate_cloud. rewrite H1. unfold translate_timeout_seconds. by rewrite H2.
Qed.

Lemma translate_tools_clean ts reg : Forall tool_clean (translate_tools ts reg).1.1.
Proof.
  revert reg. induction ts as [|t ts IH]; intros reg; cbn; [constructor|].
  pose proof (translate_tool_clean t reg). destruct (translate_tool t reg) as [[t1 r1] w1].
  specialize (IH r1). destruct (translate_tools ts r1) as [[ts2 r2] w2]. by constructor.
Qed.

Lemma translate_clean_tools ts reg :
  Forall tool_clean ts -> translate_tools ts reg = (ts, reg, []).
Proof.
  induction 1 as [|t ts Ht _ IH]; cbn; [done|]. rewrite translate_clean_tool by done. by rewrite IH.
Qed.

(** The shape [apply_deprecations] produces. *)
Definition doc_clean (v : Yaml) : Prop :=
  match v with
  | YMapping top =>
      yget "telemetry" top = None /\
      match yget "tools" top with Some (YSequence ts) => Forall tool_clean ts | _ => True end
  | _ => True
  end.

Lemma apply_deprecations_clean v reg : doc_clean (apply_deprecations v reg).1.1.
Proof.
  destruct v; try done. cbn. set (c := if ycontains "telemetry" m then _ else _).
  assert (Hc : yget "telemetry" c.1.1 = None).
  { subst c. unfold ycontains. destruct (yget "telemetry" m) eqn:E; cbn; [|done].
    destruct (emit_deprecation _ _). apply yget_remove_eq. }
  destruct c as [[top r] w]. cbn in Hc.
  destruct (yget "tools" top) as [[]|] eqn:Et; cbn; rewrite ?Hc, ?Et; try done.
  pose proof (translate_tools_clean l r) as F. destruct (translate_tools l r) as [[ts r2] w2].
  cbn. rewrite yget_insert_ne, yget_insert_eq by done. done.
Qed.

Lemma apply_clean v reg : doc_clean v -> apply_deprecations v reg = (v, reg, []).
Proof.
  destruct v; try done. cbn. intros [H1 H2]. unfold ycontains. rewrite H1. cbn.
  destruct (yget "tools" m) as [[]|] eqn:Et; try done.
  rewrite translate_clean_tools by done. cbn. by rewrite yinsert_same.
Qed.

(** No legacy field survives the rewriting, and a document it produced, or
    one that never used a legacy field, passes through unchanged and without
    a warning, whatever the registry. *)
Theorem apply_deprecations_idempotent v reg reg' :
  doc_clean (apply_deprecations v reg).1.1 /\
  apply_deprecations (apply_deprecations v reg).1.1 reg' =
    ((apply_deprecations v reg).1.1, reg', []).
Proof. split; [|apply apply_clean]; apply apply_deprecations_clean. Qed.

(** A [timeouts] that is not a mapping silences the legacy timeout. *)
Theorem timeout_dropped m reg v :
  yget "timeout_seconds" m = Some v -> yget "timeouts" m = Some YNull ->
  yget "timeouts" (translate_timeout_seconds m reg).1.1 = Some YNull /\
  yget "timeout_seconds" (translate_timeout_seconds m reg).1.1 = None.
Proof. intros H1 H2. rewrite !translate_timeout_get, H1, H2. done. Qed.

(** ** The load pipeline *)

Section ParseSpec.
Context `{RegexCrate}.
Variable method_ok : string -> bool.
Variable yaml_from_str : string -> option Yaml.
Variable yaml_from_value : Yaml -> option AppConfig.

(** A configuration that loads was deserialised from a tree without legacy
    fields and passed both validators. *)
Theorem parse_config_str_ok fuel env raw cfg w :
  parse_config_str method_ok yaml_from_str yaml_from_value fuel env raw = Some (Ok cfg, w) ->
  exists v, doc_clean v /\ yaml_from_value v = Some cfg /\
    validate_response_controls cfg = Ok tt /\ validate_request_allowlists method_ok cfg = Ok tt /\
    NoDup (w_field <$> w).
Proof.
  unfold parse_config_str, parse_with_registry. intros E.
  destruct (expand_legacy fuel env raw) as [x|]; [|done].
  destruct (yaml_from_str x) as [y|]; [|done].
  pose proof (apply_deprecations_clean y default_registry) as C.
  pose proof (apply_deprecations_warned y default_registry) as W.
  destruct (apply_deprecations y default_registry) as [[v reg] w']. cbn in C, W.
  exists v. destruct (yaml_from_value v) as [c|]; [|done]. cbn in E.
  destruct (validate_response_controls c) as [[]|] eqn:E1; [|done]. cbn in E.
  destruct (validate_request_allowlists method_ok c) as [[]|] eqn:E2; [|done]. cbn in E.
  simplify_eq. by destruct W.
Qed.
End ParseSpec.

Module DeprecationWitness.

Definition legacy_doc : Yaml :=
  YMapping [(YString "telemetry", YNull);
            (YString "tools", YSequence [
               YMapping [(YString "name", YString "gh"); (YString "cloud", YBool true);
                         (YString "timeout_seconds", YNumber "5")];
               YMapping [(YString "name", YString "lf"); (YString "cloud", YBool true);
                         (YString "egress", YString "direct")]])].

Example legacy_migrates :
  (apply_deprecations legacy_doc default_registry).1.1 =
  YMapping [(YString "tools", YSequence [
     YMapping [(YString "name", YString "gh"); (YString "egress", YString "proxied");
               (YString "timeouts", YMapping [(YString "request_seconds", YNumber "5")])];
     YMapping [(YString "name", YString "lf"); (YString "egress", YString "direct")]])].
Proof. vm_compute. reflexivity. Qed.

Example legacy_warns :
  w_field <$> (apply_deprecations legacy_doc default_registry).2 =
  ["telemetry"; "tools[].cloud"; "tools[].timeout_seconds"].
Proof. vm_compute. reflexivity. Qed.

Lemma timeout_dropped_witness :
  yget "timeouts" (translate_timeout_seconds
    [(YString "timeout_seconds", YNumber "5"); (YString "timeouts", YNull)] default_registry).1.1
  = Some YNull /\
  yget "timeout_seconds" (translate_timeout_seconds
    [(YString "timeout_seconds", YNumber "5"); (YString "timeouts", YNull)] default_registry).1.1
  = None.
Proof. apply (timeout_dropped _ default_registry (YNumber "5")); reflexivity. Defined.

End DeprecationWitness.
