(* ===== verification/ClientPool.v ===== *)
(** * The HTTP client pool ([src/client_pool.rs])

    Clients are cached per tool name and rebuilt when the fingerprint of the
    tool changes.  A lookup is its two critical sections, the read under the
    shared lock and the checked insert under the exclusive one, as steps that
    other lookups may interleave with.  [reqwest]'s builder, its proxy parser
    and the certificate parser are parameters; a client is what it was built
    with, plus a number that tells two builds apart. *)

From S2P Require Import Prelude Json ResponseControls Secret Config Strings.

(** The fields of [AppConfig] that reach a client. *)
Record PoolConfig := {
  pc_tools : list ToolConfig;
  pc_egress_proxy : option string;
  pc_upstream_ca_bundle : option string
}.

Record ToolFingerprint := {
  fp_request_seconds : Z;
  fp_idle_seconds : Z;
  fp_egress : EgressMode;
  fp_egress_proxy_url : option string;
  fp_follow_redirects : bool
}.

#[export] Instance EgressMode_eq_dec' : EqDecision EgressMode.
Proof. solve_decision. Defined.
#[export] Instance ToolFingerprint_eq_dec : EqDecision ToolFingerprint.
Proof. solve_decision. Defined.

Definition fingerprint_of_parts (n : string) (t : ToolTimeouts) (e : EgressMode)
    (cfg : PoolConfig) : ToolFingerprint :=
  {| fp_request_seconds := request_seconds t; fp_idle_seconds := idle_seconds t; fp_egress := e;
     fp_egress_proxy_url := match e with Proxied => pc_egress_proxy cfg | Direct => None end;
     fp_follow_redirects :=
       negb (existsb (fun x => bool_decide (tc_name x = n) && isSome (tc_request_allowlist x))
                     (pc_tools cfg)) |}.

Definition fingerprint_of (tool : ToolConfig) (cfg : PoolConfig) : ToolFingerprint :=
  let fp := fingerprint_of_parts (tc_name tool) (tc_timeouts tool) (tc_egress tool) cfg in
  {| fp_request_seconds := fp_request_seconds fp; fp_idle_seconds := fp_idle_seconds fp;
     fp_egress := fp_egress fp; fp_egress_proxy_url := fp_egress_proxy_url fp;
     fp_follow_redirects :=
       fp_follow_redirects fp && negb (isSome (tc_request_allowlist tool)) |}.

(** A built client; the fallback one has no timeouts, proxy or extra roots. *)
Record Client := {
  c_number : nat;
  c_timeout : option Z;
  c_read_timeout : option Z;
  c_follow_redirects : bool;
  c_roots : list string;
  c_proxy : option string
}.

(** ** CA bundles *)

(** The loop over the lines: the blocks pushed so far are returned first. *)
Fixpoint split_pem_lines (ls : list string) (current : string) (in_cert : bool) : list string :=
  match ls with
  | [] => []
  | line :: ls' =>
      let begins := str_contains "BEGIN CERTIFICATE" line in
      let in_cert := begins || in_cert in
      let current := if begins then "" else current in
      let current := if in_cert then current +:+ line +:+ nl else current in
      if str_contains "END CERTIFICATE" line
      then current :: split_pem_lines ls' current false
      else split_pem_lines ls' current in_cert
  end.

Definition split_pem_certificates (pem : string) : list string :=
  split_pem_lines (lines pem) "" false.

Section Pool.
(** [reqwest::Proxy::all], [std::fs::read], [Certificate::from_pem] and
    whether [ClientBuilder::build] succeeds. *)
Variable proxy_ok : string -> bool.
Variable read_file : string -> option string.
Variable cert_ok : string -> bool.
Variable builds : Client -> bool.

Definition ca_roots (path : string) : list string :=
  match read_file path with
  | None => []
  | Some pem => List.filter cert_ok (split_pem_certificates pem)
  end.

Definition build_client_for (n : nat) (t : ToolTimeouts) (e : EgressMode) (cfg : PoolConfig)
    (follow_redirects : bool) : Client :=
  let c := {| c_number := n; c_timeout := Some (request_seconds t);
              c_read_timeout := Some (idle_seconds t);
              c_follow_redirects := follow_redirects;
              c_roots := match pc_upstream_ca_bundle cfg with
                         | Some path => ca_roots path | None => [] end;
              c_proxy := match e with
                         | Proxied => let* p := pc_egress_proxy cfg in
                                      if proxy_ok p then Some p else None
                         | Direct => None
                         end |} in
  if builds c then c
  else {| c_number := n; c_timeout := None; c_read_timeout := None;
          c_follow_redirects := follow_redirects; c_roots := []; c_proxy := None |}.

(** The cache and the number of clients built so far. *)
Record ClientPool := { entries : gmap string (Client * ToolFingerprint); built : nat }.

(** The read of the fast path, repeated under the write lock. *)
Definition cached (n : string) (fp : ToolFingerprint) (p : ClientPool) : option Client :=
  match entries p !! n with
  | Some (client, cached_fp) => if bool_decide (cached_fp = fp) then Some client else None
  | None => None
  end.

(** The write-lock section. *)
Definition insert_client (n : string) (fp : ToolFingerprint) (t : ToolTimeouts) (e : EgressMode)
    (cfg : PoolConfig) (p : ClientPool) : Client * ClientPool :=
  match cached n fp p with
  | Some client => (client, p)
  | None =>
      let client := build_client_for (built p) t e cfg (fp_follow_redirects fp) in
      (client, {| entries := <[n := (client, fp)]> (entries p); built := S (built p) |})
  end.

Definition lookup_client (n : string) (fp : ToolFingerprint) (t : ToolTimeouts) (e : EgressMode)
    (cfg : PoolConfig) (p : ClientPool) : Client * ClientPool :=
  match cached n fp p with
  | Some client => (client, p)
  | None => insert_client n fp t e cfg p
  end.

Definition get_or_build (tool : ToolConfig) (cfg : PoolConfig) (p : ClientPool)
  : Client * ClientPool :=
  lookup_client (tc_name tool) (fingerprint_of tool cfg) (tc_timeouts tool) (tc_egress tool) cfg p.

Definition get_or_build_for (n : string) (t : ToolTimeouts) (e : EgressMode) (cfg : PoolConfig)
    (p : ClientPool) : Client * ClientPool :=
  lookup_client n (fingerprint_of_parts n t e cfg) t e cfg p.

Definition cleanup_removed (keep : list string) (p : ClientPool) : ClientPool :=
  {| entries := filter (fun kv => kv.1 ∈ keep) (entries p); built := built p |}.

(** ** Interleaved lookups *)

(** What a lookup is for. *)
Inductive Lookup :=
| ByTool (tool : ToolConfig) (cfg : PoolConfig)
| ByParts (n : string) (t : ToolTimeouts) (e : EgressMode) (cfg : PoolConfig).

Definition lookup_name (l : Lookup) : string :=
  match l with ByTool tool _ => tc_name tool | ByParts n _ _ _ => n end.
Definition lookup_fp (l : Lookup) : ToolFingerprint :=
  match l with
  | ByTool tool cfg => fingerprint_of tool cfg
  | ByParts n t e cfg => fingerprint_of_parts n t e cfg
  end.

(** One critical section of some caller: a read that hits, the checked
    insert of a caller whose read missed at any earlier time, a cleanup. *)
Inductive PoolStep : ClientPool -> option (Lookup * Client) -> ClientPool -> Prop :=
| ReadHit l c p : cached (lookup_name l) (lookup_fp l) p = Some c -> PoolStep p (Some (l, c)) p
| InsertTool tool cfg p :
    PoolStep p (Some (ByTool tool cfg,
                      (insert_client (tc_name tool) (fingerprint_of tool cfg) (tc_timeouts tool)
                         (tc_egress tool) cfg p).1))
             (insert_client (tc_name tool) (fingerprint_of tool cfg) (tc_timeouts tool)
                (tc_egress tool) cfg p).2
| InsertParts n t e cfg p :
    PoolStep p (Some (ByParts n t e cfg,
                      (insert_client n (fingerprint_of_parts n t e cfg) t e cfg p).1))
             (insert_client n (fingerprint_of_parts n t e cfg) t e cfg p).2
| Cleanup keep p : PoolStep p None (cleanup_removed keep p).

Inductive reachable : ClientPool -> Prop :=
| Empty : reachable {| entries := ∅; built := 0 |}
| Step p r p' : reachable p -> PoolStep p r p' -> reachable p'.

(** The client the builder is asked for on a fingerprint. *)
Definition asked_for (n : nat) (roots : list string) (fp : ToolFingerprint) : Client :=
  {| c_number := n; c_timeout := Some (fp_request_seconds fp);
     c_read_timeout := Some (fp_idle_seconds fp); c_follow_redirects := fp_follow_redirects fp;
     c_roots := roots;
     c_proxy := let* p := fp_egress_proxy_url fp in if proxy_ok p then Some p else None |}.

(** A client that was built for a fingerprint: the one asked for or, where
    building that one fails, the bare one, which follows redirects only if the
    fingerprint says so. *)
Definition conforms (c : Client) (fp : ToolFingerprint) : Prop :=
  exists n roots,
    c = if builds (asked_for n roots fp) then asked_for n roots fp
        else {| c_number := n; c_timeout := None; c_read_timeout := None;
                c_follow_redirects := fp_follow_redirects fp; c_roots := []; c_proxy := None |}.

Lemma build_conforms n t e cfg fp :
  fp_request_seconds fp = request_seconds t -> fp_idle_seconds fp = idle_seconds t ->
  fp_egress_proxy_url fp = (match e with Proxied => pc_egress_proxy cfg | Direct => None end) ->
  conforms (build_client_for n t e cfg (fp_follow_redirects fp)) fp.
Proof.
  intros E1 E2 E3. exists n, (match pc_upstream_ca_bundle cfg with Some path => ca_roots path | None => [] end).
  unfold build_client_for, asked_for. rewrite E1, E2, E3. by destruct e.
Qed.

Definition pool_ok (p : ClientPool) : Prop :=
  forall n c fp, entries p !! n = Some (c, fp) -> conforms c fp.

Lemma cached_conforms n fp p c : pool_ok p -> cached n fp p = Some c -> conforms c fp.
Proof.
  unfold cached. intros Hok. destruct (entries p !! n) as [[c' fp']|] eqn:E; [|done].
  case_bool_decide; [|done]. intros [= ->]. subst. by eapply Hok.
Qed.

Lemma insert_client_ok n fp t e cfg p :
  pool_ok p ->
  (forall m, conforms (build_client_for m t e cfg (fp_follow_redirects fp)) fp) ->
  conforms (insert_client n fp t e cfg p).1 fp /\ pool_ok (insert_client n fp t e cfg p).2.
Proof.
  intros Hok Hb. unfold insert_client. destruct (cached n fp p) eqn:E.
  - split; [by eapply cached_conforms|done].
  - split; [apply Hb|]. intros n' c' fp'. cbn. rewrite lookup_insert_Some.
    intros [[<- [= <- <-]]|[_ H]]; [apply Hb|by eapply Hok].
Qed.

Lemma step_ok p r p' :
  pool_ok p -> PoolStep p r p' ->
  pool_ok p' /\ forall l c, r = Some (l, c) -> conforms c (lookup_fp l).
Proof.
  intros Hok. destruct 1.
  - split; [done|]. intros l' c' [= <- <-]. by eapply cached_conforms.
  - destruct (insert_client_ok (tc_name tool) (fingerprint_of tool cfg) (tc_timeouts tool)
                (tc_egress tool) cfg p Hok) as [H1 H2]; [by intros; apply build_conforms|].
    split; [done|]. by intros l c [= <- <-].
  - destruct (insert_client_ok n (fingerprint_of_parts n t e cfg) t e cfg p Hok) as [H1 H2];
      [by intros; apply build_conforms|].
    split; [done|]. by intros l c [= <- <-].
  - split; [|done]. intros n c fp. cbn. rewrite map_lookup_filter_Some. intros [H _]. by eapply Hok.
Qed.

Lemma reachable_ok p : reachable p -> pool_ok p.
Proof.
  induction 1 as [|p r p' _ IH Hs]; [intros n c fp; cbn [entries]; by rewrite lookup_empty|].
  by destruct (step_ok _ _ _ IH Hs).
Qed.

(** Whether a lookup's name carries a request allowlist. *)
Definition restricted (l : Lookup) : bool :=
  match l with
  | ByTool tool cfg =>
      isSome (tc_request_allowlist tool)
      || existsb (fun x => bool_decide (tc_name x = tc_name tool) && isSome (tc_request_allowlist x))
                 (pc_tools cfg)
  | ByParts n _ _ cfg =>
      existsb (fun x => bool_decide (tc_name x = n) && isSome (tc_request_allowlist x))
              (pc_tools cfg)
  end.

(** C31: However lookups, inserts and cleanups interleave, a lookup returns a
    client built for its own fingerprint: with its timeouts and proxy, and
    for a tool name restricted to an allowlist never one that follows
    redirects, the fallback client included. *)
Theorem pool_returns_conforming p r p' l c :
  reachable p -> PoolStep p r p' -> r = Some (l, c) ->
  conforms c (lookup_fp l) /\ (restricted l = true -> c_follow_redirects c = false).
Proof.
  intros Hr Hs Er. destruct (step_ok _ _ _ (reachable_ok _ Hr) Hs) as [_ H].
  specialize (H l c Er). split; [done|]. destruct H as (n & roots & ->).
  assert (F : forall b, c_follow_redirects (if b : bool then asked_for n roots (lookup_fp l) else
    {| c_number := n; c_timeout := None; c_read_timeout := None;
       c_follow_redirects := fp_follow_redirects (lookup_fp l); c_roots := []; c_proxy := None |})
    = fp_follow_redirects (lookup_fp l)) by (by intros []).
  rewrite F. destruct l; cbn.
  - intros [Ha|Hb]%orb_prop; [by rewrite Ha, andb_false_r|by rewrite Hb].
  - by intros ->.
Qed.

(** A lookup that follows a lookup for the same fingerprint returns the same
    client and builds nothing. *)
Theorem lookup_client_cached n t e cfg p :
  let '(c, p1) := get_or_build_for n t e cfg p in
  get_or_build_for n t e cfg p1 = (c, p1).
Proof.
  unfold get_or_build_for, lookup_client. set (fp := fingerprint_of_parts n t e cfg).
  destruct (cached n fp p) eqn:E; [by rewrite E|].
  unfold insert_client. rewrite E. unfold cached. cbn.
  by rewrite lookup_insert_eq, bool_decide_eq_true_2.
Qed.

(** A change of what the fingerprint covers replaces the cached client. *)
Theorem changed_fingerprint_rebuilds n t t' e cfg p :
  request_seconds t <> request_seconds t' ->
  (forall n c fp, entries p !! n = Some (c, fp) -> (c_number c < built p)%nat) ->
  let '(c, p1) := get_or_build_for n t e cfg p in
  let '(c', p2) := get_or_build_for n t' e cfg p1 in
  c_number c' <> c_number c /\ entries p2 !! n = Some (c', fingerprint_of_parts n t' e cfg).
Proof.
  intros Ht Hnum. unfold get_or_build_for, lookup_client, insert_client.
  assert (Hfp : fingerprint_of_parts n t e cfg <> fingerprint_of_parts n t' e cfg)
    by (intros [= E _]; done).
  assert (Hb : forall m t f, c_number (build_client_for m t e cfg f) = m).
  { intros m t0 f. unfold build_client_for. by destruct (builds _). }
  destruct (cached n (fingerprint_of_parts n t e cfg) p) as [c|] eqn:E; cbn.
  - unfold cached in *. destruct (entries p !! n) as [[c0 f0]|] eqn:En; [|done].
    case_bool_decide; [|done]. simplify_eq. rewrite bool_decide_eq_false_2 by done. cbn.
    rewrite lookup_insert_eq, Hb. split; [|done]. specialize (Hnum _ _ _ En). lia.
  - unfold cached. cbn. rewrite lookup_insert_eq, bool_decide_eq_false_2 by done. cbn.
    rewrite lookup_insert_eq, !Hb. split; [lia|done].
Qed.

(** The bundle of extra roots is not part of the fingerprint: a pool keeps
    serving a client without a root that the configuration now names. *)
Theorem ca_bundle_not_fingerprinted n t e cfg path p :
  let cfg' := {| pc_tools := pc_tools cfg; pc_egress_proxy := pc_egress_proxy cfg;
                 pc_upstream_ca_bundle := Some path |} in
  let '(c, p1) := get_or_build_for n t e cfg p in
  get_or_build_for n t e cfg' p1 = (c, p1).
Proof.
  cbv zeta. pose proof (lookup_client_cached n t e cfg p) as H.
  unfold get_or_build_for, lookup_client in *.
  match goal with |- context [fingerprint_of_parts n t e ?cfg'] =>
    lazymatch cfg' with cfg => fail | _ =>
    change (fingerprint_of_parts n t e cfg') with (fingerprint_of_parts n t e cfg) end end.
  set (fp := fingerprint_of_parts n t e cfg) in *.
  destruct (cached n fp p) eqn:E; [by rewrite E|].
  unfold insert_client. rewrite E. unfold cached. cbn.
  by rewrite lookup_insert_eq, bool_decide_eq_true_2.
Qed.

(** A tool marked for the egress proxy is reached directly when no usable
    proxy URL is configured or the builder falls back. *)
Theorem proxied_without_proxy_goes_direct m t cfg f :
  (forall p, pc_egress_proxy cfg = Some p -> proxy_ok p = false) ->
  c_proxy (build_client_for m t Proxied cfg f) = None.
Proof.
  intros Hp. unfold build_client_for. destruct (builds _); [|done]. cbn.
  destruct (pc_egress_proxy cfg) as [p|]; [|done]. by rewrite Hp.
Qed.
End Pool.

(** ** PEM blocks *)

Definition begins (l : string) : bool := str_contains "BEGIN CERTIFICATE" l.
Definition ends (l : string) : bool := str_contains "END CERTIFICATE" l.
Definition plain (l : string) : bool := negb (begins l) && negb (ends l).

(** A certificate block between lines that are neither. *)
Record PemBlock := { pb_before : list string; pb_begin : string; pb_body : list string; pb_end : string }.

Definition block_ok (b : PemBlock) : bool :=
  forallb plain (pb_before b) && begins (pb_begin b) && negb (ends (pb_begin b))
  && forallb plain (pb_body b) && ends (pb_end b) && negb (begins (pb_end b)).

Definition block_lines (b : PemBlock) : list string := pb_begin b :: pb_body b ++ [pb_end b].
Definition text_of (ls : list string) : string := foldr (fun l acc => l +:+ nl +:+ acc) "" ls.

Lemma plain_inv l :
  plain l = true ->
  str_contains "BEGIN CERTIFICATE" l = false /\ str_contains "END CERTIFICATE" l = false.
Proof. unfold plain, begins, ends. intros H. by split_ands. Qed.

Lemma split_pem_skip ls rest cur :
  forallb plain ls = true -> split_pem_lines (ls ++ rest) cur false = split_pem_lines rest cur false.
Proof.
  induction ls as [|l ls IH]; [done|]. cbn [forallb app split_pem_lines].
  intros [Hl Hls]%andb_prop. apply plain_inv in Hl as [-> ->]. cbn [orb]. by apply IH.
Qed.

Lemma split_pem_body ls rest cur :
  forallb plain ls = true ->
  split_pem_lines (ls ++ rest) cur true = split_pem_lines rest (cur +:+ text_of ls) true.
Proof.
  revert cur. induction ls as [|l ls IH]; intros cur; cbn [app text_of foldr forallb].
  - by rewrite str_app_nil_r.
  - intros [Hl Hls]%andb_prop. apply plain_inv in Hl as [E1 E2].
    cbn [split_pem_lines]. rewrite E1, E2. cbn [orb]. rewrite IH by done.
    by rewrite <- !str_app_assoc.
Qed.

Lemma text_of_snoc ls l : text_of (ls ++ [l]) = text_of ls +:+ l +:+ nl.
Proof.
  unfold text_of. induction ls as [|x ls IH]; [done|]. cbn [app foldr].
  by rewrite IH, <- !str_app_assoc.
Qed.

(** A bundle splits into exactly its certificate blocks, whatever comments
    stand around them. *)
Theorem split_pem_blocks blocks trailing cur :
  forallb block_ok blocks = true -> forallb plain trailing = true ->
  split_pem_lines (flat_map (fun b => pb_before b ++ block_lines b) blocks ++ trailing) cur false
  = map (fun b => text_of (block_lines b)) blocks.
Proof.
  intros Hb Ht. revert cur. induction blocks as [|b blocks IH]; intros cur.
  - cbn. rewrite <- (app_nil_r trailing). by rewrite split_pem_skip.
  - cbn [forallb] in Hb. apply andb_prop in Hb as [Hok Hb]. specialize (IH Hb).
    unfold block_ok in Hok. rewrite !andb_true_iff, !negb_true_iff in Hok.
    destruct Hok as (((((Hbef & Hbeg) & Hbne) & Hbody) & Hend) & Hene). cbn [flat_map map]. rewrite <- !app_assoc.
    rewrite split_pem_skip by done. unfold block_lines. cbn [app]. rewrite <- app_assoc.
    cbn [split_pem_lines]. unfold begins, ends in *. rewrite Hbeg, Hbne. cbn [orb append].
    rewrite split_pem_body by done. cbn [app split_pem_lines]. rewrite Hene, Hend. cbn [orb].
    rewrite IH. f_equal. cbn [text_of foldr]. rewrite <- !str_app_assoc. f_equal. f_equal.
    by rewrite text_of_snoc.
Qed.

Module PoolWitness.

Definition tool0 : ToolConfig :=
  {| tc_name := "gh"; tc_description := ""; tc_upstream := "https://api.github.com";
     tc_egress := Proxied; tc_credential_handles := [];
     tc_request_allowlist := Some [{| rule_method := "GET"; rule_path := "/zen" |}];
     tc_auth := None; tc_timeouts := default_timeouts; tc_body_limit_bytes := 100;
     tc_response := None |}.

Definition cfg0 : PoolConfig :=
  {| pc_tools := [tool0]; pc_egress_proxy := Some "http://127.0.0.1:8888";
     pc_upstream_ca_bundle := None |}.

Definition no_proxy : PoolConfig :=
  {| pc_tools := [tool0]; pc_egress_proxy := None; pc_upstream_ca_bundle := None |}.

Definition pool0 : ClientPool := {| entries := ∅; built := 0 |}.
Definition yes {A} (_ : A) : bool := true.
Definition no_file (_ : string) : option string := None.

(** The builder fails, and the fallback still does not follow redirects. *)
Definition fails (c : Client) : bool := false.

Lemma pool_returns_conforming_witness :
  let c := (get_or_build_for yes no_file yes fails "gh" default_timeouts Proxied cfg0 pool0).1 in
  conforms yes fails c (fingerprint_of_parts "gh" default_timeouts Proxied cfg0) /\
  c_follow_redirects c = false.
Proof.
  cbv zeta.
  destruct (pool_returns_conforming yes no_file yes fails pool0 _ _
              (ByParts "gh" default_timeouts Proxied cfg0) _ (Empty _ _ _ _)
              (InsertParts yes no_file yes fails "gh" default_timeouts Proxied cfg0 pool0) eq_refl)
    as [H1 H2].
  split; [exact H1|]. apply H2. vm_compute; reflexivity.
Defined.

Lemma changed_fingerprint_rebuilds_witness :
  let t' := {| request_seconds := 5; idle_seconds := 60 |} in
  let '(c, p1) := get_or_build_for yes no_file yes yes "gh" default_timeouts Direct cfg0 pool0 in
  let '(c', p2) := get_or_build_for yes no_file yes yes "gh" t' Direct cfg0 p1 in
  c_number c' <> c_number c /\
  entries p2 !! "gh" = Some (c', fingerprint_of_parts "gh" t' Direct cfg0).
Proof.
  apply (changed_fingerprint_rebuilds yes no_file yes yes "gh" default_timeouts
           {| request_seconds := 5; idle_seconds := 60 |} Direct cfg0 pool0).
  - cbn. lia.
  - intros n c fp. cbn [entries pool0]. by rewrite lookup_empty.
Defined.

Lemma proxied_without_proxy_goes_direct_witness :
  c_proxy (build_client_for yes no_file yes yes 0 default_timeouts Proxied no_proxy false) = None.
Proof. apply proxied_without_proxy_goes_direct. intros p [=]. Defined.

Definition block0 : PemBlock :=
  {| pb_before := ["# root"]; pb_begin := "-----BEGIN CERTIFICATE-----"; pb_body := ["AAAA"; "BBBB"];
     pb_end := "-----END CERTIFICATE-----" |}.

Lemma split_pem_blocks_witness :
  split_pem_lines (flat_map (fun b => pb_before b ++ block_lines b) [block0; block0] ++ ["# end"])
    "" false
  = map (fun b => text_of (block_lines b)) [block0; block0].
Proof. apply split_pem_blocks; vm_compute; reflexivity. Defined.

(** A stray end line repeats the previous block. *)
Example stray_end_repeats :
  List.length (split_pem_certificates (text_of (block_lines block0 ++ [pb_end block0]))) = 2%nat.
Proof. vm_compute. reflexivity. Qed.

End PoolWitness.
