(* ===== verification/Registrations.v ===== *)
(** * Registrations ([src/registrations/])

    Kinds, auth shapes, name validation, the [registrations] table, the
    in-memory catalog, and the admin handlers that keep the two in step.
    The JSON columns hold the value they are the text of; the integer
    columns keep SQLite's [i64].  [now] is the clock in seconds. *)

From S2P Require Import Prelude Json Http Token Argon2Helper AgentRepo.
From S2P Require Import AuditLog Auth Secret ResponseControls Config.

Inductive Kind := Model | Tool | Infra.

#[export] Instance Kind_eq_dec : EqDecision Kind.
Proof. solve_decision. Defined.

Definition url_segment (k : Kind) : string :=
  match k with Model => "models" | Tool => "tools" | Infra => "infra" end.

Definition kind_as_str (k : Kind) : string :=
  match k with Model => "model" | Tool => "tool" | Infra => "infra" end.

(** ** Auth shapes *)

Inductive AuthSpec :=
| SpecNone
| SpecHeader (header env_var : string) (force_replace : bool)
| SpecBearer (env_var : string) (force_replace : bool)
| OauthPkce (client_id redirect_uri : string) (scopes : list string)
    (auth_url token_url : string) (session_label : option string)
| OauthDeviceCode (client_id : string) (scopes : list string)
    (device_url token_url : string) (session_label : option string).

Definition injects_header (a : AuthSpec) : bool :=
  match a with SpecNone => false | _ => true end.

Definition is_oauth (a : AuthSpec) : bool :=
  match a with OauthPkce _ _ _ _ _ _ | OauthDeviceCode _ _ _ _ _ => true | _ => false end.

Definition oauth_session_label (a : AuthSpec) : option string :=
  match a with
  | OauthPkce _ _ _ _ _ l | OauthDeviceCode _ _ _ _ l => l
  | _ => None
  end.

Definition DEFAULT_SESSION_LABEL : string := "default".

Definition session_label_or_default (a : AuthSpec) : option string :=
  if negb (is_oauth a) then None
  else Some (default DEFAULT_SESSION_LABEL (oauth_session_label a)).

Definition to_secret_ref (a : AuthSpec) : option SecretRef :=
  match a with
  | SpecHeader _ env_var _ | SpecBearer env_var _ => Some (FromEnv env_var None)
  | _ => None
  end.

Definition spec_force_replace (a : AuthSpec) : bool :=
  match a with SpecHeader _ _ f | SpecBearer _ f => f | _ => false end.

(** Serde's internally tagged form; [force_replace] is skipped when false and
    [session_label] when absent. *)
Definition auth_spec_json (a : AuthSpec) : Json :=
  let flag (f : bool) := if f then [("force_replace", JBool true)] else [] in
  let lab (l : option string) :=
    match l with Some s => [("session_label", JString s)] | None => [] end in
  let strs l := JArray (map JString l) in
  match a with
  | SpecNone => json_obj [("kind", JString "none")]
  | SpecHeader h v f =>
      json_obj ([("kind", JString "header"); ("header", JString h); ("env_var", JString v)] ++ flag f)
  | SpecBearer v f => json_obj ([("kind", JString "bearer"); ("env_var", JString v)] ++ flag f)
  | OauthPkce c r s au t l =>
      json_obj ([("kind", JString "oauth_pkce"); ("client_id", JString c);
                 ("redirect_uri", JString r); ("scopes", strs s); ("auth_url", JString au);
                 ("token_url", JString t)] ++ lab l)
  | OauthDeviceCode c s d t l =>
      json_obj ([("kind", JString "oauth_device_code"); ("client_id", JString c);
                 ("scopes", strs s); ("device_url", JString d); ("token_url", JString t)] ++ lab l)
  end.

(** ** Errors and names *)

Inductive RegistrationError :=
| NameInUse (existing_kind : Kind)
| ReservedName
| AuthRequired
| ModelAuthRequired
| InvalidName (why : string)
| InvalidMetadata (why : string)
| WrongKind (existing_kind requested_kind : Kind)
| RegBackend (detail : string).

Definition RESERVED_NAMES : list string :=
  ["livez"; "readyz"; "version"; "health"; "skill"; "tools"; "models"; "admin"; "api";
   "metrics"; "audit"].

Definition MAX_NAME_LEN : nat := 64.

Definition name_char (c : ascii) : bool :=
  let n := N_of_ascii c in
  ((97 <=? n) && (n <=? 122) || (48 <=? n) && (n <=? 57))%N || is_char "-" c.

Definition validate_name (name : string) : result RegistrationError unit :=
  if bool_decide (name = "") then Err (InvalidName "name is empty")
  else if (MAX_NAME_LEN <? String.length name)%nat
  then Err (InvalidName "name exceeds 64 characters")
  else if negb (str_forall name_char name)
  then Err (InvalidName "name contains invalid characters (allowed: a-z 0-9 -)")
  else if list_has RESERVED_NAMES name then Err ReservedName
  else Ok tt.

(** ** The table *)

Record Registration := {
  name : string;
  kind : Kind;
  description : string;
  upstream : string;
  auth : AuthSpec;
  egress : EgressMode;
  timeouts : ToolTimeouts;
  body_limit_bytes : Z;
  metadata : Json;
  seed : bool;
  disabled : bool;
  created_at : Z;
  updated_at : Z
}.

Record RegRow := {
  rr_name : string;
  rr_kind : string;
  rr_description : string;
  rr_upstream : string;
  rr_auth : AuthSpec;
  rr_egress : string;
  rr_timeouts : ToolTimeouts;
  rr_body_limit : Z;
  rr_metadata : Json;
  rr_seed : Z;
  rr_disabled : Z;
  rr_created_at : Z;
  rr_updated_at : Z
}.

Record RegistrationRepository := {
  reg_rows : list RegRow;
  seed_version : option string;
  reg_online : bool
}.

Definition egress_as_str (e : EgressMode) : string :=
  match e with Direct => "direct" | Proxied => "proxied" end.

Definition bool_i64 (b : bool) : Z := if b then 1 else 0.

(** The bound columns of [create] and [upsert]. *)
Definition reg_row_of (r : Registration) : RegRow :=
  {| rr_name := name r; rr_kind := kind_as_str (kind r); rr_description := description r;
     rr_upstream := upstream r; rr_auth := auth r; rr_egress := egress_as_str (egress r);
     rr_timeouts := timeouts r; rr_body_limit := as_i64 (body_limit_bytes r);
     rr_metadata := metadata r; rr_seed := bool_i64 (seed r); rr_disabled := bool_i64 (disabled r);
     rr_created_at := created_at r; rr_updated_at := updated_at r |}.

Definition parse_kind (s : string) : option Kind :=
  if bool_decide (s = "model") then Some Model
  else if bool_decide (s = "tool") then Some Tool
  else if bool_decide (s = "infra") then Some Infra
  else None.

Definition parse_egress (s : string) : option EgressMode :=
  if bool_decide (s = "direct") then Some Direct
  else if bool_decide (s = "proxied") then Some Proxied
  else None.

Definition row_to_registration (r : RegRow) : result RegistrationError Registration :=
  let? k := ok_or (RegBackend "unexpected kind in DB") (parse_kind (rr_kind r)) in
  let? e := ok_or (RegBackend "unexpected egress in DB") (parse_egress (rr_egress r)) in
  Ok {| name := rr_name r; kind := k; description := rr_description r; upstream := rr_upstream r;
        auth := rr_auth r; egress := e; timeouts := rr_timeouts r;
        body_limit_bytes := Z.max (rr_body_limit r) 0; metadata := rr_metadata r;
        seed := negb (rr_seed r =? 0); disabled := negb (rr_disabled r =? 0);
        created_at := rr_created_at r; updated_at := rr_updated_at r |}.

Definition set_rows (rows : list RegRow) (db : RegistrationRepository) : RegistrationRepository :=
  {| reg_rows := rows; seed_version := seed_version db; reg_online := reg_online db |}.

Definition sqlx_err : RegistrationError := RegBackend "sqlx".

Definition by_name (n : string) (r : RegRow) : bool := bool_decide (rr_name r = n).

Definition reg_create (r : Registration) (db : RegistrationRepository)
  : result RegistrationError unit * RegistrationRepository :=
  if negb (reg_online db) then (Err sqlx_err, db)
  else if sql_exists (by_name (name r)) (reg_rows db) then (Err sqlx_err, db)
  else (Ok tt, set_rows (reg_rows db ++ [reg_row_of r]) db).

Definition reg_get (n : string) (db : RegistrationRepository)
  : result RegistrationError (option Registration) :=
  if negb (reg_online db) then Err sqlx_err
  else match find_first (by_name n) (reg_rows db) with
       | None => Ok None
       | Some row => let? r := row_to_registration row in Ok (Some r)
       end.

(** [ORDER BY name]. *)
Definition name_le (a b : RegRow) : Prop := String.leb (rr_name a) (rr_name b) = true.
#[export] Instance name_le_dec : RelDecision name_le.
Proof. intros a b. unfold name_le. apply _. Defined.

Definition reg_list (k : option Kind) (db : RegistrationRepository)
  : result RegistrationError (list Registration) :=
  if negb (reg_online db) then Err sqlx_err
  else map_results row_to_registration
         (merge_sort name_le
            (List.filter (fun r => match k with
                                   | Some k => bool_decide (rr_kind r = kind_as_str k)
                                   | None => true
                                   end) (reg_rows db))).

(** The DO UPDATE list: every column but the key, [kind] and [created_at]. *)
Definition excluded_into (new old : RegRow) : RegRow :=
  {| rr_name := rr_name old; rr_kind := rr_kind old; rr_description := rr_description new;
     rr_upstream := rr_upstream new; rr_auth := rr_auth new; rr_egress := rr_egress new;
     rr_timeouts := rr_timeouts new; rr_body_limit := rr_body_limit new;
     rr_metadata := rr_metadata new; rr_seed := rr_seed new; rr_disabled := rr_disabled new;
     rr_created_at := rr_created_at old; rr_updated_at := rr_updated_at new |}.

Definition reg_upsert (r : Registration) (db : RegistrationRepository)
  : result RegistrationError unit * RegistrationRepository :=
  if negb (reg_online db) then (Err sqlx_err, db)
  else if sql_exists (by_name (name r)) (reg_rows db)
  then (Ok tt, set_rows (sql_update (by_name (name r)) (excluded_into (reg_row_of r))
                                    (reg_rows db)) db)
  else (Ok tt, set_rows (reg_rows db ++ [reg_row_of r]) db).

Definition reg_delete (n : string) (db : RegistrationRepository)
  : result RegistrationError bool * RegistrationRepository :=
  if negb (reg_online db) then (Err sqlx_err, db)
  else (Ok (sql_exists (by_name n) (reg_rows db)),
        set_rows (sql_delete (by_name n) (reg_rows db)) db).

Definition with_disabled (d : bool) (now : Z) (r : RegRow) : RegRow :=
  {| rr_name := rr_name r; rr_kind := rr_kind r; rr_description := rr_description r;
     rr_upstream := rr_upstream r; rr_auth := rr_auth r; rr_egress := rr_egress r;
     rr_timeouts := rr_timeouts r; rr_body_limit := rr_body_limit r;
     rr_metadata := rr_metadata r; rr_seed := rr_seed r; rr_disabled := bool_i64 d;
     rr_created_at := rr_created_at r; rr_updated_at := now |}.

Definition set_disabled (n : string) (d : bool) (now : Z) (db : RegistrationRepository)
  : result RegistrationError bool * RegistrationRepository :=
  if negb (reg_online db) then (Err sqlx_err, db)
  else (Ok (sql_exists (by_name n) (reg_rows db)),
        set_rows (sql_update (by_name n) (with_disabled d now) (reg_rows db)) db).

Definition get_seed_version (db : RegistrationRepository)
  : result RegistrationError (option string) :=
  if reg_online db then Ok (seed_version db) else Err sqlx_err.

Definition set_seed_version (v : string) (db : RegistrationRepository)
  : result RegistrationError unit * RegistrationRepository :=
  if reg_online db
  then (Ok tt, {| reg_rows := reg_rows db; seed_version := Some v; reg_online := true |})
  else (Err sqlx_err, db).

(** ** The catalog ([catalog.rs]) *)

Abbreviation Catalog := (gmap string Registration) (only parsing).

Definition from_repo (db : RegistrationRepository) : result RegistrationError Catalog :=
  let? rows := reg_list None db in
  Ok (fold_left (fun m r => <[name r := r]> m) rows ∅).

Definition lookup_active (n : string) (c : Catalog) : option Registration :=
  match c !! n with
  | Some r => if disabled r then None else Some r
  | None => None
  end.

Definition lookup_any (n : string) (c : Catalog) : option Registration := c !! n.

Definition iter_enabled_by_kind (k : Kind) (c : Catalog) : list Registration :=
  List.filter (fun r => bool_decide (kind r = k) && negb (disabled r)) (map snd (map_to_list c)).

(** [resolve_registration_creds_sync_env_only] of [secret/mod.rs]. *)
Definition registration_cred (env : string -> option string) (r : Registration) : option string :=
  match auth r with
  | SpecNone | OauthPkce _ _ _ _ _ _ | OauthDeviceCode _ _ _ _ _ => None
  | SpecHeader _ env_var _ | SpecBearer env_var _ =>
      match env env_var with
      | None => None
      | Some value => if bool_decide (value = "") then None else Some value
      end
  end.

Definition resolve_registration_creds (env : string -> option string) (c : Catalog) : ResolvedCreds :=
  fold_left (fun out k =>
    fold_left (fun out r =>
      match registration_cred env r with
      | Some value => <[name r := value]> out
      | None => out
      end) (iter_enabled_by_kind k c) out) [Tool; Model; Infra] ∅.

(** ** Lemmas on the table *)

Record reg_wf (db : RegistrationRepository) : Prop := {
  rw_names : NoDup (map rr_name (reg_rows db));
  rw_rows : forall r, r ∈ reg_rows db -> is_ok (row_to_registration r) = true
}.

Lemma parse_kind_as_str k : parse_kind (kind_as_str k) = Some k.
Proof. by destruct k. Qed.

Lemma parse_egress_as_str e : parse_egress (egress_as_str e) = Some e.
Proof. by destruct e. Qed.

Lemma bool_i64_negb b : negb (bool_i64 b =? 0) = b.
Proof. by destruct b. Qed.

(** A registration as it comes back from its row: the body limit goes
    through [i64] and is clamped at zero. *)
Definition stored (r : Registration) : Registration :=
  {| name := name r; kind := kind r; description := description r; upstream := upstream r;
     auth := auth r; egress := egress r; timeouts := timeouts r;
     body_limit_bytes := Z.max (as_i64 (body_limit_bytes r)) 0; metadata := metadata r;
     seed := seed r; disabled := disabled r; created_at := created_at r;
     updated_at := updated_at r |}.

Lemma row_roundtrip r : row_to_registration (reg_row_of r) = Ok (stored r).
Proof.
  unfold row_to_registration, reg_row_of. simpl.
  by rewrite parse_kind_as_str, parse_egress_as_str, !bool_i64_negb.
Qed.

Lemma stored_id r : 0 <= body_limit_bytes r < two63 -> stored r = r.
Proof.
  intros Hb. destruct r as [n k d u a e t b m s di c up]; unfold stored; simpl in *. f_equal.
  unfold as_i64, two63, two64 in *. rewrite Z.mod_small; lia.
Qed.

Lemma row_to_registration_name row r : row_to_registration row = Ok r -> name r = rr_name row.
Proof.
  unfold row_to_registration. intros H. destruct (parse_kind _); [|done].
  destruct (parse_egress _); by simplify_eq/=.
Qed.

Lemma row_to_registration_kind row r :
  row_to_registration row = Ok r -> rr_kind row = kind_as_str (kind r).
Proof.
  unfold row_to_registration, parse_kind. intros H.
  repeat case_bool_decide; simplify_eq/=; destruct (parse_egress _); by simplify_eq/=.
Qed.

Lemma map_results_total {A B E} (f : A -> result E B) l :
  (forall x, x ∈ l -> is_ok (f x) = true) -> exists ys, map_results f l = Ok ys.
Proof.
  induction l as [|x l IH]; intros Hl; simpl; [by eexists|].
  pose proof (Hl x ltac:(left)) as Hx. destruct (f x); [|done].
  destruct IH as [ys ->]; [intros y Hy; apply Hl; by right|]. by eexists.
Qed.

Lemma Forall2_elem {A B} (R : A -> B -> Prop) l k :
  Forall2 R l k ->
  (forall x, x ∈ l -> exists y, y ∈ k /\ R x y) /\ (forall y, y ∈ k -> exists x, x ∈ l /\ R x y).
Proof.
  induction 1 as [|x y l k HR Hlk [IH1 IH2]]; [split; intros z Hz; by apply not_elem_of_nil in Hz|]. split.
  - intros z [->|Hz]%elem_of_cons; [exists y; split; [left|done]|].
    destruct (IH1 z Hz) as (w & ? & ?). exists w. split; [by right|done].
  - intros z [->|Hz]%elem_of_cons; [exists x; split; [left|done]|].
    destruct (IH2 z Hz) as (w & ? & ?). exists w. split; [by right|done].
Qed.

Lemma fold_insert_lookup (rs : list Registration) (m : Catalog) n :
  NoDup (map name rs) ->
  fold_left (fun m r => <[name r := r]> m) rs m !! n =
  match find_first (fun r => bool_decide (name r = n)) rs with
  | Some r => Some r | None => m !! n
  end.
Proof.
  revert m. induction rs as [|r rs IH]; intros m Hn; [done|]. simpl in *.
  apply NoDup_cons in Hn as [Hr Hn]. rewrite IH by done.
  case_bool_decide as E; [|destruct (find_first _ rs); [done|by rewrite lookup_insert_ne]].
  destruct (find_first _ rs) as [r'|] eqn:F; [|subst; by rewrite lookup_insert_eq].
  apply find_first_Some in F as [F1 F2]. split_ands. exfalso. apply Hr.
  rewrite E, <- F2. apply list_elem_of_In, in_map. by apply list_elem_of_In.
Qed.

Lemma find_first_unique {A K} `{EqDecision K} (key : A -> K) rows k :
  NoDup (map key rows) ->
  forall r, find_first (fun x => bool_decide (key x = k)) rows = Some r <-> r ∈ rows /\ key r = k.
Proof.
  intros Hn r. split.
  - intros [H1 H2]%find_first_Some. by split_ands.
  - intros [Hr <-]. by apply find_first_key.
Qed.

(** The rows a full listing returns: the table's, in another order. *)
Lemma reg_list_rows db rs :
  reg_wf db -> reg_list None db = Ok rs ->
  NoDup (map name rs) /\
  (forall r, r ∈ rs <-> exists row, row ∈ reg_rows db /\ row_to_registration row = Ok r).
Proof.
  intros [Hn _]. unfold reg_list. destruct (reg_online db); [|done]. simpl.
  assert (Hp : Permutation (merge_sort name_le (List.filter (fun _ => true) (reg_rows db))) (reg_rows db)).
  { rewrite merge_sort_Permutation. induction (reg_rows db); simpl; [done|].
    constructor. apply IHl. by apply NoDup_cons in Hn as [_ Hn]. }
  intros H%map_results_Forall2. split.
  - assert (E : map name rs = map rr_name (merge_sort name_le (List.filter (fun _ => true) (reg_rows db)))).
    { clear -H. induction H as [|row r l k Hr Hk IH]; [done|]. simpl.
      rewrite IH. f_equal. by apply row_to_registration_name. }
    rewrite E. by rewrite Hp.
  - intros r. destruct (Forall2_elem _ _ _ H) as [H1 H2]. split.
    + intros (row & Hrow & E)%H2. exists row. by rewrite <- Hp.
    + intros (row & Hrow & E). rewrite <- Hp in Hrow. destruct (H1 row Hrow) as (r' & Hr' & E').
      congruence.
Qed.

(** A catalog built from the table answers every lookup as the table does. *)
Lemma from_repo_lookup db cat n :
  reg_wf db -> from_repo db = Ok cat -> reg_get n db = Ok (cat !! n).
Proof.
  intros W. unfold from_repo. destruct (reg_list None db) as [rs|] eqn:E; [|done].
  intros [= <-]. destruct (reg_list_rows _ _ W E) as [Hn Hr].
  assert (Hon : reg_online db = true) by (unfold reg_list in E; by destruct (reg_online db)).
  rewrite fold_insert_lookup by done. unfold reg_get. rewrite Hon, lookup_empty. simpl.
  destruct (find_first (by_name n) (reg_rows db)) as [row|] eqn:F.
  - apply find_first_Some in F as [F1 F2]. unfold by_name in F2. split_ands.
    pose proof (rw_rows _ W row F1) as Hok. destruct (row_to_registration row) as [r|] eqn:Er; [|done].
    rewrite (proj2 (find_first_unique name rs n Hn r)); [done|]. split.
    + apply Hr. by exists row.
    + apply row_to_registration_name in Er. congruence.
  - destruct (find_first _ rs) as [r|] eqn:F'; [|done]. exfalso.
    apply find_first_Some in F' as [G1 G2]. split_ands. apply Hr in G1 as (row & Hrow & Er).
    rewrite find_first_None in F. specialize (F row Hrow). unfold by_name in F.
    apply bool_decide_eq_false in F. apply row_to_registration_name in Er. congruence.
Qed.

Lemma from_repo_total db :
  reg_wf db -> reg_online db = true -> exists cat, from_repo db = Ok cat.
Proof.
  intros W Hon. unfold from_repo, reg_list. rewrite Hon. simpl.
  destruct (map_results_total row_to_registration
    (merge_sort name_le (List.filter (fun _ => true) (reg_rows db)))) as [rs ->]; [|by eexists].
  intros x Hx. rewrite merge_sort_Permutation in Hx. apply (rw_rows _ W).
  apply list_elem_of_In in Hx. apply filter_In in Hx as [Hx _]. by apply list_elem_of_In.
Qed.

(** ** Discovery and the admin handlers ([api.rs]) *)

Definition public_json (r : Registration) : Json :=
  json_obj [("name", JString (name r)); ("type", JString "api");
            ("path", JString ("/api/" +:+ name r)); ("description", JString (description r))].

(** [id.allows_tool(name).is_ok()], or no identity. *)
Definition visible_to (identity : option AgentIdentity) (r : Registration) : bool :=
  negb (disabled r) &&
  match identity with None => true | Some id => is_ok (allows_tool id (name r)) end.

Definition list_public (db : RegistrationRepository) (k : Kind) (identity : option AgentIdentity)
  : result RegistrationError (list Json) :=
  let? rows := reg_list (Some k) db in
  Ok (map public_json (List.filter (visible_to identity) rows)).

Definition timeouts_json (t : ToolTimeouts) : Json :=
  json_obj [("request_seconds", JInt (request_seconds t)); ("idle_seconds", JInt (idle_seconds t))].

Definition registration_to_admin_json (r : Registration) : Json :=
  json_obj [("name", JString (name r)); ("kind", JString (kind_as_str (kind r)));
            ("description", JString (description r)); ("upstream", JString (upstream r));
            ("auth", auth_spec_json (auth r)); ("egress", JString (egress_as_str (egress r)));
            ("timeouts", timeouts_json (timeouts r));
            ("body_limit_bytes", JInt (body_limit_bytes r)); ("metadata", metadata r);
            ("seed", JBool (seed r)); ("disabled", JBool (disabled r));
            ("created_at", JInt (created_at r)); ("updated_at", JInt (updated_at r))].

Definition registration_status_code (e : RegistrationError) : Z * string * string :=
  match e with
  | NameInUse _ => (409, "conflict", "name_in_use")
  | WrongKind _ _ => (409, "conflict", "wrong_kind")
  | ReservedName => (400, "bad_request", "reserved_name")
  | InvalidName _ => (400, "bad_request", "invalid_name")
  | AuthRequired => (400, "bad_request", "auth_required")
  | ModelAuthRequired => (400, "bad_request", "model_auth_required")
  | InvalidMetadata _ => (400, "bad_request", "invalid_metadata")
  | RegBackend _ => (500, "auth_error", "internal_error")
  end.

(** The [Display] texts of [registrations/mod.rs]. *)
Definition registration_message (e : RegistrationError) : string :=
  match e with
  | NameInUse k => "name in use (existing kind: " +:+ kind_as_str k +:+ ")"
  | ReservedName => "name is reserved"
  | AuthRequired => "kind=tool requires explicit `auth:` (use `auth: none` for authless)"
  | ModelAuthRequired => "kind=model requires non-none auth"
  | InvalidName w => "invalid name: " +:+ w
  | InvalidMetadata w => "invalid metadata: " +:+ w
  | WrongKind e r =>
      "wrong kind (registered as " +:+ kind_as_str e +:+ ", requested " +:+ kind_as_str r +:+ ")"
  | RegBackend _ => "internal error"
  end.

Definition registration_error_response (e : RegistrationError) : Response :=
  let '(code, type_, c) := registration_status_code e in
  json_response code
    (error_envelope [("message", JString (registration_message e)); ("type", JString type_);
                     ("code", JString c)]).

Definition unknown_name_response (n : string) : Response :=
  json_response 404
    (error_envelope [("message", JString ("registration not found: " +:+ n));
                     ("type", JString "not_found"); ("code", JString "unknown_name")]).

Record PutBody := {
  pb_description : string;
  pb_upstream : string;
  pb_auth : option AuthSpec;
  pb_egress : option EgressMode;
  pb_timeouts : option ToolTimeouts;
  pb_body_limit_bytes : option Z;
  pb_metadata : option Json
}.

(** [AdminRegistrationsState]: the repository and the two shared snapshots
    ([ArcSwap]s) of the proxy, each possibly not wired. *)
Record AdminRegistrationsState := {
  repo : RegistrationRepository;
  catalog : option Catalog;
  resolved_creds : option ResolvedCreds
}.

Section Api.
Context (env : string -> option string).

(** [merged.insert(k, v)] for every resolved entry: the new ones win. *)
Definition overwrite (extra snap : ResolvedCreds) : ResolvedCreds := extra ∪ snap.

Definition refresh_runtime (st : AdminRegistrationsState) : AdminRegistrationsState :=
  match catalog st with
  | None => st
  | Some _ =>
      match from_repo (repo st) with
      | Err _ => st
      | Ok new_catalog =>
          {| repo := repo st; catalog := Some new_catalog;
             resolved_creds :=
               (fun snap => overwrite (resolve_registration_creds env new_catalog) snap)
                 <$> resolved_creds st |}
      end
  end.

Definition with_repo (db : RegistrationRepository) (st : AdminRegistrationsState)
  : AdminRegistrationsState :=
  {| repo := db; catalog := catalog st; resolved_creds := resolved_creds st |}.

Definition op_list (k : Kind) (st : AdminRegistrationsState) : Response :=
  match reg_list (Some k) (repo st) with
  | Ok rows =>
      json_response 200
        (json_obj [(kind_as_str k +:+ "s", JArray (map registration_to_admin_json rows))])
  | Err e => registration_error_response e
  end.

Definition op_get (k : Kind) (n : string) (st : AdminRegistrationsState) : Response :=
  match reg_get n (repo st) with
  | Ok (Some r) =>
      if negb (bool_decide (kind r = k))
      then registration_error_response (WrongKind (kind r) k)
      else json_response 200 (registration_to_admin_json r)
  | Ok None => unknown_name_response n
  | Err e => registration_error_response e
  end.

Definition put_auth (k : Kind) (a : option AuthSpec) : option AuthSpec :=
  match k, a with
  | Tool, None | Model, None => None
  | Infra, None => Some SpecNone
  | _, Some a => Some a
  end.

(** The row a PUT writes, given what it preserves of an existing one. *)
Definition put_registration (k : Kind) (n : string) (body : PutBody) (a : AuthSpec)
    (created : Z) (dis : bool) (now : Z) : Registration :=
  {| name := n; kind := k; description := pb_description body; upstream := pb_upstream body;
     auth := a; egress := default default_egress (pb_egress body);
     timeouts := default default_timeouts (pb_timeouts body);
     body_limit_bytes := default default_body_limit (pb_body_limit_bytes body);
     metadata := default (JObject []) (pb_metadata body); seed := false; disabled := dis;
     created_at := created; updated_at := now |}.

Definition op_put (k : Kind) (n : string) (body : PutBody) (now : Z)
    (st : AdminRegistrationsState) : Response * AdminRegistrationsState :=
  match validate_name n with
  | Err e => (registration_error_response e, st)
  | Ok _ =>
      match put_auth k (pb_auth body) with
      | None => (registration_error_response AuthRequired, st)
      | Some a =>
          let write created dis :=
            let r := put_registration k n body a created dis now in
            match reg_upsert r (repo st) with
            | (Err e, _) => (registration_error_response e, st)
            | (Ok _, db) =>
                (json_response 200 (registration_to_admin_json r), refresh_runtime (with_repo db st))
            end in
          match reg_get n (repo st) with
          | Ok (Some existing) =>
              if negb (bool_decide (kind existing = k))
              then (registration_error_response (WrongKind (kind existing) k), st)
              else write (created_at existing) (disabled existing)
          | Ok None => write now false
          | Err e => (registration_error_response e, st)
          end
      end
  end.

Definition op_delete (k : Kind) (n : string) (now : Z) (st : AdminRegistrationsState)
  : Response * AdminRegistrationsState :=
  match reg_get n (repo st) with
  | Ok (Some r) =>
      if negb (bool_decide (kind r = k))
      then (registration_error_response (WrongKind (kind r) k), st)
      else
        match (if seed r then set_disabled n true now (repo st) else reg_delete n (repo st)) with
        | (Ok _, db) => (status_response 204, refresh_runtime (with_repo db st))
        | (Err e, _) => (registration_error_response e, st)
        end
  | Ok None => (unknown_name_response n, st)
  | Err e => (registration_error_response e, st)
  end.

Definition op_enable (k : Kind) (n : string) (now : Z) (st : AdminRegistrationsState)
  : Response * AdminRegistrationsState :=
  match reg_get n (repo st) with
  | Ok (Some r) =>
      if negb (bool_decide (kind r = k))
      then (registration_error_response (WrongKind (kind r) k), st)
      else
        match set_disabled n false now (repo st) with
        | (Ok _, db) => (status_response 204, refresh_runtime (with_repo db st))
        | (Err e, _) => (registration_error_response e, st)
        end
  | Ok None => (unknown_name_response n, st)
  | Err e => (registration_error_response e, st)
  end.

(** Every admin write, as a label. *)
Inductive RegOp :=
| Put (k : Kind) (n : string) (body : PutBody) (now : Z)
| Delete (k : Kind) (n : string) (now : Z)
| Enable (k : Kind) (n : string) (now : Z).

Definition reg_exec (o : RegOp) (st : AdminRegistrationsState) : AdminRegistrationsState :=
  match o with
  | Put k n b now => snd (op_put k n b now st)
  | Delete k n now => snd (op_delete k n now st)
  | Enable k n now => snd (op_enable k n now st)
  end.

Definition reg_run (ops : list RegOp) (st : AdminRegistrationsState) : AdminRegistrationsState :=
  fold_left (fun s o => reg_exec o s) ops st.
End Api.

(** ** The table as a map: what each write does to it *)

(** The abstract state: the registration stored under a name. *)
Definition entry (n : string) (db : RegistrationRepository) : option Registration :=
  match find_first (by_name n) (reg_rows db) with
  | Some row => match row_to_registration row with Ok r => Some r | Err _ => None end
  | None => None
  end.

Definition reg_with_disabled (d : bool) (now : Z) (r : Registration) : Registration :=
  {| name := name r; kind := kind r; description := description r; upstream := upstream r;
     auth := auth r; egress := egress r; timeouts := timeouts r;
     body_limit_bytes := body_limit_bytes r; metadata := metadata r; seed := seed r;
     disabled := d; created_at := created_at r; updated_at := now |}.

Lemma reg_get_entry n db : reg_wf db -> reg_online db = true -> reg_get n db = Ok (entry n db).
Proof.
  intros W Hon. unfold reg_get, entry. rewrite Hon. simpl.
  destruct (find_first _ _) as [row|] eqn:F; [|done].
  apply find_first_Some in F as [F _]. pose proof (rw_rows _ W row F) as Hok.
  by destruct (row_to_registration row).
Qed.

Lemma entry_name n db r : entry n db = Some r -> name r = n.
Proof.
  unfold entry. destruct (find_first _ _) as [row|] eqn:F; [|done].
  apply find_first_Some in F as [_ F]. unfold by_name in F. split_ands.
  destruct (row_to_registration row) eqn:E; [|done]. intros [= <-].
  apply row_to_registration_name in E. congruence.
Qed.

Lemma find_first_sql_delete n m rows :
  find_first (by_name m) (sql_delete (by_name n) rows) =
  if bool_decide (m = n) then None else find_first (by_name m) rows.
Proof.
  unfold sql_delete, by_name. induction rows as [|r rows IH]; simpl.
  { by case_bool_decide. }
  destruct (bool_decide (rr_name r = n)) eqn:E1; simpl; split_ands; subst.
  - rewrite IH. case_bool_decide; [done|]. by rewrite bool_decide_eq_false_2.
  - destruct (bool_decide (rr_name r = m)) eqn:E2; [|done]. split_ands. subst.
    by rewrite bool_decide_eq_false_2.
Qed.

Lemma by_name_excluded m new old : by_name m (excluded_into new old) = by_name m old.
Proof. done. Qed.

Lemma row_excluded r old r0 :
  row_to_registration old = Ok r0 -> kind r0 = kind r -> created_at r0 = created_at r ->
  name r0 = name r -> row_to_registration (excluded_into (reg_row_of r) old) = Ok (stored r).
Proof.
  intros E Hk Hc Hn. pose proof (row_to_registration_kind _ _ E) as Ek.
  pose proof (row_to_registration_name _ _ E) as En.
  assert (Ec : created_at r0 = rr_created_at old).
  { unfold row_to_registration in E. destruct (parse_kind _); [|done].
    destruct (parse_egress _); by simplify_eq/=. }
  unfold row_to_registration, excluded_into. simpl.
  rewrite Ek, parse_kind_as_str, parse_egress_as_str, !bool_i64_negb. simpl.
  unfold stored. congruence.
Qed.

(** A write that agrees with the row it replaces on the two columns an upsert
    keeps acts on the table as a map insertion. *)
Lemma upsert_entry r db m :
  reg_wf db -> reg_online db = true ->
  (forall r0, entry (name r) db = Some r0 -> kind r0 = kind r /\ created_at r0 = created_at r) ->
  entry m (snd (reg_upsert r db)) =
  if bool_decide (m = name r) then Some (stored r) else entry m db.
Proof.
  intros W Hon Hold. unfold reg_upsert. rewrite Hon. simpl.
  destruct (sql_exists (by_name (name r)) (reg_rows db)) eqn:E; simpl; unfold entry in *; simpl.
  - rewrite find_first_sql_update by done.
    destruct (find_first (by_name m) (reg_rows db)) as [row|] eqn:F; simpl.
    + pose proof (find_first_Some _ _ _ F) as [F1 F2]. unfold by_name in F2. split_ands. subst.
      unfold by_name at 1. case_bool_decide as Hm; [|done].
      rewrite <- Hm in Hold. rewrite F in Hold.
      pose proof (rw_rows _ W row F1) as Hok. destruct (row_to_registration row) as [r0|] eqn:Er; [|done].
      destruct (Hold r0 eq_refl) as [Hk Hc].
      by rewrite (row_excluded r row r0 Er Hk Hc) by (by rewrite (row_to_registration_name _ _ Er)).
    + case_bool_decide; [|done]. subst. rewrite find_first_None in F.
      unfold sql_exists in E. apply existsb_exists in E as (x & Hx%list_elem_of_In & Ex).
      by rewrite F in Ex.
  - rewrite find_first_app. simpl. unfold by_name at 2. simpl. case_bool_decide as Hm.
    + subst. rewrite bool_decide_eq_true_2 by done. rewrite sql_exists_false in E.
      rewrite (proj2 (find_first_None _ _) E). by rewrite row_roundtrip.
    + rewrite bool_decide_eq_false_2 by done. destruct (find_first (by_name m) (reg_rows db)); done.
Qed.

Lemma delete_entry n db m :
  reg_online db = true ->
  entry m (snd (reg_delete n db)) = if bool_decide (m = n) then None else entry m db.
Proof.
  intros Hon. unfold reg_delete, entry. rewrite Hon. simpl. rewrite find_first_sql_delete.
  by case_bool_decide.
Qed.

Lemma row_with_disabled d now row r :
  row_to_registration row = Ok r ->
  row_to_registration (with_disabled d now row) = Ok (reg_with_disabled d now r).
Proof.
  unfold row_to_registration, with_disabled, reg_with_disabled. simpl.
  destruct (parse_kind _); [|done]. destruct (parse_egress _); [|done].
  intros [= <-]. simpl. by rewrite bool_i64_negb.
Qed.

Lemma set_disabled_entry n d now db m :
  reg_wf db -> reg_online db = true ->
  entry m (snd (set_disabled n d now db)) =
  if bool_decide (m = n) then reg_with_disabled d now <$> entry m db else entry m db.
Proof.
  intros W Hon. unfold set_disabled, entry. rewrite Hon. simpl.
  rewrite find_first_sql_update by done.
  destruct (find_first (by_name m) (reg_rows db)) as [row|] eqn:F; simpl; [|by case_bool_decide].
  apply find_first_Some in F as [F1 F2]. unfold by_name in F2. split_ands. subst. unfold by_name.
  case_bool_decide; [|done]. pose proof (rw_rows _ W row F1) as Hok.
  destruct (row_to_registration row) as [r|] eqn:Er; [|done]. by rewrite (row_with_disabled _ _ _ r).
Qed.

(** *** The invariant *)

Lemma reg_wf_update p f db :
  (forall r, rr_name (f r) = rr_name r) ->
  (forall r, is_ok (row_to_registration r) = true -> is_ok (row_to_registration (f r)) = true) ->
  reg_wf db -> reg_wf (set_rows (sql_update p f (reg_rows db)) db).
Proof.
  intros Hn Hok [W1 W2]. split; simpl; [by rewrite sql_update_key|].
  intros r (r0 & Hr0 & ->)%elem_of_sql_update. destruct (p r0); auto.
Qed.

Lemma reg_wf_insert r db :
  sql_exists (by_name (name r)) (reg_rows db) = false -> reg_wf db ->
  reg_wf (set_rows (reg_rows db ++ [reg_row_of r]) db).
Proof.
  intros E [W1 W2]. rewrite sql_exists_false in E. split; simpl.
  - apply NoDup_map_snoc; [done|]. intros y Hy. specialize (E y Hy). unfold by_name in E.
    by apply bool_decide_eq_false in E.
  - intros x [Hx| ->%list_elem_of_singleton]%elem_of_app; [auto|]. by rewrite row_roundtrip.
Qed.

Lemma reg_upsert_wf r db : reg_wf db -> reg_wf (snd (reg_upsert r db)).
Proof.
  intros W. unfold reg_upsert. destruct (reg_online db); [|done]. simpl.
  destruct (sql_exists _ _) eqn:E; [|by apply reg_wf_insert].
  apply reg_wf_update; [done| |done]. intros row. unfold row_to_registration, excluded_into. simpl.
  rewrite parse_egress_as_str. by destruct (parse_kind _).
Qed.

Lemma reg_create_wf r db : reg_wf db -> reg_wf (snd (reg_create r db)).
Proof.
  intros W. unfold reg_create. destruct (reg_online db); [|done]. simpl.
  destruct (sql_exists _ _) eqn:E; [done|]. by apply reg_wf_insert.
Qed.

Lemma reg_delete_wf n db : reg_wf db -> reg_wf (snd (reg_delete n db)).
Proof.
  intros [W1 W2]. unfold reg_delete. destruct (reg_online db); [|done]. simpl. split; simpl.
  - unfold sql_delete. clear W2. induction (reg_rows db) as [|x l IH]; simpl; [done|].
    simpl in W1. apply NoDup_cons in W1 as [Hx W1]. destruct (by_name n x); simpl; [auto|].
    apply NoDup_cons. split; [|auto]. intros Hin. apply Hx.
    apply list_elem_of_In, in_map_iff in Hin as (y & Ey & Hy).
    apply filter_In in Hy as [Hy _]. rewrite <- Ey. by apply list_elem_of_In, in_map.
  - intros r Hr. apply W2. unfold sql_delete in Hr. apply list_elem_of_In in Hr.
    apply filter_In in Hr as [Hr _]. by apply list_elem_of_In.
Qed.

Lemma set_disabled_wf n d now db : reg_wf db -> reg_wf (snd (set_disabled n d now db)).
Proof.
  intros W. unfold set_disabled. destruct (reg_online db); [|done]. simpl.
  apply reg_wf_update; [done| |done]. intros row. unfold row_to_registration, with_disabled. simpl.
  by destruct (parse_kind _), (parse_egress _).
Qed.

#[export] Hint Resolve reg_upsert_wf reg_create_wf reg_delete_wf set_disabled_wf : locksmith.

Lemma reg_online_writes db :
  (forall r, reg_online (snd (reg_upsert r db)) = reg_online db) /\
  (forall r, reg_online (snd (reg_create r db)) = reg_online db) /\
  (forall n, reg_online (snd (reg_delete n db)) = reg_online db) /\
  (forall n d now, reg_online (snd (set_disabled n d now db)) = reg_online db).
Proof.
  unfold reg_upsert, reg_create, reg_delete, set_disabled.
  repeat split; intros; repeat case_match; done.
Qed.

(** ** The handlers *)

Section Handlers.
Context (env : string -> option string).

(** The proxy's catalog answers as the table does. *)
Definition coherent (st : AdminRegistrationsState) : Prop :=
  reg_wf (repo st) /\ reg_online (repo st) = true /\
  (forall c, catalog st = Some c -> forall n, c !! n = entry n (repo st)).

Lemma refresh_runtime_repo st : repo (refresh_runtime env st) = repo st.
Proof. unfold refresh_runtime. by repeat case_match. Qed.

Lemma refresh_coherent st :
  reg_wf (repo st) -> reg_online (repo st) = true -> coherent (refresh_runtime env st).
Proof.
  intros W Hon. unfold coherent. rewrite !refresh_runtime_repo. split; [done|]. split; [done|].
  unfold refresh_runtime. destruct (catalog st) as [c0|] eqn:Ec; [|congruence].
  destruct (from_repo_total _ W Hon) as [cat E]. rewrite E. simpl. intros c [= <-] n.
  pose proof (from_repo_lookup _ _ n W E) as G. rewrite reg_get_entry in G by done. congruence.
Qed.

(** A PUT either changes nothing and answers with an error, or writes one
    row that keeps what an existing row of the same kind fixes. *)
Lemma op_put_cases k n body now st :
  coherent st ->
  (op_put env k n body now st = (fst (op_put env k n body now st), st) /\
   resp_status (fst (op_put env k n body now st)) <> 200 /\
   (is_ok (validate_name n) = false \/ put_auth k (pb_auth body) = None \/
    exists e, entry n (repo st) = Some e /\ kind e <> k)) \/
  (exists a created dis,
     validate_name n = Ok tt /\ put_auth k (pb_auth body) = Some a /\
     match entry n (repo st) with
     | Some e => kind e = k /\ created = created_at e /\ dis = disabled e
     | None => created = now /\ dis = false
     end /\
     let r := put_registration k n body a created dis now in
     op_put env k n body now st =
       (json_response 200 (registration_to_admin_json r),
        refresh_runtime env (with_repo (snd (reg_upsert r (repo st))) st))).
Proof.
  intros (W & Hon & Hc). unfold op_put.
  destruct (validate_name n) as [[]|e] eqn:Ev; [|left; split; [done|]; split; [by destruct e|by left]].
  destruct (put_auth k (pb_auth body)) as [a|] eqn:Ea;
    [|left; split; [done|]; split; [done|by right; left]].
  rewrite reg_get_entry by done.
  assert (Hup : forall r, exists db, reg_upsert r (repo st) = (Ok tt, db)).
  { intros r. unfold reg_upsert. rewrite Hon. simpl. case_match; by eexists. }
  destruct (entry n (repo st)) as [e|].
  - case_bool_decide as Hk; simpl.
    + right. exists a, (created_at e), (disabled e). repeat (split; [done|]).
      destruct (Hup (put_registration k n body a (created_at e) (disabled e) now)) as [db ->]. done.
    + left. split; [done|]. split; [done|]. right. right. by exists e.
  - right. exists a, now, false. repeat (split; [done|]).
    destruct (Hup (put_registration k n body a now false now)) as [db ->]. done.
Qed.

(** PUT on every branch: with the table reachable it answers 200 exactly
    when the name is valid, the auth shape is stated (or the kind is infra)
    and an existing registration of that name has the same kind; it then
    stores the submitted registration under the name, operator-owned, keeping
    the [disabled] flag and creation time of the row it replaces, and leaves
    every other name alone; otherwise nothing changes. *)
Theorem op_put_spec k n body now st :
  coherent st ->
  let '(resp, st') := op_put env k n body now st in
  (resp_status resp = 200 <->
     validate_name n = Ok tt /\ put_auth k (pb_auth body) <> None /\
     (forall e, entry n (repo st) = Some e -> kind e = k)) /\
  (resp_status resp <> 200 -> st' = st) /\
  (resp_status resp = 200 ->
     exists r a, resp = json_response 200 (registration_to_admin_json r) /\
       put_auth k (pb_auth body) = Some a /\
       r = put_registration k n body a
             (match entry n (repo st) with Some e => created_at e | None => now end)
             (match entry n (repo st) with Some e => disabled e | None => false end) now /\
       forall m, entry m (repo st') =
         if bool_decide (m = n) then Some (stored r) else entry m (repo st)).
Proof.
  intros Hco. destruct (op_put_cases k n body now st Hco)
    as [(E & Hs & Hwhy)|(a & created & dis & Hv & Ha & Hold & E)]; rewrite E; simpl in *.
  - split; [|done]. split; [done|]. intros (Hv & Ha & Hk). rewrite Hv in Hwhy.
    destruct Hwhy as [?|[?|(e & He & Hne)]]; [done|done|]. by apply Hk in He.
  - split; [|split; [done|]].
    { split; [|done]. intros _. split; [done|]. split; [congruence|]. intros e He.
      rewrite He in Hold. by destruct Hold. }
    intros _. exists (put_registration k n body a created dis now), a. split; [done|]. split; [done|].
    destruct Hco as (W & Hon & _). split.
    + destruct (entry n (repo st)) as [e|]; [by destruct Hold as (_ & -> & ->)|by destruct Hold as [-> ->]].
    + intros m. rewrite refresh_runtime_repo. simpl. rewrite upsert_entry; [done|done|done|].
      simpl. intros r0 E0. rewrite E0 in Hold. destruct Hold as (-> & -> & _). done.
Qed.

(** A stored registration is read back as submitted when its body limit
    is below 2^63: a GET after an accepted PUT answers with the same body as
    the PUT did. *)
Theorem put_get_roundtrip k n body now st :
  coherent st -> resp_status (fst (op_put env k n body now st)) = 200 ->
  0 <= default default_body_limit (pb_body_limit_bytes body) < two63 ->
  op_get k n (snd (op_put env k n body now st)) = fst (op_put env k n body now st).
Proof.
  intros Hco H200 Hlim. destruct (op_put_cases k n body now st Hco)
    as [(E & Hs & Hwhy)|(a & created & dis & Hv & Ha & Hold & E)]; [done|]. rewrite E. simpl.
  destruct Hco as (W & Hon & _). unfold op_get. rewrite refresh_runtime_repo. simpl.
  set (r := put_registration k n body a created dis now) in *.
  destruct (reg_online_writes (repo st)) as (Hu & _).
  rewrite reg_get_entry by (rewrite ?Hu; auto with locksmith).
  rewrite upsert_entry; [|done|done|].
  - rewrite bool_decide_eq_true_2 by done. rewrite stored_id by done. simpl.
    by rewrite bool_decide_eq_true_2.
  - simpl. intros r0 E0. rewrite E0 in Hold. destruct Hold as (-> & -> & _). done.
Qed.

(** A body limit of 2^63 or more is not stored: the PUT is accepted and
    answered with the submitted limit, but the row reads back with limit
    zero. *)
Theorem put_huge_limit_reads_zero k n body now st lim :
  coherent st -> resp_status (fst (op_put env k n body now st)) = 200 ->
  pb_body_limit_bytes body = Some lim -> two63 <= lim < two64 ->
  exists r, fst (op_put env k n body now st) = json_response 200 (registration_to_admin_json r) /\
    body_limit_bytes r = lim /\
    body_limit_bytes <$> entry n (repo (snd (op_put env k n body now st))) = Some 0.
Proof.
  intros Hco H200 Hb Hlim. destruct (op_put_cases k n body now st Hco)
    as [(E & Hs & Hwhy)|(a & created & dis & Hv & Ha & Hold & E)]; [done|]. rewrite E. simpl.
  eexists. split; [done|]. simpl. rewrite Hb. split; [done|].
  destruct Hco as (W & Hon & _). rewrite refresh_runtime_repo. simpl.
  rewrite upsert_entry; [|done|done|].
  - rewrite bool_decide_eq_true_2 by done. simpl. rewrite Hb. simpl. f_equal.
    unfold as_i64, two63, two64 in *.
    replace ((lim + 9223372036854775808) mod 18446744073709551616)
      with (lim - 9223372036854775808); [lia|].
    apply Z.mod_unique with 1; lia.
  - simpl. intros r0 E0. rewrite E0 in Hold. destruct Hold as (-> & -> & _). done.
Qed.
End Handlers.

(** ** Histories of admin writes *)

Section Histories.
Context (env : string -> option string).

(** What a write does to the table, seen as a map. *)
Definition effect (o : RegOp) (before : string -> option Registration) (m : string)
    (after : option Registration) : Prop :=
  match o with
  | Put k n _ _ =>
      if bool_decide (m = n) then
        exists r, after = Some r /\ kind r = k /\ seed r = false /\
          (forall e, before n = Some e ->
             kind e = k /\ created_at r = created_at e /\ disabled r = disabled e)
      else after = before m
  | Delete k n now =>
      exists r, before n = Some r /\ kind r = k /\
        after = if bool_decide (m = n)
                then (if seed r then Some (reg_with_disabled true now r) else None)
                else before m
  | Enable k n now =>
      exists r, before n = Some r /\ kind r = k /\
        after = if bool_decide (m = n) then Some (reg_with_disabled false now r) else before m
  end.

(** A write is a no-op or acts by its effect and refreshes the caches. *)
Lemma reg_exec_cases o st :
  coherent st ->
  reg_exec env o st = st \/
  exists db, reg_exec env o st = refresh_runtime env (with_repo db st) /\
    reg_wf db /\ reg_online db = true /\
    forall m, effect o (fun x => entry x (repo st)) m (entry m db).
Proof.
  intros Hco. pose proof Hco as (W & Hon & _).
  destruct (reg_online_writes (repo st)) as (Hu & _ & Hd & Hs).
  destruct o as [k n body now|k n now|k n now]; simpl.
  - destruct (op_put_cases env k n body now st Hco)
      as [(E & _)|(a & created & dis & Hv & Ha & Hold & E)]; rewrite E; simpl; [by left|].
    right. eexists. split; [done|]. split; [auto with locksmith|]. split; [by rewrite Hu|].
    intros m. rewrite upsert_entry; [|done|done|].
    + simpl. case_bool_decide; [|done]. eexists. split; [done|]. simpl. repeat (split; [done|]).
      intros e He. rewrite He in Hold. by destruct Hold as (-> & -> & ->).
    + simpl. intros r0 E0. rewrite E0 in Hold. destruct Hold as (-> & -> & _). done.
  - unfold op_delete. rewrite reg_get_entry by done.
    destruct (entry n (repo st)) as [r|] eqn:Er; [|by left].
    case_bool_decide as Hk; [|by left]. cbn [negb]. right.
    destruct (seed r) eqn:Esd.
    + exists (snd (set_disabled n true now (repo st))).
      split; [unfold set_disabled; by rewrite Hon|]. split; [auto with locksmith|].
      split; [by rewrite Hs|]. intros m. exists r. split; [done|]. split; [done|].
      rewrite set_disabled_entry, Esd by done. case_bool_decide; [|done]. subst. by rewrite Er.
    + exists (snd (reg_delete n (repo st))).
      split; [unfold reg_delete; by rewrite Hon|]. split; [auto with locksmith|].
      split; [by rewrite Hd|]. intros m. exists r. split; [done|]. split; [done|].
      rewrite delete_entry, Esd by done. done.
  - unfold op_enable. rewrite reg_get_entry by done.
    destruct (entry n (repo st)) as [r|] eqn:Er; [|by left].
    case_bool_decide as Hk; [|by left]. cbn [negb]. right.
    exists (snd (set_disabled n false now (repo st))).
    split; [unfold set_disabled; by rewrite Hon|]. split; [auto with locksmith|].
    split; [by rewrite Hs|]. intros m. exists r. split; [done|]. split; [done|].
    rewrite set_disabled_entry by done. case_bool_decide; [|done]. subst. by rewrite Er.
Qed.

Lemma reg_exec_coherent o st : coherent st -> coherent (reg_exec env o st).
Proof.
  intros Hco. destruct (reg_exec_cases o st Hco) as [->|(db & -> & W & Hon & _)]; [done|].
  by apply refresh_coherent.
Qed.

Lemma reg_run_coherent ops st : coherent st -> coherent (reg_run env ops st).
Proof.
  unfold reg_run. revert st. induction ops as [|o ops IH]; [done|]. intros st Hco.
  apply IH. by apply reg_exec_coherent.
Qed.

(** The proxy's catalog refines the table: after any history of admin
    writes (accepted or refused) the wired catalog resolves a name to exactly
    the enabled registration the table holds for it. *)
Theorem catalog_refines_table ops st n :
  coherent st ->
  let st' := reg_run env ops st in
  forall c, catalog st' = Some c ->
    lookup_active n c =
    match reg_get n (repo st') with
    | Ok (Some r) => if disabled r then None else Some r
    | _ => None
    end.
Proof.
  intros Hco st' c Hc. destruct (reg_run_coherent ops st Hco) as (W & Hon & Hcat).
  fold st' in W, Hon, Hcat. rewrite reg_get_entry by done. unfold lookup_active.
  by rewrite (Hcat c Hc).
Qed.

Definition spares (n : string) (o : RegOp) : bool :=
  match o with
  | Put _ _ _ _ => true
  | Delete _ m _ | Enable _ m _ => negb (bool_decide (m = n))
  end.

Lemma reg_exec_entry o st n r :
  coherent st -> spares n o = true -> entry n (repo st) = Some r ->
  exists r', entry n (repo (reg_exec env o st)) = Some r' /\
    kind r' = kind r /\ created_at r' = created_at r /\ disabled r' = disabled r.
Proof.
  intros Hco Hsp Hr. destruct (reg_exec_cases o st Hco) as [->|(db & -> & _ & _ & He)]; [by exists r|].
  rewrite refresh_runtime_repo. specialize (He n). simpl in *. destruct o as [k m body now|k m now|k m now];
    simpl in *.
  - case_bool_decide; [|exists r; by rewrite He]. subst.
    destruct He as (r' & -> & Hk & _ & Hold). exists r'. split; [done|].
    destruct (Hold r Hr) as (? & ? & ?). by repeat split; try congruence.
  - destruct He as (r0 & _ & _ & ->). split_ands. rewrite bool_decide_eq_false_2 by congruence. by exists r.
  - destruct He as (r0 & _ & _ & ->). split_ands. rewrite bool_decide_eq_false_2 by congruence. by exists r.
Qed.

(** An operator's decision about a name is sticky: through any history
    of admin writes that does not delete or enable the name, its registration
    stays in the table with the same kind, creation time and [disabled] flag,
    however often it is PUT, under whatever kind. *)
Theorem registration_sticky ops st n r :
  coherent st -> forallb (spares n) ops = true -> entry n (repo st) = Some r ->
  exists r', entry n (repo (reg_run env ops st)) = Some r' /\
    kind r' = kind r /\ created_at r' = created_at r /\ disabled r' = disabled r.
Proof.
  unfold reg_run. revert st r. induction ops as [|o ops IH]; intros st r Hco Hsp Hr; simpl in *.
  { by exists r. }
  apply andb_prop in Hsp as [H1 H2].
  destruct (reg_exec_entry o st n r Hco H1 Hr) as (r1 & E1 & K1 & C1 & D1).
  destruct (IH _ r1 (reg_exec_coherent o st Hco) H2 E1) as (r2 & E2 & K2 & C2 & D2).
  exists r2. split; [done|]. by rewrite K2, C2, D2.
Qed.
End Histories.

(** ** Discovery *)

Lemma list_public_elem db k identity items j :
  list_public db k identity = Ok items -> j ∈ items ->
  exists r, j = public_json r /\ visible_to identity r = true /\
    exists row, row ∈ reg_rows db /\ row_to_registration row = Ok r /\ rr_kind row = kind_as_str k.
Proof.
  unfold list_public, reg_list. destruct (reg_online db); [|done]. simpl.
  destruct (map_results _ _) as [rs|] eqn:E; [|done]. intros [= <-] Hj.
  apply list_elem_of_In, in_map_iff in Hj as (r & <- & Hr). apply filter_In in Hr as [Hr Hv].
  exists r. split; [done|]. split; [done|]. apply map_results_Forall2 in E.
  destruct (Forall2_elem _ _ _ E) as [_ H2].
  destruct (H2 r (proj2 (list_elem_of_In _ _) Hr)) as (row & Hrow & Er).
  rewrite merge_sort_Permutation in Hrow. apply list_elem_of_In, filter_In in Hrow as [Hrow Hk].
  apply bool_decide_eq_true in Hk. exists row. by rewrite list_elem_of_In.
Qed.

Lemma list_public_complete db k identity items row r :
  list_public db k identity = Ok items -> row ∈ reg_rows db -> row_to_registration row = Ok r ->
  kind r = k -> visible_to identity r = true -> public_json r ∈ items.
Proof.
  unfold list_public, reg_list. destruct (reg_online db); [|done]. simpl.
  destruct (map_results _ _) as [rs|] eqn:E; [|done]. intros [= <-] Hrow Er Hk Hv.
  apply list_elem_of_In, in_map, filter_In. split; [|done]. apply map_results_Forall2 in E.
  destruct (Forall2_elem _ _ _ E) as [H1 _]. destruct (H1 row) as (r' & Hr' & Er').
  - rewrite merge_sort_Permutation. apply list_elem_of_In, filter_In.
    split; [by apply list_elem_of_In|]. apply bool_decide_eq_true_2.
    rewrite (row_to_registration_kind _ _ Er). by subst.
  - assert (r' = r) as -> by congruence. by apply list_elem_of_In.
Qed.

(** Discovery shows an agent exactly what it may call: an item is listed
    under a kind if and only if it is the public form (name, path and
    description only) of an enabled registration of that kind whose name the
    agent's tool ACL permits. *)
Theorem list_public_spec db k id items :
  list_public db k (Some id) = Ok items ->
  forall j, j ∈ items <->
    exists r, j = public_json r /\ kind r = k /\ disabled r = false /\
      allows_tool id (name r) = Ok tt /\
      exists row, row ∈ reg_rows db /\ row_to_registration row = Ok r.
Proof.
  intros E j. split.
  - intros Hj. destruct (list_public_elem _ _ _ _ _ E Hj) as (r & -> & Hv & row & Hrow & Er & Hk).
    exists r. split; [done|]. unfold visible_to in Hv. split_ands.
    pose proof (row_to_registration_kind _ _ Er) as Ek.
    split; [apply (f_equal parse_kind) in Ek; rewrite Hk, !parse_kind_as_str in Ek; congruence|].
    split; [done|]. split; [by destruct (allows_tool id (name r)) as [[]|]|]. by exists row.
  - intros (r & -> & Hk & Hd & Ha & row & Hrow & Er).
    eapply list_public_complete; [exact E|exact Hrow|exact Er|exact Hk|].
    unfold visible_to. by rewrite Hd, Ha.
Qed.

(** ** Witnesses *)

Module RegWitness.

Definition env0 : string -> option string := SecretWitness.env0.

Definition empty_repo : RegistrationRepository :=
  {| reg_rows := []; seed_version := None; reg_online := true |}.

Definition st0 : AdminRegistrationsState :=
  {| repo := empty_repo; catalog := Some ∅; resolved_creds := Some ∅ |}.

Lemma empty_repo_wf : reg_wf empty_repo.
Proof. split; simpl; [apply NoDup_nil_2|]. intros r Hr. by apply not_elem_of_nil in Hr. Qed.

Lemma st0_coherent : coherent st0.
Proof. split; [apply empty_repo_wf|]. split; [done|]. intros c [= <-] n. done. Qed.

Definition body0 : PutBody :=
  {| pb_description := "search"; pb_upstream := "https://api.tavily.com";
     pb_auth := Some (SpecBearer "TOKEN" true); pb_egress := None; pb_timeouts := None;
     pb_body_limit_bytes := None; pb_metadata := None |}.

Definition st1 : AdminRegistrationsState := snd (op_put env0 Tool "tavily" body0 10 st0).

Lemma st1_coherent : coherent st1.
Proof. apply (reg_exec_coherent env0 (Put Tool "tavily" body0 10) st0), st0_coherent. Qed.

Definition tavily : Registration := put_registration Tool "tavily" body0 (SpecBearer "TOKEN" true) 10 false 10.

Lemma op_put_spec_witness :
  let '(resp, st') := op_put env0 Model "tavily" body0 20 st1 in
  resp_status resp <> 200 -> st' = st1.
Proof.
  pose proof (op_put_spec env0 Model "tavily" body0 20 st1 st1_coherent) as H.
  destruct (op_put env0 Model "tavily" body0 20 st1). exact (proj1 (proj2 H)).
Defined.

Lemma put_get_roundtrip_witness :
  op_get Tool "tavily" (snd (op_put env0 Tool "tavily" body0 10 st0)) =
  fst (op_put env0 Tool "tavily" body0 10 st0).
Proof.
  apply put_get_roundtrip; [apply st0_coherent|vm_compute; reflexivity|].
  split; [vm_compute; discriminate|vm_compute; reflexivity].
Defined.

Definition body_huge : PutBody :=
  {| pb_description := ""; pb_upstream := "u"; pb_auth := Some SpecNone; pb_egress := None;
     pb_timeouts := None; pb_body_limit_bytes := Some 18446744073709551615; pb_metadata := None |}.

Lemma put_huge_limit_reads_zero_witness :
  exists r, fst (op_put env0 Tool "big" body_huge 10 st0)
              = json_response 200 (registration_to_admin_json r) /\
    body_limit_bytes r = 18446744073709551615 /\
    body_limit_bytes <$> entry "big" (repo (snd (op_put env0 Tool "big" body_huge 10 st0))) = Some 0.
Proof.
  apply put_huge_limit_reads_zero; [apply st0_coherent|vm_compute; reflexivity|reflexivity|].
  split; [vm_compute; discriminate|vm_compute; reflexivity].
Defined.

Definition history : list RegOp := [Put Tool "tavily" body0 10; Enable Model "tavily" 11].

Lemma catalog_refines_table_witness :
  exists c, catalog (reg_run env0 history st0) = Some c /\
    lookup_active "tavily" c =
    match reg_get "tavily" (repo (reg_run env0 history st0)) with
    | Ok (Some r) => if disabled r then None else Some r
    | _ => None
    end.
Proof.
  destruct (catalog (reg_run env0 history st0)) as [c|] eqn:E; [|vm_compute in E; discriminate].
  exists c. split; [reflexivity|].
  exact (catalog_refines_table env0 history st0 "tavily" st0_coherent c E).
Defined.

Lemma registration_sticky_witness :
  exists r', entry "tavily" (repo (reg_run env0 [Put Tool "tavily" body0 30; Put Model "tavily" body0 31;
      Delete Tool "other" 32] st1)) = Some r' /\
    kind r' = kind tavily /\ created_at r' = created_at tavily /\ disabled r' = disabled tavily.
Proof. apply registration_sticky; [apply st1_coherent|reflexivity|vm_compute; reflexivity]. Defined.

Definition agent0 : AgentIdentity :=
  {| id_id := 1; id_public_id := "p"; id_name := "dev"; id_tool_allowlist := Some ["tavily"];
     id_tool_denylist := None |}.

Lemma list_public_spec_witness :
  public_json tavily ∈ [public_json tavily] <->
  exists r, public_json tavily = public_json r /\ kind r = Tool /\ disabled r = false /\
    allows_tool agent0 (name r) = Ok tt /\
    exists row, row ∈ reg_rows (repo st1) /\ row_to_registration row = Ok r.
Proof. apply (list_public_spec (repo st1) Tool agent0). vm_compute. reflexivity. Defined.

End RegWitness.
