(* ===== verification/CatalogRace.v ===== *)
(** * Overlapping admin writes ([src/registrations/api.rs])

    Every admin write ends in [refresh_runtime], which reads the whole table
    and then swaps the resolved credentials and the catalog the proxy uses.
    No lock spans these steps.  Here each of them is a step of its own and
    any number of admin requests run at the same time; what a request writes
    to the table is left open. *)

From S2P Require Import Prelude Json Http Token Argon2Helper AgentRepo.
From S2P Require Import AuditLog Auth Secret ResponseControls Config Registrations.

(** An admin request: about to write; written; with the catalog read from the
    table of version [v]; with the merged credentials; about to swap the
    catalog; answered. *)
Inductive WriterPhase :=
| Writing
| Written
| Snapped (v : nat) (c : gmap string Registration)
| Merged (v : nat) (c : gmap string Registration) (m : ResolvedCreds)
| Publishing (v : nat) (c : gmap string Registration)
| Answered.

(** The shared state; [versions] are the tables there have been, oldest
    first, [shown] is the version the catalog was read from, and [in_order]
    says that no refresh has failed and none has replaced a newer one. *)
Record Runtime := {
  table : RegistrationRepository;
  live : gmap string Registration;
  creds : ResolvedCreds;
  writers : gmap nat WriterPhase;
  versions : list RegistrationRepository;
  shown : nat;
  in_order : bool
}.

Section CatalogRace.
Context (env : string -> option string).

(** [refresh_runtime] up to its swaps: the merged credentials, if there is
    anything to merge. *)
Definition merge_creds (c : gmap string Registration) (snap : ResolvedCreds) : option ResolvedCreds :=
  let extra := resolve_registration_creds env c in
  if bool_decide (extra = ∅) then None else Some (overwrite extra snap).

Definition set_writer (i : nat) (ph : WriterPhase) (s : Runtime) : Runtime :=
  {| table := table s; live := live s; creds := creds s; writers := <[i := ph]> (writers s);
     versions := versions s; shown := shown s; in_order := in_order s |}.

Definition write_table (t : RegistrationRepository) (s : Runtime) : Runtime :=
  {| table := t; live := live s; creds := creds s; writers := writers s;
     versions := versions s ++ [t]; shown := shown s; in_order := in_order s |}.

Definition store_creds (m : ResolvedCreds) (s : Runtime) : Runtime :=
  {| table := table s; live := live s; creds := m; writers := writers s;
     versions := versions s; shown := shown s; in_order := in_order s |}.

Definition store_catalog (v : nat) (c : gmap string Registration) (s : Runtime) : Runtime :=
  {| table := table s; live := c; creds := creds s; writers := writers s;
     versions := versions s; shown := v; in_order := in_order s && (shown s <=? v)%nat |}.

Definition skip_refresh (s : Runtime) : Runtime :=
  {| table := table s; live := live s; creds := creds s; writers := writers s;
     versions := versions s; shown := shown s; in_order := false |}.

Inductive runtime_step : Runtime -> Runtime -> Prop :=
| step_arrive s i : writers s !! i = None -> runtime_step s (set_writer i Writing s)
| step_write s i t :
    writers s !! i = Some Writing -> reg_wf t -> reg_online t = true ->
    runtime_step s (set_writer i Written (write_table t s))
| step_refused s i :
    writers s !! i = Some Writing -> runtime_step s (set_writer i Answered s)
| step_snapshot s i c :
    writers s !! i = Some Written -> from_repo (table s) = Ok c ->
    runtime_step s (set_writer i (Snapped (pred (List.length (versions s))) c) s)
| step_snapshot_failed s i :
    writers s !! i = Some Written -> runtime_step s (set_writer i Answered (skip_refresh s))
| step_merge s i v c :
    writers s !! i = Some (Snapped v c) ->
    runtime_step s (set_writer i
      (match merge_creds c (creds s) with Some m => Merged v c m | None => Publishing v c end) s)
| step_creds s i v c m :
    writers s !! i = Some (Merged v c m) ->
    runtime_step s (set_writer i (Publishing v c) (store_creds m s))
| step_publish s i v c :
    writers s !! i = Some (Publishing v c) ->
    runtime_step s (set_writer i Answered (store_catalog v c s)).

(** A coherent start with no request under way. *)
Definition runtime_init (s : Runtime) : Prop :=
  reg_wf (table s) /\ reg_online (table s) = true /\ from_repo (table s) = Ok (live s) /\
  versions s = [table s] /\ shown s = 0%nat /\ in_order s = true /\
  forall i ph, writers s !! i = Some ph -> ph = Writing.

(** No write is without its refresh. *)
Definition settled_writers (s : Runtime) : Prop :=
  forall i ph, writers s !! i = Some ph -> ph = Writing \/ ph = Answered.

(** The version and catalog a request is going to publish. *)
Definition carries (ph : WriterPhase) : option (nat * gmap string Registration) :=
  match ph with
  | Snapped v c | Merged v c _ | Publishing v c => Some (v, c)
  | _ => None
  end.

(** It will publish the newest table there is. *)
Definition newest (s : Runtime) (ph : WriterPhase) : Prop :=
  ph = Written \/ exists c, carries ph = Some (pred (List.length (versions s)), c).

Record race_inv (s : Runtime) : Prop := {
  ri_wf : reg_wf (table s) /\ reg_online (table s) = true;
  ri_last : exists before, versions s = before ++ [table s];
  ri_shown : exists t, versions s !! shown s = Some t /\ from_repo t = Ok (live s);
  ri_carried : forall i ph v c, writers s !! i = Some ph -> carries ph = Some (v, c) ->
    exists t, versions s !! v = Some t /\ from_repo t = Ok c;
  ri_newest : in_order s = true ->
    shown s = pred (List.length (versions s)) \/
    exists i ph, writers s !! i = Some ph /\ newest s ph
}.

Lemma last_version s t before :
  versions s = before ++ [t] -> versions s !! pred (List.length (versions s)) = Some t.
Proof.
  intros ->. rewrite length_app. simpl. rewrite Nat.add_1_r. simpl.
  by rewrite lookup_app_r, Nat.sub_diag.
Qed.

(** A request that keeps what it will publish may move on. *)
Lemma move_inv s i old new :
  race_inv s -> writers s !! i = Some old ->
  (newest s old -> newest s new) ->
  (forall v c, carries new = Some (v, c) -> exists t, versions s !! v = Some t /\ from_repo t = Ok c) ->
  race_inv (set_writer i new s).
Proof.
  intros [W L S C N] Hi Hn Hc. split; simpl; try done.
  - intros j ph v c [[<- <-]|[_ Hj]]%lookup_insert_Some; [by apply Hc|by apply (C j)].
  - intros [?|(j & ph & Hj & Hnew)]%N; [by left|right].
    destruct (decide (i = j)) as [<-|Hne].
    + exists i, new. simpl. rewrite lookup_insert_eq. split; [done|]. apply Hn. congruence.
    + exists j, ph. simpl. by rewrite lookup_insert_ne.
Qed.

Lemma not_newest_idle s ph : ph = Writing \/ ph = Answered -> ~ newest s ph.
Proof. intros [-> | ->]; intros [?|[c ?]]; done. Qed.

Lemma write_inv s i t :
  race_inv s -> writers s !! i = Some Writing -> reg_wf t -> reg_online t = true ->
  race_inv (set_writer i Written (write_table t s)).
Proof.
  intros [W L [t0 [S1 S2]] C N] Hi Hw Hon. split; simpl.
  - done.
  - by eexists.
  - exists t0. split; [|done]. by apply lookup_app_l_Some.
  - intros j ph v c [[<- <-]|[_ Hj]]%lookup_insert_Some Hc; [done|].
    destruct (C j ph v c Hj Hc) as (t1 & ? & ?). exists t1. split; [by apply lookup_app_l_Some|done].
  - intros _. right. exists i, Written. rewrite lookup_insert_eq. by split; [|left].
Qed.

Lemma publish_inv s i v c :
  race_inv s -> writers s !! i = Some (Publishing v c) ->
  race_inv (set_writer i Answered (store_catalog v c s)).
Proof.
  intros [W L S C N] Hi. destruct (C i _ v c Hi eq_refl) as (t & Ht & Hc). split; simpl; try done.
  - by exists t.
  - intros j ph v' c' [[<- <-]|[_ Hj]]%lookup_insert_Some Hc'; [done|by apply (C j ph)].
  - intros [Ho Hle%Nat.leb_le]%andb_true_iff. specialize (N Ho).
    assert (Hlt : (v <= pred (List.length (versions s)))%nat)
      by (apply lookup_lt_Some in Ht; lia).
    destruct N as [E|(j & ph & Hj & Hnew)]; [left; lia|]. destruct (decide (i = j)) as [<-|Hne].
    + left. assert (ph = Publishing v c) as -> by congruence.
      destruct Hnew as [?|[c' [= -> _]]]; [done|]. done.
    + right. exists j, ph. by rewrite lookup_insert_ne.
Qed.

Lemma runtime_step_inv s s' : runtime_step s s' -> race_inv s -> race_inv s'.
Proof.
  intros [a i Hi|a i t Hi Hw Hon|a i Hi|a i c Hi Hc|a i Hi|a i v c Hi|a i v c m Hi|a i v c Hi] R.
  - destruct R as [W L S C N]. split; try done; simpl.
    + intros j ph v c [[<- <-]|[_ Hj]]%lookup_insert_Some; [done|by apply (C j)].
    + intros [?|(j & ph & Hj & Hnew)]%N; [by left|right]. exists j, ph.
      rewrite lookup_insert_ne; [done|congruence].
  - by apply write_inv.
  - eapply move_inv; [done|done| |done]. intros []%not_newest_idle. by left.
  - eapply move_inv; [done|done| |].
    + intros _. right. by exists c.
    + intros v c' [= <- <-]. destruct (ri_last _ R) as [before E]. exists (table a).
      split; [by eapply last_version|done].
  - destruct R as [W L S C N]. split; try done; simpl.
    intros j ph v c [[<- <-]|[_ Hj]]%lookup_insert_Some; [done|by apply (C j)].
  - eapply move_inv; [done|done| |].
    + intros [?|[c' Hc']]; [done|]. right. exists c'. by destruct (merge_creds _ _).
    + intros v' c' Hc'. apply (ri_carried _ R i (Snapped v c)); [done|].
      by destruct (merge_creds _ _).
  - assert (race_inv (store_creds m a)) as R' by (by destruct R; split).
    eapply move_inv; [done|done| |].
    + intros [?|[c' Hc']]; [done|]. right. by exists c'.
    + intros v' c'. by apply (ri_carried _ R i (Merged v c m)).
  - by apply publish_inv.
Qed.

Lemma runtime_init_inv s : runtime_init s -> race_inv s.
Proof.
  intros (W & Hon & Hc & Hv & Hs & Ho & Hw). split.
  - done.
  - exists []. by rewrite Hv.
  - exists (table s). by rewrite Hv, Hs.
  - intros i ph v c Hi Hcar. by rewrite (Hw i ph Hi) in Hcar.
  - intros _. left. by rewrite Hv, Hs.
Qed.

Lemma runtime_reachable s s' : runtime_init s -> rtc runtime_step s s' -> race_inv s'.
Proof. intros Hi%runtime_init_inv. induction 1; eauto using runtime_step_inv. Qed.

(** C24: however admin writes overlap, the proxy routes by the table as it was at
    some moment, never by a mixture; and once every write has had its refresh
    the catalog answers every name as the table does, provided that no
    refresh failed and none published over one that had read the table
    later. *)
Theorem overlapping_writes_settle s s' :
  runtime_init s -> rtc runtime_step s s' ->
  (exists t, t ∈ versions s' /\ from_repo t = Ok (live s')) /\
  (settled_writers s' -> in_order s' = true -> forall n, live s' !! n = entry n (table s')).
Proof.
  intros Hi Hr. pose proof (runtime_reachable _ _ Hi Hr) as R.
  destruct (ri_shown _ R) as (t & Ht & Hc). split.
  - exists t. split; [by eapply list_elem_of_lookup_2|done].
  - intros Hq Ho n. destruct (ri_wf _ R) as [W Hon]. destruct (ri_last _ R) as [before E].
    destruct (ri_newest _ R Ho) as [Hs|(i & ph & Hw & Hnew)].
    + rewrite Hs, (last_version _ _ _ E) in Ht. injection Ht as <-.
      pose proof (from_repo_lookup _ _ n W Hc) as G. rewrite reg_get_entry in G by done. congruence.
    + by apply not_newest_idle in Hnew; [|by apply (Hq i)].
Qed.

(** One request after another is the sequential [refresh_runtime]. *)
Lemma refresh_in_steps c snap cat0 :
  from_repo (repo c) = Ok cat0 -> catalog c = Some snap ->
  refresh_runtime env c =
  {| repo := repo c; catalog := Some cat0;
     resolved_creds := (fun m => default m (merge_creds cat0 m)) <$> resolved_creds c |}.
Proof.
  intros Hr Hc. unfold refresh_runtime, merge_creds. rewrite Hc, Hr. f_equal.
  destruct (resolved_creds c) as [m|]; [|done]. simpl. f_equal.
  case_bool_decide as E; [|done]. simpl. rewrite E. unfold overwrite. apply (left_id_L ∅ (∪)).
Qed.
End CatalogRace.

Module CatalogRaceWitness.
Import RegWitness.

Definition start0 : Runtime :=
  {| table := empty_repo; live := ∅; creds := ∅; writers := ∅; versions := [empty_repo];
     shown := 0; in_order := true |}.

Lemma start_init : runtime_init start0.
Proof. repeat split; try apply empty_repo_wf; done. Qed.

(** The tables a [PUT] and then a [DELETE] leave. *)
Definition with_tavily : RegistrationRepository := repo st1.
Definition without_tavily : RegistrationRepository := repo (snd (op_delete env0 Tool "tavily" 20 st1)).

Lemma with_tavily_wf : reg_wf with_tavily.
Proof. apply st1_coherent. Qed.

Lemma without_tavily_wf : reg_wf without_tavily.
Proof.
  apply (reg_exec_coherent env0 (Delete Tool "tavily" 20) st1 st1_coherent).
Qed.

Definition read (t : RegistrationRepository) : gmap string Registration :=
  match from_repo t with Ok c => c | Err _ => ∅ end.

(** A request's refresh from the merge on, when it has something to merge. *)
Definition merged_creds (t : RegistrationRepository) (m : ResolvedCreds) : ResolvedCreds :=
  default m (merge_creds env0 (read t) m).

(** Request 0 puts a tool and answers. *)
Definition put_done : Runtime :=
  set_writer 0 Answered (store_catalog 1 (read with_tavily)
    (set_writer 0 (Publishing 1 (read with_tavily)) (store_creds (merged_creds with_tavily ∅)
      (set_writer 0 (Merged 1 (read with_tavily) (merged_creds with_tavily ∅))
        (set_writer 0 (Snapped 1 (read with_tavily))
          (set_writer 0 Written (write_table with_tavily (set_writer 0 Writing start0)))))))).

Lemma put_done_reachable : rtc (runtime_step env0) start0 put_done.
Proof.
  eapply rtc_l; [by apply (step_arrive env0 _ 0)|].
  eapply rtc_l; [by apply (step_write env0 _ 0 with_tavily); [|apply with_tavily_wf|]|].
  eapply rtc_l; [by apply (step_snapshot env0 _ 0 (read with_tavily))|].
  eapply rtc_l; [by apply (step_merge env0 _ 0 1 (read with_tavily))|].
  eapply rtc_l; [by apply (step_creds env0 _ 0 1 (read with_tavily) (merged_creds with_tavily ∅))|].
  eapply rtc_l; [by apply (step_publish env0 _ 0 1 (read with_tavily))|].
  apply rtc_refl.
Qed.

Lemma overlapping_writes_settle_witness :
  live put_done !! "tavily" = entry "tavily" (table put_done) /\ is_Some (live put_done !! "tavily").
Proof.
  split; [|by eexists].
  apply (proj2 (overlapping_writes_settle env0 _ _ start_init put_done_reachable)); [|done].
  intros i ph. simpl. rewrite !lookup_insert_Some, lookup_empty. intuition congruence.
Defined.

(** Request 0 puts a tool and reads the table; request 1 then deletes the
    tool, refreshes and answers; only now does request 0 publish. *)
Definition overtaken : Runtime :=
  set_writer 1 (Snapped 2 (read without_tavily))
    (set_writer 1 Written (write_table without_tavily (set_writer 1 Writing
      (set_writer 0 (Snapped 1 (read with_tavily))
        (set_writer 0 Written (write_table with_tavily (set_writer 0 Writing start0))))))).

Definition deleted : Runtime :=
  set_writer 1 Answered (store_catalog 2 (read without_tavily)
    (set_writer 1 (Publishing 2 (read without_tavily)) overtaken)).

Definition stale : Runtime :=
  set_writer 0 Answered (store_catalog 1 (read with_tavily)
    (set_writer 0 (Publishing 1 (read with_tavily)) (store_creds (merged_creds with_tavily ∅)
      (set_writer 0 (Merged 1 (read with_tavily) (merged_creds with_tavily ∅)) deleted)))).

Lemma deleted_reachable : rtc (runtime_step env0) start0 deleted.
Proof.
  eapply rtc_l; [by apply (step_arrive env0 _ 0)|].
  eapply rtc_l; [by apply (step_write env0 _ 0 with_tavily); [|apply with_tavily_wf|]|].
  eapply rtc_l; [by apply (step_snapshot env0 _ 0 (read with_tavily))|].
  eapply rtc_l; [by apply (step_arrive env0 _ 1)|].
  eapply rtc_l; [by apply (step_write env0 _ 1 without_tavily); [|apply without_tavily_wf|]|].
  eapply rtc_l; [by apply (step_snapshot env0 _ 1 (read without_tavily))|].
  eapply rtc_l; [by apply (step_merge env0 _ 1 2 (read without_tavily))|].
  eapply rtc_l; [by apply (step_publish env0 _ 1 2 (read without_tavily))|].
  apply rtc_refl.
Qed.

(** With no lock around the refresh the answer to the [DELETE] does not hold:
    the tool is gone from the table, both requests have answered, and the
    proxy still routes to it. *)
Theorem stale_publish_serves_deleted :
  rtc (runtime_step env0) start0 deleted /\ rtc (runtime_step env0) deleted stale /\
  lookup_active "tavily" (live deleted) = None /\
  entry "tavily" (table stale) = None /\ is_Some (lookup_active "tavily" (live stale)) /\
  settled_writers stale /\ in_order stale = false.
Proof.
  split; [apply deleted_reachable|]. split.
  - eapply rtc_l; [by apply (step_merge env0 _ 0 1 (read with_tavily))|].
    eapply rtc_l; [by apply (step_creds env0 _ 0 1 (read with_tavily) (merged_creds with_tavily ∅))|].
    eapply rtc_l; [by apply (step_publish env0 _ 0 1 (read with_tavily))|]. apply rtc_refl.
  - do 2 (split; [vm_compute; reflexivity|]). split; [by eexists|]. split; [|done].
    intros i ph. simpl. rewrite !lookup_insert_Some, lookup_empty. intuition congruence.
Qed.
End CatalogRaceWitness.
