(* ===== verification/SeedLoader.v ===== *)
(** * Populating the registrations at startup
      ([src/registrations/seed_loader.rs], [legacy_bootstrap.rs],
       [src/daemon.rs])

    The seed catalog shipped with the image, the migration of the legacy
    [config.tools] entries, and the credential map the daemon builds from
    both.  Reading the file and parsing its YAML are parameters; the loops
    thread the table, so an error in the middle keeps what was written. *)

From S2P Require Import Prelude Json Http AgentRepo AuditLog Auth.
From S2P Require Import Secret ResponseControls Config Registrations.

Inductive SeedLoadError :=
| SeedIo (what : string)
| SeedParse (what : string)
| SeedEntryError (name : string) (kind : Kind) (error : RegistrationError)
| SeedBackend (e : RegistrationError).

Record SeedEntry := {
  se_name : string;
  se_kind : Kind;
  se_description : string;
  se_upstream : string;
  se_auth : option AuthSpec;
  se_egress : option EgressMode;
  se_timeouts : option ToolTimeouts;
  se_body_limit_bytes : option Z;
  se_metadata : option Json
}.

Record SeedCatalog := { version : string; entries : list SeedEntry }.

(** ** Versions *)

Fixpoint digits_value (acc : Z) (s : string) : option Z :=
  match s with
  | EmptyString => Some acc
  | String c s' =>
      let n := Z.of_N (N_of_ascii c) in
      if (48 <=? n) && (n <=? 57) then
        let acc' := acc * 10 + (n - 48) in
        if acc' <? two64 then digits_value acc' s' else None
      else None
  end.

(** [str::parse::<u64>]: digits with an optional leading plus. *)
Definition parse_u64 (s : string) : option Z :=
  match s with
  | EmptyString => None
  | String c s' =>
      if is_char "+" c then match s' with EmptyString => None | _ => digits_value 0 s' end
      else digits_value 0 s
  end.

Definition semver_parse (s : string) : Z * Z * Z :=
  let part (i : nat) := default 0 (let* p := split (is_char ".") s !! i in parse_u64 p) in
  (part 0%nat, part 1%nat, part 2%nat).

(** The derived lexicographic order on the triple. *)
Definition triple_lt (a b : Z * Z * Z) : bool :=
  let '(a1, a2, a3) := a in
  let '(b1, b2, b3) := b in
  (a1 <? b1) || (a1 =? b1) && ((a2 <? b2) || (a2 =? b2) && (a3 <? b3)).

Definition semver_lt (a b : string) : bool := triple_lt (semver_parse a) (semver_parse b).

(** ** Applying a catalog *)

Definition check_auth_for_kind (e : SeedEntry) : result RegistrationError unit :=
  match se_kind e, se_auth e with
  | Tool, None | Model, None => Err AuthRequired
  | _, _ => Ok tt
  end.

Definition entry_to_registration (e : SeedEntry) (k : Kind) (now : Z)
  : result SeedLoadError Registration :=
  match put_auth k (se_auth e) with
  | None => Err (SeedEntryError (se_name e) k AuthRequired)
  | Some a =>
      Ok {| name := se_name e; kind := k; description := se_description e;
            upstream := se_upstream e; auth := a; egress := default default_egress (se_egress e);
            timeouts := default default_timeouts (se_timeouts e);
            body_limit_bytes := default default_body_limit (se_body_limit_bytes e);
            metadata := default (JObject []) (se_metadata e); seed := true; disabled := false;
            created_at := now; updated_at := now |}
  end.

(** [next.created_at = ..; next.disabled = ..]. *)
Definition carry_over (existing next : Registration) : Registration :=
  {| name := name next; kind := kind next; description := description next;
     upstream := upstream next; auth := auth next; egress := egress next;
     timeouts := timeouts next; body_limit_bytes := body_limit_bytes next;
     metadata := metadata next; seed := seed next; disabled := disabled existing;
     created_at := created_at existing; updated_at := updated_at next |}.

Fixpoint validate_entries (es : list SeedEntry) : result SeedLoadError unit :=
  match es with
  | [] => Ok tt
  | e :: es' =>
      let? _ := map_err (SeedEntryError (se_name e) (se_kind e)) (validate_name (se_name e)) in
      let? _ := map_err (SeedEntryError (se_name e) (se_kind e)) (check_auth_for_kind e) in
      validate_entries es'
  end.

(** The body of the apply loop for one entry. *)
Definition apply_entry (e : SeedEntry) (now : Z) (db : RegistrationRepository)
  : result SeedLoadError unit * RegistrationRepository :=
  let k := se_kind e in
  match reg_get (se_name e) db with
  | Err err => (Err (SeedBackend err), db)
  | Ok (Some existing) =>
      if negb (seed existing) then (Ok tt, db)
      else if negb (bool_decide (kind existing = k))
      then (Err (SeedEntryError (se_name e) k (WrongKind (kind existing) k)), db)
      else
        match entry_to_registration e k now with
        | Err err => (Err err, db)
        | Ok next =>
            let '(r, db') := reg_upsert (carry_over existing next) db in
            (map_err SeedBackend r, db')
        end
  | Ok None =>
      match entry_to_registration e k now with
      | Err err => (Err err, db)
      | Ok r =>
          let '(res, db') := reg_create r db in
          (map_err SeedBackend res, db')
      end
  end.

Fixpoint apply_entries (es : list SeedEntry) (now : Z) (db : RegistrationRepository)
  : result SeedLoadError unit * RegistrationRepository :=
  match es with
  | [] => (Ok tt, db)
  | e :: es' =>
      match apply_entry e now db with
      | (Err err, db') => (Err err, db')
      | (Ok _, db') => apply_entries es' now db'
      end
  end.

(** The two early returns: same version, or not an upgrade. *)
Definition up_to_date (current : option string) (v : string) : bool :=
  match current with
  | Some c => bool_decide (c = v) || negb (semver_lt c v)
  | None => false
  end.

Definition apply_catalog_parsed (c : SeedCatalog) (now : Z) (db : RegistrationRepository)
  : result SeedLoadError unit * RegistrationRepository :=
  match get_seed_version db with
  | Err e => (Err (SeedBackend e), db)
  | Ok current =>
      if up_to_date current (version c) then (Ok tt, db)
      else
        match validate_entries (entries c) with
        | Err e => (Err e, db)
        | Ok _ =>
            match apply_entries (entries c) now db with
            | (Err e, db') => (Err e, db')
            | (Ok _, db') =>
                let '(r, db'') := set_seed_version (version c) db' in
                (map_err SeedBackend r, db'')
            end
        end
  end.

Section Yaml.
(** [serde_yaml::from_str::<SeedCatalog>]. *)
Context (parse_yaml : string -> option SeedCatalog).

Definition apply_catalog (yaml : string) (now : Z) (db : RegistrationRepository)
  : result SeedLoadError unit * RegistrationRepository :=
  match parse_yaml yaml with
  | None => (Err (SeedParse "yaml"), db)
  | Some c => apply_catalog_parsed c now db
  end.

(** [file]: absent, unreadable, or its contents. *)
Definition load_or_skip (file : option (option string)) (now : Z) (db : RegistrationRepository)
  : result SeedLoadError unit * RegistrationRepository :=
  match file with
  | None => (Ok tt, db)
  | Some None => (Err (SeedIo "read"), db)
  | Some (Some contents) => apply_catalog contents now db
  end.
End Yaml.

(** ** The legacy migration *)

(** The [while i + 1 < bytes.len()] scan; every iteration consumes a byte, so
    the length is enough fuel. *)
Fixpoint scan_env_var (fuel : nat) (s : string) (found : option string) : option string :=
  match fuel with
  | O => found
  | S fuel' =>
      match s with
      | String a (String b rest) =>
          if is_char "$" a && is_char "{" b then
            match str_find "}" rest with
            | None => None
            | Some close =>
                if isSome found then None
                else scan_env_var fuel' (str_drop (close + 1) rest) (Some (str_take close rest))
            end
          else scan_env_var fuel' (String b rest) found
      | _ => found
      end
  end.

Definition extract_single_env_var (s : string) : option string :=
  scan_env_var (String.length s) s None.

Definition translate_auth (ta : ToolAuthConfig) : option AuthSpec :=
  match ta_value ta with
  | FromEnv var _ => Some (SpecHeader (ta_header ta) var (ta_force_replace ta))
  | LegacyString s =>
      let* var := extract_single_env_var s in
      Some (SpecHeader (ta_header ta) var (ta_force_replace ta))
  | _ => None
  end.

Definition legacy_registration (t : ToolConfig) (a : AuthSpec) (now : Z) : Registration :=
  {| name := tc_name t; kind := Tool; description := tc_description t;
     upstream := tc_upstream t; auth := a; egress := tc_egress t; timeouts := tc_timeouts t;
     body_limit_bytes := tc_body_limit_bytes t; metadata := JObject []; seed := false;
     disabled := false; created_at := now; updated_at := now |}.

(** [Ok] carries (inserted, skipped_existing, skipped_unsupported). *)
Fixpoint bootstrap_loop (ts : list ToolConfig) (now : Z) (counts : Z * Z * Z)
    (db : RegistrationRepository)
  : result RegistrationError (Z * Z * Z) * RegistrationRepository :=
  match ts with
  | [] => (Ok counts, db)
  | t :: ts' =>
      let '(ins, ex, un) := counts in
      match reg_get (tc_name t) db with
      | Err e => (Err e, db)
      | Ok (Some _) => bootstrap_loop ts' now (ins, ex + 1, un) db
      | Ok None =>
          match (match tc_auth t with None => Some SpecNone | Some ta => translate_auth ta end) with
          | None => bootstrap_loop ts' now (ins, ex, un + 1) db
          | Some a =>
              match reg_create (legacy_registration t a now) db with
              | (Err e, db') => (Err e, db')
              | (Ok _, db') => bootstrap_loop ts' now (ins + 1, ex, un) db'
              end
          end
      end
  end.

Definition bootstrap_from_config_tools (cfg : AppConfig) (now : Z) (db : RegistrationRepository) :=
  bootstrap_loop (tools cfg) now (0, 0, 0) db.

(** [merged.entry(k).or_insert(v)] at startup: what [config.tools] resolved
    wins. *)
Definition startup_creds (env : string -> option string) (cat : gmap string Registration)
    (snap : gmap string string) : gmap string string :=
  snap ∪ resolve_registration_creds env cat.

(** ** What the loader keeps *)

Lemma create_entry r db :
  reg_wf db -> reg_online db = true -> entry (name r) db = None ->
  reg_create r db = (Ok tt, snd (reg_create r db)) /\
  forall m, entry m (snd (reg_create r db)) =
    if bool_decide (m = name r) then Some (stored r) else entry m db.
Proof.
  intros W Hon He. assert (Hex : sql_exists (by_name (name r)) (reg_rows db) = false).
  { apply sql_exists_false. apply find_first_None. unfold entry in He.
    destruct (find_first _ _) as [row|] eqn:F; [|done].
    apply find_first_Some in F as [F _]. pose proof (rw_rows _ W row F) as Hok.
    by destruct (row_to_registration row). }
  assert (E : snd (reg_create r db) = snd (reg_upsert r db)).
  { unfold reg_create, reg_upsert. by rewrite Hon, Hex. }
  split; [unfold reg_create; by rewrite Hon, Hex|]. intros m. rewrite E.
  apply upsert_entry; [done|done|]. intros r0 E0. congruence.
Qed.

(** An operator's row is untouched; a seed row stays a seed row of its kind,
    with its creation time and its [disabled] flag. *)
Definition seed_keeps (before after : option Registration) : Prop :=
  match before with
  | None => True
  | Some r =>
      if seed r
      then exists r', after = Some r' /\ seed r' = true /\ kind r' = kind r /\
             disabled r' = disabled r /\ created_at r' = created_at r
      else after = Some r
  end.

#[export] Instance seed_keeps_refl : Reflexive seed_keeps.
Proof. intros [r|]; simpl; [|done]. destruct (seed r) eqn:E; [|done]. by exists r. Qed.

#[export] Instance seed_keeps_trans : Transitive seed_keeps.
Proof.
  intros [a|] y z Hxy Hyz; [|done]. simpl in *. destruct (seed a) eqn:E.
  - destruct Hxy as (b & -> & Sb & Kb & Db & Cb). simpl in Hyz. rewrite Sb in Hyz.
    destruct Hyz as (c & -> & Sc & Kc & Dc & Cc). exists c. by rewrite Kc, Dc, Cc.
  - subst. simpl in Hyz. by rewrite E in Hyz.
Qed.

(** The loader's effect on the table. *)
Definition loads (db db' : RegistrationRepository) : Prop :=
  reg_wf db' /\ reg_online db' = true /\ forall m, seed_keeps (entry m db) (entry m db').

Lemma loads_refl db : reg_wf db -> reg_online db = true -> loads db db.
Proof. intros W Hon. split; [done|]. split; [done|]. intros m. reflexivity. Qed.

Lemma entry_to_registration_ok e k now r :
  entry_to_registration e k now = Ok r ->
  name r = se_name e /\ kind r = k /\ seed r = true /\ disabled r = false /\
  upstream r = se_upstream e /\ description r = se_description e /\
  put_auth k (se_auth e) = Some (auth r).
Proof.
  unfold entry_to_registration. destruct (put_auth _ _) as [a|]; [|done]. by intros [= <-].
Qed.

Lemma apply_entry_loads e now db :
  reg_wf db -> reg_online db = true -> loads db (snd (apply_entry e now db)).
Proof.
  intros W Hon. pose proof (loads_refl db W Hon) as Hid.
  destruct (reg_online_writes db) as (Hu & Hcr & _).
  unfold apply_entry. rewrite reg_get_entry by done.
  destruct (entry (se_name e) db) as [ex|] eqn:Ex.
  - destruct (seed ex) eqn:Es; [|done]. case_bool_decide as Hk; [|done]. simpl.
    destruct (entry_to_registration e _ now) as [next|] eqn:En; [|done].
    destruct (entry_to_registration_ok _ _ _ _ En) as (Nn & Nk & Ns & _).
    destruct (reg_upsert _ db) as [res db'] eqn:Eu. simpl.
    change db' with (snd (res, db')). rewrite <- Eu.
    split; [auto with locksmith|]. split; [by rewrite Hu|]. intros m.
    rewrite upsert_entry; [|done|done|].
    + simpl. rewrite Nn. case_bool_decide; [|reflexivity]. subst m. rewrite Ex. simpl. rewrite Es.
      eexists. split; [done|]. simpl. rewrite Nk, Ns. done.
    + simpl. rewrite Nn, Nk. intros r0 E0. assert (r0 = ex) as -> by congruence. done.
  - destruct (entry_to_registration e _ now) as [r|] eqn:En; [|done].
    destruct (entry_to_registration_ok _ _ _ _ En) as (Nn & _).
    destruct (create_entry r db W Hon) as [E1 E2]; [by rewrite Nn|]. rewrite E1. simpl.
    split; [auto with locksmith|]. split; [by rewrite Hcr|]. intros m. rewrite E2, Nn.
    case_bool_decide; [|reflexivity]. subst. by rewrite Ex.
Qed.

Lemma apply_entries_loads es now db :
  reg_wf db -> reg_online db = true -> loads db (snd (apply_entries es now db)).
Proof.
  revert db. induction es as [|e es IH]; intros db W Hon; simpl; [by apply loads_refl|].
  destruct (apply_entry_loads e now db W Hon) as (W1 & Hon1 & K1).
  destruct (apply_entry e now db) as [[]  db1]; simpl in *; [|done].
  destruct (IH db1 W1 Hon1) as (W2 & Hon2 & K2). split; [done|]. split; [done|].
  intros m. etrans; [apply K1|apply K2].
Qed.

Lemma apply_catalog_loads c now db :
  reg_wf db -> reg_online db = true -> loads db (snd (apply_catalog_parsed c now db)).
Proof.
  intros W Hon. pose proof (loads_refl db W Hon) as Hid.
  unfold apply_catalog_parsed. unfold get_seed_version. rewrite Hon.
  destruct (up_to_date _ _); [done|]. destruct (validate_entries _); [|done].
  pose proof (apply_entries_loads (entries c) now db W Hon) as L.
  destruct (apply_entries (entries c) now db) as [[] db1]; simpl in *; [|done].
  destruct L as (W1 & Hon1 & K1). unfold set_seed_version. rewrite Hon1. simpl.
  destruct W1 as [W1 W2]. split; [by split|]. split; [done|]. exact K1.
Qed.

(** An image upgrade never overrides an operator: whatever the catalog
    and whether or not loading succeeds, a registration the operator wrote is
    left exactly as it was, and a seed registration stays in the table with
    its kind, creation time and [disabled] flag; the table stays
    well-formed. *)
Theorem seed_load_preserves c now db :
  reg_wf db -> reg_online db = true ->
  let db' := snd (apply_catalog_parsed c now db) in
  reg_wf db' /\
  (forall n r, entry n db = Some r -> seed r = false -> entry n db' = Some r) /\
  (forall n r, entry n db = Some r -> seed r = true ->
     exists r', entry n db' = Some r' /\ seed r' = true /\ kind r' = kind r /\
       disabled r' = disabled r /\ created_at r' = created_at r).
Proof.
  intros W Hon db'. destruct (apply_catalog_loads c now db W Hon) as (W' & _ & K). fold db' in K.
  split; [done|]. split; intros n r E Es; specialize (K n); rewrite E in K; simpl in K;
    by rewrite Es in K.
Qed.

(** The gate before any write: a catalog that is not newer than the one
    recorded, or with an entry whose name or auth shape is invalid, leaves the
    table exactly as it was. *)
Theorem seed_gate c now db :
  (reg_online db = true -> up_to_date (seed_version db) (version c) = true ->
     apply_catalog_parsed c now db = (Ok tt, db)) /\
  (is_ok (validate_entries (entries c)) = false ->
     snd (apply_catalog_parsed c now db) = db).
Proof.
  unfold apply_catalog_parsed, get_seed_version. split.
  - intros -> ->. done.
  - intros Hv. destruct (reg_online db); [|done]. destruct (up_to_date _ _); [done|].
    by destruct (validate_entries _).
Qed.

(** Loading is idempotent: once a catalog has been applied (or skipped)
    successfully, applying it again changes nothing. *)
Theorem seed_idempotent c now now' db db' :
  apply_catalog_parsed c now db = (Ok tt, db') ->
  apply_catalog_parsed c now' db' = (Ok tt, db').
Proof.
  intros H. unfold apply_catalog_parsed in H. unfold get_seed_version in H.
  destruct (reg_online db) eqn:Hon; [|done].
  destruct (up_to_date (seed_version db) (version c)) eqn:Eu.
  - injection H as <-. unfold apply_catalog_parsed, get_seed_version. by rewrite Hon, Eu.
  - destruct (validate_entries _); [|done]. destruct (apply_entries _ _ _) as [[] db1]; [|done].
    unfold set_seed_version in H. destruct (reg_online db1); simpl in H; [|done].
    injection H as <-. unfold apply_catalog_parsed, get_seed_version. simpl.
    by rewrite bool_decide_eq_true_2.
Qed.

(** *** What the loader writes *)

(** The registration a seed entry asks for, as far as the entry fixes it. *)
Definition reflects (e : SeedEntry) (r : Registration) : Prop :=
  kind r = se_kind e /\ upstream r = se_upstream e /\ description r = se_description e /\
  put_auth (se_kind e) (se_auth e) = Some (auth r).

(** The name is present, as the operator left it or as the entry says. *)
Definition loaded (e : SeedEntry) (before after : option Registration) : Prop :=
  exists r, after = Some r /\
    (seed r = false -> before = Some r) /\ (seed r = true -> reflects e r).

Lemma apply_entry_spec e now db db' :
  reg_wf db -> reg_online db = true -> apply_entry e now db = (Ok tt, db') ->
  loaded e (entry (se_name e) db) (entry (se_name e) db') /\
  forall m, m <> se_name e -> entry m db' = entry m db.
Proof.
  intros W Hon. unfold apply_entry. rewrite reg_get_entry by done.
  destruct (entry (se_name e) db) as [ex|] eqn:Ex.
  - destruct (seed ex) eqn:Es.
    + case_bool_decide as Hk; [|done]. simpl.
      destruct (entry_to_registration e _ now) as [next|] eqn:En; [|done].
      destruct (entry_to_registration_ok _ _ _ _ En) as (Nn & Nk & Ns & _ & Nu & Nd & Na).
      destruct (reg_upsert _ db) as [res db1] eqn:Eu. intros [= _ <-].
      assert (G : forall m, entry m db1 = if bool_decide (m = se_name e)
                    then Some (stored (carry_over ex next)) else entry m db).
      { intros m. change db1 with (snd (res, db1)). rewrite <- Eu.
        replace (se_name e) with (name (carry_over ex next)) by exact Nn.
        apply upsert_entry; [done|done|]. simpl. rewrite Nn, Nk. intros r0 E0.
        assert (r0 = ex) as -> by congruence. done. }
      split.
      * eexists. rewrite G, bool_decide_eq_true_2 by done. split; [done|]. simpl. rewrite Ns.
        split; [done|]. intros _. unfold reflects. simpl. by rewrite Nk, Nu, Nd.
      * intros m Hm. rewrite G. by rewrite bool_decide_eq_false_2.
    + intros [= <-]. split; [|done]. exists ex. split; [done|]. split; [done|]. congruence.
  - destruct (entry_to_registration e _ now) as [r|] eqn:En; [|done].
    destruct (entry_to_registration_ok _ _ _ _ En) as (Nn & Nk & Ns & _ & Nu & Nd & Na).
    destruct (create_entry r db W Hon) as [E1 E2]; [by rewrite Nn|]. rewrite E1. intros [= <-].
    split.
    + eexists. rewrite E2, Nn, bool_decide_eq_true_2 by done. split; [done|]. simpl. rewrite Ns.
      split; [done|]. intros _. unfold reflects. simpl. by rewrite Nk, Nu, Nd.
    + intros m Hm. rewrite E2, Nn. by rewrite bool_decide_eq_false_2.
Qed.

Lemma apply_entries_spec es now db db' :
  reg_wf db -> reg_online db = true -> NoDup (map se_name es) ->
  apply_entries es now db = (Ok tt, db') ->
  (forall e, e ∈ es -> loaded e (entry (se_name e) db) (entry (se_name e) db')) /\
  (forall m, m ∉ map se_name es -> entry m db' = entry m db).
Proof.
  revert db. induction es as [|e es IH]; intros db W Hon Hnd H; simpl in *.
  { injection H as <-. split; [intros e He; by apply not_elem_of_nil in He|done]. }
  apply NoDup_cons in Hnd as [Hne Hnd].
  destruct (apply_entry e now db) as [[[]|] db1] eqn:E1; [|done].
  destruct (apply_entry_spec _ _ _ _ W Hon E1) as [S1 O1].
  pose proof (apply_entry_loads e now db W Hon) as (W1 & Hon1 & _). rewrite E1 in W1, Hon1.
  destruct (IH db1 W1 Hon1 Hnd H) as [S2 O2]. split.
  - intros x [->|Hx]%elem_of_cons; [by rewrite (O2 _ Hne)|]. rewrite <- (O1 (se_name x)); [auto|].
    intros Hxe. apply Hne. rewrite <- Hxe. apply list_elem_of_In, in_map. by apply list_elem_of_In.
  - intros m [H1 H2]%not_elem_of_cons. rewrite O2 by done. by apply O1.
Qed.

(** A successful upgrade is complete: when a newer catalog with distinct
    names loads, every one of its names is in the table afterwards, either
    with the registration its entry describes or with the operator's own, and
    no other name is touched. *)
Theorem seed_load_complete c now db db' :
  reg_wf db -> up_to_date (seed_version db) (version c) = false ->
  NoDup (map se_name (entries c)) ->
  apply_catalog_parsed c now db = (Ok tt, db') ->
  seed_version db' = Some (version c) /\
  (forall e, e ∈ entries c -> loaded e (entry (se_name e) db) (entry (se_name e) db')) /\
  (forall m, m ∉ map se_name (entries c) -> entry m db' = entry m db).
Proof.
  intros W Hu Hnd H. unfold apply_catalog_parsed, get_seed_version in H.
  destruct (reg_online db) eqn:Hon; [|done]. rewrite Hu in H.
  destruct (validate_entries _); [|done].
  destruct (apply_entries (entries c) now db) as [[[]|] db1] eqn:E; [|done].
  destruct (apply_entries_spec _ _ _ _ W Hon Hnd E) as [S O].
  unfold set_seed_version in H. destruct (reg_online db1); simpl in H; [|done]. by injection H as <-.
Qed.

(** ** The legacy migration and the credential map *)

Lemma bootstrap_keeps ts now counts db n r :
  reg_wf db -> reg_online db = true -> entry n db = Some r ->
  entry n (snd (bootstrap_loop ts now counts db)) = Some r.
Proof.
  revert counts db. induction ts as [|t ts IH]; intros [[ins ex] un] db W Hon He; simpl; [done|].
  rewrite reg_get_entry by done. destruct (entry (tc_name t) db) eqn:Et; [by apply IH|].
  destruct (match tc_auth t with None => _ | Some _ => _ end) as [a|]; [|by apply IH].
  destruct (create_entry (legacy_registration t a now) db W Hon Et) as [E1 E2]. rewrite E1.
  destruct (reg_online_writes db) as (_ & Hcr & _).
  apply IH; [auto with locksmith|by rewrite Hcr|]. rewrite E2. simpl.
  rewrite bool_decide_eq_false_2; [done|]. congruence.
Qed.

(** Lookup in the credential map of a catalog. *)
Definition catalog_keyed (c : gmap string Registration) : Prop :=
  forall n r, c !! n = Some r -> name r = n.

Definition cred_step (env : string -> option string) (out : gmap string string) (r : Registration) :=
  match registration_cred env r with Some v => <[name r := v]> out | None => out end.

Lemma fold_creds_lookup env l out n v :
  (forall r, r ∈ l -> name r = n -> registration_cred env r = Some v) ->
  fold_left (cred_step env) l out !! n =
  if existsb (fun r => bool_decide (name r = n)) l then Some v else out !! n.
Proof.
  revert out. induction l as [|r l IH]; intros out Hl; simpl; [done|].
  rewrite IH by (intros x Hx; apply Hl; by right).
  destruct (existsb _ l); [by rewrite orb_true_r|]. rewrite orb_false_r. unfold cred_step.
  case_bool_decide as E.
  - rewrite (Hl r) by (done || left). subst. by rewrite lookup_insert_eq.
  - destruct (registration_cred env r); [|done]. by rewrite lookup_insert_ne.
Qed.

Lemma iter_enabled_elem k c r :
  r ∈ iter_enabled_by_kind k c <-> kind r = k /\ disabled r = false /\ exists n, c !! n = Some r.
Proof.
  unfold iter_enabled_by_kind. rewrite list_elem_of_In, filter_In, in_map_iff. split.
  - intros [([n r'] & <- & Hin) Hk]. split_ands. split; [done|]. split; [done|]. exists n.
    by apply elem_of_map_to_list, list_elem_of_In.
  - intros (Hk & Hd & n & Hn). split.
    + exists (n, r). split; [done|]. by apply list_elem_of_In, elem_of_map_to_list.
    + by rewrite Hd, bool_decide_eq_true_2.
Qed.

Lemma registration_creds_lookup env c n r v :
  catalog_keyed c -> c !! n = Some r -> disabled r = false -> registration_cred env r = Some v ->
  resolve_registration_creds env c !! n = Some v.
Proof.
  intros Hk Hn Hd Hv. unfold resolve_registration_creds.
  assert (G : forall k out, fold_left (cred_step env) (iter_enabled_by_kind k c) out !! n =
    if bool_decide (kind r = k) then Some v else out !! n).
  { intros k out. rewrite (fold_creds_lookup env _ out n v).
    - case_bool_decide as E.
      + replace (existsb _ _) with true; [done|]. symmetry. apply existsb_exists. exists r.
        rewrite <- list_elem_of_In, iter_enabled_elem, bool_decide_eq_true.
        split; [by eauto|by apply Hk].
      + replace (existsb _ _) with false; [done|]. symmetry. apply sql_exists_false.
        intros x (Ek & _ & m & Hm)%iter_enabled_elem. apply bool_decide_eq_false. intros Hx.
        apply Hk in Hm as Em. congruence.
    - intros x (_ & _ & m & Hm)%iter_enabled_elem Hx. apply Hk in Hm as Em. congruence. }
  simpl. unfold cred_step in G. rewrite !G. by destruct (kind r).
Qed.

(** An admin write can change the credential of an unrelated tool: for a
    tool migrated from a configuration whose value is an environment variable
    with a prefix (the legacy [Bearer] form), the daemon injects prefix and
    value after startup, but after the refresh that follows any accepted admin
    write it injects the bare value, without the prefix. *)
Theorem refresh_drops_prefix env st snap c n t ta var p v now :
  tc_auth t = Some ta -> ta_value ta = FromEnv var (Some p) -> p <> "" ->
  env var = Some v -> v <> "" -> tc_name t = n ->
  snap !! n = Some (p +:+ v) ->
  catalog st = Some c -> coherent st ->
  entry n (repo st) = Some (legacy_registration t (SpecHeader (ta_header ta) var (ta_force_replace ta)) now) ->
  resolved_creds st = Some (startup_creds env c snap) ->
  startup_creds env c snap !! n = Some (p +:+ v) /\
  exists creds', resolved_creds (refresh_runtime env st) = Some creds' /\ creds' !! n = Some v.
Proof.
  intros Ht Hta Hp Hv Hv0 Hn Hsnap Hc (W & Hon & Hcat) He Hcr. split.
  { unfold startup_creds. by apply lookup_union_Some_l. }
  unfold refresh_runtime. rewrite Hc, Hcr. destruct (from_repo_total _ W Hon) as [cat E]. rewrite E.
  eexists. split; [done|]. unfold overwrite. apply lookup_union_Some_l.
  assert (Hl : forall m, cat !! m = entry m (repo st)).
  { intros m. pose proof (from_repo_lookup _ _ m W E) as G. rewrite reg_get_entry in G by done. congruence. }
  eapply registration_creds_lookup; [|by rewrite Hl|done|].
  - intros m r Hm. rewrite Hl in Hm. by eapply entry_name.
  - unfold registration_cred. simpl. rewrite Hv. by rewrite bool_decide_eq_false_2.
Qed.

(** ** Witnesses *)

Module SeedWitness.
Import RegWitness.

Definition e0 : SeedEntry :=
  {| se_name := "tavily"; se_kind := Tool; se_description := "d"; se_upstream := "https://new";
     se_auth := Some (SpecBearer "TOKEN" false); se_egress := None; se_timeouts := None;
     se_body_limit_bytes := None; se_metadata := None |}.
Definition e1 : SeedEntry :=
  {| se_name := "lf-scan"; se_kind := Infra; se_description := ""; se_upstream := "http://lf";
     se_auth := None; se_egress := None; se_timeouts := None;
     se_body_limit_bytes := None; se_metadata := None |}.
Definition cat0 : SeedCatalog := {| version := "1.2.0"; entries := [e0; e1] |}.

(** An operator's [tavily] is already there. *)
Definition db1 : RegistrationRepository := repo st1.
Definition db2 : RegistrationRepository := snd (apply_catalog_parsed cat0 50 db1).

Lemma db1_wf : reg_wf db1.
Proof. apply st1_coherent. Qed.

Lemma seed_load_preserves_witness :
  entry "tavily" (snd (apply_catalog_parsed cat0 50 db1)) = Some tavily.
Proof.
  apply (proj1 (proj2 (seed_load_preserves cat0 50 db1 db1_wf ltac:(vm_compute; reflexivity))));
    vm_compute; reflexivity.
Defined.

Lemma seed_gate_witness :
  apply_catalog_parsed {| version := "1.1.9"; entries := [e0] |} 60 db2 = (Ok tt, db2).
Proof.
  apply (proj1 (seed_gate {| version := "1.1.9"; entries := [e0] |} 60 db2));
    vm_compute; reflexivity.
Defined.

Lemma seed_idempotent_witness : apply_catalog_parsed cat0 70 db2 = (Ok tt, db2).
Proof. apply (seed_idempotent cat0 50 70 db1 db2). vm_compute. reflexivity. Defined.

Lemma seed_load_complete_witness : seed_version db2 = Some "1.2.0".
Proof.
  apply (seed_load_complete cat0 50 db1 db2); [apply db1_wf|vm_compute; reflexivity| |].
  - apply (bool_decide_unpack _). vm_compute. exact I.
  - vm_compute. reflexivity.
Defined.

Definition legacy_tool : ToolConfig :=
  {| tc_name := "gh"; tc_description := ""; tc_upstream := "https://api.github.com";
     tc_egress := Direct; tc_credential_handles := []; tc_request_allowlist := None;
     tc_auth := Some {| ta_header := "Authorization"; ta_force_replace := false;
                        ta_value := FromEnv "TOKEN" (Some "Bearer ") |};
     tc_timeouts := default_timeouts; tc_body_limit_bytes := default_body_limit;
     tc_response := None |}.

Definition legacy_repo : RegistrationRepository :=
  snd (bootstrap_from_config_tools {| tools := [legacy_tool] |} 5 empty_repo).

Definition legacy_snap : gmap string string :=
  default ∅ (resolve_tool_creds 5 env0 {| file_sealed := None |} {| tools := [legacy_tool] |}).

Definition legacy_cat : gmap string Registration :=
  match from_repo legacy_repo with Ok c => c | Err _ => ∅ end.

Definition legacy_st : AdminRegistrationsState :=
  {| repo := legacy_repo; catalog := Some legacy_cat;
     resolved_creds := Some (startup_creds env0 legacy_cat legacy_snap) |}.

Lemma legacy_wf : reg_wf legacy_repo.
Proof.
  split.
  - apply (bool_decide_unpack _). vm_compute. exact I.
  - intros r Hr. vm_compute in Hr. apply list_elem_of_singleton in Hr as ->. vm_compute. reflexivity.
Qed.

Lemma legacy_coherent : coherent legacy_st.
Proof.
  split; [apply legacy_wf|]. split; [vm_compute; reflexivity|]. intros c [= <-] n.
  assert (E : from_repo legacy_repo = Ok legacy_cat) by (vm_compute; reflexivity).
  pose proof (from_repo_lookup _ _ n legacy_wf E) as G.
  rewrite reg_get_entry in G; [|apply legacy_wf|vm_compute; reflexivity]. change (repo legacy_st) with legacy_repo. congruence.
Qed.

Lemma refresh_drops_prefix_witness :
  startup_creds env0 legacy_cat legacy_snap !! "gh" = Some ("Bearer " +:+ "s3cr3t") /\
  exists creds', resolved_creds (refresh_runtime env0 legacy_st) = Some creds' /\
    creds' !! "gh" = Some "s3cr3t".
Proof.
  apply (refresh_drops_prefix env0 legacy_st legacy_snap legacy_cat "gh" legacy_tool
    {| ta_header := "Authorization"; ta_force_replace := false;
       ta_value := FromEnv "TOKEN" (Some "Bearer ") |} "TOKEN" "Bearer " "s3cr3t" 5);
    first [reflexivity | discriminate | apply legacy_coherent | vm_compute; reflexivity].
Defined.

End SeedWitness.
