(* ===== verification/Oauth.v ===== *)
(** * OAuth sessions and their refresh ([src/oauth/])

    Token sealing, the [oauth_sessions] table, the account id read out of an
    access token, the refresh of one session against its provider, the
    background tick and the per-session locks.  AES-GCM, the two base64
    engines and the token endpoint are parameters; random nonces and the
    clock are arguments. *)

From S2P Require Import Prelude Json Token AgentRepo AuditLog Secret.
From S2P Require Import ResponseControls Config Registrations.

(** ** Sealing ([sealing.rs]) *)

Class AesGcm : Type := {
  aes_encrypt : string -> string -> string -> option string; (* key, nonce, plaintext *)
  aes_decrypt : string -> string -> string -> option string  (* key, nonce, ciphertext *)
}.

(** Decryption under the same key and nonce gives the plaintext back. *)
Class AesGcmLaws `{AesGcm} : Prop := {
  aes_roundtrip : forall k n p c, aes_encrypt k n p = Some c -> aes_decrypt k n c = Some p
}.

(** The STANDARD (padded) engine of the [base64] crate. *)
Class Base64Std : Type := { std_encode : string -> string; std_decode : string -> option string }.

Inductive SealingKeyError :=
| EnvVarUnset
| InvalidBase64
| InvalidKeyLength (n : nat)
| InvalidNonce (n : nat)
| Decrypt
| NonceGenFailed.

Definition SEALING_KEY_ENV : string := "LOCKSMITH_OAUTH_SEALING_KEY".
Definition NONCE_LEN : nat := 12.
Definition KEY_LEN : nat := 32.

Record SealingKey := { sk_key : string }.

Section Sealing.
Context `{AesGcm} `{Base64Std}.

Definition from_b64 (b64 : string) : result SealingKeyError SealingKey :=
  match std_decode (trim b64) with
  | None => Err InvalidBase64
  | Some bytes =>
      if negb (bool_decide (String.length bytes = KEY_LEN))
      then Err (InvalidKeyLength (String.length bytes))
      else Ok {| sk_key := std_encode bytes |}
  end.

Definition sealing_key_from_env (env : string -> option string)
  : result SealingKeyError SealingKey :=
  match env SEALING_KEY_ENV with
  | None => Err EnvVarUnset
  | Some raw => if bool_decide (raw = "") then Err EnvVarUnset else from_b64 raw
  end.

Definition cipher (k : SealingKey) : result SealingKeyError string :=
  ok_or InvalidBase64 (std_decode (sk_key k)).

(** [nonce] is what [getrandom] filled; [None] when it failed. *)
Definition seal (k : SealingKey) (nonce : option string) (plaintext : string)
  : result SealingKeyError (string * string) :=
  let? c := cipher k in
  match nonce with
  | None => Err NonceGenFailed
  | Some nonce => let? ct := ok_or Decrypt (aes_encrypt c nonce plaintext) in Ok (ct, nonce)
  end.

Definition unseal (k : SealingKey) (ciphertext nonce : string) : result SealingKeyError string :=
  if negb (bool_decide (String.length nonce = NONCE_LEN))
  then Err (InvalidNonce (String.length nonce))
  else let? c := cipher k in ok_or Decrypt (aes_decrypt c nonce ciphertext).

Lemma seal_unseal `{!AesGcmLaws} k nonce p ct n :
  (forall x, nonce = Some x -> String.length x = NONCE_LEN) ->
  seal k nonce p = Ok (ct, n) -> unseal k ct n = Ok p.
Proof.
  intros Hn. unfold seal, unseal. destruct (cipher k) as [c|] eqn:Ec; [|done].
  destruct nonce as [x|]; [|done]. destruct (aes_encrypt c x p) as [y|] eqn:E; [|done].
  intros [= <- <-]. rewrite (Hn x eq_refl). simpl. by rewrite (aes_roundtrip _ _ _ _ E).
Qed.
End Sealing.

(** ** The account id of an access token ([jwt.rs]) *)

Definition OPENAI_AUTH_NAMESPACE : string := "https://api.openai.com/auth".
Definition CHATGPT_ACCOUNT_ID_CLAIM : string := "chatgpt_account_id".

Fixpoint repeat_char (c : ascii) (n : nat) : string :=
  match n with O => EmptyString | S n' => String c (repeat_char c n') end.

Section Jwt.
Context `{Base64Url} `{SerdeJson}.

Definition decode_jwt_payload (token : string) : option Json :=
  match split (is_char ".") token with
  | [_; payload_b64; _] =>
      let pad_len := ((4 - String.length payload_b64 mod 4) mod 4)%nat in
      let padded := payload_b64 +:+ repeat_char "=" pad_len in
      let* decoded := b64_decode (trim_end_matches "=" padded) in
      from_slice decoded
  | _ => None
  end.

Definition extract_chatgpt_account_id (access_token : string) : option string :=
  let* payload := decode_jwt_payload access_token in
  let* auth := json_get OPENAI_AUTH_NAMESPACE payload in
  let* claim := json_get CHATGPT_ACCOUNT_ID_CLAIM auth in
  let* account_id := as_str claim in
  if bool_decide (account_id = "") then None else Some account_id.
End Jwt.

(** ** The session table ([session.rs]) *)

Inductive OauthSessionError :=
| SessionSealing (e : SealingKeyError)
| SessionDatabase
| SessionInvariant (what : string).

Record OauthSession := {
  os_name : string;
  os_label : string;
  os_refresh_token : string;
  os_access_token : option string;
  os_expires_at : option Z;
  os_scope : string;
  os_degraded : bool;
  os_created_at : Z;
  os_updated_at : Z;
  os_account_id : option string
}.

Record SessionRow := {
  sr_name : string;
  sr_label : string;
  sr_refresh_ct : string;
  sr_refresh_nonce : string;
  sr_access_ct : option string;
  sr_access_nonce : option string;
  sr_expires_at : option Z;
  sr_scope : string;
  sr_degraded : Z;
  sr_created_at : Z;
  sr_updated_at : Z;
  sr_account_id : option string
}.

Record OauthSessionRepository := { sessions : list SessionRow; sess_online : bool }.

Definition set_sessions (l : list SessionRow) (db : OauthSessionRepository) : OauthSessionRepository :=
  {| sessions := l; sess_online := sess_online db |}.

(** [WHERE name = ? AND session_label = ?]. *)
Definition by_session (n l : string) (r : SessionRow) : bool :=
  bool_decide (sr_name r = n) && bool_decide (sr_label r = l).

(** [audit_session_id]: 8 bytes of the digest in hex; the i64 in decimal. *)
Definition audit_session_id `{Sha2Crate} (s : OauthSession) : string :=
  hex_sha256 (str_take 8 (sha256
    (os_name s +:+ ":" +:+ os_label s +:+ ":" +:+ pretty.pretty (os_created_at s)))).

Section Sessions.
Context `{AesGcm} `{Base64Std} `{Base64Url} `{SerdeJson}.

Definition seal_opt (k : SealingKey) (nonce : option string) (t : option string)
  : result SealingKeyError (option (string * string)) :=
  match t with
  | None => Ok None
  | Some t => let? c := seal k nonce t in Ok (Some c)
  end.

Definition session_create (k : SealingKey) (n l refresh : string) (access : option string)
    (expires : option Z) (scope : string) (nonce1 nonce2 : option string) (now : Z)
    (db : OauthSessionRepository) : result OauthSessionError OauthSession * OauthSessionRepository :=
  match seal k nonce1 refresh, seal_opt k nonce2 access with
  | Err e, _ | _, Err e => (Err (SessionSealing e), db)
  | Ok (rct, rn), Ok asealed =>
      let account_id := let* t := access in extract_chatgpt_account_id t in
      if negb (sess_online db) then (Err SessionDatabase, db)
      else if sql_exists (by_session n l) (sessions db) then (Err SessionDatabase, db)
      else
        let row := {|
          sr_name := n; sr_label := l; sr_refresh_ct := rct; sr_refresh_nonce := rn;
          sr_access_ct := fst <$> asealed; sr_access_nonce := snd <$> asealed;
          sr_expires_at := expires; sr_scope := scope; sr_degraded := 0;
          sr_created_at := now; sr_updated_at := now; sr_account_id := account_id |} in
        (Ok {| os_name := n; os_label := l; os_refresh_token := refresh;
               os_access_token := access; os_expires_at := expires; os_scope := scope;
               os_degraded := false; os_created_at := now; os_updated_at := now;
               os_account_id := account_id |},
         set_sessions (sessions db ++ [row]) db)
  end.

(** The two UPDATE statements of [update_tokens]. *)
Definition with_tokens (act an : string) (expires : Z) (refresh : option (string * string))
    (account_id : option string) (now : Z) (r : SessionRow) : SessionRow :=
  {| sr_name := sr_name r; sr_label := sr_label r;
     sr_refresh_ct := match refresh with Some (c, _) => c | None => sr_refresh_ct r end;
     sr_refresh_nonce := match refresh with Some (_, x) => x | None => sr_refresh_nonce r end;
     sr_access_ct := Some act; sr_access_nonce := Some an; sr_expires_at := Some expires;
     sr_scope := sr_scope r; sr_degraded := 0; sr_created_at := sr_created_at r;
     sr_updated_at := now; sr_account_id := account_id |}.

Definition update_tokens (k : SealingKey) (n l access : string) (expires : Z)
    (refresh : option string) (nonce1 nonce2 : option string) (now : Z)
    (db : OauthSessionRepository) : result OauthSessionError unit * OauthSessionRepository :=
  match seal k nonce1 access, seal_opt k nonce2 refresh with
  | Err e, _ | _, Err e => (Err (SessionSealing e), db)
  | Ok (act, an), Ok rsealed =>
      if negb (sess_online db) then (Err SessionDatabase, db)
      else (Ok tt, set_sessions
              (sql_update (by_session n l)
                 (with_tokens act an expires rsealed (extract_chatgpt_account_id access) now)
                 (sessions db)) db)
  end.

Definition with_degraded (now : Z) (r : SessionRow) : SessionRow :=
  {| sr_name := sr_name r; sr_label := sr_label r; sr_refresh_ct := sr_refresh_ct r;
     sr_refresh_nonce := sr_refresh_nonce r; sr_access_ct := sr_access_ct r;
     sr_access_nonce := sr_access_nonce r; sr_expires_at := sr_expires_at r;
     sr_scope := sr_scope r; sr_degraded := 1; sr_created_at := sr_created_at r;
     sr_updated_at := now; sr_account_id := sr_account_id r |}.

Definition mark_degraded (n l : string) (now : Z) (db : OauthSessionRepository)
  : result OauthSessionError unit * OauthSessionRepository :=
  if negb (sess_online db) then (Err SessionDatabase, db)
  else (Ok tt, set_sessions (sql_update (by_session n l) (with_degraded now) (sessions db)) db).

(** [key.unseal(..)] followed by [String::from_utf8]. *)
Definition unseal_utf8 (k : SealingKey) (ct nonce what : string)
  : result OauthSessionError string :=
  let? pt := map_err SessionSealing (unseal k ct nonce) in
  if is_utf8 pt then Ok pt else Err (SessionInvariant what).

Definition row_to_session (k : SealingKey) (r : SessionRow)
  : result OauthSessionError OauthSession :=
  let? rt := unseal_utf8 k (sr_refresh_ct r) (sr_refresh_nonce r)
               "refresh-token plaintext is not UTF-8" in
  let? at_ := match sr_access_ct r, sr_access_nonce r with
              | Some ct, Some nonce =>
                  let? t := unseal_utf8 k ct nonce "access-token plaintext is not UTF-8" in
                  Ok (Some t)
              | None, None => Ok None
              | _, _ => Err (SessionInvariant
                               "access_token_ciphertext / access_token_nonce out of sync")
              end in
  Ok {| os_name := sr_name r; os_label := sr_label r; os_refresh_token := rt;
        os_access_token := at_; os_expires_at := sr_expires_at r; os_scope := sr_scope r;
        os_degraded := negb (sr_degraded r =? 0); os_created_at := sr_created_at r;
        os_updated_at := sr_updated_at r; os_account_id := sr_account_id r |}.

Definition session_get (k : SealingKey) (n l : string) (db : OauthSessionRepository)
  : result OauthSessionError (option OauthSession) :=
  if negb (sess_online db) then Err SessionDatabase
  else match find_first (by_session n l) (sessions db) with
       | None => Ok None
       | Some row => let? s := row_to_session k row in Ok (Some s)
       end.

Definition session_delete (n l : string) (db : OauthSessionRepository)
  : result OauthSessionError bool * OauthSessionRepository :=
  if negb (sess_online db) then (Err SessionDatabase, db)
  else (Ok (sql_exists (by_session n l) (sessions db)),
        set_sessions (sql_delete (by_session n l) (sessions db)) db).

Definition is_pending (threshold : Z) (r : SessionRow) : bool :=
  (sr_degraded r =? 0) &&
  match sr_expires_at r with Some e => e <=? threshold | None => false end.

(** [ORDER BY access_token_expires_at ASC]. *)
Definition expires_le (a b : SessionRow) : Prop :=
  default 0 (sr_expires_at a) <= default 0 (sr_expires_at b).
#[global] Instance expires_le_dec : RelDecision expires_le.
Proof. intros a b. unfold expires_le. apply _. Defined.

Definition list_pending_refresh (threshold : Z) (db : OauthSessionRepository)
  : result OauthSessionError (list (string * string)) :=
  if negb (sess_online db) then Err SessionDatabase
  else Ok (map (fun r => (sr_name r, sr_label r))
             (merge_sort expires_le (List.filter (is_pending threshold) (sessions db)))).

(** [ORDER BY name, session_label]. *)
Definition session_key_le (a b : SessionRow) : Prop :=
  String.ltb (sr_name a) (sr_name b) = true \/
  (sr_name a = sr_name b /\ String.leb (sr_label a) (sr_label b) = true).
#[global] Instance session_key_le_dec : RelDecision session_key_le.
Proof. intros a b. unfold session_key_le. apply _. Defined.

Definition list_all (db : OauthSessionRepository)
  : result OauthSessionError (list (string * string * bool * option Z)) :=
  if negb (sess_online db) then Err SessionDatabase
  else Ok (map (fun r => (sr_name r, sr_label r, negb (sr_degraded r =? 0), sr_expires_at r))
             (merge_sort session_key_le (sessions db))).
End Sessions.

(** ** Refresh ([refresh.rs]) *)

Definition DEFAULT_REFRESH_SAFETY_MARGIN_SECS : Z := 300.
Definition MIN_REFRESH_SAFETY_MARGIN_SECS : Z := 60.

Definition refresh_safety_margin_secs (lifetime_secs : Z) : Z :=
  let by_quarter := Z.quot lifetime_secs 4 in
  let chosen := Z.min DEFAULT_REFRESH_SAFETY_MARGIN_SECS by_quarter in
  Z.max chosen MIN_REFRESH_SAFETY_MARGIN_SECS.

(** The lock map: a lock is the index it was created with. *)
Abbreviation RefreshLockMap := (gmap string nat) (only parsing).

Definition lock_key (n l : string) : string := n +:+ String (ascii_of_N 31) l.

Definition lock_get (n l : string) (m : RefreshLockMap) : nat * RefreshLockMap :=
  match m !! lock_key n l with
  | Some i => (i, m)
  | None => (size m, <[lock_key n l := size m]> m)
  end.

Record TokenResponse := {
  tr_access_token : string;
  tr_expires_in : option Z;
  tr_refresh_token : option string
}.

Inductive RefreshError :=
| RegistrationGone (n : string)
| NotOauth (n : string)
| Network
| RevokedByProvider (status : Z)
| ProviderError (status : Z)
| BadResponse
| Persist.

Definition audit_cause (e : RefreshError) : string :=
  match e with
  | RegistrationGone _ => "registration_gone"
  | NotOauth _ => "not_oauth"
  | Network => "network_error"
  | RevokedByProvider _ => "revoked"
  | ProviderError _ => "provider_5xx"
  | BadResponse => "bad_response"
  | Persist => "persist_failed"
  end.

(** [StatusCode::is_success] and [is_client_error]. *)
Definition is_success (code : Z) : bool := (200 <=? code) && (code <? 300).
Definition is_client_error (code : Z) : bool := (400 <=? code) && (code <? 500).

(** A token-endpoint exchange: [None] when sending failed, otherwise the
    status and what [response.json()] gives. *)
Abbreviation TokenEndpoint :=
  (string -> list (string * string) -> option (Z * option TokenResponse)) (only parsing).

Section Refresh.
Context `{AesGcm} `{Base64Std} `{Base64Url} `{SerdeJson}.
Context (post : TokenEndpoint).

(** [update_tokens] followed by the read back, with [now] the clock and the
    addition wrapped to [i64]. *)
Definition refresh_session (cat : gmap string Registration) (k : SealingKey) (s : OauthSession)
    (nonce1 nonce2 : option string) (now : Z) (db : OauthSessionRepository)
  : result RefreshError OauthSession * OauthSessionRepository :=
  match lookup_active (os_name s) cat with
  | None => (Err (RegistrationGone (os_name s)), db)
  | Some registration =>
      match auth registration with
      | OauthPkce client_id _ _ _ token_url _ | OauthDeviceCode client_id _ _ token_url _ =>
          let form := [("grant_type", "refresh_token"); ("refresh_token", os_refresh_token s);
                       ("client_id", client_id)] in
          match post token_url form with
          | None => (Err Network, db)
          | Some (status, body) =>
              if negb (is_success status) then
                (Err (if is_client_error status then RevokedByProvider status
                      else ProviderError status), db)
              else
                match body with
                | None => (Err BadResponse, db)
                | Some tr =>
                    let lifetime := default 3600 (tr_expires_in tr) in
                    let new_expires_at := as_i64 (now + lifetime) in
                    match update_tokens k (os_name s) (os_label s) (tr_access_token tr)
                            new_expires_at (tr_refresh_token tr) nonce1 nonce2 now db with
                    | (Err _, db') => (Err Persist, db')
                    | (Ok _, db') =>
                        (match session_get k (os_name s) (os_label s) db' with
                         | Ok (Some s') => Ok s'
                         | Ok None | Err _ => Err Persist
                         end, db')
                    end
                end
          end
      | _ => (Err (NotOauth (os_name s)), db)
      end
  end.

(** One item of the background tick, under its session's lock.  [nonces] are
    the random nonces of this item's seals. *)
Definition refresh_item (cat : gmap string Registration) (k : SealingKey) (threshold now : Z)
    (item : string * string) (nonces : option string * option string)
    (db : OauthSessionRepository) : OauthSessionRepository :=
  match session_get k item.1 item.2 db with
  | Err _ | Ok None => db
  | Ok (Some s) =>
      if os_degraded s then db
      else if match os_expires_at s with Some e => threshold <? e | None => false end then db
      else
        match refresh_session cat k s nonces.1 nonces.2 now db with
        | (Ok _, db') => db'
        | (Err _, db') => snd (mark_degraded item.1 item.2 now db')
        end
  end.

(** One tick of [run]; the nonces are drawn per item. *)
Definition tick (cat : gmap string Registration) (k : SealingKey) (now : Z)
    (nonces : string * string -> option string * option string)
    (db : OauthSessionRepository) : OauthSessionRepository :=
  let threshold := now + DEFAULT_REFRESH_SAFETY_MARGIN_SECS in
  match list_pending_refresh threshold db with
  | Err _ => db
  | Ok items => fold_left (fun d it => refresh_item cat k threshold now it (nonces it) d) items db
  end.
End Refresh.

(** ** Properties *)

Section OauthProps.
Context `{AesGcm} `{Base64Std} `{Base64Url} `{SerdeJson}.

Record sessions_wf (db : OauthSessionRepository) : Prop := {
  sw_keys : NoDup (map (fun r => (sr_name r, sr_label r)) (sessions db))
}.

Lemma by_session_iff n l r : by_session n l r = true <-> sr_name r = n /\ sr_label r = l.
Proof. unfold by_session. rewrite andb_true_iff, !bool_decide_eq_true. done. Qed.

Lemma find_session n l db row :
  find_first (by_session n l) (sessions db) = Some row ->
  row ∈ sessions db /\ sr_name row = n /\ sr_label row = l.
Proof. intros [F1 F2%by_session_iff]%find_first_Some. done. Qed.

Context {Laws : AesGcmLaws}.

Definition nonce_ok (n : option string) : Prop :=
  forall x, n = Some x -> String.length x = NONCE_LEN.

Lemma unseal_sealed k nonce p ct n what :
  nonce_ok nonce -> is_utf8 p = true -> seal k nonce p = Ok (ct, n) ->
  unseal_utf8 k ct n what = Ok p.
Proof. intros Hn Hu Hs. unfold unseal_utf8. rewrite (seal_unseal _ _ _ _ _ Hn Hs). simpl. by rewrite Hu. Qed.

(** A created session is read back as it was created, tokens included,
    through sealing and unsealing; a second create under the same name and
    label is refused and keeps the first. *)
Theorem session_create_get k n l refresh access expires scope n1 n2 now db s db' :
  nonce_ok n1 -> nonce_ok n2 -> is_utf8 refresh = true ->
  (forall t, access = Some t -> is_utf8 t = true) ->
  session_create k n l refresh access expires scope n1 n2 now db = (Ok s, db') ->
  os_refresh_token s = refresh /\ os_access_token s = access /\ os_degraded s = false /\
  session_get k n l db' = Ok (Some s) /\
  (forall r2 a2 e2 sc2 m1 m2 t,
     is_ok (fst (session_create k n l r2 a2 e2 sc2 m1 m2 t db')) = false /\
     snd (session_create k n l r2 a2 e2 sc2 m1 m2 t db') = db').
Proof.
  intros Hn1 Hn2 Hur Hua. unfold session_create at 1.
  destruct (seal k n1 refresh) as [[rct rn]|] eqn:Er; [|done].
  destruct (seal_opt k n2 access) as [asealed|] eqn:Ea; [|done].
  destruct (sess_online db) eqn:Hon; [|done]. simpl.
  destruct (sql_exists (by_session n l) (sessions db)) eqn:Ex; [done|].
  intros [= <- <-]. repeat (split; [done|]). split.
  - unfold session_get. simpl. rewrite Hon. simpl. rewrite find_first_app.
    rewrite (proj2 (find_first_None _ _) (proj1 (sql_exists_false _ _) Ex)). simpl.
    rewrite (proj2 (by_session_iff n l _)) by done. unfold row_to_session. simpl.
    rewrite (unseal_sealed _ _ _ _ _ _ Hn1 Hur Er). destruct access as [t|]; simpl in Ea.
    + destruct (seal k n2 t) as [[act an]|] eqn:Es; [|done]. injection Ea as <-. simpl.
      by rewrite (unseal_sealed _ _ _ _ _ _ Hn2 (Hua t eq_refl) Es).
    + by injection Ea as <-.
  - intros r2 a2 e2 sc2 m1 m2 t. unfold session_create.
    destruct (seal k m1 r2) as [[]|]; [|by destruct (seal_opt k m2 a2)].
    destruct (seal_opt k m2 a2); [|done]. simpl. rewrite Hon. simpl.
    assert (E : sql_exists (by_session n l) (sessions db ++ [{|
          sr_name := n; sr_label := l; sr_refresh_ct := rct; sr_refresh_nonce := rn;
          sr_access_ct := fst <$> asealed; sr_access_nonce := snd <$> asealed;
          sr_expires_at := expires; sr_scope := scope; sr_degraded := 0;
          sr_created_at := now; sr_updated_at := now;
          sr_account_id := let* t := access in extract_chatgpt_account_id t |}]) = true).
    { unfold sql_exists. rewrite existsb_app. apply orb_true_iff. right. simpl.
      by rewrite (proj2 (by_session_iff n l _)). }
    by rewrite E.
Qed.
(** *** One refresh *)

Definition row_at (n l : string) (db : OauthSessionRepository) : option SessionRow :=
  find_first (by_session n l) (sessions db).

Lemma by_session_other n l n' l' r :
  (n, l) <> (n', l') -> by_session n l r = true -> by_session n' l' r = false.
Proof.
  intros Hne [E1 E2]%by_session_iff. apply not_true_iff_false. intros [E3 E4]%by_session_iff.
  congruence.
Qed.

(** An update of one session's row that keeps its key. *)
Lemma row_at_update n l n' l' (f : SessionRow -> SessionRow) db :
  (forall r, sr_name (f r) = sr_name r /\ sr_label (f r) = sr_label r) ->
  row_at n l (set_sessions (sql_update (by_session n' l') f (sessions db)) db) =
  if bool_decide ((n, l) = (n', l')) then f <$> row_at n l db else row_at n l db.
Proof.
  intros Hf. unfold row_at. simpl. rewrite find_first_sql_update.
  2: { intros r. unfold by_session. by destruct (Hf r) as [-> ->]. }
  destruct (find_first (by_session n l) (sessions db)) as [row|] eqn:F; simpl; [|by case_bool_decide].
  apply find_first_Some in F as [_ F]. case_bool_decide as Hk.
  - injection Hk as -> ->. by rewrite F.
  - by rewrite (by_session_other n l n' l' row).
Qed.

Lemma update_tokens_row k n l access expires refresh n1 n2 now db db' :
  update_tokens k n l access expires refresh n1 n2 now db = (Ok tt, db') ->
  sess_online db' = sess_online db /\
  exists act an rs, seal k n1 access = Ok (act, an) /\ seal_opt k n2 refresh = Ok rs /\
    forall n' l', row_at n' l' db' =
      if bool_decide ((n', l') = (n, l))
      then with_tokens act an expires rs (extract_chatgpt_account_id access) now <$> row_at n' l' db
      else row_at n' l' db.
Proof.
  unfold update_tokens. destruct (seal k n1 access) as [[act an]|]; [|done].
  destruct (seal_opt k n2 refresh) as [rs|]; [|done]. destruct (sess_online db) eqn:Hon; [|done].
  intros [= <-]. split; [done|]. exists act, an, rs. split; [done|]. split; [done|].
  intros n' l'. by apply row_at_update.
Qed.

Lemma session_get_row k n l db s :
  session_get k n l db = Ok (Some s) ->
  sess_online db = true /\ exists row, row_at n l db = Some row /\ row_to_session k row = Ok s.
Proof.
  unfold session_get, row_at. destruct (sess_online db); [|done]. simpl. intros E. split; [done|].
  destruct (find_first _ _) as [row|]; [|done]. exists row. split; [done|].
  destruct (row_to_session k row); by simplify_eq/=.
Qed.

Lemma row_with_tokens k row s n1 n2 access act an refresh rs expires acct now :
  nonce_ok n1 -> nonce_ok n2 -> is_utf8 access = true ->
  (forall t, refresh = Some t -> is_utf8 t = true) ->
  seal k n1 access = Ok (act, an) -> seal_opt k n2 refresh = Ok rs ->
  row_to_session k row = Ok s ->
  row_to_session k (with_tokens act an expires rs acct now row) =
    Ok {| os_name := os_name s; os_label := os_label s;
          os_refresh_token := default (os_refresh_token s) refresh;
          os_access_token := Some access; os_expires_at := Some expires; os_scope := os_scope s;
          os_degraded := false; os_created_at := os_created_at s; os_updated_at := now;
          os_account_id := acct |}.
Proof.
  intros Hn1 Hn2 Hua Hur Ea Er Es. unfold row_to_session in *. simpl in *.
  destruct (unseal_utf8 k (sr_refresh_ct row) (sr_refresh_nonce row) _) as [rt|] eqn:Ert; [|done].
  destruct (match sr_access_ct row with Some _ => _ | None => _ end) as [old|]; [|done].
  injection Es as <-. simpl. destruct refresh as [t|]; simpl in Er.
  - destruct (seal k n2 t) as [[rct rn]|] eqn:E2; [|done]. injection Er as <-.
    rewrite (unseal_sealed _ _ _ _ _ _ Hn2 (Hur t eq_refl) E2).
    by rewrite (unseal_sealed _ _ _ _ _ _ Hn1 Hua Ea).
  - injection Er as <-. rewrite Ert. by rewrite (unseal_sealed _ _ _ _ _ _ Hn1 Hua Ea).
Qed.

(** The client id and the token endpoint of an OAuth registration. *)
Definition oauth_endpoint (a : AuthSpec) : option (string * string) :=
  match a with
  | OauthPkce client_id _ _ _ token_url _ | OauthDeviceCode client_id _ _ token_url _ =>
      Some (client_id, token_url)
  | _ => None
  end.

(** What the token endpoint of the registration answered to the refresh grant
    of [s]. *)
Definition exchanged (post : TokenEndpoint) (cat : gmap string Registration) (s : OauthSession)
    (tr : TokenResponse) : Prop :=
  exists reg url client status,
    lookup_active (os_name s) cat = Some reg /\ oauth_endpoint (auth reg) = Some (client, url) /\
    post url [("grant_type", "refresh_token"); ("refresh_token", os_refresh_token s);
              ("client_id", client)] = Some (status, Some tr) /\ is_success status = true.

(** The session a token response turns [s] into. *)
Definition refreshed (now : Z) (tr : TokenResponse) (s : OauthSession) : OauthSession :=
  {| os_name := os_name s; os_label := os_label s;
     os_refresh_token := default (os_refresh_token s) (tr_refresh_token tr);
     os_access_token := Some (tr_access_token tr);
     os_expires_at := Some (as_i64 (now + default 3600 (tr_expires_in tr)));
     os_scope := os_scope s; os_degraded := false; os_created_at := os_created_at s;
     os_updated_at := now; os_account_id := extract_chatgpt_account_id (tr_access_token tr) |}.

(** Provider text is valid UTF-8 ([String]s). *)
Definition reply_utf8 (post : TokenEndpoint) : Prop :=
  forall url form st tr, post url form = Some (st, Some tr) ->
    is_utf8 (tr_access_token tr) = true /\
    forall t, tr_refresh_token tr = Some t -> is_utf8 t = true.

(** Every outcome of a refresh: the exchange happened and the table was
    updated, or the table is as before. *)
Lemma refresh_session_cases post cat k s n1 n2 now db r db' :
  refresh_session post cat k s n1 n2 now db = (r, db') ->
  (exists e, r = Err e /\ db' = db) \/
  exists tr, exchanged post cat s tr /\
    update_tokens k (os_name s) (os_label s) (tr_access_token tr)
      (as_i64 (now + default 3600 (tr_expires_in tr))) (tr_refresh_token tr) n1 n2 now db
      = (Ok tt, db') /\
    r = match session_get k (os_name s) (os_label s) db' with
        | Ok (Some s') => Ok s' | Ok None | Err _ => Err Persist end.
Proof.
  unfold refresh_session. destruct (lookup_active (os_name s) cat) as [reg|] eqn:El; [|by intros [= <- <-]; eauto].
  assert (G : forall url client, oauth_endpoint (auth reg) = Some (client, url) ->
    match post url [("grant_type", "refresh_token"); ("refresh_token", os_refresh_token s);
                    ("client_id", client)] with
    | None => (Err Network, db)
    | Some (status, body) =>
        if negb (is_success status) then
          (Err (if is_client_error status then RevokedByProvider status else ProviderError status), db)
        else match body with
             | None => (Err BadResponse, db)
             | Some tr =>
                 match update_tokens k (os_name s) (os_label s) (tr_access_token tr)
                         (as_i64 (now + default 3600 (tr_expires_in tr))) (tr_refresh_token tr)
                         n1 n2 now db with
                 | (Err _, d) => (Err Persist, d)
                 | (Ok _, d) => (match session_get k (os_name s) (os_label s) d with
                                 | Ok (Some s') => Ok s' | Ok None | Err _ => Err Persist end, d)
                 end
             end
    end = (r, db') ->
    (exists e, r = Err e /\ db' = db) \/
    exists tr, exchanged post cat s tr /\
      update_tokens k (os_name s) (os_label s) (tr_access_token tr)
        (as_i64 (now + default 3600 (tr_expires_in tr))) (tr_refresh_token tr) n1 n2 now db
        = (Ok tt, db') /\
      r = match session_get k (os_name s) (os_label s) db' with
          | Ok (Some s') => Ok s' | Ok None | Err _ => Err Persist end).
  { intros url client Ho. destruct (post url _) as [[status body]|] eqn:Ep; [|intros [= <- <-]; eauto].
    destruct (is_success status) eqn:Es; [|intros [= <- <-]; eauto]. simpl.
    destruct body as [tr|]; [|intros [= <- <-]; eauto].
    destruct (update_tokens _ _ _ _ _ _ _ _ _ _) as [[[]|] d] eqn:Eu.
    - intros [= <- <-]. right. exists tr. split; [|done]. exists reg, url, client, status. done.
    - intros [= <- <-]. left. eexists. split; [done|]. unfold update_tokens in Eu.
      by repeat case_match; simplify_eq. }
  destruct (auth reg) eqn:Ea; try (intros [= <- <-]; eauto); by apply G.
Qed.

Lemma refresh_session_stores post cat k s n1 n2 now db s' db' :
  nonce_ok n1 -> nonce_ok n2 -> reply_utf8 post ->
  session_get k (os_name s) (os_label s) db = Ok (Some s) ->
  refresh_session post cat k s n1 n2 now db = (Ok s', db') ->
  exists tr, exchanged post cat s tr /\ s' = refreshed now tr s /\
    session_get k (os_name s) (os_label s) db' = Ok (Some s') /\
    forall n l, (n, l) <> (os_name s, os_label s) -> row_at n l db' = row_at n l db.
Proof.
  intros Hn1 Hn2 Hutf Hget Href.
  destruct (refresh_session_cases _ _ _ _ _ _ _ _ _ _ Href) as [(e & He & _)|(tr & Hx & Hu & Hr)]; [done|].
  exists tr. split; [done|]. destruct (update_tokens_row _ _ _ _ _ _ _ _ _ _ _ Hu)
    as (Hon' & act & an & rs & Ea & Er & Hrow).
  destruct (session_get_row _ _ _ _ _ Hget) as (Hon & row & Hat & Hs).
  assert (Hutr : is_utf8 (tr_access_token tr) = true /\
                 forall t, tr_refresh_token tr = Some t -> is_utf8 t = true).
  { destruct Hx as (reg & url & client & st & _ & _ & Hp & _). by eapply Hutf. }
  assert (G : session_get k (os_name s) (os_label s) db' = Ok (Some (refreshed now tr s))).
  { unfold session_get. rewrite Hon', Hon. simpl. fold (row_at (os_name s) (os_label s) db').
    rewrite Hrow, bool_decide_eq_true_2, Hat by done. simpl.
    by rewrite (row_with_tokens k row s n1 n2 _ _ _ _ _ _ _ _ Hn1 Hn2 (proj1 Hutr) (proj2 Hutr) Ea Er Hs). }
  rewrite G in Hr. injection Hr as ->. split; [done|]. split; [done|].
  intros n l Hne. rewrite Hrow. by rewrite bool_decide_eq_false_2.
Qed.

Lemma refresh_session_exchanged post cat k s n1 n2 now db tr :
  exchanged post cat s tr ->
  refresh_session post cat k s n1 n2 now db =
  match update_tokens k (os_name s) (os_label s) (tr_access_token tr)
          (as_i64 (now + default 3600 (tr_expires_in tr))) (tr_refresh_token tr) n1 n2 now db with
  | (Err _, d) => (Err Persist, d)
  | (Ok _, d) => (match session_get k (os_name s) (os_label s) d with
                  | Ok (Some s') => Ok s' | Ok None | Err _ => Err Persist end, d)
  end.
Proof.
  intros (reg & url & client & st & Hl & He & Hp & Hs). unfold refresh_session. rewrite Hl.
  destruct (auth reg); try done; injection He as -> ->; by rewrite Hp, Hs.
Qed.

(** A refresh that fails leaves the table as it was, and fails only because
    the provider gave no tokens or they could not be sealed. *)
Lemma refresh_session_refused post cat k s n1 n2 now db e db' :
  nonce_ok n1 -> nonce_ok n2 -> reply_utf8 post ->
  session_get k (os_name s) (os_label s) db = Ok (Some s) ->
  refresh_session post cat k s n1 n2 now db = (Err e, db') ->
  db' = db /\ forall tr, exchanged post cat s tr ->
    is_ok (seal k n1 (tr_access_token tr)) && is_ok (seal_opt k n2 (tr_refresh_token tr)) = false.
Proof.
  intros Hn1 Hn2 Hutf Hget Href.
  assert (F : forall tr db2, exchanged post cat s tr ->
    update_tokens k (os_name s) (os_label s) (tr_access_token tr)
      (as_i64 (now + default 3600 (tr_expires_in tr))) (tr_refresh_token tr) n1 n2 now db
      = (Ok tt, db2) -> False).
  { intros tr db2 Hx Hu. rewrite (refresh_session_exchanged _ _ _ _ _ _ _ _ _ Hx), Hu in Href.
    destruct (update_tokens_row _ _ _ _ _ _ _ _ _ _ _ Hu) as (Hon' & act & an & rs & Ea & Er & Hrow).
    destruct (session_get_row _ _ _ _ _ Hget) as (Hon & row & Hat & Hs).
    destruct Hx as (reg & url & client & st & _ & _ & Hp & _). destruct (Hutf _ _ _ _ Hp) as [U1 U2].
    revert Href. unfold session_get at 1. rewrite Hon', Hon. simpl.
    fold (row_at (os_name s) (os_label s) db2). rewrite Hrow, bool_decide_eq_true_2, Hat by done. simpl.
    by rewrite (row_with_tokens k row s n1 n2 _ _ _ _ _ _ _ _ Hn1 Hn2 U1 U2 Ea Er Hs). }
  split.
  - destruct (refresh_session_cases _ _ _ _ _ _ _ _ _ _ Href) as [(? & _ & ->)|(tr & Hx & Hu & _)];
      [done|]. by destruct (F tr db').
  - intros tr Hx. specialize (F tr). unfold update_tokens in F.
    destruct (session_get_row _ _ _ _ _ Hget) as [Hon _]. rewrite Hon in F.
    destruct (seal k n1 _) as [[act an]|]; [|done]. destruct (seal_opt k n2 _); [|done].
    by destruct (F _ Hx eq_refl).
Qed.

(** A successful refresh stores what the provider returned and nothing
    else: the session keeps its identity, gets the new access token with its
    expiry and the account id of that very token, the refresh token is
    replaced exactly when the provider rotated it, the degraded mark is
    cleared, and no other session changes. *)
Theorem refresh_session_ok post cat k s n1 n2 now db s' db' :
  nonce_ok n1 -> nonce_ok n2 -> reply_utf8 post ->
  session_get k (os_name s) (os_label s) db = Ok (Some s) ->
  refresh_session post cat k s n1 n2 now db = (Ok s', db') ->
  exists tr, exchanged post cat s tr /\ s' = refreshed now tr s /\
    session_get k (os_name s) (os_label s) db' = Ok (Some s') /\
    forall n l, (n, l) <> (os_name s, os_label s) -> row_at n l db' = row_at n l db.
Proof. apply refresh_session_stores. Qed.
End OauthProps.

(** *** The background tick *)

Section TickProps.
Context `{AesGcm} `{Base64Std} `{Base64Url} `{SerdeJson}.
Context (post : TokenEndpoint) (cat : gmap string Registration) (k : SealingKey) (now : Z).

Lemma row_to_session_key row s :
  row_to_session k row = Ok s ->
  os_name s = sr_name row /\ os_label s = sr_label row /\
  os_degraded s = negb (sr_degraded row =? 0) /\ os_expires_at s = sr_expires_at row.
Proof.
  unfold row_to_session. destruct (unseal_utf8 _ _ _ _); [|done].
  by destruct (match sr_access_ct row with Some _ => _ | None => _ end); intros; simplify_eq/=.
Qed.

Lemma session_get_key n l db s :
  session_get k n l db = Ok (Some s) -> os_name s = n /\ os_label s = l.
Proof.
  intros (_ & row & Hat & Hs)%session_get_row. apply row_to_session_key in Hs as (-> & -> & _).
  unfold row_at in Hat. by apply find_session in Hat as (_ & -> & ->).
Qed.

Lemma mark_degraded_row n l t db n' l' :
  sess_online (snd (mark_degraded n l t db)) = sess_online db /\
  row_at n' l' (snd (mark_degraded n l t db)) =
  if sess_online db && bool_decide ((n', l') = (n, l))
  then with_degraded t <$> row_at n' l' db else row_at n' l' db.
Proof.
  unfold mark_degraded. destruct (sess_online db) eqn:Hon; simpl; [|done]. split; [done|].
  by apply row_at_update.
Qed.

(** An item of the tick works on its own session only. *)
Lemma refresh_item_other threshold item nonces db n l :
  (n, l) <> item ->
  row_at n l (refresh_item post cat k threshold now item nonces db) = row_at n l db.
Proof.
  intros Hne. destruct item as [n0 l0]. unfold refresh_item. simpl.
  destruct (session_get k n0 l0 db) as [[s|]|] eqn:Eg; try done.
  destruct (os_degraded s); [done|]. destruct (match os_expires_at s with Some _ => _ | None => _ end); [done|].
  destruct (refresh_session _ _ _ _ _ _ _ _) as [r db'] eqn:Er.
  assert (Hr : row_at n l db' = row_at n l db).
  { destruct (refresh_session_cases _ _ _ _ _ _ _ _ _ _ Er) as [(e & _ & ->)|(tr & _ & Hu & _)]; [done|].
    destruct (session_get_key _ _ _ _ Eg) as [En El].
    destruct (update_tokens_row _ _ _ _ _ _ _ _ _ _ _ Hu) as (_ & ? & ? & ? & _ & _ & Hrow).
    rewrite Hrow, En, El. by rewrite bool_decide_eq_false_2. }
  destruct r; [done|]. rewrite (proj2 (mark_degraded_row n0 l0 now db' n l)).
  rewrite (bool_decide_eq_false_2 ((n, l) = (n0, l0))) by done. by rewrite andb_false_r.
Qed.

Lemma refresh_fold_other threshold items nonces db n l :
  (n, l) ∉ items ->
  row_at n l (fold_left (fun d it => refresh_item post cat k threshold now it (nonces it) d) items db)
  = row_at n l db.
Proof.
  revert db. induction items as [|it items IH]; intros db Hn; [done|]. simpl.
  apply not_elem_of_cons in Hn as [H1' H2']. rewrite IH by done. by apply refresh_item_other.
Qed.

(** A degraded session is never retried. *)
Lemma refresh_item_degraded threshold item nonces db n l row :
  row_at n l db = Some row -> sr_degraded row = 1 ->
  row_at n l (refresh_item post cat k threshold now item nonces db) = Some row.
Proof.
  intros Hat Hd. destruct (decide ((n, l) = item)) as [<-|Hne]; [|by rewrite refresh_item_other].
  unfold refresh_item. cbn [fst snd].
  destruct (session_get k n l db) as [[s|]|] eqn:Eg; [|done..].
  apply session_get_row in Eg as (_ & row' & Hat' & Hs). rewrite Hat in Hat'. injection Hat' as <-.
  apply row_to_session_key in Hs as (_ & _ & -> & _). by rewrite Hd.
Qed.

Lemma tick_degraded nonces db n l row :
  row_at n l db = Some row -> sr_degraded row = 1 ->
  row_at n l (tick post cat k now nonces db) = Some row.
Proof.
  intros Hat Hd. unfold tick. destruct (list_pending_refresh _ db) as [items|]; [|done].
  revert db Hat. induction items as [|it items IH]; intros db Hat; [done|]. simpl.
  by apply IH, refresh_item_degraded.
Qed.

(** Looking a session up is looking its key up. *)
Lemma find_first_by_session n l rows :
  find_first (by_session n l) rows =
  find_first (fun x => bool_decide ((sr_name x, sr_label x) = (n, l))) rows.
Proof.
  induction rows as [|x rows IH]; [done|]. simpl. rewrite IH.
  replace (by_session n l x) with (bool_decide ((sr_name x, sr_label x) = (n, l))); [done|].
  apply eq_true_iff_eq. rewrite by_session_iff, bool_decide_eq_true.
  split; [by intros [= -> ->]|by intros [-> ->]].
Qed.

(** The keys a tick works through. *)
Lemma list_pending_elem threshold db items n l :
  sessions_wf db -> list_pending_refresh threshold db = Ok items ->
  (n, l) ∈ items <-> exists row, row_at n l db = Some row /\ is_pending threshold row = true.
Proof.
  intros [W]. unfold list_pending_refresh. destruct (sess_online db); [|done]. simpl. intros [= <-].
  rewrite list_elem_of_In, in_map_iff. split.
  - intros (r & [= <- <-] & Hr). rewrite <- list_elem_of_In, merge_sort_Permutation in Hr.
    apply list_elem_of_In, filter_In in Hr as [Hr Hp]. exists r. split; [|done].
    unfold row_at. rewrite find_first_by_session.
    apply (find_first_key (fun r => (sr_name r, sr_label r))); [done|by apply list_elem_of_In].
  - intros (row & Hat & Hp). unfold row_at in Hat. apply find_session in Hat as (Hin & <- & <-).
    exists row. split; [done|]. rewrite <- list_elem_of_In, merge_sort_Permutation.
    apply list_elem_of_In, filter_In. split; [by apply list_elem_of_In|done].
Qed.

(** The background task touches only what is due: a session that is
    degraded, has no recorded expiry, or expires later than the safety margin
    is left exactly as it was by a tick; in particular a degraded session is
    never retried until an operator acts. *)
Theorem tick_leaves_others nonces db n l row :
  sessions_wf db -> row_at n l db = Some row ->
  is_pending (now + DEFAULT_REFRESH_SAFETY_MARGIN_SECS) row = false ->
  row_at n l (tick post cat k now nonces db) = Some row.
Proof.
  intros W Hat Hp. unfold tick. destruct (list_pending_refresh _ db) as [items|] eqn:E; [|done].
  rewrite refresh_fold_other; [done|]. intros Hin.
  apply (list_pending_elem _ _ _ _ _ W E) in Hin as (row' & Hat' & Hp'). congruence.
Qed.

Lemma list_pending_nodup threshold db items :
  sessions_wf db -> list_pending_refresh threshold db = Ok items -> NoDup items.
Proof.
  intros [W]. unfold list_pending_refresh. destruct (sess_online db); [|done]. simpl. intros [= <-].
  rewrite merge_sort_Permutation. clear -W.
  induction (sessions db) as [|x l0 IH]; simpl; [constructor|]. simpl in W.
  apply NoDup_cons in W as [Hx W]. destruct (is_pending threshold x); [|auto]. simpl.
  apply NoDup_cons. split; [|auto]. intros Hin. apply Hx.
  apply list_elem_of_In, in_map_iff in Hin as (y & <- & Hy). apply filter_In in Hy as [Hy _].
  by apply list_elem_of_In, (in_map (fun r => (sr_name r, sr_label r))).
Qed.

(** A failed refresh followed by [mark_degraded] leaves that session, and no
    other, degraded. *)
Lemma refresh_failed_degrades n l n1 n2 t db s e db' :
  session_get k n l db = Ok (Some s) ->
  refresh_session post cat k s n1 n2 now db = (Err e, db') ->
  let d := snd (mark_degraded n l t db') in
  sess_online d = true /\
  (exists row, row_at n l db' = Some row /\ row_at n l d = Some (with_degraded t row)) /\
  forall n' l', (n', l') <> (n, l) -> row_at n' l' d = row_at n' l' db.
Proof.
  intros Hg Er. destruct (session_get_key _ _ _ _ Hg) as [En El].
  destruct (session_get_row _ _ _ _ _ Hg) as (Hon & row & Hat & _).
  assert (G : sess_online db' = true /\ (exists row', row_at n l db' = Some row') /\
    forall n' l', (n', l') <> (n, l) -> row_at n' l' db' = row_at n' l' db).
  { destruct (refresh_session_cases _ _ _ _ _ _ _ _ _ _ Er) as [(e' & _ & ->)|(tr & _ & Hu & _)].
    - eauto.
    - destruct (update_tokens_row _ _ _ _ _ _ _ _ _ _ _ Hu) as (Hon' & act & an & rs & _ & _ & Hrow).
      rewrite En, El in Hrow. split; [congruence|]. split.
      + rewrite Hrow, bool_decide_eq_true_2, Hat by done. by eexists.
      + intros n' l' Hne. by rewrite Hrow, bool_decide_eq_false_2. }
  destruct G as (Ho & (row' & Hr) & Hoth). cbv zeta. rewrite (proj1 (mark_degraded_row n l t db' n l)).
  split; [done|]. split.
  - exists row'. rewrite (proj2 (mark_degraded_row n l t db' n l)), Ho.
    rewrite bool_decide_eq_true_2, Hr by done. done.
  - intros n' l' Hne. rewrite (proj2 (mark_degraded_row n l t db' n' l')), Ho.
    rewrite bool_decide_eq_false_2 by done. by apply Hoth.
Qed.

(** What a tick may leave of a due session: a row it cannot unseal is skipped;
    otherwise the session is the one the provider's answer describes, or, with
    no answer or no seal, the same row marked degraded. *)
Definition settled (nonces : option string * option string) (row row' : SessionRow) : Prop :=
  match row_to_session k row with
  | Err _ => row' = row
  | Ok s =>
      (exists tr, exchanged post cat s tr /\ row_to_session k row' = Ok (refreshed now tr s)) \/
      (row' = with_degraded now row /\ forall tr, exchanged post cat s tr ->
         is_ok (seal k nonces.1 (tr_access_token tr)) && is_ok (seal_opt k nonces.2 (tr_refresh_token tr))
         = false)
  end.

(** What an item does to its own session when it is due. *)
Lemma refresh_item_self `{!AesGcmLaws} threshold n l nonces db row :
  nonce_ok nonces.1 -> nonce_ok nonces.2 -> reply_utf8 post ->
  sess_online db = true -> row_at n l db = Some row -> is_pending threshold row = true ->
  exists row', row_at n l (refresh_item post cat k threshold now (n, l) nonces db) = Some row' /\
    settled nonces row row'.
Proof.
  intros Hn1 Hn2 Hutf Hon Hat Hp. unfold refresh_item, settled. simpl.
  assert (Hg : session_get k n l db = let? s := row_to_session k row in Ok (Some s)).
  { unfold session_get. rewrite Hon. simpl. unfold row_at in Hat. by rewrite Hat. }
  rewrite Hg. destruct (row_to_session k row) as [s|e] eqn:Hs; [|by exists row].
  destruct (row_to_session_key _ _ Hs) as (Kn & Kl & Hd & He).
  unfold is_pending in Hp. apply andb_prop in Hp as [Hp1 Hp2]. rewrite Hd, Hp1, He. simpl.
  destruct (sr_expires_at row) as [ex|]; [|done].
  rewrite (proj2 (Z.ltb_ge _ _)) by (by apply Z.leb_le).
  destruct (session_get_key _ _ _ _ Hg) as [En El]. rewrite <- En, <- El in Hg |- *.
  destruct (refresh_session _ _ _ _ _ _ _ _) as [[s'|e] db'] eqn:Er.
  - destruct (refresh_session_stores _ _ _ _ _ _ _ _ _ _ Hn1 Hn2 Hutf Hg Er) as (tr & Hx & -> & Hg' & _).
    destruct (session_get_row _ _ _ _ _ Hg') as (_ & row' & Hat' & Hs'). exists row'. split; [done|].
    left. by exists tr.
  - destruct (refresh_session_refused _ _ _ _ _ _ _ _ _ _ Hn1 Hn2 Hutf Hg Er) as [-> Hno].
    exists (with_degraded now row). split; [|by right].
    rewrite (proj2 (mark_degraded_row _ _ now db _ _)), Hon, bool_decide_eq_true_2 by done. simpl.
    by rewrite En, El, Hat.
Qed.

Lemma refresh_item_online threshold item nonces db :
  sess_online (refresh_item post cat k threshold now item nonces db) = sess_online db.
Proof.
  unfold refresh_item. destruct (session_get k item.1 item.2 db) as [[s|]|]; try done.
  destruct (os_degraded s); [done|]. destruct (match os_expires_at s with Some _ => _ | None => _ end); [done|].
  destruct (refresh_session _ _ _ _ _ _ _ _) as [r db'] eqn:Er.
  assert (E : sess_online db' = sess_online db).
  { destruct (refresh_session_cases _ _ _ _ _ _ _ _ _ _ Er) as [(e & _ & ->)|(tr & _ & Hu & _)]; [done|].
    by apply update_tokens_row in Hu as [-> _]. }
  destruct r; [done|]. unfold mark_degraded. by destruct (sess_online db') eqn:?; simpl; congruence.
Qed.

(** C27: a tick settles every due session: one whose row cannot be unsealed is
    left exactly as it was; any other then holds the very tokens the token
    endpoint of its registration returned, with their expiry counted from the
    tick, or, when the provider gave none or they could not be sealed, is the
    same row marked degraded. *)
Theorem tick_settles_due `{!AesGcmLaws} nonces db n l row :
  (forall it, nonce_ok (nonces it).1 /\ nonce_ok (nonces it).2) -> reply_utf8 post ->
  sessions_wf db -> sess_online db = true -> row_at n l db = Some row ->
  is_pending (now + DEFAULT_REFRESH_SAFETY_MARGIN_SECS) row = true ->
  exists row', row_at n l (tick post cat k now nonces db) = Some row' /\
    match row_to_session k row with
    | Err _ => row' = row
    | Ok s =>
        (exists tr, exchanged post cat s tr /\ row_to_session k row' = Ok (refreshed now tr s)) \/
        (row' = with_degraded now row /\ forall tr, exchanged post cat s tr ->
           is_ok (seal k (nonces (n, l)).1 (tr_access_token tr))
           && is_ok (seal_opt k (nonces (n, l)).2 (tr_refresh_token tr)) = false)
    end.
Proof.
  intros Hn Hutf W Hon Hat Hp. unfold tick. set (th := now + _) in *.
  destruct (list_pending_refresh th db) as [items|] eqn:E.
  2: { unfold list_pending_refresh in E. by rewrite Hon in E. }
  pose proof (list_pending_nodup _ _ _ W E) as Hnd.
  assert (Hin : (n, l) ∈ items) by (apply (list_pending_elem _ _ _ _ _ W E); eauto).
  clear E W. revert db Hon Hat. induction items as [|it items IH]; intros db Hon Hat.
  { by apply not_elem_of_nil in Hin. }
  simpl. apply NoDup_cons in Hnd as [Hni Hnd]. apply elem_of_cons in Hin as [<-|Hin].
  - rewrite refresh_fold_other by done.
    by apply (refresh_item_self th n l (nonces (n, l)) db row); [apply Hn..| | | |].
  - apply IH; [done|done|by rewrite refresh_item_online|]. rewrite refresh_item_other; [done|].
    intros <-. done.
Qed.
End TickProps.

(** ** The safety margin *)

(** The per-token safety margin is a quarter of the lifetime kept
    between one and five minutes, but the task does not use it: a session
    refreshed with a token that lives at most five minutes is due again at
    once, so it is exchanged on every tick. *)
Theorem short_token_always_due `{AesGcm} `{Base64Std} `{Base64Url} `{SerdeJson} lifetime :
  MIN_REFRESH_SAFETY_MARGIN_SECS <= refresh_safety_margin_secs lifetime
    <= DEFAULT_REFRESH_SAFETY_MARGIN_SECS /\
  (4 * MIN_REFRESH_SAFETY_MARGIN_SECS < lifetime ->
     refresh_safety_margin_secs lifetime < lifetime) /\
  (forall act an rs acct now now' row,
     0 <= lifetime <= DEFAULT_REFRESH_SAFETY_MARGIN_SECS -> 0 <= now <= now' -> now' < two63 - 600 ->
     is_pending (now' + DEFAULT_REFRESH_SAFETY_MARGIN_SECS)
       (with_tokens act an (as_i64 (now + lifetime)) rs acct now row) = true).
Proof.
  unfold refresh_safety_margin_secs, MIN_REFRESH_SAFETY_MARGIN_SECS,
    DEFAULT_REFRESH_SAFETY_MARGIN_SECS. split; [lia|]. split.
  - intros Hl. rewrite Z.quot_div_nonneg by lia.
    pose proof (Z.mul_div_le lifetime 4 ltac:(lia)). lia.
  - intros act an rs acct now now' row Hl Hn Hb. unfold is_pending. simpl. apply Z.leb_le.
    unfold as_i64, two63, two64 in *. rewrite Z.mod_small; lia.
Qed.

(** ** Locks *)

Definition locks_wf (m : gmap string nat) : Prop :=
  (forall a b i, m !! a = Some i -> m !! b = Some i -> a = b) /\
  (forall a i, m !! a = Some i -> (i < size m)%nat).

Lemma lock_key_inj n l n' l' :
  str_forall (fun c => negb (is_char (ascii_of_N 31) c)) n = true ->
  str_forall (fun c => negb (is_char (ascii_of_N 31) c)) n' = true ->
  lock_key n l = lock_key n' l' -> n = n' /\ l = l'.
Proof.
  intros Hn Hn' E. unfold lock_key in E.
  assert (E1 : split_once (ascii_of_N 31) (n +:+ String (ascii_of_N 31) l) = Some (n, l))
    by (by apply split_once_Some).
  assert (E2 : split_once (ascii_of_N 31) (n' +:+ String (ascii_of_N 31) l') = Some (n', l'))
    by (by apply split_once_Some).
  rewrite E in E1. rewrite E1 in E2. by injection E2 as -> ->.
Qed.

Lemma lock_get_wf n l m :
  locks_wf m -> locks_wf (snd (lock_get n l m)) /\
  snd (lock_get n l m) !! lock_key n l = Some (fst (lock_get n l m)) /\
  (forall a i, m !! a = Some i -> snd (lock_get n l m) !! a = Some i).
Proof.
  intros [W1 W2]. unfold lock_get. destruct (m !! lock_key n l) as [i|] eqn:E; simpl; [done|].
  split; [|split].
  - split.
    + intros a b i Ha Hb. apply lookup_insert_Some in Ha as [[<- <-]|[Hne Ha]];
        apply lookup_insert_Some in Hb as [[<- Hb]|[Hne' Hb]]; try done.
      * apply W2 in Hb. lia.
      * subst. apply W2 in Ha. lia.
      * by eapply W1.
    + intros a i Ha. rewrite map_size_insert_None by done.
      apply lookup_insert_Some in Ha as [[_ <-]|[_ Ha%W2]]; lia.
  - by rewrite lookup_insert_eq.
  - intros a i Ha. rewrite lookup_insert_ne; [done|]. intros <-. congruence.
Qed.

(** Two requests share a refresh lock exactly when they are for the same
    session: for names free of the separator, different (name, label) pairs
    map to different locks and equal pairs to the same one, whatever was
    requested before. *)
Theorem lock_get_exclusive n l n' l' m :
  locks_wf m ->
  str_forall (fun c => negb (is_char (ascii_of_N 31) c)) n = true ->
  str_forall (fun c => negb (is_char (ascii_of_N 31) c)) n' = true ->
  let '(i, m1) := lock_get n l m in
  let '(j, m2) := lock_get n' l' m1 in
  (i = j <-> (n, l) = (n', l')).
Proof.
  intros W Hn Hn'. destruct (lock_get_wf n l m W) as (W1 & E1 & _).
  destruct (lock_get n l m) as [i m1]. simpl in *.
  destruct (lock_get_wf n' l' m1 W1) as (W2 & E2 & K2).
  destruct (lock_get n' l' m1) as [j m2]. simpl in *. specialize (K2 _ _ E1). split.
  - intros <-. destruct W2 as [Hinj _]. pose proof (Hinj _ _ _ K2 E2) as Hk.
    by destruct (lock_key_inj _ _ _ _ Hn Hn' Hk) as [-> ->].
  - intros [= <- <-]. congruence.
Qed.

(** ** Witnesses *)

Module OauthWitness.
Import Base64Model.

(** A toy authenticated cipher: the key and nonce are prepended. *)
#[export] Instance toy_aes : AesGcm :=
  {| aes_encrypt k n p := Some ((k +:+ n) +:+ p); aes_decrypt k n c := strip_prefix (k +:+ n) c |}.

#[export] Instance toy_aes_laws : AesGcmLaws.
Proof. split. simpl. intros k n p c [= <-]. apply strip_prefix_app. Qed.

#[export] Instance plain_b64 : Base64Std := {| std_encode s := s; std_decode s := Some s |}.
#[export] Instance no_json : SerdeJson := {| from_slice _ := None; to_vec _ := "" |}.

Definition key : SealingKey := {| sk_key := "key" |}.
Definition nonce : option string := Some "0123456789ab".

Lemma nonce_len : nonce_ok nonce.
Proof. intros x [= <-]. reflexivity. Qed.

Definition empty_sessions : OauthSessionRepository := {| sessions := []; sess_online := true |}.

Definition created : result OauthSessionError OauthSession * OauthSessionRepository :=
  session_create key "codex" "default" "rt1" (Some "at1") (Some 100) "s" nonce nonce 50 empty_sessions.

Definition sess0 : OauthSession :=
  {| os_name := "codex"; os_label := "default"; os_refresh_token := "rt1";
     os_access_token := Some "at1"; os_expires_at := Some 100; os_scope := "s";
     os_degraded := false; os_created_at := 50; os_updated_at := 50; os_account_id := None |}.

Definition db0 : OauthSessionRepository := snd created.

Lemma session_create_get_witness : session_get key "codex" "default" db0 = Ok (Some sess0).
Proof.
  apply (session_create_get key "codex" "default" "rt1" (Some "at1") (Some 100) "s" nonce nonce 50
           empty_sessions sess0 db0);
    first [exact nonce_len | intros t [= <-]; reflexivity | vm_compute; reflexivity].
Defined.

Definition codex_reg : Registration :=
  {| name := "codex"; kind := Model; description := ""; upstream := "https://chatgpt.com/backend-api/codex";
     auth := OauthDeviceCode "cid" [] "https://d" "https://t" None; egress := Direct;
     timeouts := default_timeouts; body_limit_bytes := 100; metadata := JObject []; seed := true;
     disabled := false; created_at := 0; updated_at := 0 |}.

Definition cat0 : gmap string Registration := {["codex" := codex_reg]}.

Definition provider (url : string) (form : list (string * string))
  : option (Z * option TokenResponse) :=
  Some (200, Some {| tr_access_token := "at2"; tr_expires_in := Some 120; tr_refresh_token := None |}).

Lemma provider_utf8 : reply_utf8 provider.
Proof. intros url form st tr [= _ <-]. split; [reflexivity|]. intros t [=]. Qed.

Definition sess1 : OauthSession := refreshed 90 {| tr_access_token := "at2";
  tr_expires_in := Some 120; tr_refresh_token := None |} sess0.

Definition db1 : OauthSessionRepository :=
  snd (refresh_session provider cat0 key sess0 nonce nonce 90 db0).

Lemma refresh_session_ok_witness :
  exists tr, exchanged provider cat0 sess0 tr /\ sess1 = refreshed 90 tr sess0 /\
    session_get key "codex" "default" db1 = Ok (Some sess1) /\
    forall n l, (n, l) <> ("codex", "default") -> row_at n l db1 = row_at n l db0.
Proof.
  apply (refresh_session_ok provider cat0 key sess0 nonce nonce 90 db0 sess1 db1);
    first [exact nonce_len | exact provider_utf8 | vm_compute; reflexivity].
Defined.

Definition row0 : SessionRow := default
  {| sr_name := ""; sr_label := ""; sr_refresh_ct := ""; sr_refresh_nonce := ""; sr_access_ct := None;
     sr_access_nonce := None; sr_expires_at := None; sr_scope := ""; sr_degraded := 0;
     sr_created_at := 0; sr_updated_at := 0; sr_account_id := None |} (row_at "codex" "default" db0).

Lemma db0_wf : sessions_wf db0.
Proof. split. apply (bool_decide_unpack _). vm_compute. exact I. Qed.

Lemma tick_leaves_others_witness :
  row_at "codex" "default" (tick provider cat0 key (-500) (fun _ => (nonce, nonce)) db0) = Some row0.
Proof.
  apply tick_leaves_others; [apply db0_wf|vm_compute; reflexivity|vm_compute; reflexivity].
Defined.

(** The due session gets the new tokens. *)
Lemma tick_settles_due_witness :
  exists row', row_at "codex" "default" (tick provider cat0 key 90 (fun _ => (nonce, nonce)) db0)
                 = Some row' /\ row_to_session key row' = Ok sess1.
Proof.
  destruct (tick_settles_due provider cat0 key 90 (fun _ => (nonce, nonce)) db0 "codex" "default" row0)
    as (row' & Hat & S); [split; exact nonce_len|exact provider_utf8|apply db0_wf|vm_compute; reflexivity..|].
  exists row'. split; [exact Hat|]. vm_compute in Hat. injection Hat as <-. vm_compute. reflexivity.
Defined.

Lemma lock_get_exclusive_witness :
  let '(i, m1) := lock_get "codex" "hermes" ∅ in
  let '(j, m2) := lock_get "codex" "default" m1 in
  (i = j <-> ("codex", "hermes") = ("codex", "default")).
Proof.
  apply lock_get_exclusive; [|vm_compute; reflexivity|vm_compute; reflexivity].
  split; intros *; by rewrite lookup_empty.
Defined.

End OauthWitness.
