(* ===== verification/Migrations.v ===== *)
(** * The schema and its migrations ([src/migrations.rs], [migrations/*.sql])

    The six migrations, statement by statement, over a store of tables and
    indexes; [open_and_migrate] with the options every pooled connection gets.
    sqlx's migrator is the class [MigratorCrate]: which migrations it runs, and
    that one that fails leaves nothing behind, are its documented behaviour.
    A column keeps what the program relies on: its name, NOT NULL, DEFAULT,
    CHECK (... IN ...) and REFERENCES; types and affinities are left out. *)

From S2P Require Import Prelude Json Token AgentRepo AuditLog Secret.
From S2P Require Import ResponseControls Config Registrations Oauth.

#[local] Set Warnings "-clear-no-such-hyp".

Inductive Val := VNull | VInt (z : Z) | VText (s : string) | VBlob (s : string).

#[export] Instance Val_eq_dec : EqDecision Val.
Proof. solve_decision. Defined.

Record Column := {
  col_name : string;
  col_not_null : bool;
  col_default : option Val;
  col_in : option (list string);
  col_references : option (string * string)   (* a table and a column of it *)
}.

Definition referencing (t k : string) (c : Column) : Column :=
  {| col_name := col_name c; col_not_null := col_not_null c; col_default := col_default c;
     col_in := col_in c; col_references := Some (t, k) |}.

(** A table; every key is PRIMARY KEY or UNIQUE. *)
Record SqlTable := {
  tb_name : string;
  tb_cols : list Column;
  tb_keys : list (list string);
  tb_rows : list (list Val)
}.

(** Tables, and indexes with the table they are on. *)
Record Store := { tables : list SqlTable; indexes : list (string * string) }.

Definition col_names (t : SqlTable) : list string := map col_name (tb_cols t).

Definition set_tb_rows (rows : list (list Val)) (t : SqlTable) : SqlTable :=
  {| tb_name := tb_name t; tb_cols := tb_cols t; tb_keys := tb_keys t; tb_rows := rows |}.

(** ** Rows *)

Fixpoint value_at (names : list string) (row : list Val) (c : string) : Val :=
  match names, row with
  | n :: names, v :: row => if bool_decide (n = c) then v else value_at names row c
  | _, _ => VNull
  end.

Definition fits (c : Column) (v : Val) : bool :=
  (negb (col_not_null c) || negb (bool_decide (v = VNull))) &&
  match col_in c, v with
  | Some l, VText s => bool_decide (s ∈ l)
  | Some _, VNull => true
  | Some _, _ => false
  | None, _ => true
  end.

Fixpoint row_fits (cs : list Column) (row : list Val) : bool :=
  match cs, row with
  | [], [] => true
  | c :: cs, v :: row => fits c v && row_fits cs row
  | _, _ => false
  end.

Definition key_of (t : SqlTable) (key : list string) (row : list Val) : list Val :=
  map (value_at (col_names t) row) key.

(** NULLs are distinct from each other. *)
Definition same_key (t : SqlTable) (a b : list Val) (key : list string) : bool :=
  bool_decide (key_of t key a = key_of t key b) && negb (bool_decide (VNull ∈ key_of t key a)).

Definition clashes (t : SqlTable) (a b : list Val) : bool := existsb (same_key t a b) (tb_keys t).

Definition insert_row (row : list Val) (t : SqlTable) : option SqlTable :=
  if row_fits (tb_cols t) row && negb (existsb (clashes t row) (tb_rows t))
  then Some (set_tb_rows (tb_rows t ++ [row]) t)
  else None.

Fixpoint insert_rows (rows : list (list Val)) (t : SqlTable) : option SqlTable :=
  match rows with
  | [] => Some t
  | row :: rows => let* t := insert_row row t in insert_rows rows t
  end.

(** ** Statements *)

Inductive Expr := ECol (c : string) | EVal (v : Val).

Inductive Ddl :=
| CreateTable (n : string) (cols : list Column) (keys : list (list string))
| CreateIndex (i : string) (n : string) (cols : list string)
| InsertSelect (dst : string) (cols : list string) (exprs : list Expr) (src : string)
| DropTable (n : string)
| RenameTable (old new : string)
| AddColumn (n : string) (c : Column).

Definition find_table (n : string) (s : Store) : option SqlTable :=
  find_first (fun t => bool_decide (tb_name t = n)) (tables s).

(** Tables and indexes share one name space. *)
Definition name_taken (n : string) (s : Store) : bool :=
  isSome (find_table n s) || existsb (fun ix => bool_decide (ix.1 = n)) (indexes s).

Definition put_table (t : SqlTable) (s : Store) : Store :=
  {| tables := map (fun t' => if bool_decide (tb_name t' = tb_name t) then t else t') (tables s);
     indexes := indexes s |}.

Definition eval_expr (names : list string) (row : list Val) (e : Expr) : Val :=
  match e with ECol c => value_at names row c | EVal v => v end.

(** *** Foreign keys, which every connection enforces *)

Definition referenced (s : Store) (t k : string) (v : Val) : bool :=
  match find_table t s with
  | Some t => existsb (fun row => bool_decide (value_at (col_names t) row k = v)) (tb_rows t)
  | None => false
  end.

Definition references_ok (s : Store) (t : SqlTable) : bool :=
  forallb (fun c => match col_references c with
                    | None => true
                    | Some (t', k) =>
                        forallb (fun row => let v := value_at (col_names t) row (col_name c) in
                                   bool_decide (v = VNull) || referenced s t' k v) (tb_rows t)
                    end) (tb_cols t).

Definition references_kept (s : Store) : bool := forallb (references_ok s) (tables s).

Definition refers_to (n : string) (t : SqlTable) : bool :=
  existsb (fun c => match col_references c with Some (t', _) => bool_decide (t' = n) | None => false end)
    (tb_cols t).

Definition rename_reference (old new : string) (c : Column) : Column :=
  match col_references c with
  | Some (t, k) => if bool_decide (t = old) then referencing new k c else c
  | None => c
  end.

(** The row an INSERT of [vals] into the columns [cols] makes. *)
Definition full_row (t : SqlTable) (cols : list string) (vals : list Val) : list Val :=
  map (fun c => if bool_decide (col_name c ∈ cols) then value_at cols vals (col_name c)
                else default VNull (col_default c)) (tb_cols t).

(** No migration drops a table that another one refers to, and [DropTable]
    refuses to; a rename carries the references along. *)
Definition exec_ddl (d : Ddl) (s : Store) : option Store :=
  match d with
  | CreateTable n cols keys =>
      if name_taken n s then None
      else Some {| tables := tables s ++ [{| tb_name := n; tb_cols := cols; tb_keys := keys; tb_rows := [] |}];
                   indexes := indexes s |}
  | CreateIndex i n cols =>
      let* t := find_table n s in
      if name_taken i s || negb (forallb (fun c => bool_decide (c ∈ col_names t)) cols) then None
      else Some {| tables := tables s; indexes := indexes s ++ [(i, n)] |}
  | InsertSelect dst cols exprs src =>
      let* t := find_table src s in
      let* d := find_table dst s in
      let* d' := insert_rows (map (fun row => full_row d cols (map (eval_expr (col_names t) row) exprs))
                                  (tb_rows t)) d in
      if references_ok (put_table d' s) d' then Some (put_table d' s) else None
  | DropTable n =>
      let* _ := find_table n s in
      if existsb (fun t => negb (bool_decide (tb_name t = n)) && refers_to n t) (tables s) then None
      else Some {| tables := List.filter (fun t => negb (bool_decide (tb_name t = n))) (tables s);
              indexes := List.filter (fun ix => negb (bool_decide (ix.2 = n))) (indexes s) |}
  | RenameTable old new =>
      let* t := find_table old s in
      if name_taken new s then None
      else Some {| tables := map (fun t => {| tb_name := if bool_decide (tb_name t = old) then new else tb_name t;
                                              tb_cols := map (rename_reference old new) (tb_cols t);
                                              tb_keys := tb_keys t; tb_rows := tb_rows t |}) (tables s);
                   indexes := map (fun ix => if bool_decide (ix.2 = old) then (ix.1, new) else ix) (indexes s) |}
  | AddColumn n c =>
      let* t := find_table n s in
      let v := default VNull (col_default c) in
      if bool_decide (col_name c ∈ col_names t) || negb (fits c v)
         || isSome (col_references c) && negb (bool_decide (v = VNull)) then None
      else Some (put_table {| tb_name := n; tb_cols := tb_cols t ++ [c]; tb_keys := tb_keys t;
                              tb_rows := map (fun row => row ++ [v]) (tb_rows t) |} s)
  end.

Fixpoint exec_all (ds : list Ddl) (s : Store) : option Store :=
  match ds with
  | [] => Some s
  | d :: ds => let* s := exec_ddl d s in exec_all ds s
  end.

(** ** The migrations *)

Definition text_col (n : string) : Column :=
  {| col_name := n; col_not_null := false; col_default := None; col_in := None; col_references := None |}.
Definition required_col (n : string) : Column :=
  {| col_name := n; col_not_null := true; col_default := None; col_in := None; col_references := None |}.
Definition default_col (n : string) (v : Val) : Column :=
  {| col_name := n; col_not_null := true; col_default := Some v; col_in := None; col_references := None |}.
Definition checked_col (n : string) (d : option Val) (l : list string) : Column :=
  {| col_name := n; col_not_null := true; col_default := d; col_in := Some l; col_references := None |}.

Record Migration := { mg_version : Z; mg_statements : list Ddl }.

(** The columns of each table; [id INTEGER PRIMARY KEY] is never NULL. *)
Definition agents_cols : list Column :=
  [required_col "id"; required_col "public_id"; required_col "name"; text_col "description";
   required_col "secret_hash"; text_col "tool_allowlist"; text_col "tool_denylist";
   text_col "metadata"; text_col "cert_identity"; required_col "registered_at";
   text_col "last_used_at"; text_col "expires_at"; text_col "revoked_at"; text_col "role_id"].

Definition bootstrap_cols : list Column :=
  [required_col "id"; required_col "public_id"; required_col "secret_hash"; required_col "scope";
   required_col "created_by"; required_col "created_at"; text_col "expires_at"; text_col "used_at";
   referencing "agents" "id" (text_col "used_by_agent_id"); text_col "revoked_at"].

Definition audit_cols : list Column :=
  [required_col "id"; required_col "ts"; default_col "schema_version" (VInt 1);
   checked_col "event_class" None ["proxy"; "operator"; "security"]; required_col "event";
   text_col "agent_public_id"; text_col "operator_name"; text_col "tool"; text_col "upstream_host";
   text_col "method"; text_col "path"; text_col "status"; text_col "latency_ms";
   checked_col "decision" None ["allowed"; "denied"; "error"]; text_col "auth_method";
   text_col "origin_ip"; text_col "details"].

Definition m0001_init : Migration :=
  {| mg_version := 1; mg_statements :=
     [CreateTable "agents" agents_cols [["id"]; ["public_id"]; ["name"]];
      CreateIndex "idx_agents_active" "agents" ["public_id"; "revoked_at"];
      CreateIndex "idx_agents_cert_identity" "agents" ["cert_identity"; "revoked_at"];
      CreateTable "bootstrap_tokens" bootstrap_cols [["id"]; ["public_id"]];
      CreateIndex "idx_bootstrap_active" "bootstrap_tokens" ["public_id"; "used_at"; "revoked_at"];
      CreateTable "audit" audit_cols [["id"]];
      CreateIndex "idx_audit_ts" "audit" ["ts"];
      CreateIndex "idx_audit_agent_ts" "audit" ["agent_public_id"; "ts"];
      CreateIndex "idx_audit_class_ts" "audit" ["event_class"; "ts"];
      CreateIndex "idx_audit_tool_ts" "audit" ["tool"; "ts"]] |}.

Definition registrations_cols : list Column :=
  [required_col "name"; checked_col "kind" None ["model"; "tool"; "infra"];
   default_col "description" (VText ""); required_col "upstream"; required_col "auth_json";
   checked_col "egress" (Some (VText "proxied")) ["direct"; "proxied"]; required_col "timeouts_json";
   default_col "body_limit_bytes" (VInt 10485760); default_col "metadata_json" (VText "{}");
   default_col "seed" (VInt 0); default_col "disabled" (VInt 0); required_col "created_at";
   required_col "updated_at"].

Definition meta_cols : list Column := [required_col "key"; required_col "value"].

Definition m0002_registrations : Migration :=
  {| mg_version := 2; mg_statements :=
     [CreateTable "registrations" registrations_cols [["name"]];
      CreateIndex "idx_registrations_kind" "registrations" ["kind"];
      CreateIndex "idx_registrations_seed_disabled" "registrations" ["seed"; "disabled"];
      CreateTable "registrations_meta" meta_cols [["key"]]] |}.

(** The columns after the key, in either shape of the sessions table. *)
Definition token_cols : list Column :=
  [required_col "refresh_token_ciphertext"; required_col "refresh_token_nonce";
   text_col "access_token_ciphertext"; text_col "access_token_nonce"; text_col "access_token_expires_at";
   default_col "scope" (VText ""); default_col "degraded" (VInt 0); required_col "created_at";
   required_col "updated_at"].

Definition sessions_cols_v3 : list Column := required_col "name" :: token_cols.

Definition sessions_cols_v4 : list Column :=
  required_col "name" :: default_col "session_label" (VText "default") :: token_cols.

Definition schedule_index : Ddl :=
  CreateIndex "idx_oauth_sessions_refresh_schedule" "oauth_sessions" ["degraded"; "access_token_expires_at"].

Definition m0003_oauth_sessions : Migration :=
  {| mg_version := 3; mg_statements :=
     [CreateTable "oauth_sessions" sessions_cols_v3 [["name"]]; schedule_index] |}.

Definition copied_cols : list string :=
  ["name"; "session_label"; "refresh_token_ciphertext"; "refresh_token_nonce";
   "access_token_ciphertext"; "access_token_nonce"; "access_token_expires_at"; "scope"; "degraded";
   "created_at"; "updated_at"].

Definition copied_exprs : list Expr :=
  [ECol "name"; EVal (VText "default"); ECol "refresh_token_ciphertext"; ECol "refresh_token_nonce";
   ECol "access_token_ciphertext"; ECol "access_token_nonce"; ECol "access_token_expires_at";
   ECol "scope"; ECol "degraded"; ECol "created_at"; ECol "updated_at"].

Definition m0004_oauth_session_labels : Migration :=
  {| mg_version := 4; mg_statements :=
     [CreateTable "oauth_sessions__new" sessions_cols_v4 [["name"; "session_label"]];
      InsertSelect "oauth_sessions__new" copied_cols copied_exprs "oauth_sessions";
      DropTable "oauth_sessions";
      RenameTable "oauth_sessions__new" "oauth_sessions";
      schedule_index] |}.

Definition overrides_cols : list Column :=
  [referencing "agents" "id" (required_col "agent_id"); required_col "registration"; required_col "auth_spec";
   required_col "created_at"; required_col "updated_at"].

Definition m0005_agent_credential_overrides : Migration :=
  {| mg_version := 5; mg_statements :=
     [CreateTable "agent_credential_overrides" overrides_cols [["agent_id"; "registration"]]] |}.

Definition m0006_oauth_session_account_id : Migration :=
  {| mg_version := 6; mg_statements := [AddColumn "oauth_sessions" (text_col "account_id")] |}.

(** [sqlx::migrate!("./migrations")]: the files by version. *)
Definition MIGRATIONS : list Migration :=
  [m0001_init; m0002_registrations; m0003_oauth_sessions; m0004_oauth_session_labels;
   m0005_agent_credential_overrides; m0006_oauth_session_account_id].

(** ** Opening the database ([migrations.rs]) *)

Inductive JournalMode := Wal | OtherJournal.
Inductive Synchronous := NormalSync | OtherSync.

Record ConnectOptions := {
  co_filename : string;
  co_create_if_missing : bool;
  co_journal_mode : JournalMode;
  co_synchronous : Synchronous;
  co_foreign_keys : bool;
  co_busy_timeout_ms : Z;
  co_log_statements : bool
}.

(** The file: its tables and the migrations recorded in it. *)
Record Database := { db_store : Store; db_applied : list Z }.

Definition empty_database : Database :=
  {| db_store := {| tables := []; indexes := [] |}; db_applied := [] |}.

(** A pool: the options of its connections, what each runs when it is made,
    and the database. *)
Record Pool := {
  pool_options : ConnectOptions;
  pool_max : nat;
  pool_after_connect : list string;
  pool_database : Database
}.

Inductive MigrationError (SqlxError MigrateError : Type) :=
| SqlxFailed (e : SqlxError)
| MigrateFailed (e : MigrateError).
Arguments SqlxFailed {_ _} e.
Arguments MigrateFailed {_ _} e.

(** sqlx: options from a URL, opening the pool, and the migrator, which gives
    the database it leaves also when it fails. *)
Class MigratorCrate (SqlxError MigrateError : Type) : Type := {
  options_from_str : string -> result SqlxError ConnectOptions;
  connect_with : ConnectOptions -> nat -> list string -> result SqlxError Database;
  migrator_run : list Migration -> Database -> result MigrateError unit * Database
}.

(** Versions recorded are not run again; the next one is run in a transaction
    and recorded with it. *)
Class MigratorLaws {SE ME} `{MigratorCrate SE ME} : Prop := {
  run_done : forall ms s, migrator_run ms {| db_store := s; db_applied := map mg_version ms |} =
    (Ok tt, {| db_store := s; db_applied := map mg_version ms |});
  run_next : forall before m after s s',
    exec_all (mg_statements m) s = Some s' ->
    migrator_run (before ++ m :: after) {| db_store := s; db_applied := map mg_version before |} =
    migrator_run (before ++ m :: after)
      {| db_store := s'; db_applied := map mg_version (before ++ [m]) |};
  run_failed : forall before m after s,
    exec_all (mg_statements m) s = None ->
    exists e, migrator_run (before ++ m :: after) {| db_store := s; db_applied := map mg_version before |} =
      (Err e, {| db_store := s; db_applied := map mg_version before |})
}.

Section Open.
Context {SE ME : Type} `{MigratorCrate SE ME}.

Definition with_pragmas (o : ConnectOptions) : ConnectOptions :=
  {| co_filename := co_filename o; co_create_if_missing := true; co_journal_mode := Wal;
     co_synchronous := NormalSync; co_foreign_keys := true; co_busy_timeout_ms := 5000;
     co_log_statements := false |}.

Definition open_and_migrate (path : string) : result (MigrationError SE ME) Pool :=
  let? o := map_err SqlxFailed (options_from_str ("sqlite://" +:+ path)) in
  let opts := with_pragmas o in
  let hook := ["PRAGMA wal_autocheckpoint = 1000;"] in
  let? db := map_err SqlxFailed (connect_with opts 5 hook) in
  let '(r, db) := migrator_run MIGRATIONS db in
  let? _ := map_err MigrateFailed r in
  Ok {| pool_options := opts; pool_max := 5; pool_after_connect := hook; pool_database := db |}.
End Open.

(** ** What an upgrade does to the rows *)

(** Rows that the table could have come to hold. *)
Fixpoint no_clash (t : SqlTable) (rows : list (list Val)) : bool :=
  match rows with
  | [] => true
  | row :: rows => negb (existsb (fun r => clashes t r row) rows) && no_clash t rows
  end.

Definition conforms (t : SqlTable) : bool :=
  forallb (row_fits (tb_cols t)) (tb_rows t) && no_clash t (tb_rows t).

(** The rows of a database. *)
Record AllRows := {
  r_agents : list (list Val);
  r_bootstrap : list (list Val);
  r_audit : list (list Val);
  r_registrations : list (list Val);
  r_meta : list (list Val);
  r_sessions : list (list Val);
  r_overrides : list (list Val)
}.

Definition sessions_table (v : nat) (rows : list (list Val)) : SqlTable :=
  {| tb_name := "oauth_sessions";
     tb_cols := match v with
                | 3%nat => sessions_cols_v3
                | 4%nat | 5%nat => sessions_cols_v4
                | _ => sessions_cols_v4 ++ [text_col "account_id"]
                end;
     tb_keys := match v with 3%nat => [["name"]] | _ => [["name"; "session_label"]] end;
     tb_rows := rows |}.

(** The tables and indexes of a database at a version: what its migrations
    made (see [store_at_spec]), with rows. *)
Definition store_at (v : nat) (r : AllRows) : Store :=
  let from (k : nat) {A} (l : list A) : list A := if (k <=? v)%nat then l else [] in
  let tb n cols keys rows := {| tb_name := n; tb_cols := cols; tb_keys := keys; tb_rows := rows |} in
  {| tables :=
       from 1%nat [tb "agents" agents_cols [["id"]; ["public_id"]; ["name"]] (r_agents r);
                   tb "bootstrap_tokens" bootstrap_cols [["id"]; ["public_id"]] (r_bootstrap r);
                   tb "audit" audit_cols [["id"]] (r_audit r)]
       ++ from 2%nat [tb "registrations" registrations_cols [["name"]] (r_registrations r);
                      tb "registrations_meta" meta_cols [["key"]] (r_meta r)]
       ++ from 3%nat [sessions_table v (r_sessions r)]
       ++ from 5%nat [tb "agent_credential_overrides" overrides_cols [["agent_id"; "registration"]]
                         (r_overrides r)];
     indexes :=
       from 1%nat [("idx_agents_active", "agents"); ("idx_agents_cert_identity", "agents");
                   ("idx_bootstrap_active", "bootstrap_tokens"); ("idx_audit_ts", "audit");
                   ("idx_audit_agent_ts", "audit"); ("idx_audit_class_ts", "audit");
                   ("idx_audit_tool_ts", "audit")]
       ++ from 2%nat [("idx_registrations_kind", "registrations");
                      ("idx_registrations_seed_disabled", "registrations")]
       ++ from 3%nat [("idx_oauth_sessions_refresh_schedule", "oauth_sessions")] |}.

Definition no_rows : AllRows :=
  {| r_agents := []; r_bootstrap := []; r_audit := []; r_registrations := []; r_meta := [];
     r_sessions := []; r_overrides := [] |}.

Example store_at_spec v :
  (v <= 6)%nat ->
  exec_all (List.concat (map mg_statements (take v MIGRATIONS))) (store_at 0 no_rows) =
  Some (store_at v no_rows).
Proof. intros Hv. do 7 (destruct v as [|v]; [reflexivity|]). lia. Qed.

(** Rows a database of that version can hold: none in the tables it has not,
    and all constraints kept. *)
Record rows_at (v : nat) (r : AllRows) : Prop := {
  ra_conform : forallb conforms (tables (store_at v r)) = true;
  ra_references : references_kept (store_at v r) = true;
  ra_v0 : (v < 1)%nat -> r_agents r = [] /\ r_bootstrap r = [] /\ r_audit r = [];
  ra_v1 : (v < 2)%nat -> r_registrations r = [] /\ r_meta r = [];
  ra_v2 : (v < 3)%nat -> r_sessions r = [];
  ra_v4 : (v < 5)%nat -> r_overrides r = []
}.

Definition with_session_rows (f : list Val -> list Val) (r : AllRows) : AllRows :=
  {| r_agents := r_agents r; r_bootstrap := r_bootstrap r; r_audit := r_audit r;
     r_registrations := r_registrations r; r_meta := r_meta r; r_sessions := map f (r_sessions r);
     r_overrides := r_overrides r |}.

Definition rows_of (n : string) (s : Store) : list (list Val) :=
  match find_table n s with Some t => tb_rows t | None => [] end.

(** A session's row as it is after all migrations. *)
Definition upgraded_session (v : nat) (row : list Val) : list Val :=
  if (v <=? 3)%nat then
    match row with name :: rest => name :: VText "default" :: rest | [] => [] end ++ [VNull]
  else if (v <=? 5)%nat then row ++ [VNull]
  else row.

Lemma no_clash_rows rows' t rows : no_clash (set_tb_rows rows' t) rows = no_clash t rows.
Proof. induction rows as [|r rows IH]; simpl; [done|]. by rewrite IH. Qed.

Lemma insert_rows_all rows t :
  forallb (row_fits (tb_cols t)) rows = true ->
  no_clash t (tb_rows t ++ rows) = true ->
  insert_rows rows t = Some (set_tb_rows (tb_rows t ++ rows) t).
Proof.
  revert t. induction rows as [|row rows IH]; intros t Hf Hc; simpl in *.
  { rewrite app_nil_r. by destruct t. }
  apply andb_true_iff in Hf as [Hf1 Hf2]. unfold insert_row. rewrite Hf1. simpl.
  assert (N : existsb (clashes t row) (tb_rows t) = false).
  { clear IH Hf1 Hf2. induction (tb_rows t) as [|r l IHl]; [done|]. simpl in *.
    apply andb_true_iff in Hc as [Hc1 Hc2]. rewrite IHl by done.
    apply negb_true_iff in Hc1. rewrite existsb_app in Hc1. simpl in Hc1.
    rewrite !orb_false_iff in Hc1. by destruct Hc1 as (_ & -> & _). }
  rewrite N. simpl. rewrite (IH (set_tb_rows (tb_rows t ++ [row]) t)); simpl; [by rewrite <- app_assoc|done|].
  rewrite <- app_assoc, no_clash_rows. exact Hc.
Qed.

Definition step_row (v : nat) (row : list Val) : list Val :=
  match v with
  | 3%nat => match row with name :: rest => name :: VText "default" :: rest | [] => [] end
  | 5%nat => row ++ [VNull]
  | _ => row
  end.

(** *** A column more *)

Lemma row_fits_snoc cs row c v :
  row_fits cs row = true -> fits c v = true -> row_fits (cs ++ [c]) (row ++ [v]) = true.
Proof.
  revert row. induction cs as [|d cs IH]; intros [|x row] Hr Hf; simpl in *; try done; [by rewrite Hf|].
  apply andb_true_iff in Hr as [-> Hr]. by apply IH.
Qed.

Lemma value_at_snoc cs row c v k :
  row_fits cs row = true -> k <> col_name c ->
  value_at (map col_name (cs ++ [c])) (row ++ [v]) k = value_at (map col_name cs) row k.
Proof.
  revert row. induction cs as [|d cs IH]; intros [|x row] Hr Hk; simpl in *; try done.
  { by rewrite bool_decide_eq_false_2. }
  apply andb_true_iff in Hr as [_ Hr]. case_bool_decide; [done|]. by apply IH.
Qed.

(** Rows rewritten so that keys still tell them apart. *)
Lemma no_clash_map t t' f rows :
  (forall a b, a ∈ rows -> b ∈ rows -> clashes t' (f a) (f b) = clashes t a b) ->
  no_clash t rows = true -> no_clash t' (map f rows) = true.
Proof.
  induction rows as [|row rows IH]; simpl; [done|]. intros Hf [Hc Hn]%andb_true_iff.
  apply andb_true_iff. split; [|apply IH; [|done]; intros; apply Hf; by right].
  apply negb_true_iff. apply negb_true_iff in Hc. apply not_true_iff_false. intros E.
  apply existsb_exists in E as (x & Hx & E). apply in_map_iff in Hx as (y & <- & Hy).
  apply not_true_iff_false in Hc. apply Hc, existsb_exists. exists y. split; [done|].
  rewrite <- Hf; [done|right; by apply list_elem_of_In|left].
Qed.

Lemma conforms_map t t' f :
  tb_rows t' = map f (tb_rows t) ->
  (forall row, row_fits (tb_cols t) row = true -> row_fits (tb_cols t') (f row) = true) ->
  (forall a b, row_fits (tb_cols t) a = true -> row_fits (tb_cols t) b = true ->
     clashes t' (f a) (f b) = clashes t a b) ->
  conforms t = true -> conforms t' = true.
Proof.
  unfold conforms. intros -> Hfit Hcl [Hf Hn]%andb_true_iff. rewrite forallb_forall in Hf.
  apply andb_true_iff. split.
  - apply forallb_forall. intros x (y & <- & Hy)%in_map_iff. auto.
  - eapply no_clash_map, Hn. intros a b Ha%list_elem_of_In Hb%list_elem_of_In. auto.
Qed.

Lemma existsb_agree {A} (f g : A -> bool) l :
  (forall x, x ∈ l -> f x = g x) -> existsb f l = existsb g l.
Proof.
  induction l as [|x l IH]; intros Hfg; simpl; [done|].
  rewrite (Hfg x) by left. f_equal. apply IH. intros y Hy. apply Hfg. by right.
Qed.

Lemma conforms_snoc t c v :
  fits c v = true -> (forall key, key ∈ tb_keys t -> col_name c ∉ key) ->
  conforms t = true ->
  conforms {| tb_name := tb_name t; tb_cols := tb_cols t ++ [c]; tb_keys := tb_keys t;
              tb_rows := map (fun row => row ++ [v]) (tb_rows t) |} = true.
Proof.
  intros Hf Hk. eapply conforms_map; [done|intros row Hr; by apply row_fits_snoc|].
  intros a b Ha Hb. unfold clashes. cbn [tb_keys].
  assert (K : forall row, row_fits (tb_cols t) row = true -> forall key, key ∈ tb_keys t ->
    key_of {| tb_name := tb_name t; tb_cols := tb_cols t ++ [c]; tb_keys := tb_keys t;
              tb_rows := map (fun row => row ++ [v]) (tb_rows t) |} key (row ++ [v]) = key_of t key row).
  { intros row Hr key Hkey. unfold key_of, col_names. cbn [tb_cols]. apply map_ext_in.
    intros k Hin%list_elem_of_In. apply value_at_snoc; [done|]. intros ->. by apply (Hk key). }
  apply existsb_agree. intros key Hkey. unfold same_key. by rewrite !K.
Qed.

(** *** The two migrations that rewrite rows *)

Lemma account_id_conforms rows :
  conforms (sessions_table 5 rows) = true ->
  conforms (sessions_table 6 (map (step_row 5) rows)) = true.
Proof.
  intros Hc. refine (conforms_snoc (sessions_table 5 rows) (text_col "account_id") VNull eq_refl _ Hc).
  intros key ->%list_elem_of_singleton. simpl. rewrite !not_elem_of_cons. split_and!; [done..|].
  apply not_elem_of_nil.
Qed.

(** A row of the old sessions table has its ten columns. *)
Lemma session_row_shape row :
  row_fits sessions_cols_v3 row = true ->
  exists n a b c d e f g h i, row = [n; a; b; c; d; e; f; g; h; i].
Proof.
  intros Hr. do 10 (destruct row as [|? row]; [by repeat (apply andb_true_iff in Hr as [? Hr])|]).
  destruct row; [by repeat eexists|].
  repeat (apply andb_true_iff in Hr as [_ Hr]). done.
Qed.

Lemma labelled_conforms t rows :
  tb_cols t = sessions_cols_v4 -> tb_keys t = [["name"; "session_label"]] ->
  tb_rows t = map (step_row 3) rows ->
  conforms (sessions_table 3 rows) = true -> conforms t = true.
Proof.
  intros Hcols Hkeys Hrows. apply conforms_map with (f := step_row 3); [done|..]; rewrite ?Hcols.
  - intros row Hr. pose proof (session_row_shape row Hr) as (? & ? & ? & ? & ? & ? & ? & ? & ? & ? & ->).
    simpl in Hr |- *. exact Hr.
  - intros x y Hx Hy.
    destruct (session_row_shape x Hx) as (p & ? & ? & ? & ? & ? & ? & ? & ? & ? & ->).
    destruct (session_row_shape y Hy) as (q & ? & ? & ? & ? & ? & ? & ? & ? & ? & ->).
    unfold clashes, same_key, key_of, col_names. rewrite Hcols, Hkeys. simpl.
    do 2 f_equal; [|f_equal]; apply bool_decide_ext; set_solver.
Qed.

(** Copying the old rows into the new table labels them and loses none. *)
Lemma copied_rows rows :
  let fresh_table rows := {| tb_name := "oauth_sessions__new"; tb_cols := sessions_cols_v4;
                             tb_keys := [["name"; "session_label"]]; tb_rows := rows |} in
  conforms (sessions_table 3 rows) = true ->
  insert_rows (map (fun row => full_row (fresh_table []) copied_cols
                      (map (eval_expr (map col_name sessions_cols_v3) row) copied_exprs)) rows)
    (fresh_table []) = Some (fresh_table (map (step_row 3) rows)).
Proof.
  intros fresh_table Hc.
  pose proof (labelled_conforms (fresh_table (map (step_row 3) rows)) rows eq_refl eq_refl eq_refl Hc) as Hn.
  apply andb_true_iff in Hc as [Hf _]. rewrite forallb_forall in Hf.
  rewrite (map_ext_in _ (step_row 3)).
  - apply andb_true_iff in Hn as [Hn1 Hn2]. rewrite insert_rows_all; [done|done|].
    by rewrite <- (no_clash_rows (map (step_row 3) rows)).
  - intros row (? & ? & ? & ? & ? & ? & ? & ? & ? & ? & ->)%Hf%session_row_shape. reflexivity.
Qed.

(** ** The upgrade, one migration at a time *)

Lemma conform_at v r t : rows_at v r -> t ∈ tables (store_at v r) -> conforms t = true.
Proof. intros [Hc _ _ _ _ _] Ht. rewrite forallb_forall in Hc. by apply Hc, list_elem_of_In. Qed.

Lemma insert_select_exec dst cols exprs src s t d d' :
  find_table src s = Some t -> find_table dst s = Some d ->
  insert_rows (map (fun row => full_row d cols (map (eval_expr (col_names t) row) exprs)) (tb_rows t)) d
    = Some d' -> references_ok (put_table d' s) d' = true ->
  exec_ddl (InsertSelect dst cols exprs src) s = Some (put_table d' s).
Proof. intros Ht Hd Hi Hr. simpl. by rewrite Ht, Hd, Hi, Hr. Qed.

Lemma exec_all_cons d ds s s' : exec_ddl d s = Some s' -> exec_all (d :: ds) s = exec_all ds s'.
Proof. intros E. simpl. by rewrite E. Qed.

Lemma labels_executed r :
  rows_at 3 r ->
  exec_all (mg_statements m0004_oauth_session_labels) (store_at 3 r) =
  Some (store_at 4 (with_session_rows (step_row 3) r)).
Proof.
  intros Hr. assert (Hc : conforms (sessions_table 3 (r_sessions r)) = true).
  { apply (conform_at 3 r _ Hr). simpl. do 5 right. left. }
  cbn [mg_statements m0004_oauth_session_labels].
  erewrite exec_all_cons by reflexivity.
  erewrite exec_all_cons by (eapply insert_select_exec; [reflexivity..|exact (copied_rows _ Hc)|reflexivity]).
  reflexivity.
Qed.

Lemma forallb_app_cons {A} (p : A -> bool) l x k :
  forallb p (l ++ x :: k) = true <-> forallb p (l ++ k) = true /\ p x = true.
Proof. rewrite !forallb_app. simpl. rewrite !andb_true_iff. tauto. Qed.

(** Every migration runs on every database of the version before it. *)
Lemma migration_executed v m r :
  MIGRATIONS !! v = Some m -> rows_at v r ->
  exec_all (mg_statements m) (store_at v r) = Some (store_at (S v) (with_session_rows (step_row v) r)) /\
  rows_at (S v) (with_session_rows (step_row v) r).
Proof.
  intros Hm Hr. pose proof Hr as [Hc Hf H0 H1 H2 H4].
  assert (Hid : v <> 3%nat -> v <> 5%nat -> with_session_rows (step_row v) r = r).
  { intros N3 N5. destruct r. unfold with_session_rows. simpl. f_equal.
    transitivity (map id r_sessions0); [apply map_ext; intros|apply map_id].
    by do 6 (destruct v as [|v]; [done|]). }
  destruct v as [|[|[|[|[|[|v]]]]]]; [injection Hm as <-..|done].
  1,2,3,5: rewrite Hid by done; destruct r; simpl in *;
    repeat match goal with H : (_ < _)%nat -> _ |- _ => first [specialize (H ltac:(lia)); destruct_and? H; subst | clear H] end.
  1-4: split; [reflexivity|]; split; simpl; try done; try lia.
  - split; [by apply labels_executed|]. split; try (simpl; done || lia); [|intros _; apply H4; lia].
    apply (forallb_app_cons conforms (take 5 (tables (store_at 3 r))) _ []) in Hc as [Hc Hsess].
    apply (forallb_app_cons conforms (take 5 (tables (store_at 3 r))) _ []). split; [done|].
    by apply (labelled_conforms (sessions_table 4 (map (step_row 3) (r_sessions r))) (r_sessions r)).
  - split; [reflexivity|]. split; try (simpl; done || lia).
    apply (forallb_app_cons conforms (take 5 (tables (store_at 5 r))) _ (drop 6 (tables (store_at 5 r)))) in Hc as [Hc Hsess].
    apply (forallb_app_cons conforms (take 5 (tables (store_at 5 r))) _ (drop 6 (tables (store_at 5 r)))).
    split; [done|by apply account_id_conforms].
Qed.

Lemma rows_compose f g r :
  with_session_rows f (with_session_rows g r) = with_session_rows (fun row => f (g row)) r.
Proof. unfold with_session_rows. simpl. by rewrite map_map. Qed.

Lemma rows_same f g r : (forall row, f row = g row) -> with_session_rows f r = with_session_rows g r.
Proof. intros E. unfold with_session_rows. f_equal. by apply map_ext. Qed.

Lemma rows_id r : with_session_rows (fun row => row) r = r.
Proof. destruct r. unfold with_session_rows. simpl. f_equal. apply map_id. Qed.

Lemma upgraded_step v row :
  (v < 6)%nat -> upgraded_session (S v) (step_row v row) = upgraded_session v row.
Proof. intros Hv. by do 6 (destruct v as [|v]; [done|]); lia. Qed.

Section Upgrade.
Context {SE ME : Type} `{MigratorCrate SE ME} `{!MigratorLaws}.

Definition at_version (v : nat) (r : AllRows) : Database :=
  {| db_store := store_at v r; db_applied := map mg_version (take v MIGRATIONS) |}.

Lemma run_upgrades k v r :
  (v + k = 6)%nat -> rows_at v r ->
  migrator_run MIGRATIONS (at_version v r) =
    (Ok tt, at_version 6 (with_session_rows (upgraded_session v) r)) /\
  rows_at 6 (with_session_rows (upgraded_session v) r).
Proof.
  revert v r. induction k as [|k IH]; intros v r Hv Hr.
  - assert (v = 6%nat) as -> by lia. rewrite (rows_same _ (fun row => row)), rows_id by done.
    split; [apply run_done|done].
  - destruct (lookup_lt_is_Some_2 MIGRATIONS v) as [m Hm]; [simpl; lia|].
    destruct (migration_executed v m r Hm Hr) as [E Hr'].
    assert (Hn : migrator_run MIGRATIONS (at_version v r) =
                 migrator_run MIGRATIONS (at_version (S v) (with_session_rows (step_row v) r))).
    { pose proof (run_next (take v MIGRATIONS) m (drop (S v) MIGRATIONS) _ _ E) as N.
      rewrite take_drop_middle in N by done. unfold at_version. rewrite N.
      by rewrite (take_S_r _ _ _ Hm). }
    rewrite Hn. destruct (IH (S v) _ ltac:(lia) Hr') as [E' R']. rewrite rows_compose in E', R'.
    rewrite (rows_same (fun row => upgraded_session (S v) (step_row v row)) (upgraded_session v)) in E', R'
      by (intros; apply upgraded_step; lia). done.
Qed.

(** C20: Opening a database file of any earlier version upgrades it without
    losing anything: all pending migrations run, every table keeps its rows,
    each OAuth session becomes the default session of its registration with
    its columns as they were and no account id, all constraints hold in the
    new schema, and opening it again changes nothing. *)
Theorem upgrade_keeps_rows path o v r :
  (v <= 6)%nat -> rows_at v r ->
  options_from_str ("sqlite://" +:+ path) = Ok o ->
  connect_with (with_pragmas o) 5 ["PRAGMA wal_autocheckpoint = 1000;"] = Ok (at_version v r) ->
  exists pool, open_and_migrate path = Ok pool /\
    pool_database pool = at_version 6 (with_session_rows (upgraded_session v) r) /\
    rows_at 6 (with_session_rows (upgraded_session v) r) /\
    forall path' o', options_from_str ("sqlite://" +:+ path') = Ok o' ->
      connect_with (with_pragmas o') 5 ["PRAGMA wal_autocheckpoint = 1000;"] = Ok (pool_database pool) ->
      exists pool', open_and_migrate path' = Ok pool' /\ pool_database pool' = pool_database pool.
Proof.
  intros Hv Hr Ho Hc. destruct (run_upgrades (6 - v) v r ltac:(lia) Hr) as [E R].
  unfold open_and_migrate. rewrite Ho. simpl. rewrite Hc. simpl. rewrite E. simpl.
  eexists. split; [done|]. split; [done|]. split; [done|]. simpl. intros path' o' Ho' Hc'.
  rewrite Ho'. simpl. rewrite Hc'. simpl.
  destruct (run_upgrades 0 6 _ eq_refl R) as [E' _]. rewrite E'. simpl. eexists. split; [done|]. simpl.
  rewrite rows_compose. by rewrite (rows_same (fun row => _) (upgraded_session v)).
Qed.
End Upgrade.

(** ** What the repositories ask of the schema *)

(** The columns each INSERT names ([repo/agent.rs], [repo/bootstrap.rs],
    [repo/audit.rs], [registrations/repo.rs], [oauth/session.rs],
    [repo/agent_creds.rs]). *)
Definition INSERTS : list (string * list string) :=
  [("agents", ["public_id"; "name"; "description"; "secret_hash"; "tool_allowlist"; "tool_denylist";
               "metadata"; "registered_at"; "expires_at"]);
   ("bootstrap_tokens", ["public_id"; "secret_hash"; "scope"; "created_by"; "created_at"; "expires_at"]);
   ("audit", ["ts"; "event_class"; "event"; "agent_public_id"; "operator_name"; "tool"; "upstream_host";
              "method"; "path"; "status"; "latency_ms"; "decision"; "auth_method"; "origin_ip"; "details"]);
   ("registrations", ["name"; "kind"; "description"; "upstream"; "auth_json"; "egress"; "timeouts_json";
                      "body_limit_bytes"; "metadata_json"; "seed"; "disabled"; "created_at"; "updated_at"]);
   ("registrations_meta", ["key"; "value"]);
   ("oauth_sessions", ["name"; "session_label"; "refresh_token_ciphertext"; "refresh_token_nonce";
                       "access_token_ciphertext"; "access_token_nonce"; "access_token_expires_at"; "scope";
                       "degraded"; "created_at"; "updated_at"; "account_id"]);
   ("agent_credential_overrides", ["agent_id"; "registration"; "auth_spec"; "created_at"; "updated_at"])].

(** And those the other statements read, set or compare. *)
Definition COLUMNS_USED : list (string * list string) :=
  [("agents", ["id"; "public_id"; "name"; "description"; "secret_hash"; "tool_allowlist"; "tool_denylist";
               "metadata"; "cert_identity"; "registered_at"; "last_used_at"; "expires_at"; "revoked_at"]);
   ("bootstrap_tokens", ["id"; "public_id"; "secret_hash"; "scope"; "created_by"; "created_at";
                         "expires_at"; "used_at"; "used_by_agent_id"; "revoked_at"]);
   ("audit", ["id"; "ts"; "event_class"; "event"; "agent_public_id"; "operator_name"; "tool";
              "upstream_host"; "method"; "path"; "status"; "latency_ms"; "decision"; "auth_method";
              "origin_ip"; "details"])].

(** The INSERT names no unknown column and leaves out none that must have a
    value, but the row id, which SQLite assigns. *)
Definition insert_fits (s : Store) (q : string * list string) : bool :=
  match find_table q.1 s with
  | None => false
  | Some t =>
      forallb (fun c => bool_decide (c ∈ col_names t)) q.2 &&
      forallb (fun c => negb (col_not_null c) || isSome (col_default c)
                        || bool_decide (col_name c ∈ "id" :: q.2)) (tb_cols t)
  end.

Definition columns_exist (s : Store) (q : string * list string) : bool :=
  match find_table q.1 s with
  | None => false
  | Some t => forallb (fun c => bool_decide (c ∈ col_names t)) q.2
  end.

Lemma statements_fit_schema r :
  forallb (insert_fits (store_at 6 r)) INSERTS = true /\
  forallb (columns_exist (store_at 6 r)) COLUMNS_USED = true.
Proof. split; vm_compute; reflexivity. Qed.

(** ** Sessions of before the labels *)

Definition opt_blob (v : Val) : option (option string) :=
  match v with VNull => Some None | VBlob s => Some (Some s) | _ => None end.
Definition opt_int (v : Val) : option (option Z) :=
  match v with VNull => Some None | VInt z => Some (Some z) | _ => None end.
Definition opt_text (v : Val) : option (option string) :=
  match v with VNull => Some None | VText s => Some (Some s) | _ => None end.

Definition get_text (v : Val) : option string := match v with VText s => Some s | _ => None end.
Definition get_blob (v : Val) : option string := match v with VBlob s => Some s | _ => None end.
Definition get_int (v : Val) : option Z := match v with VInt z => Some z | _ => None end.

(** The [row.get]s of [OauthSessionRepository::get] on the current table. *)
Definition session_of_row (row : list Val) : option SessionRow :=
  match row with
  | [n; l; rct; rn; act; an; exp; scope; deg; created; updated; acc] =>
      let* n := get_text n in
      let* l := get_text l in
      let* rct := get_blob rct in
      let* rn := get_blob rn in
      let* act := opt_blob act in
      let* an := opt_blob an in
      let* exp := opt_int exp in
      let* scope := get_text scope in
      let* deg := get_int deg in
      let* created := get_int created in
      let* updated := get_int updated in
      let* acc := opt_text acc in
      Some {| sr_name := n; sr_label := l; sr_refresh_ct := rct; sr_refresh_nonce := rn;
              sr_access_ct := act; sr_access_nonce := an; sr_expires_at := exp; sr_scope := scope;
              sr_degraded := deg; sr_created_at := created; sr_updated_at := updated;
              sr_account_id := acc |}
  | _ => None
  end.

(** A session of the first sessions table, as it would be today. *)
Definition session_of_v3 (row : list Val) : option SessionRow :=
  match row with
  | [n; rct; rn; act; an; exp; scope; deg; created; updated] =>
      session_of_row [n; VText DEFAULT_SESSION_LABEL; rct; rn; act; an; exp; scope; deg; created; updated;
                      VNull]
  | _ => None
  end.

Lemma upgraded_session_decodes row x :
  session_of_v3 row = Some x -> session_of_row (upgraded_session 3 row) = Some x.
Proof. by do 10 (destruct row as [|? row]; [done|]); destruct row. Qed.

Lemma session_of_v3_key row x :
  session_of_v3 row = Some x -> sr_label x = DEFAULT_SESSION_LABEL /\
  value_at (map col_name sessions_cols_v3) row "name" = VText (sr_name x).
Proof.
  do 10 (destruct row as [|? row]; [done|]). destruct row; [|done].
  unfold session_of_v3, session_of_row. intros E.
  repeat match type of E with (match ?o with _ => _ end) = _ => destruct o eqn:?; [|done] end.
  injection E as <-. split; [simpl in *; congruence|]. destruct v; simpl in *; congruence.
Qed.

(** After the upgrade, looking up the default session of a registration finds
    the session the registration had. *)
Theorem old_session_is_default `{AesGcm} `{Base64Std} k rows olds row x :
  conforms (sessions_table 3 rows) = true ->
  Forall2 (fun row x => session_of_v3 row = Some x) rows olds ->
  row ∈ rows -> session_of_v3 row = Some x ->
  Forall2 (fun row x => session_of_row row = Some x) (map (upgraded_session 3) rows) olds /\
  session_get k (sr_name x) DEFAULT_SESSION_LABEL {| sessions := olds; sess_online := true |} =
    (let? s := row_to_session k x in Ok (Some s)).
Proof.
  intros [_ Hn]%andb_true_iff Hall Hrow Hx. split.
  { clear -Hall. induction Hall as [|r y rows olds E _ IH]; simpl; constructor; [|done].
    by apply upgraded_session_decodes. }
  unfold session_get. cbn [sess_online negb sessions].
  assert (F : find_first (by_session (sr_name x) DEFAULT_SESSION_LABEL) olds = Some x); [|by rewrite F].
  apply (eq_trans (no_clash_rows [] (sessions_table 3 rows) rows)) in Hn.
  change (set_tb_rows [] (sessions_table 3 rows)) with (sessions_table 3 []) in Hn.
  induction Hall as [|r y rows olds E Hall IH]; [by apply not_elem_of_nil in Hrow|]. simpl.
  apply andb_true_iff in Hn as [Hc Hn]. destruct (session_of_v3_key r y E) as [Hl Hk].
  destruct (by_session _ _ y) eqn:Ey.
  - apply elem_of_cons in Hrow as [->|Hin]; [congruence|exfalso].
    apply negb_true_iff, not_true_iff_false in Hc. apply Hc, existsb_exists. exists row.
    split; [by apply list_elem_of_In|]. destruct (session_of_v3_key row x Hx) as [_ Hkx].
    unfold by_session in Ey. apply andb_true_iff in Ey as [Ey%bool_decide_eq_true _].
    unfold clashes, same_key, key_of, col_names. cbn [tb_keys sessions_table existsb tb_cols map].
    rewrite Hk, Hkx, Ey, bool_decide_eq_true_2, bool_decide_eq_false_2; [done| |done].
    by intros [=]%list_elem_of_singleton.
  - apply elem_of_cons in Hrow as [->|Hin]; [|by apply IH].
    assert (y = x) as -> by congruence. unfold by_session in Ey.
    by rewrite Hl, !bool_decide_eq_true_2 in Ey.
Qed.

(** ** Witness *)

Module MigrationsWitness.

(** A migrator that goes by the number of recorded versions. *)
Fixpoint run_pending (todo : list Migration) (db : Database) : result string unit * Database :=
  match todo with
  | [] => (Ok tt, db)
  | m :: todo =>
      match exec_all (mg_statements m) (db_store db) with
      | Some s => run_pending todo {| db_store := s; db_applied := db_applied db ++ [mg_version m] |}
      | None => (Err "failed", db)
      end
  end.

(** A session of before the labels. *)
Definition codex_row : list Val :=
  [VText "codex"; VBlob "ct"; VBlob "nonce"; VNull; VNull; VInt 99; VText "openid"; VInt 0; VInt 5; VInt 7].

(** An agent, and the bootstrap token it was registered with. *)
Definition agent_row : list Val :=
  [VInt 1; VText "pid"; VText "dev"; VNull; VText "hash"; VNull; VNull; VNull; VNull; VInt 5; VNull; VNull;
   VNull; VNull].
Definition token_row : list Val :=
  [VInt 1; VText "bid"; VText "hash"; VText "{}"; VText "ops"; VInt 4; VNull; VInt 5; VInt 1; VNull].

Definition old_rows : AllRows :=
  {| r_agents := [agent_row]; r_bootstrap := [token_row]; r_audit := []; r_registrations := [];
     r_meta := [[VText "seed_version"; VText "1"]]; r_sessions := [codex_row]; r_overrides := [] |}.

Definition options0 (name : string) : ConnectOptions :=
  {| co_filename := name; co_create_if_missing := false; co_journal_mode := OtherJournal;
     co_synchronous := OtherSync; co_foreign_keys := false; co_busy_timeout_ms := 0;
     co_log_statements := true |}.

#[export] Instance counting : MigratorCrate string string :=
  {| options_from_str s := Ok (options0 s);
     connect_with o _ _ := Ok (if bool_decide (co_filename o = "sqlite://old.db")
                               then at_version 3 old_rows else empty_database);
     migrator_run ms db := run_pending (drop (List.length (db_applied db)) ms) db |}.

#[export] Instance counting_laws : MigratorLaws.
Proof.
  split; simpl.
  - intros ms s. by rewrite length_map, drop_all.
  - intros before m after s s' E. rewrite !length_map, drop_app_length, length_app. simpl. rewrite E.
    by rewrite <- drop_drop, drop_app_length, map_app.
  - intros before m after s E. rewrite length_map, drop_app_length. simpl. rewrite E. by eexists.
Qed.

Lemma old_rows_at : rows_at 3 old_rows.
Proof. split; first [vm_compute; reflexivity | intros ?; lia | done]. Qed.

Lemma upgrade_keeps_rows_witness :
  exists pool, open_and_migrate "old.db" = Ok pool /\
    rows_of "oauth_sessions" (db_store (pool_database pool)) =
      [[VText "codex"; VText "default"; VBlob "ct"; VBlob "nonce"; VNull; VNull; VInt 99; VText "openid";
        VInt 0; VInt 5; VInt 7; VNull]].
Proof.
  destruct (upgrade_keeps_rows "old.db" (options0 "sqlite://old.db") 3 old_rows) as (pool & E & D & _ & _);
    [lia|apply old_rows_at|reflexivity|reflexivity|].
  exists pool. split; [exact E|]. rewrite D. vm_compute. reflexivity.
Defined.

(** A new file gets the whole schema. *)
Example fresh_database_opens :
  match open_and_migrate "new.db" with
  | Ok pool => db_store (pool_database pool) = store_at 6 no_rows
  | Err _ => False
  end.
Proof. vm_compute. reflexivity. Qed.
End MigrationsWitness.
