(* ===== verification/OauthAdmin.v ===== *)
(** * OAuth session administration ([src/oauth/admin.rs])

    The operator's bootstrap, status, list and revoke handlers over the
    session table of [Oauth].  A bootstrap creates the row, exchanges the
    refresh token inline and rolls the row back when the exchange fails, all
    under the session's lock.  Error texts of the layers below are
    parameters. *)

From S2P Require Import Prelude Json Http Token AgentRepo AuditLog.
From S2P Require Import Secret ResponseControls Config Registrations Oauth.

(** [LabelQuery::label_or_default]. *)
Definition label_or_default (label : option string) : string :=
  default DEFAULT_SESSION_LABEL label.

Record OauthAdminState := {
  oa_registrations : RegistrationRepository;
  oa_sessions : OauthSessionRepository;
  oa_sealing_key : SealingKey;
  oa_catalog : gmap string Registration;
  oa_locks : gmap string nat
}.

Definition with_sessions (db : OauthSessionRepository) (st : OauthAdminState)
  : OauthAdminState :=
  {| oa_registrations := oa_registrations st; oa_sessions := db;
     oa_sealing_key := oa_sealing_key st; oa_catalog := oa_catalog st;
     oa_locks := oa_locks st |}.

Definition with_locks (m : gmap string nat) (st : OauthAdminState) : OauthAdminState :=
  {| oa_registrations := oa_registrations st; oa_sessions := oa_sessions st;
     oa_sealing_key := oa_sealing_key st; oa_catalog := oa_catalog st; oa_locks := m |}.

Definition oauth_error (status : Z) (ty code message : string) : Response :=
  json_response status (error_envelope
    [("type", JString ty); ("code", JString code); ("message", JString message)]).

Section Handlers.
Context `{AesGcm} `{Base64Std} `{Base64Url} `{SerdeJson} `{Sha2Crate}.
Variable post : string -> list (string * string) -> option (Z * option TokenResponse).
Variable registration_text : RegistrationError -> string.
Variable session_text : OauthSessionError -> string.
Variable refresh_text : RefreshError -> string.

Definition session_status_json (s : OauthSession) (present : bool) : Json :=
  json_obj [("name", JString (os_name s)); ("session_label", JString (os_label s));
            ("present", JBool present); ("scope", JString (os_scope s));
            ("degraded", JBool (os_degraded s));
            ("access_token_expires_at", json_opt JInt (os_expires_at s));
            ("created_at", JInt (os_created_at s)); ("updated_at", JInt (os_updated_at s));
            ("audit_session_id", JString (audit_session_id s))].

Definition collision_warnings (n bootstrapped_label : string) (db : OauthSessionRepository)
  : list string :=
  match list_all db with
  | Err _ => []
  | Ok rows =>
      let other_labels :=
        map (fun r => r.1.1.2)
            (List.filter (fun r => bool_decide (r.1.1.1 = n)
                                   && negb (bool_decide (r.1.1.2 = bootstrapped_label))) rows) in
      match other_labels with
      | [] => []
      | _ => ["Registration `" +:+ n +:+ "` already has session label(s): "
              +:+ join ", " other_labels
              +:+ ". If those sessions point at the same upstream account as label `"
              +:+ bootstrapped_label
              +:+ "`, the provider has likely invalidated the prior refresh tokens (single-grant OAuth policy on OpenAI ChatGPT, GitHub, Google, etc.). Per-agent OAuth requires distinct upstream accounts; see concepts/per-agent-credentials.md."]
      end
  end.

(** The text of a failed INSERT mentions the constraint when the row exists;
    a sealing error and an unreachable database do not. *)
Definition is_conflict (e : OauthSessionError) (db : OauthSessionRepository) : bool :=
  match e with SessionDatabase => sess_online db | _ => false end.

(** [op_oauth_bootstrap]; [n0] seals the refresh token of the new row, [n1]
    and [n2] the tokens of the exchange, [t0] and [t1] are the two clock
    readings. *)
Definition op_oauth_bootstrap (n : string) (label : option string) (refresh_token : string)
    (n0 n1 n2 : option string) (t0 t1 : Z) (st : OauthAdminState)
  : Response * OauthAdminState :=
  let session_label := label_or_default label in
  match reg_get n (oa_registrations st) with
  | Ok None => (oauth_error 404 "not_found" "unknown_name" "registration not found", st)
  | Err e =>
      (oauth_error 500 "auth_error" "internal_error"
         ("registrations: " +:+ registration_text e), st)
  | Ok (Some registration) =>
      if negb (is_oauth (auth registration)) then
        (oauth_error 400 "bad_request" "not_oauth_registration"
           "registration is not an OAuth shape", st)
      else
        let st := with_locks (snd (lock_get n session_label (oa_locks st))) st in
        match session_create (oa_sealing_key st) n session_label refresh_token None None ""
                n0 n0 t0 (oa_sessions st) with
        | (Err e, db) =>
            if is_conflict e (oa_sessions st) then
              (oauth_error 409 "conflict" "session_exists"
                 "session already bootstrapped; revoke before re-bootstrapping",
               with_sessions db st)
            else
              (oauth_error 500 "auth_error" "internal_error"
                 ("oauth_sessions: " +:+ session_text e), with_sessions db st)
        | (Ok session, db) =>
            match refresh_session post (oa_catalog st) (oa_sealing_key st) session n1 n2 t1 db with
            | (Err e, db) =>
                (oauth_error 502 "auth_error" "oauth_bootstrap_failed"
                   ("refresh exchange failed: " +:+ refresh_text e),
                 with_sessions (snd (session_delete n session_label db)) st)
            | (Ok updated, db) =>
                let warnings := collision_warnings n session_label db in
                let body := session_status_json updated true in
                let body :=
                  match warnings with
                  | [] => body
                  | _ => json_set "warnings" (JArray (map JString warnings)) body
                  end in
                (json_response 200 body, with_sessions db st)
            end
        end
  end.

Definition op_oauth_status (n : string) (label : option string) (st : OauthAdminState)
  : Response :=
  let session_label := label_or_default label in
  match session_get (oa_sealing_key st) n session_label (oa_sessions st) with
  | Ok (Some session) => json_response 200 (session_status_json session true)
  | Ok None =>
      json_response 200 (json_obj [("name", JString n); ("session_label", JString session_label);
                                   ("present", JBool false)])
  | Err e =>
      oauth_error 500 "auth_error" "internal_error" ("oauth_sessions: " +:+ session_text e)
  end.

Definition op_oauth_list (st : OauthAdminState) : Response :=
  match list_all (oa_sessions st) with
  | Ok rows =>
      json_response 200 (json_obj [("sessions", JArray (map
        (fun r => json_obj [("name", JString r.1.1.1); ("session_label", JString r.1.1.2);
                            ("degraded", JBool r.1.2);
                            ("access_token_expires_at", json_opt JInt r.2)]) rows))])
  | Err e =>
      oauth_error 500 "auth_error" "internal_error" ("oauth_sessions: " +:+ session_text e)
  end.

Definition op_oauth_revoke (n : string) (label : option string) (st : OauthAdminState)
  : Response * OauthAdminState :=
  match session_delete n (label_or_default label) (oa_sessions st) with
  | (Ok _, db) => (status_response 204, with_sessions db st)
  | (Err e, db) =>
      (oauth_error 500 "auth_error" "internal_error" ("oauth_sessions: " +:+ session_text e),
       with_sessions db st)
  end.

(** ** Lemmas on the table *)

Lemma session_create_inv k n l refresh n0 t0 db s db' :
  session_create k n l refresh None None "" n0 n0 t0 db = (Ok s, db') ->
  sess_online db = true /\ sql_exists (by_session n l) (sessions db) = false /\
  os_name s = n /\ os_label s = l /\ os_refresh_token s = refresh /\
  exists row, db' = set_sessions (sessions db ++ [row]) db /\ by_session n l row = true.
Proof.
  unfold session_create. intros E. branches E. rewrite negb_false_iff in *.
  split_and!; try done. eexists. split; [done|]. by apply by_session_iff.
Qed.

Lemma session_create_err k n l refresh n0 t0 db e db' :
  session_create k n l refresh None None "" n0 n0 t0 db = (Err e, db') -> db' = db.
Proof. unfold session_create. intros E. by branches E. Qed.

(** Deleting one session's rows undoes an insert of that session and any
    update of it. *)
Lemma delete_new_row n l rows row (f : SessionRow -> SessionRow) :
  sql_exists (by_session n l) rows = false -> by_session n l row = true ->
  (forall r, by_session n l (f r) = by_session n l r) ->
  sql_delete (by_session n l) (map (fun r => if by_session n l r then f r else r) (rows ++ [row]))
  = rows.
Proof.
  intros Hex Hrow Hf. unfold sql_delete. rewrite map_app, List.filter_app. simpl.
  rewrite Hrow, Hf, Hrow. simpl. rewrite app_nil_r.
  rewrite sql_exists_false in Hex. induction rows as [|r rows IH]; [done|]. simpl.
  rewrite (Hex r), (Hex r) by left. simpl. f_equal. apply IH. intros r' Hr. apply Hex. by right.
Qed.
(** A failed exchange followed by the delete is the table before the
    insert. *)
Lemma rollback cat k n l refresh n0 n1 n2 t0 t1 db s db1 e db2 :
  session_create k n l refresh None None "" n0 n0 t0 db = (Ok s, db1) ->
  refresh_session post cat k s n1 n2 t1 db1 = (Err e, db2) ->
  snd (session_delete n l db2) = db.
Proof.
  intros Hc Hr. destruct (session_create_inv _ _ _ _ _ _ _ _ _ Hc)
    as (Hon & Hex & En & El & _ & row & -> & Hrow).
  destruct (refresh_session_cases _ _ _ _ _ _ _ _ _ _ Hr) as [(e' & _ & ->)|(tr & _ & Hu & _)].
  - unfold session_delete. cbn [sess_online set_sessions sessions]. rewrite Hon. cbn [negb snd].
    pose proof (delete_new_row n l (sessions db) row id Hex Hrow (fun _ => eq_refl)) as D.
    rewrite (map_ext _ id), map_id in D; [|by intros r; destruct (by_session n l r)].
    rewrite D. by destruct db.
  - unfold update_tokens in Hu. cbn in Hu. rewrite Hon, En, El in Hu. cbn in Hu. branches Hu.
    unfold session_delete. cbn [sess_online set_sessions sessions]. rewrite Hon.
    cbn [negb snd]. rewrite delete_new_row by done. by destruct db.
Qed.

(** With working seals, a registered OAuth shape and an accepting provider,
    a refresh of a stored session succeeds. *)
Lemma refresh_session_progress `{!AesGcmLaws} cat k s n1 n2 t db reg e db' :
  nonce_ok n1 -> nonce_ok n2 -> reply_utf8 post ->
  session_get k (os_name s) (os_label s) db = Ok (Some s) ->
  lookup_active (os_name s) cat = Some reg -> is_oauth (auth reg) = true ->
  (forall url form, exists status tr,
     post url form = Some (status, Some tr) /\ is_success status = true) ->
  (forall p, is_ok (seal k n1 p) = true) -> (forall p, is_ok (seal k n2 p) = true) ->
  refresh_session post cat k s n1 n2 t db = (Err e, db') -> False.
Proof.
  intros Hn1 Hn2 Hutf Hget Hcat Ho Hpost Hs1 Hs2 Hr.
  destruct (session_get_row _ _ _ _ _ Hget) as (Hon & row & Hat & Hs).
  assert (Hup : forall tr ex, exists db2,
    update_tokens k (os_name s) (os_label s) (tr_access_token tr) ex (tr_refresh_token tr)
      n1 n2 t db = (Ok tt, db2)).
  { intros tr ex. unfold update_tokens. specialize (Hs1 (tr_access_token tr)).
    destruct (seal k n1 (tr_access_token tr)) as [[]|]; [|done].
    assert (S2 : is_ok (seal_opt k n2 (tr_refresh_token tr)) = true).
    { destruct (tr_refresh_token tr) as [x|]; [|done]. cbn. specialize (Hs2 x).
      by destruct (seal k n2 x). }
    destruct (seal_opt k n2 (tr_refresh_token tr)); [|done]. rewrite Hon. cbn. eauto. }
  assert (Hread : forall tr db2 url form st, post url form = Some (st, Some tr) ->
    update_tokens k (os_name s) (os_label s) (tr_access_token tr)
      (as_i64 (t + default 3600 (tr_expires_in tr))) (tr_refresh_token tr) n1 n2 t db
      = (Ok tt, db2) ->
    exists s2, session_get k (os_name s) (os_label s) db2 = Ok (Some s2)).
  { intros tr db2 url form st Hp Hu. destruct (Hutf _ _ _ _ Hp) as [U1 U2].
    destruct (update_tokens_row _ _ _ _ _ _ _ _ _ _ _ Hu) as (Hon' & act & an & rs & Ea & Er & Hrow).
    unfold session_get. rewrite Hon', Hon. cbn [negb]. fold (row_at (os_name s) (os_label s) db2).
    rewrite Hrow, bool_decide_eq_true_2, Hat by done. cbn.
    rewrite (row_with_tokens k row s n1 n2 _ _ _ _ _ _ _ _ Hn1 Hn2 U1 U2 Ea Er Hs). eauto. }
  unfold refresh_session in Hr. rewrite Hcat in Hr.
  destruct (auth reg); try discriminate Ho;
    (match type of Hr with context [post ?u ?f] =>
       destruct (Hpost u f) as (st & tr & Ep & Es); rewrite Ep, Es in Hr end;
     cbn in Hr; destruct (Hup tr (as_i64 (t + default 3600 (tr_expires_in tr)))) as (db2 & Eu);
     rewrite Eu in Hr; destruct (Hread _ _ _ _ _ Ep Eu) as (s2 & E2); by rewrite E2 in Hr).
Qed.

Lemma bootstrap_cases `{!AesGcmLaws} n label refresh n0 n1 n2 t0 t1 st resp st' :
  nonce_ok n0 -> nonce_ok n1 -> nonce_ok n2 -> reply_utf8 post -> is_utf8 refresh = true ->
  op_oauth_bootstrap n label refresh n0 n1 n2 t0 t1 st = (resp, st') ->
  oa_registrations st' = oa_registrations st /\ oa_catalog st' = oa_catalog st /\
  (resp_status resp <> 200 -> oa_sessions st' = oa_sessions st) /\
  (resp_status resp = 200 ->
     let l := label_or_default label in
     row_at n l (oa_sessions st) = None /\
     exists s tr,
       os_name s = n /\ os_label s = l /\ os_refresh_token s = refresh /\
       exchanged post (oa_catalog st) s tr /\
       session_get (oa_sealing_key st) n l (oa_sessions st') = Ok (Some (refreshed t1 tr s)) /\
       forall n' l', (n', l') <> (n, l) ->
         row_at n' l' (oa_sessions st') = row_at n' l' (oa_sessions st)).
Proof.
  intros Hn0 Hn1 Hn2 Hutf Hu. unfold op_oauth_bootstrap. set (l := label_or_default label).
  destruct (reg_get n (oa_registrations st)) as [[reg|]|]; try by intros [= <- <-].
  destruct (is_oauth (auth reg)); [cbn [negb]|by intros [= <- <-]].
  destruct (session_create _ _ _ _ _ _ _ _ _ _ _) as [[s|e] db] eqn:Ec; cbn in Ec.
  2: { apply session_create_err in Ec as ->.
       by destruct (is_conflict _ _); intros [= <- <-]. }
  destruct (refresh_session _ _ _ _ _ _ _ _) as [[upd|e] db2] eqn:Er; cbn in Er.
  2: { intros [= <- <-]. cbn. split_and!; try done. intros _. by eapply rollback. }
  intros [= <- <-]. cbn. split_and!; try done. intros _.
  destruct (session_create_inv _ _ _ _ _ _ _ _ _ Ec) as (Hon & Hex & En & El & Ert & row & -> & Hrow).
  pose proof (proj2 (find_first_None _ _) (proj1 (sql_exists_false _ _) Hex)) as Hnone.
  split; [done|].
  assert (Hacc : forall t, None = Some t -> is_utf8 t = true) by done.
  destruct (session_create_get _ _ _ _ _ _ _ _ _ _ _ _ _ Hn0 Hn0 Hu Hacc Ec)
    as (_ & _ & _ & Hget & _).
  rewrite <- En, <- El in Hget at 1.
  destruct (refresh_session_stores _ _ _ _ _ _ _ _ _ _ Hn1 Hn2 Hutf Hget Er)
    as (tr & Hx & -> & Hg & Hoth).
  exists s, tr. rewrite En, El in Hg, Hoth. split_and!; try done.
  intros n' l' Hne. rewrite Hoth by done. unfold row_at. cbn. rewrite find_first_app. cbn.
  rewrite (by_session_other n l n' l' row) by (done || congruence).
  by destruct (find_first (by_session n' l') (sessions (oa_sessions st))).
Qed.

(** C29: A bootstrap is all or nothing: with status 200 there was no session
    before, the provider accepted the operator's refresh token, and the
    stored session is the one its answer describes, other sessions being as
    they were; with any other status the session table is exactly the one
    before.  In particular there is no re-bootstrap: where a session exists,
    degraded or not, the call is refused and the session stays as it is
    (oauth-flow.md and migration 0003 say it is replaced and its degraded mark
    cleared; the code wants it revoked first). *)
Theorem bootstrap_atomic `{!AesGcmLaws} n label refresh n0 n1 n2 t0 t1 st resp st' :
  nonce_ok n0 -> nonce_ok n1 -> nonce_ok n2 -> reply_utf8 post -> is_utf8 refresh = true ->
  op_oauth_bootstrap n label refresh n0 n1 n2 t0 t1 st = (resp, st') ->
  oa_registrations st' = oa_registrations st /\ oa_catalog st' = oa_catalog st /\
  (resp_status resp <> 200 -> oa_sessions st' = oa_sessions st) /\
  (resp_status resp = 200 ->
     let l := label_or_default label in
     row_at n l (oa_sessions st) = None /\
     exists s tr,
       os_name s = n /\ os_label s = l /\ os_refresh_token s = refresh /\
       exchanged post (oa_catalog st) s tr /\
       session_get (oa_sealing_key st) n l (oa_sessions st') = Ok (Some (refreshed t1 tr s)) /\
       forall n' l', (n', l') <> (n, l) ->
         row_at n' l' (oa_sessions st') = row_at n' l' (oa_sessions st)) /\
  (forall row, row_at n (label_or_default label) (oa_sessions st) = Some row ->
     resp_status resp <> 200 /\
     row_at n (label_or_default label) (oa_sessions st') = Some row).
Proof.
  intros Hn0 Hn1 Hn2 Hutf Hu E.
  destruct (bootstrap_cases _ _ _ _ _ _ _ _ _ _ _ Hn0 Hn1 Hn2 Hutf Hu E) as (A1 & A2 & A3 & A4).
  split_and!; [done..|]. intros row Hrow.
  assert (resp_status resp <> 200) as Hne by (intros [He _]%A4; congruence). by rewrite A3.
Qed.

(** A bootstrap leaves every session there is as it was, its own included. *)
Lemma bootstrap_keeps_rows n label refresh n0 n1 n2 t0 t1 st n' l' row :
  row_at n' l' (oa_sessions st) = Some row ->
  row_at n' l' (oa_sessions (op_oauth_bootstrap n label refresh n0 n1 n2 t0 t1 st).2) = Some row.
Proof.
  intros Hat. unfold op_oauth_bootstrap. set (l := label_or_default label).
  destruct (reg_get n (oa_registrations st)) as [[reg|]|]; [|done..].
  destruct (is_oauth (auth reg)); [cbn [negb]|done].
  destruct (session_create _ _ _ _ _ _ _ _ _ _ _) as [[s|e] db] eqn:Ec; cbn in Ec.
  2: { apply session_create_err in Ec as ->. by destruct (is_conflict _ _). }
  destruct (refresh_session _ _ _ _ _ _ _ _) as [[upd|e] db2] eqn:Er; cbn in Er |- *.
  2: { by rewrite (rollback _ _ _ _ _ _ _ _ _ _ _ _ _ _ _ Ec Er). }
  destruct (session_create_inv _ _ _ _ _ _ _ _ _ Ec) as (_ & Hex & En & El & _ & r & -> & _).
  assert ((n', l') <> (n, l)) as Hne.
  { intros [= -> ->]. unfold row_at in Hat.
    by rewrite (proj2 (find_first_None _ _) (proj1 (sql_exists_false _ _) Hex)) in Hat. }
  assert (Hrow : row_at n' l' (set_sessions (sessions (oa_sessions st) ++ [r]) (oa_sessions st)) = Some row).
  { unfold row_at in *. cbn. by rewrite find_first_app, Hat. }
  destruct (refresh_session_cases _ _ _ _ _ _ _ _ _ _ Er) as [(e' & ? & ->)|(tr & _ & Hu & _)]; [done|].
  destruct (update_tokens_row _ _ _ _ _ _ _ _ _ _ _ Hu) as (_ & ? & ? & ? & _ & _ & ->).
  by rewrite En, El, bool_decide_eq_false_2.
Qed.

(** ** Revocation and a second bootstrap *)

Lemma row_at_delete n l n' l' db :
  row_at n' l' (set_sessions (sql_delete (by_session n l) (sessions db)) db) =
  if bool_decide ((n', l') = (n, l)) then None else row_at n' l' db.
Proof.
  unfold row_at. cbn [set_sessions sessions]. case_bool_decide as E.
  - simplify_eq. apply find_first_None. intros r. unfold sql_delete.
    rewrite list_elem_of_In, filter_In. intros [_ Hr]. by apply negb_true_iff in Hr.
  - unfold sql_delete. induction (sessions db) as [|r rows IH]; [done|]. simpl.
    destruct (by_session n l r) eqn:B; simpl.
    + rewrite (by_session_other n l n' l' r) by (done || congruence). done.
    + by destruct (by_session n' l' r).
Qed.

Lemma revoke_keeps_others n label st n' l' :
  (n', l') <> (n, label_or_default label) ->
  row_at n' l' (oa_sessions (op_oauth_revoke n label st).2) = row_at n' l' (oa_sessions st).
Proof.
  intros Hne. unfold op_oauth_revoke, session_delete. destruct (sess_online (oa_sessions st)); [|done].
  cbn -[row_at]. by rewrite row_at_delete, bool_decide_eq_false_2.
Qed.

Lemma sql_delete_idem {A} (p : A -> bool) rows :
  sql_delete p (sql_delete p rows) = sql_delete p rows.
Proof.
  unfold sql_delete. induction rows as [|r rows IH]; [done|]. cbn [List.filter].
  destruct (p r) eqn:B; cbn [List.filter negb]; [done|]. rewrite B. cbn. by f_equal.
Qed.

(** A revocation answers 204 whether or not the session existed, removes
    exactly that session, and repeating it changes nothing. *)
Theorem revoke_spec n label st :
  sess_online (oa_sessions st) = true ->
  let l := label_or_default label in
  let '(resp, st1) := op_oauth_revoke n label st in
  resp = status_response 204 /\ row_at n l (oa_sessions st1) = None /\
  (forall n' l', (n', l') <> (n, l) ->
     row_at n' l' (oa_sessions st1) = row_at n' l' (oa_sessions st)) /\
  op_oauth_revoke n label st1 = (resp, st1).
Proof.
  intros Hon. cbv zeta. unfold op_oauth_revoke, session_delete. rewrite Hon. cbn [negb].
  cbn [with_sessions oa_sessions oa_registrations oa_sealing_key oa_catalog oa_locks].
  rewrite row_at_delete, bool_decide_eq_true_2 by done. split_and!; try done.
  - intros n' l' Hne. by rewrite row_at_delete, bool_decide_eq_false_2.
  - cbn [set_sessions sess_online sessions]. rewrite Hon. cbn [negb].
    by rewrite sql_delete_idem.
Qed.

(** ** The status surface *)

(** Rows that agree on everything but the sealed tokens. *)
Definition same_public (a b : SessionRow) : Prop :=
  sr_name a = sr_name b /\ sr_label a = sr_label b /\ sr_expires_at a = sr_expires_at b /\
  sr_scope a = sr_scope b /\ sr_degraded a = sr_degraded b /\
  sr_created_at a = sr_created_at b /\ sr_updated_at a = sr_updated_at b.

Lemma find_same_public n l rows rows' :
  Forall2 same_public rows rows' ->
  option_Forall2 same_public (find_first (by_session n l) rows)
    (find_first (by_session n l) rows').
Proof.
  induction 1 as [|a b rows rows' Hab _ IH]; cbn; [constructor|].
  destruct Hab as (En & El & Hab). unfold by_session at 1 3. rewrite En, El.
  destruct (_ && _); [constructor; by unfold same_public|done].
Qed.

Lemma row_to_session_status k k' a b s s' :
  same_public a b -> row_to_session k a = Ok s -> row_to_session k' b = Ok s' ->
  session_status_json s true = session_status_json s' true.
Proof.
  intros (E1 & E2 & E3 & E4 & E5 & E6 & E7). unfold row_to_session. intros Ha Hb.
  branches Ha; branches Hb; unfold session_status_json, audit_session_id; cbn; by rewrite E1, E2, E3, E4, E5, E6, E7.
Qed.

(** The status of a session does not depend on its tokens: tables that
    differ in the sealed columns only give the same answer. *)
Theorem status_hides_tokens n label st st' :
  Forall2 same_public (sessions (oa_sessions st)) (sessions (oa_sessions st')) ->
  sess_online (oa_sessions st) = true -> sess_online (oa_sessions st') = true ->
  (forall row, row ∈ sessions (oa_sessions st) ->
     is_ok (row_to_session (oa_sealing_key st) row) = true) ->
  (forall row, row ∈ sessions (oa_sessions st') ->
     is_ok (row_to_session (oa_sealing_key st') row) = true) ->
  op_oauth_status n label st = op_oauth_status n label st'.
Proof.
  intros HF Hon Hon' Hok Hok'. unfold op_oauth_status, session_get. rewrite Hon, Hon'. cbn [negb].
  pose proof (find_same_public n (label_or_default label) _ _ HF) as HP.
  destruct (find_first _ (sessions (oa_sessions st))) as [a|] eqn:Fa;
    destruct (find_first _ (sessions (oa_sessions st'))) as [b|] eqn:Fb; inversion HP; subst;
    [|done].
  apply find_first_Some in Fa as [Fa _], Fb as [Fb _].
  specialize (Hok a Fa). specialize (Hok' b Fb).
  destruct (row_to_session _ a) as [s|] eqn:Ea; [|done].
  destruct (row_to_session _ b) as [s'|] eqn:Eb; [|done].
  f_equal. by eapply row_to_session_status.
Qed.
End Handlers.

Module OauthAdminWitness.
Import OauthWitness ControlsWitness Base64Model.

Definition codex_row : RegRow := reg_row_of codex_reg.

Definition st0 : OauthAdminState :=
  {| oa_registrations := {| reg_rows := [codex_row]; seed_version := None; reg_online := true |};
     oa_sessions := db0; oa_sealing_key := key; oa_catalog := cat0; oa_locks := ∅ |}.

Definition text1 {A} (_ : A) : string := "error".

Definition rejecting (url : string) (form : list (string * string))
  : option (Z * option TokenResponse) := Some (400, None).

Example bootstrap_conflicts :
  (op_oauth_bootstrap provider text1 text1 text1 "codex" None "rt9" nonce nonce nonce 7 8 st0).1
    .(resp_status) = 409.
Proof. vm_compute. reflexivity. Qed.

Example bootstrap_rolls_back :
  oa_sessions (op_oauth_bootstrap rejecting text1 text1 text1 "codex" (Some "hermes") "rt9"
                 nonce nonce nonce 7 8 st0).2 = db0.
Proof. vm_compute. reflexivity. Qed.

Definition boot : Response * OauthAdminState :=
  op_oauth_bootstrap provider text1 text1 text1 "codex" (Some "hermes") "rt9" nonce nonce nonce
    7 8 st0.

Lemma bootstrap_atomic_witness :
  resp_status boot.1 = 200 /\
  row_at "codex" "hermes" (oa_sessions st0) = None /\
  exists s tr,
    os_name s = "codex" /\ os_label s = "hermes" /\ os_refresh_token s = "rt9" /\
    exchanged provider (oa_catalog st0) s tr /\
    session_get key "codex" "hermes" (oa_sessions boot.2) = Ok (Some (refreshed 8 tr s)) /\
    forall n' l', (n', l') <> ("codex", "hermes") ->
      row_at n' l' (oa_sessions boot.2) = row_at n' l' (oa_sessions st0).
Proof.
  split; [vm_compute; reflexivity|].
  apply (bootstrap_atomic provider text1 text1 text1 "codex" (Some "hermes") "rt9"
           nonce nonce nonce 7 8 st0 boot.1 boot.2);
    first [exact nonce_len | exact provider_utf8 | vm_compute; reflexivity].
Defined.

Lemma revoke_spec_witness :
  let '(resp, st1) := op_oauth_revoke text1 "codex" None st0 in
  resp = status_response 204 /\ row_at "codex" "default" (oa_sessions st1) = None /\
  (forall n' l', (n', l') <> ("codex", "default") ->
     row_at n' l' (oa_sessions st1) = row_at n' l' (oa_sessions st0)) /\
  op_oauth_revoke text1 "codex" None st1 = (resp, st1).
Proof. apply (revoke_spec text1 "codex" None st0). reflexivity. Defined.


Definition reseal (r : SessionRow) : SessionRow :=
  {| sr_name := sr_name r; sr_label := sr_label r;
     sr_refresh_ct := "key0123456789abother"; sr_refresh_nonce := "0123456789ab";
     sr_access_ct := None; sr_access_nonce := None;
     sr_expires_at := sr_expires_at r; sr_scope := sr_scope r; sr_degraded := sr_degraded r;
     sr_created_at := sr_created_at r; sr_updated_at := sr_updated_at r;
     sr_account_id := sr_account_id r |}.

Definition st1 : OauthAdminState :=
  with_sessions {| sessions := map reseal (sessions db0); sess_online := true |} st0.

Lemma status_hides_tokens_witness :
  op_oauth_status text1 "codex" None st0 = op_oauth_status text1 "codex" None st1.
Proof.
  apply (status_hides_tokens text1 "codex" None st0 st1); try reflexivity.
  - vm_compute. repeat constructor.
  - intros row Hr. assert (row = row0) as ->; [|vm_compute; reflexivity].
    vm_compute in Hr. vm_compute. set_solver.
  - intros row Hr. assert (row = reseal row0) as ->; [|vm_compute; reflexivity].
    vm_compute in Hr. vm_compute. set_solver.
Defined.

End OauthAdminWitness.
