(* ===== verification/KamiwazaNames.v ===== *)
(** * Extension and tool names ([src/kamiwaza.rs])

    The glob that scopes discovery to some extensions, with the usual
    meaning of [*] as its reference, and the slugs under which discovered
    tools are offered. *)

From S2P Require Import Prelude Strings.

(** ** The glob *)

(** The segments after the first, from the cursor on; [None] when one is not
    found.  An empty segment is skipped. *)
Fixpoint walk_segments (segs : list string) (s : string) : option string :=
  match segs with
  | [] => Some s
  | seg :: segs' =>
      if bool_decide (seg = "") then walk_segments segs' s
      else let* found := str_find seg s in
           walk_segments segs' (str_drop (found + String.length seg) s)
  end.

Definition extension_name_matches (pattern nm : string) : bool :=
  let nm := to_ascii_lowercase nm in
  let segments := split (is_char "*") pattern in
  match segments with
  | [] => true
  | [_] => bool_decide (nm = to_ascii_lowercase pattern)
  | _ =>
      match map to_ascii_lowercase segments with
      | [] => true
      | first :: rest =>
          match strip_prefix first nm with
          | None => false
          | Some s =>
              match walk_segments rest s with
              | None => false
              | Some _ =>
                  let last_seg := List.last (first :: rest) "" in
                  negb (negb (ends_with "*" pattern) && negb (bool_decide (last_seg = ""))
                        && negb (ends_with last_seg nm))
              end
          end
      end
  end.

(** The meaning of a glob: [*] stands for any run of characters, every other
    character for itself. *)
Inductive Glob : string -> string -> Prop :=
| GlobEnd : Glob "" ""
| GlobChar c p s : c <> "*"%char -> Glob p s -> Glob (String c p) (String c s)
| GlobStar p s : Glob p s -> Glob (String "*" p) s
| GlobEat c p s : Glob (String "*" p) s -> Glob (String "*" p) (String c s).

(** ** The matcher is the glob *)

(** What the segments after the first ask of the rest of the name. *)
Fixpoint rest_match (rest : list string) (s : string) : Prop :=
  match rest with
  | [] => s = ""
  | seg :: rest' => exists a b, s = a +:+ seg +:+ b /\ rest_match rest' b
  end.

Lemma rest_match_extend rest a b : rest <> [] -> rest_match rest b -> rest_match rest (a +:+ b).
Proof.
  destruct rest as [|seg rest]; [done|]. intros _ (x & y & -> & H). exists (a +:+ x), y.
  by rewrite <- str_app_assoc.
Qed.

Lemma rest_match_suffix pre last_seg s :
  rest_match (pre ++ [last_seg]) s -> ends_with last_seg s = true.
Proof.
  revert s. induction pre as [|seg pre IH]; simpl; intros s (a & b & -> & H).
  - subst. apply ends_with_iff. exists a. by rewrite str_app_nil_r.
  - apply IH, ends_with_iff in H as [c ->]. apply ends_with_iff. exists (a +:+ seg +:+ c).
    by rewrite <- !str_app_assoc.
Qed.

Lemma walk_segments_spec pre last_seg q s :
  (exists r, walk_segments (pre ++ [last_seg]) s = Some r) /\ ends_with last_seg (q +:+ s) = true
  <-> rest_match (pre ++ [last_seg]) s.
Proof.
  split.
  - revert q s. induction pre as [|seg pre IH]; intros q s [[r Hw] He]; cbn [app walk_segments] in Hw.
    + case_bool_decide as Hl; [subst; exists s, ""; by rewrite str_app_nil_r|].
      destruct (str_find last_seg s) as [n|] eqn:F; [|done].
      destruct (str_find_first _ _ _ F) as [E _]. apply ends_with_iff in He as [e He].
      set (d := str_drop (n + String.length last_seg) s) in *.
      rewrite E in He. rewrite str_app_assoc in He.
      destruct (str_app_cut _ _ _ _ He) as (c & -> & Ec).
      { apply (f_equal String.length) in He. rewrite !str_app_length in He.
        rewrite str_app_length. lia. }
      exists (str_take n s +:+ c), "". split; [|done].
      rewrite E at 1. by rewrite Ec, str_app_nil_r, str_app_assoc.
    + case_bool_decide as Hs.
      * subst. exists "", s. split; [done|]. eapply IH. eauto.
      * destruct (str_find seg s) as [n|] eqn:F; [|done].
        destruct (str_find_first _ _ _ F) as [E _]. exists (str_take n s). eexists. split; [exact E|].
        apply (IH (q +:+ str_take n s +:+ seg)). split; [eauto|].
        rewrite <- !str_app_assoc. by rewrite <- E.
  - intros Hm. split.
    2: { apply rest_match_suffix, ends_with_iff in Hm as [a ->]. apply ends_with_iff.
         exists (q +:+ a). by rewrite str_app_assoc. }
    clear q. revert s Hm. induction pre as [|seg pre IH]; intros s Hm; cbn [app walk_segments].
    + case_bool_decide; [eauto|]. destruct (str_find last_seg s) as [n|] eqn:F; [eauto|].
      destruct Hm as (a & b & E & _). by apply str_find_None with (a := a) (b := b) in F.
    + destruct Hm as (a & b & E & Hm). case_bool_decide as Hs.
      * subst. apply IH. cbn. apply rest_match_extend; [by destruct pre|done].
      * destruct (str_find seg s) as [n|] eqn:F.
        2: { by apply str_find_None with (a := a) (b := b) in F. }
        destruct (str_find_first _ _ _ F) as [E1 Emin]. apply IH.
        set (d := str_drop (n + String.length seg) s) in *.
        assert (Hlen : String.length (str_take n s) = n).
        { specialize (Emin a b E). clear -Emin E. subst s. revert n Emin.
          induction a as [|c a IHa]; simpl; intros n Emin; [by destruct n; [destruct (seg +:+ b)|lia]|].
          destruct n; [done|]. simpl. rewrite IHa; lia. }
        rewrite E1 in E at 1. rewrite !str_app_assoc in E.
        destruct (str_app_cut _ _ _ _ E) as (c & _ & ->).
        { rewrite !str_app_length, Hlen. specialize (Emin a b). rewrite !str_app_assoc in Emin.
          rewrite <- E, <- str_app_assoc, <- E1 in Emin. specialize (Emin eq_refl). lia. }
        apply rest_match_extend; [by destruct pre|done].
Qed.

Definition star_free (s : string) : Prop := str_forall (fun c => negb (is_char "*" c)) s = true.

Lemma star_free_cons c s : star_free (String c s) -> c <> "*"%char /\ star_free s.
Proof.
  unfold star_free. simpl. intros [H1 H2]%andb_prop. split; [|done].
  intros ->. done.
Qed.

Lemma glob_prefix seg p s :
  star_free seg -> (Glob (seg +:+ p) s <-> exists r, s = seg +:+ r /\ Glob p r).
Proof.
  revert s. induction seg as [|c seg IH]; intros s Hf; simpl.
  - split; [eauto|]. by intros (r & -> & H).
  - apply star_free_cons in Hf as [Hc Hf]. split.
    + inversion 1; subst; try done. apply IH in H4 as (r & -> & ?); eauto.
    + intros (r & -> & Hr). constructor; [done|]. apply IH; eauto.
Qed.

Lemma glob_star p s : Glob (String "*" p) s <-> exists a b, s = a +:+ b /\ Glob p b.
Proof.
  split.
  - intros H. remember (String "*" p) as q eqn:Eq. induction H; simplify_eq.
    + by exists "", s.
    + destruct IHGlob as (a & b & -> & Hb); [done|]. by exists (String c a), b.
  - intros (a & b & -> & Hb). induction a as [|c a IH]; simpl; by constructor.
Qed.

Lemma glob_segments first rest s :
  Forall star_free (first :: rest) ->
  (Glob (join "*" (first :: rest)) s <-> exists r, s = first +:+ r /\ rest_match rest r).
Proof.
  revert first s. induction rest as [|seg rest IH]; intros first s Hf; inversion_clear Hf.
  - cbn [join rest_match]. rewrite <- (str_app_nil_r first) at 1. rewrite glob_prefix by done.
    split; intros (r & -> & Hr); exists r; split; try done; [by inversion Hr|subst; constructor].
  - change (join "*" (first :: seg :: rest)) with (first +:+ "*" +:+ join "*" (seg :: rest)).
    rewrite glob_prefix by done. cbn [rest_match]. split.
    + intros (r & -> & (a & b & -> & Hb)%glob_star). apply IH in Hb as (t & -> & Ht); [|done]. eauto 8.
    + intros (r & -> & (a & b & -> & Hb)). eexists. split; [done|]. apply glob_star.
      eexists a, _. split; [done|]. apply IH; eauto.
Qed.

Lemma split_star p :
  exists first rest, split (is_char "*") p = first :: rest /\
    p = join "*" (first :: rest) /\ Forall star_free (first :: rest).
Proof.
  induction p as [|c p (first & rest & E1 & E2 & E3)]; simpl.
  - exists "", []. repeat constructor.
  - unfold is_char at 1. case_bool_decide as Hc.
    + subst c. exists "", (split (is_char "*") p). rewrite E1. split_and!; [done| |by constructor].
      change (join "*" ("" :: first :: rest)) with ("*" +:+ join "*" (first :: rest)).
      by rewrite <- E2.
    + rewrite E1. exists (String c first), rest. inversion_clear E3. split_and!; [done| |].
      * rewrite E2. by destruct rest.
      * constructor; [|done]. unfold star_free in *. cbn [str_forall]. rewrite H.
        unfold is_char. by rewrite bool_decide_eq_false_2.
Qed.

Lemma lower_app a b :
  to_ascii_lowercase (a +:+ b) = to_ascii_lowercase a +:+ to_ascii_lowercase b.
Proof. unfold to_ascii_lowercase. induction a; simpl; congruence. Qed.

Lemma lower_join l : to_ascii_lowercase (join "*" l) = join "*" (map to_ascii_lowercase l).
Proof.
  induction l as [|x [|y l] IH]; [done|done|].
  change (join "*" (x :: y :: l)) with (x +:+ "*" +:+ join "*" (y :: l)).
  rewrite !lower_app, IH. done.
Qed.

Lemma lower_star_free s : star_free s -> star_free (to_ascii_lowercase s).
Proof.
  unfold star_free, to_ascii_lowercase. induction s as [|c s IH]; simpl; [done|].
  intros [H1 H2]%andb_prop. rewrite IH by done. rewrite andb_true_r.
  revert H1. destruct c as [[] [] [] [] [] [] [] []]; vm_compute; done.
Qed.

Lemma join_snoc first rest : exists x, join "*" (first :: rest) = x +:+ List.last (first :: rest) "".
Proof.
  revert first. induction rest as [|seg rest IH]; intros first; [by exists ""|].
  destruct (IH seg) as [x Ex]. exists (first +:+ "*" +:+ x).
  change (join "*" (first :: seg :: rest)) with (first +:+ "*" +:+ join "*" (seg :: rest)).
  rewrite Ex, !str_app_assoc. done.
Qed.

(** A pattern ends with [*] only when its last segment is empty. *)
Lemma ends_with_star first rest :
  Forall star_free (first :: rest) -> ends_with "*" (join "*" (first :: rest)) = true ->
  List.last (first :: rest) "" = "".
Proof.
  intros Hf He. destruct (join_snoc first rest) as [x Ex]. rewrite Ex in He.
  assert (Hl : star_free (List.last (first :: rest) "")).
  { clear -Hf. revert first Hf. induction rest as [|seg rest IH]; intros first Hf;
      inversion_clear Hf; [done|by apply IH]. }
  destruct (List.last (first :: rest) "") as [|c l] eqn:El; [done|]. exfalso.
  apply ends_with_iff in He as [a Ha].
  destruct (str_app_cut x a (String c l) "*" Ha) as (y & _ & Ey).
  { apply (f_equal String.length) in Ha. rewrite !str_app_length in Ha. simpl in Ha. lia. }
  unfold star_free in Hl. rewrite Ey, str_forall_app in Hl. simpl in Hl.
  by rewrite andb_false_r in Hl.
Qed.

Lemma last_lower l : List.last l "" = "" -> List.last (map to_ascii_lowercase l) "" = "".
Proof.
  induction l as [|x [|y l] IH]; [done| |exact IH]. cbn. by intros ->.
Qed.

(** The three conditions of the final test come down to the suffix. *)
Lemma tail_check first rest n :
  Forall star_free (first :: rest) ->
  let lst := List.last (map to_ascii_lowercase (first :: rest)) "" in
  negb (negb (ends_with "*" (join "*" (first :: rest))) && negb (bool_decide (lst = ""))
        && negb (ends_with lst n)) = ends_with lst n.
Proof.
  intros Hf lst. case_bool_decide as H0.
  - rewrite andb_false_r. symmetry. rewrite H0. apply ends_with_iff. exists n.
    by rewrite str_app_nil_r.
  - destruct (ends_with "*" _) eqn:Ee; [|by destruct (ends_with lst n)].
    exfalso. apply H0, last_lower. by apply ends_with_star.
Qed.

(** The matcher decides the glob, without case. *)
Theorem extension_name_matches_glob pattern nm :
  extension_name_matches pattern nm = true <->
  Glob (to_ascii_lowercase pattern) (to_ascii_lowercase nm).
Proof.
  unfold extension_name_matches.
  destruct (split_star pattern) as (first & rest & Es & Ep & Hf). rewrite Es.
  assert (Hf' : Forall star_free (to_ascii_lowercase first :: map to_ascii_lowercase rest)).
  { change (Forall star_free (map to_ascii_lowercase (first :: rest))).
    apply Forall_map. eapply Forall_impl; [exact Hf|apply lower_star_free]. }
  assert (Hg : Glob (to_ascii_lowercase pattern) (to_ascii_lowercase nm) <->
    exists r, to_ascii_lowercase nm = to_ascii_lowercase first +:+ r /\
      rest_match (map to_ascii_lowercase rest) r).
  { rewrite Ep, lower_join. by apply (glob_segments (to_ascii_lowercase first)). }
  rewrite Hg. destruct rest as [|seg rest].
  { cbn [rest_match map]. rewrite bool_decide_eq_true, Ep. cbn [join]. split.
    - intros ->. exists "". by rewrite str_app_nil_r.
    - intros (r & -> & ->). by rewrite str_app_nil_r. }
  cbn [map] in *. set (f := to_ascii_lowercase first) in *.
  set (rest' := to_ascii_lowercase seg :: map to_ascii_lowercase rest) in *.
  destruct (exists_last (l := rest') ltac:(done)) as (pre & lst & El).
  assert (Elast : List.last (f :: rest') "" = lst).
  { rewrite El. rewrite app_comm_cons. apply last_last. }
  rewrite Elast. set (n := to_ascii_lowercase nm) in *.
  pose proof (tail_check first (seg :: rest) n Hf) as Hcheck. cbn [map] in Hcheck.
  fold f rest' in Hcheck. cbv zeta in Hcheck. rewrite Elast, <- Ep in Hcheck.
  destruct (strip_prefix f n) as [s|] eqn:P.
  - apply strip_prefix_Some in P. rewrite P.
    pose proof (walk_segments_spec pre lst f s) as W. rewrite <- El, <- P in W.
    split.
    + intros H. exists s. split; [done|]. apply W.
      destruct (walk_segments rest' s); [|done]. rewrite <- P, Hcheck in H. eauto.
    + intros (r & Er & Hr). assert (r = s) as ->.
      { by apply (str_app_inj_length f f r s). }
      apply W in Hr as [[r Hr] He]. rewrite Hr, <- P, Hcheck. done.
  - split; [done|]. intros (r & Er & _). by rewrite Er, strip_prefix_app in P.
Qed.

(** ** Slugs *)

(** [char::to_lowercase] as far as ASCII letters can come out of it: the
    Kelvin sign and the dotted capital I are the only other characters whose
    lower case has one. *)
Definition to_lowercase (c : N) : list N :=
  if (c <? 128)%N then [N_of_ascii (to_lower (ascii_of_N c))]
  else if (c =? 8490)%N then [107%N]
  else if (c =? 304)%N then [105%N; 775%N]
  else [c].

Definition is_ascii_alphanumeric (c : N) : bool :=
  ((48 <=? c) && (c <=? 57) || (65 <=? c) && (c <=? 90) || (97 <=? c) && (c <=? 122))%N.

(** What the loop pushes from here on; [started] is [!out.is_empty()]. *)
Fixpoint sanitize_loop (started last_was_separator : bool) (cs : list N) : string :=
  match cs with
  | [] => ""
  | c :: cs' =>
      if is_ascii_alphanumeric c then String (ascii_of_N c) (sanitize_loop true false cs')
      else if negb last_was_separator && started then String "_" (sanitize_loop true true cs')
      else sanitize_loop started last_was_separator cs'
  end.

Definition sanitize_component (value : string) : string :=
  let out := trim_end_matches "_" (sanitize_loop false false (flat_map to_lowercase (chars value))) in
  if bool_decide (out = "") then "x" else out.

Definition tool_slug (prefix extension_name tool_name : string) : string :=
  sanitize_component prefix +:+ "_" +:+ sanitize_component extension_name +:+ "_"
  +:+ sanitize_component tool_name.

(** Non-empty words of lower-case letters and digits, separated by single
    underscores. *)
Definition word_char (c : ascii) : bool :=
  let n := N_of_ascii c in ((48 <=? n) && (n <=? 57) || (97 <=? n) && (n <=? 122))%N.

Fixpoint slug_from (after_separator : bool) (s : string) : bool :=
  match s with
  | "" => negb after_separator
  | String c s' =>
      if word_char c then slug_from false s'
      else is_char "_" c && negb after_separator && slug_from true s'
  end.

Definition is_slug (s : string) : bool := slug_from true s.

Lemma to_lowercase_word c d :
  d ∈ to_lowercase c -> is_ascii_alphanumeric d = true -> word_char (ascii_of_N d) = true.
Proof.
  unfold to_lowercase. destruct (N.ltb_spec c 128) as [Hc|Hc].
  - rewrite list_elem_of_singleton. intros ->. rewrite ascii_N_embedding.
    destruct (ascii_of_N c) as [[] [] [] [] [] [] [] []]; vm_compute; done.
  - destruct (N.eqb_spec c 8490); [rewrite list_elem_of_singleton; by intros ->|].
    destruct (N.eqb_spec c 304).
    + rewrite elem_of_cons, list_elem_of_singleton. by intros [->| ->].
    + rewrite list_elem_of_singleton. intros ->. unfold is_ascii_alphanumeric. intros H. exfalso.
      rewrite !orb_true_iff, !andb_true_iff, !N.leb_le in H. lia.
Qed.

Lemma trim_end_matches_empty c s : trim_end_matches c s = "" -> str_forall (is_char c) s = true.
Proof. destruct s as [|d s]; simpl; [done|]. by destruct (_ && _). Qed.

Lemma sanitize_loop_slug started sep cs :
  (forall d, d ∈ cs -> is_ascii_alphanumeric d = true -> word_char (ascii_of_N d) = true) ->
  let r := trim_end_matches "_" (sanitize_loop started sep cs) in
  r = "" \/ slug_from (sep || negb started) r = true.
Proof.
  revert started sep. induction cs as [|c cs IH]; intros started sep Hw; cbv zeta; [by left|].
  cbn [sanitize_loop]. destruct (is_ascii_alphanumeric c) eqn:Ea.
  - assert (W : word_char (ascii_of_N c) = true) by (apply Hw; [left|done]).
    right. cbn [trim_end_matches str_forall].
    assert (N : is_char "_" (ascii_of_N c) = false).
    { unfold is_char. apply bool_decide_eq_false_2. intros E. by rewrite E in W. }
    rewrite N. cbn [andb slug_from]. rewrite W.
    destruct (IH true false) as [->|H]; [by intros d Hd; apply Hw; right|done|done].
  - destruct (negb sep && started) eqn:Es.
    + apply andb_prop in Es as [->%negb_true_iff ->]. cbn [trim_end_matches].
      destruct (str_forall (is_char "_") (String "_" _)) eqn:Ef; [by left|right].
      destruct (IH true true) as [H|H]; [by intros d Hd; apply Hw; right| |exact H].
      apply trim_end_matches_empty in H. cbn in Ef. by rewrite H in Ef.
    + apply IH. intros d Hd. apply Hw. by right.
Qed.

Lemma sanitize_is_slug value : is_slug (sanitize_component value) = true.
Proof.
  unfold sanitize_component. case_bool_decide as H; [done|].
  destruct (sanitize_loop_slug false false (flat_map to_lowercase (chars value))) as [E|E]; [|done|done].
  intros d Hd. rewrite list_elem_of_In, in_flat_map in Hd. destruct Hd as (c & _ & Hd).
  rewrite <- list_elem_of_In in Hd. by eapply to_lowercase_word.
Qed.

(** A slug is its own sanitisation. *)
Lemma chars_ascii s :
  str_forall (fun c => (N_of_ascii c <? 128)%N) s = true ->
  chars s = map N_of_ascii (list_ascii_of_string s).
Proof.
  intros Hs. unfold chars, utf8_chars.
  assert (E : utf8_fuel (String.length s) s = Some (map N_of_ascii (list_ascii_of_string s))).
  { induction s as [|c s IH]; [done|]. cbn [str_forall] in Hs. apply andb_prop in Hs as [Hc Hs].
    cbn [String.length utf8_fuel]. unfold next_char. rewrite Hc. cbn. by rewrite IH. }
  by rewrite E.
Qed.

Lemma slug_from_ascii b s :
  slug_from b s = true -> str_forall (fun c => (N_of_ascii c <? 128)%N) s = true.
Proof.
  revert b. induction s as [|c s IH]; intros b; cbn [slug_from str_forall]; [done|].
  destruct (word_char c) eqn:W.
  - intros H. apply IH in H. rewrite H, andb_true_r. revert W.
    destruct c as [[] [] [] [] [] [] [] []]; vm_compute; done.
  - intros [[E%bool_decide_eq_true _]%andb_prop H]%andb_prop. apply IH in H.
    rewrite H, andb_true_r. by subst.
Qed.

Lemma word_char_code c :
  word_char c = true ->
  to_lowercase (N_of_ascii c) = [N_of_ascii c] /\ is_ascii_alphanumeric (N_of_ascii c) = true.
Proof. destruct c as [[] [] [] [] [] [] [] []]; vm_compute; done. Qed.

Lemma sanitize_loop_same sep s :
  slug_from sep s = true ->
  sanitize_loop true sep (flat_map to_lowercase (map N_of_ascii (list_ascii_of_string s))) = s.
Proof.
  revert sep. induction s as [|c s IH]; intros sep; cbn [slug_from]; [done|].
  destruct (word_char c) eqn:W.
  - intros H. destruct (word_char_code c W) as [E1 E2]. cbn. rewrite E1. cbn [app sanitize_loop].
    rewrite E2, ascii_N_embedding. f_equal. by apply IH.
  - intros [[E%bool_decide_eq_true Hs%negb_true_iff]%andb_prop H]%andb_prop. subst c sep.
    transitivity (String "_" (sanitize_loop true true
      (flat_map to_lowercase (map N_of_ascii (list_ascii_of_string s))))); [done|].
    f_equal. by apply IH.
Qed.

Lemma slug_not_trimmed b s : slug_from b s = true -> trim_end_matches "_" s = s.
Proof.
  revert b. induction s as [|c s IH]; intros b; cbn [slug_from trim_end_matches]; [done|].
  intros H. assert (Hs : exists b', slug_from b' s = true).
  { destruct (word_char c); [eauto|]. apply andb_prop in H as [_ H]. eauto. }
  destruct Hs as [b' Hs]. cbn [str_forall].
  assert (Hf : is_char "_" c && str_forall (is_char "_") s = false).
  { destruct (word_char c) eqn:W.
    - replace (is_char "_" c) with false; [done|]. symmetry. apply bool_decide_eq_false_2.
      intros ->. done.
    - apply andb_prop in H as [_ H]. apply andb_false_iff. right.
      destruct s as [|d s]; [done|]. cbn [slug_from str_forall] in *.
      destruct (word_char d) eqn:Wd; [|by rewrite andb_false_r in H].
      replace (is_char "_" d) with false; [done|]. symmetry. apply bool_decide_eq_false_2.
      intros ->. done. }
  rewrite Hf. f_equal. by eapply IH.
Qed.

Lemma sanitize_slug s : is_slug s = true -> sanitize_component s = s.
Proof.
  unfold is_slug. intros H. unfold sanitize_component.
  rewrite chars_ascii by by eapply slug_from_ascii.
  assert (E : sanitize_loop false false
                (flat_map to_lowercase (map N_of_ascii (list_ascii_of_string s))) = s).
  { destruct s as [|c s]; [done|]. cbn [slug_from] in H. destruct (word_char c) eqn:W.
    - destruct (word_char_code c W) as [E1 E2]. cbn. rewrite E1. cbn [app sanitize_loop].
      rewrite E2, ascii_N_embedding. f_equal. by apply sanitize_loop_same.
    - by rewrite andb_false_r in H. }
  rewrite E, (slug_not_trimmed _ _ H). case_bool_decide; [by subst|done].
Qed.

Lemma slug_from_app a b x :
  slug_from x a = true -> slug_from true b = true -> slug_from x (a +:+ "_" +:+ b) = true.
Proof.
  revert x. induction a as [|c a IH]; intros x Ha Hb; cbn in *.
  - by rewrite Ha, Hb.
  - destruct (word_char c); [by apply IH|].
    apply andb_prop in Ha as [E Ha]. rewrite E. cbn. by apply IH.
Qed.

(** Whatever the names, a slug is non-empty lower-case words joined by single
    underscores, so it is a path segment and a legal tool name; sanitising
    is idempotent and leaves such names alone. *)
Theorem tool_slug_wf prefix extension_name tool_name :
  is_slug (tool_slug prefix extension_name tool_name) = true /\
  sanitize_component (tool_slug prefix extension_name tool_name)
    = tool_slug prefix extension_name tool_name /\
  sanitize_component (sanitize_component tool_name) = sanitize_component tool_name.
Proof.
  assert (H : is_slug (tool_slug prefix extension_name tool_name) = true).
  { unfold tool_slug, is_slug. apply slug_from_app; [apply sanitize_is_slug|].
    apply slug_from_app; apply sanitize_is_slug. }
  split_and!; [done|by apply sanitize_slug|apply sanitize_slug, sanitize_is_slug].
Qed.

Example slug_example : tool_slug "kamiwaza" "tool-SerperDev--kz1" "google search!" =
  "kamiwaza_tool_serperdev_kz1_google_search".
Proof. vm_compute. reflexivity. Qed.

(** Different tools can get one slug. *)
Example slug_collision : tool_slug "k" "a_b" "c" = tool_slug "k" "a" "b-c".
Proof. vm_compute. reflexivity. Qed.

Example glob_examples :
  extension_name_matches "*-AgentZero" "tool-serperdev-agentzero" = true /\
  extension_name_matches "*-agentzero" "tool-serperdev-agentzero-2" = false /\
  extension_name_matches "tool-*-kz1" "tool-serperdev-kz1" = true /\
  extension_name_matches "a*a" "a" = false.
Proof. vm_compute. done. Qed.
