(* ===== verification/Kamiwaza.v ===== *)
(** * The Kamiwaza bridge ([src/kamiwaza.rs])

    Discovery of MCP tools on a Kamiwaza cluster with its cached catalog,
    the signed delegation token, one tool invocation and the proxy entry
    point.  The cluster is a parameter: a function from a request and a
    hidden state to a reply and a new state ([Net] keeps that state and the
    requests sent so far).  HMAC, header parsing and the client builder are
    the crates'; clocks are arguments.  Concurrent probes are run in listing
    order and complete in an arbitrary order ([completion]). *)

From S2P Require Import Prelude Json Http Token AgentRepo AuditLog.
From S2P Require Import ResponseControls Secret Config Auth Registrations Oauth.
From S2P Require Import Strings KamiwazaNames.

(** ** Configuration ([config.rs]) *)

Record KamiwazaDelegationConfig := {
  d_enabled : bool;
  d_required : bool;
  d_signing_secret : option string;
  d_header : string;
  d_issuer : string;
  d_audience : string;
  d_ttl_seconds : Z
}.

Definition default_delegation : KamiwazaDelegationConfig :=
  {| d_enabled := false; d_required := false; d_signing_secret := None;
     d_header := "x-kamiwaza-agent-delegation"; d_issuer := "agent-locksmith";
     d_audience := "kamiwaza-tools"; d_ttl_seconds := 60 |}.

Record KamiwazaConfig := {
  k_enabled : bool;
  k_api_url : option string;
  k_api_url_candidates : list string;
  k_api_token : option string;
  k_tool_prefix : string;
  k_include_types : list string;
  k_extension_names : list string;
  k_verify_tls : bool;
  k_cloud : bool;
  k_timeout_seconds : Z;
  k_catalog_ttl_seconds : Z;
  k_discovery_concurrency : nat;
  k_delegation : KamiwazaDelegationConfig
}.

(** The two fields of [AppConfig] the bridge reads. *)
Record BridgeConfig := { bc_kamiwaza : option KamiwazaConfig; bc_egress_proxy : option string }.

(** ** Data *)

Definition MCP_PROTOCOL_VERSION : string := "2025-03-26".
Definition DEFAULT_API_URL_CANDIDATES : list string :=
  ["https://localhost/api"; "https://host.docker.internal/api"; "https://traefik/api"].
Definition KAMIWAZA_DELEGATION_SECRET_ENV : string := "KAMIWAZA_DELEGATION_SIGNING_SECRET".

Record KamiwazaTool := {
  kt_slug : string;
  kt_extension_name : string;
  kt_mcp_url : string;
  kt_tool_name : string;
  kt_description : option string;
  kt_input_schema : option Json
}.

Inductive KamiwazaError :=
| Disabled
| MissingToken
| MissingDelegationSigningSecret
| MissingAgentIdentity
| KRequest (message : string)
| KProtocol (message : string).

Definition kamiwaza_error_text (e : KamiwazaError) : string :=
  match e with
  | Disabled => "Kamiwaza provider is disabled"
  | MissingToken => "Kamiwaza provider has no API token configured"
  | MissingDelegationSigningSecret =>
      "Kamiwaza delegated identity is enabled but no signing secret is configured"
  | MissingAgentIdentity =>
      "Kamiwaza delegated identity is required but no authenticated agent identity is available"
  | KRequest m => "Kamiwaza request failed: " +:+ m
  | KProtocol m => "Kamiwaza MCP protocol error: " +:+ m
  end.

Record ExtensionServiceStatus := { es_ready : bool; es_available_replicas : Z }.
Record ExtensionEndpoints := { ee_external : option string; ee_internal : option string }.

Record ExtensionResponse := {
  er_name : string;
  er_type : option string;
  er_phase : option string;
  er_services : list ExtensionServiceStatus;
  er_endpoints : option ExtensionEndpoints
}.

(** ** Secrets, URLs and filters *)

Definition trim_nonempty (value : string) : option string :=
  let trimmed := trim value in
  if bool_decide (trimmed = "") then None else Some trimmed.

(** A configured value, else an environment variable, neither of them blank. *)
Definition configured_or_env (env : Env) (configured : option string) (var : string)
  : option string :=
  match (let* v := configured in trim_nonempty v) with
  | Some v => Some v
  | None => let* v := env var in trim_nonempty v
  end.

Definition api_token (env : Env) (k : KamiwazaConfig) : option string :=
  configured_or_env env (k_api_token k) "KAMIWAZA_API_KEY".

Definition delegation_signing_secret (env : Env) (d : KamiwazaDelegationConfig)
  : option string :=
  configured_or_env env (d_signing_secret d) KAMIWAZA_DELEGATION_SECRET_ENV.

Fixpoint first_env (env : Env) (names : list string) : option string :=
  match names with
  | [] => None
  | n :: names' =>
      match (let* v := env n in trim_nonempty v) with
      | Some v => Some v
      | None => first_env env names'
      end
  end.

Definition api_url_candidates (env : Env) (k : KamiwazaConfig) : list string :=
  match (let* u := k_api_url k in trim_nonempty u) with
  | Some v => [v]
  | None =>
      match first_env env ["KAMIWAZA_API_URL"; "KAMIWAZA_API_URI"; "KAMIWAZA_BASE_URL";
                           "KAMIWAZA_BASE_URI"] with
      | Some v => [v]
      | None =>
          match omap trim_nonempty (k_api_url_candidates k) with
          | [] => DEFAULT_API_URL_CANDIDATES
          | configured => configured
          end
      end
  end.

Definition extension_is_allowed (k : KamiwazaConfig) (e : ExtensionResponse) : bool :=
  bool_decide (er_phase e = Some "Running")
  && (bool_decide (k_include_types k = [])
      || existsb (fun expected => eq_ignore_ascii_case expected (default "" (er_type e)))
           (k_include_types k))
  && (match er_services e with [] => true | _ => false end
      || existsb (fun s => es_ready s || (0 <? es_available_replicas s)) (er_services e))
  && (bool_decide (k_extension_names k = [])
      || existsb (fun p => extension_name_matches p (er_name e)) (k_extension_names k)).

Definition mcp_url_for_extension (e : ExtensionResponse) : option string :=
  let* eps := er_endpoints e in
  let* endpoint := match ee_external eps with Some x => Some x | None => ee_internal eps end in
  let endpoint := trim_end_matches "/" (trim endpoint) in
  if bool_decide (endpoint = "") then None else Some (endpoint +:+ "/mcp").

(** ** The delegation token *)

(** [HmacSha256] over a key; [None] when the key is refused. *)
Class HmacCrate : Type := { hmac_sha256 : string -> string -> option string }.

(** [HeaderName::from_bytes] and [HeaderValue::from_str]: whether they accept. *)
Class HeaderCrate : Type := { header_name_ok : string -> bool; header_value_ok : string -> bool }.

Record DelegationHeader := { dh_name : string; dh_value : string }.

Section Delegation.
Context `{Base64Url} `{SerdeJson} `{HmacCrate} `{HeaderCrate}.

(** [jwt_segment]: a [Value] always serialises. *)
Definition jwt_segment (v : Json) : string := b64_encode (to_vec v).

Definition delegation_claims (d : KamiwazaDelegationConfig) (id : AgentIdentity)
    (tool : KamiwazaTool) (now : Z) : Json :=
  let expires_at := saturating_add now (d_ttl_seconds d) in
  json_obj [("iss", JString (d_issuer d)); ("aud", JString (d_audience d));
            ("sub", JString (id_public_id id)); ("agent_id", JInt (id_id id));
            ("agent_name", JString (id_name id)); ("iat", JInt now); ("exp", JInt expires_at);
            ("scope", JString "kamiwaza.tool.invoke"); ("tool", JString (kt_slug tool));
            ("extension", JString (kt_extension_name tool));
            ("mcp_tool", JString (kt_tool_name tool))].

Definition jwt_header : Json := json_obj [("alg", JString "HS256"); ("typ", JString "JWT")].

Definition build_delegation_jwt (d : KamiwazaDelegationConfig) (id : AgentIdentity)
    (tool : KamiwazaTool) (secret : string) (now : Z) : result KamiwazaError string :=
  let signing_input :=
    jwt_segment jwt_header +:+ "." +:+ jwt_segment (delegation_claims d id tool now) in
  match hmac_sha256 secret signing_input with
  | None => Err (KProtocol "invalid key length")
  | Some mac => Ok (signing_input +:+ "." +:+ b64_encode mac)
  end.

Definition build_delegation_header (env : Env) (k : KamiwazaConfig)
    (identity : option AgentIdentity) (tool : KamiwazaTool) (now : Z)
  : result KamiwazaError (option DelegationHeader) :=
  let d := k_delegation k in
  let secret := delegation_signing_secret env d in
  if negb (d_enabled d || d_required d || isSome secret) then Ok None
  else match identity with
       | None => if d_required d then Err MissingAgentIdentity else Ok None
       | Some id =>
           match secret with
           | None => Err MissingDelegationSigningSecret
           | Some secret =>
               let? jwt := build_delegation_jwt d id tool secret now in
               if negb (header_name_ok (d_header d))
               then Err (KProtocol "invalid delegation header")
               else if negb (header_value_ok ("Bearer " +:+ jwt))
               then Err (KProtocol "invalid delegation header value")
               else Ok (Some {| dh_name := d_header d; dh_value := "Bearer " +:+ jwt |})
           end
       end.

End Delegation.

(** ** MCP over HTTP *)

(** The loop over the lines of an event stream: what [data] is at its end. *)
Fixpoint sse_data (data : string) (ls : list string) : string :=
  match ls with
  | [] => data
  | line :: ls' =>
      match strip_prefix "data:" line with
      | Some rest =>
          let sep := if bool_decide (data = "") then "" else String (ascii_of_N 10) "" in
          sse_data (data +:+ sep +:+ trim_start rest) ls'
      | None =>
          if bool_decide (trim line = "") && negb (bool_decide (data = "")) then data
          else sse_data data ls'
      end
  end.

Record HttpRequest := {
  hq_method : string;
  hq_url : string;
  hq_bearer : string;
  hq_headers : list (string * string);
  hq_json : option Json
}.

Record HttpReply := {
  hr_status : Z;
  hr_headers : HeaderMap;
  hr_text : result string string
}.

Section Bridge.
Context `{Base64Url} `{SerdeJson} `{HmacCrate} `{HeaderCrate} `{HttpCrate}.

Definition parse_mcp_response_body (content_type text : string) : result KamiwazaError Json :=
  let parse s := ok_or (KProtocol "json") (from_slice s) in
  if eq_ignore_ascii_case (trim (first_segment (is_char ";") content_type)) "text/event-stream"
  then
    let data := sse_data "" (lines text) in
    if bool_decide (data = "") then Err (KProtocol "empty streamable HTTP response")
    else parse data
  else parse text.

Definition header_value (hs : HeaderMap) (nm : string) : option string :=
  let* v := header_get nm hs in
  let* s := to_str v in
  trim_nonempty s.

Context {World : Type}.
Variable env : Env.
Variable server : HttpRequest -> World -> result string HttpReply * World.
(** [reqwest::Proxy::all] accepts the URL; [ClientBuilder::build] succeeds. *)
Variable proxy_ok : string -> bool.
Variable client_builds : bool.
(** [resp.json::<Vec<ExtensionResponse>>()]. *)
Variable decode_extensions : string -> option (list ExtensionResponse).
(** [StatusCode]'s [Display]. *)
Variable status_text : Z -> string.
(** The order in which concurrent probes complete. *)
Variable completion : list (list KamiwazaTool) -> list (list KamiwazaTool).

Record Net := { world : World; sent : list HttpRequest }.

Definition send (q : HttpRequest) (net : Net) : result string HttpReply * Net :=
  let '(r, w) := server q (world net) in (r, {| world := w; sent := sent net ++ [q] |}).

Record Client := { cl_timeout : Z; cl_accept_invalid_certs : bool; cl_proxy : option string }.

Definition build_client (cfg : BridgeConfig) (k : KamiwazaConfig)
  : result KamiwazaError Client :=
  if client_builds
  then Ok {| cl_timeout := k_timeout_seconds k;
             cl_accept_invalid_certs := negb (k_verify_tls k);
             cl_proxy := if k_cloud k
                         then let* p := bc_egress_proxy cfg in
                              if proxy_ok p then Some p else None
                         else None |}
  else Err (KRequest "builder error").

Fixpoint fetch_extensions (candidates : list string) (token : string) (last_error : option string)
    (net : Net) : result KamiwazaError (list ExtensionResponse) * Net :=
  match candidates with
  | [] => (Err (KRequest (default "no Kamiwaza API URL candidates configured" last_error)), net)
  | candidate :: rest =>
      let url := trim_end_matches "/" candidate +:+ "/extensions" in
      let q := {| hq_method := "GET"; hq_url := url; hq_bearer := token; hq_headers := [];
                  hq_json := None |} in
      match send q net with
      | (Ok resp, net) =>
          if negb ((200 <=? hr_status resp) && (hr_status resp <? 300))
          then fetch_extensions rest token
                 (Some (url +:+ " returned " +:+ status_text (hr_status resp))) net
          else (match hr_text resp with
                | Ok text => ok_or (KRequest "decode") (decode_extensions text)
                | Err e => Err (KRequest e)
                end, net)
      | (Err e, net) => fetch_extensions rest token (Some (url +:+ ": " +:+ e)) net
      end
  end.

Definition mcp_request (verb url token : string) (session : option string)
    (delegation : option DelegationHeader) (extra : list (string * string))
    (payload : option Json) : HttpRequest :=
  {| hq_method := verb; hq_url := url; hq_bearer := token;
     hq_headers := extra
       ++ match session with Some s => [("mcp-session-id", s)] | None => [] end
       ++ match delegation with Some d => [(dh_name d, dh_value d)] | None => [] end;
     hq_json := payload |}.

Definition send_mcp_json (url token : string) (session : option string)
    (delegation : option DelegationHeader) (payload : Json) (net : Net)
  : result KamiwazaError (option string * Json) * Net :=
  let q := mcp_request "POST" url token session delegation
             [("Accept", "application/json, text/event-stream");
              ("Content-Type", "application/json")] (Some payload) in
  match send q net with
  | (Err e, net) => (Err (KRequest e), net)
  | (Ok resp, net) =>
      if hr_status resp =? 202
      then (Ok (header_value (hr_headers resp) "mcp-session-id", JNull), net)
      else if negb ((200 <=? hr_status resp) && (hr_status resp <? 300))
      then (Err (KRequest ("MCP endpoint returned " +:+ status_text (hr_status resp))), net)
      else
        let session_id := header_value (hr_headers resp) "mcp-session-id" in
        let content_type :=
          default "" (let* v := header_get "content-type" (hr_headers resp) in to_str v) in
        (let? text := map_err KRequest (hr_text resp) in
         let? payload := parse_mcp_response_body content_type text in
         Ok (session_id, payload), net)
  end.

(** A best-effort DELETE of the session. *)
Definition close_mcp_session (url token : string) (session : option string)
    (delegation : option DelegationHeader) (net : Net) : Net :=
  match session with
  | None => net
  | Some s => snd (send (mcp_request "DELETE" url token (Some s) delegation [] None) net)
  end.

Definition initialize_payload (version : string) : Json :=
  json_obj [("jsonrpc", JString "2.0"); ("id", JInt 1); ("method", JString "initialize");
            ("params", json_obj [("protocolVersion", JString MCP_PROTOCOL_VERSION);
                                 ("capabilities", json_obj []);
                                 ("clientInfo", json_obj [("name", JString "agent-locksmith");
                                                          ("version", JString version)])])].

(** [CARGO_PKG_VERSION]. *)
Variable version : string.

Definition initialize_session (url token : string) (delegation : option DelegationHeader)
    (net : Net) : result KamiwazaError (option string) * Net :=
  match send_mcp_json url token None delegation (initialize_payload version) net with
  | (Err e, net) => (Err e, net)
  | (Ok (session, payload), net) =>
      if isSome (json_get "error" payload) then (Err (KProtocol "initialize returned error"), net)
      else
        let initialized := json_obj [("jsonrpc", JString "2.0");
                                     ("method", JString "notifications/initialized");
                                     ("params", json_obj [])] in
        match send_mcp_json url token session delegation initialized net with
        | (Err e, net) => (Err e, net)
        | (Ok _, net) => (Ok session, net)
        end
  end.

Definition as_array (v : Json) : option (list Json) :=
  match v with JArray l => Some l | _ => None end.

Definition list_mcp_tools (url token : string) (net : Net)
  : result KamiwazaError (list Json) * Net :=
  match initialize_session url token None net with
  | (Err e, net) => (Err e, net)
  | (Ok session, net) =>
      let list_call := json_obj [("jsonrpc", JString "2.0"); ("id", JInt 2);
                                 ("method", JString "tools/list"); ("params", json_obj [])] in
      let '(r, net) := send_mcp_json url token session None list_call net in
      let net := close_mcp_session url token session None net in
      (let? x := r in
       let payload := x.2 in
       match json_get "error" payload with
       | Some err => Err (KProtocol ("tools/list returned error: " +:+ to_vec err))
       | None =>
           Ok (default [] (let* res := json_get "result" payload in
                           let* ts := json_get "tools" res in as_array ts))
       end, net)
  end.

(** ** Discovery *)

Definition discovered_tool (prefix : string) (e : ExtensionResponse) (url : string) (tool : Json)
  : option KamiwazaTool :=
  let* v := json_get "name" tool in
  let* s := as_str v in
  let* tool_name := trim_nonempty s in
  Some {| kt_slug := tool_slug prefix (er_name e) tool_name; kt_extension_name := er_name e;
          kt_mcp_url := url; kt_tool_name := tool_name;
          kt_description := (let* d := json_get "description" tool in
                             let* s := as_str d in trim_nonempty s);
          kt_input_schema := json_get "inputSchema" tool |}.

(** One probe; a failure is logged and yields nothing. *)
Definition probe (prefix token : string) (target : ExtensionResponse * string) (net : Net)
  : list KamiwazaTool * Net :=
  match list_mcp_tools target.2 token net with
  | (Err _, net) => ([], net)
  | (Ok tools, net) => (omap (discovered_tool prefix target.1 target.2) tools, net)
  end.

Fixpoint probe_all (prefix token : string) (targets : list (ExtensionResponse * string))
    (net : Net) : list (list KamiwazaTool) * Net :=
  match targets with
  | [] => ([], net)
  | t :: ts =>
      let '(l, net) := probe prefix token t net in
      let '(ls, net) := probe_all prefix token ts net in (l :: ls, net)
  end.

(** [sort_by] on slugs, which is stable. *)
Fixpoint insert_by_slug (t : KamiwazaTool) (l : list KamiwazaTool) : list KamiwazaTool :=
  match l with
  | [] => [t]
  | u :: l' => if String.leb (kt_slug t) (kt_slug u) then t :: l else u :: insert_by_slug t l'
  end.

Definition sort_by_slug (l : list KamiwazaTool) : list KamiwazaTool := foldr insert_by_slug [] l.

Definition targets_of (k : KamiwazaConfig) (es : list ExtensionResponse)
  : list (ExtensionResponse * string) :=
  omap (fun e => (fun url => (e, url)) <$> mcp_url_for_extension e)
       (List.filter (extension_is_allowed k) es).

Definition discover_tools_uncached (cfg : BridgeConfig) (net : Net)
  : result KamiwazaError (list KamiwazaTool) * Net :=
  match bc_kamiwaza cfg with
  | None => (Ok [], net)
  | Some k =>
      if negb (k_enabled k) then (Ok [], net)
      else match api_token env k with
           | None => (Err MissingToken, net)
           | Some token =>
               match build_client cfg k with
               | Err e => (Err e, net)
               | Ok _ =>
                   match fetch_extensions (api_url_candidates env k) token None net with
                   | (Err e, net) => (Err e, net)
                   | (Ok extensions, net) =>
                       let '(ls, net) := probe_all (k_tool_prefix k) token (targets_of k extensions) net in
                       (Ok (sort_by_slug (List.concat (completion ls))), net)
                   end
               end
           end
  end.

Record CachedCatalog := { cc_expires_at : Z; cc_tools : list KamiwazaTool }.

(** [discover_tools] under the cache's mutex; [t0] is the clock of the
    lookup and [t1] the one after a discovery. *)
Definition discover_tools (cfg : BridgeConfig) (t0 t1 : Z) (cache : option CachedCatalog)
    (net : Net) : result KamiwazaError (list KamiwazaTool) * option CachedCatalog * Net :=
  match bc_kamiwaza cfg with
  | None => (Ok [], cache, net)
  | Some k =>
      if negb (k_enabled k) then (Ok [], cache, net)
      else
        let ttl := Z.max (k_catalog_ttl_seconds k) 1 in
        let miss :=
          match discover_tools_uncached cfg net with
          | (Err e, net) => (Err e, cache, net)
          | (Ok tools, net) =>
              (Ok tools, Some {| cc_expires_at := t1 + ttl; cc_tools := tools |}, net)
          end in
        match cache with
        | Some entry => if t0 <? cc_expires_at entry then (Ok (cc_tools entry), cache, net) else miss
        | None => miss
        end
  end.

Definition invalidate_catalog_cache (cache : option CachedCatalog) : option CachedCatalog := None.

Definition is_configured (cfg : BridgeConfig) : bool :=
  match bc_kamiwaza cfg with Some k => k_enabled k | None => false end.

(** ** Invocation *)

(** The detached close runs after the call. *)
Definition invoke_tool (cfg : BridgeConfig) (tool : KamiwazaTool)
    (identity : option AgentIdentity) (arguments : Json) (now : Z) (net : Net)
  : result KamiwazaError Json * Net :=
  match bc_kamiwaza cfg with
  | None => (Err Disabled, net)
  | Some k =>
      match api_token env k with
      | None => (Err MissingToken, net)
      | Some token =>
          match build_client cfg k with
          | Err e => (Err e, net)
          | Ok _ =>
              match build_delegation_header env k identity tool now with
              | Err e => (Err e, net)
              | Ok delegation =>
                  match initialize_session (kt_mcp_url tool) token delegation net with
                  | (Err e, net) => (Err e, net)
                  | (Ok session, net) =>
                      let call := json_obj [("jsonrpc", JString "2.0"); ("id", JInt 3);
                        ("method", JString "tools/call");
                        ("params", json_obj [("name", JString (kt_tool_name tool));
                                             ("arguments", arguments)])] in
                      let '(r, net) :=
                        send_mcp_json (kt_mcp_url tool) token session delegation call net in
                      let net := close_mcp_session (kt_mcp_url tool) token session delegation net in
                      (let? x := r in
                       let payload := x.2 in
                       match json_get "error" payload with
                       | Some err => Err (KProtocol ("tools/call returned error: " +:+ to_vec err))
                       | None => Ok (default JNull (json_get "result" payload))
                       end, net)
                  end
              end
          end
      end
  end.

Definition json_error (status : Z) (message error_type : string) : Response :=
  json_response status
    (error_envelope [("message", JString message); ("type", JString error_type)]).

Definition response_json (v : Json) : Response :=
  {| resp_status := 200;
     resp_headers := [("content-type", "application/json; charset=utf-8")];
     resp_body := TextBody (to_vec v) |}.

(** One [key=value] pair of the query; the value is kept undecoded. *)
Definition add_query_pair (args : list (string * Json)) (pair : string) : list (string * Json) :=
  if bool_decide (pair = "") then args
  else
    let '(key, value) := match split_once "=" pair with
                         | Some (a, b) => (a, b)
                         | None => (pair, "")
                         end in
    match trim_nonempty key with
    | None => args
    | Some key => obj_insert key (JString value) args
    end.

Definition query_arguments (query : option string) : Json :=
  match query with
  | None => JObject []
  | Some q => JObject (fold_left add_query_pair (split (is_char "&") q) [])
  end.

Definition bad_arguments : Response :=
  json_error 400 "Kamiwaza MCP tool arguments must be a JSON object" "bad_request".

Definition parse_arguments (method : string) (query : option string) (body : string)
  : result Response Json :=
  if bool_decide (body = "") then Ok (query_arguments query)
  else if negb (bool_decide (method = "POST") || bool_decide (method = "PUT")
                || bool_decide (method = "PATCH"))
  then Err (json_error 405
              "Kamiwaza MCP tool calls with a request body require POST, PUT, or PATCH"
              "method_not_allowed")
  else match from_slice body with
       | Some (JObject m) => Ok (JObject m)
       | _ => Err bad_arguments
       end.

Record Times := { t_lookup : Z; t_stored : Z; t_signed : Z }.

Definition handle_proxy_call (cfg : BridgeConfig) (tool_name : string) (req : Request)
    (t : Times) (cache : option CachedCatalog) (net : Net)
  : option Response * option CachedCatalog * Net :=
  if negb (is_configured cfg) then (None, cache, net)
  else
    match discover_tools cfg (t_lookup t) (t_stored t) cache net with
    | (Err e, cache, net) =>
        (Some (json_error 502 ("Kamiwaza discovery failed: " +:+ kamiwaza_error_text e)
                 "upstream_error"), cache, net)
    | (Ok discovered, cache, net) =>
        match find_first (fun x => bool_decide (kt_slug x = tool_name)) discovered with
        | None => (None, cache, net)
        | Some tool =>
            if 1024 * 1024 <? Z.of_nat (String.length (req_body req)) then
              (Some (json_error 400 "Failed to read request body" "bad_request"), cache, net)
            else
              match parse_arguments (req_method req) (req_query req) (req_body req) with
              | Err response => (Some response, cache, net)
              | Ok arguments =>
                  let '(r, net) :=
                    invoke_tool cfg tool (identity (req_ext req)) arguments (t_signed t) net in
                  (Some match r with
                        | Ok v => response_json v
                        | Err e => json_error 502 ("Kamiwaza MCP call failed: "
                                                   +:+ kamiwaza_error_text e) "upstream_error"
                        end, cache, net)
              end
        end
    end.

Definition catalog_entry (tool : KamiwazaTool) : Json :=
  let entry := json_obj
    [("name", JString (kt_slug tool)); ("type", JString "mcp");
     ("path", JString ("/api/" +:+ kt_slug tool));
     ("description", JString (default ("Kamiwaza MCP tool " +:+ kt_tool_name tool
                                       +:+ " from extension " +:+ kt_extension_name tool)
                                (kt_description tool)));
     ("extension", JString (kt_extension_name tool)); ("mcpTool", JString (kt_tool_name tool))] in
  match kt_input_schema tool with
  | Some s => json_set "inputSchema" s entry
  | None => entry
  end.

(** [append_kamiwaza_catalog_entries] of [app.rs]: what it adds to the
    listing. *)
Definition kamiwaza_entries (cfg : BridgeConfig) (identity : option AgentIdentity) (t0 t1 : Z)
    (cache : option CachedCatalog) (net : Net) : list Json * option CachedCatalog * Net :=
  if negb (is_configured cfg) then ([], cache, net)
  else match discover_tools cfg t0 t1 cache net with
       | (Ok tools, cache, net) =>
           (map catalog_entry
              (List.filter (fun x => match identity with
                                     | None => true
                                     | Some id => is_ok (allows_tool id (kt_slug x))
                                     end) tools), cache, net)
       | (Err _, cache, net) => ([], cache, net)
       end.

(** ** What is sent *)

(** Every request between two states satisfies [P]. *)
Definition sends (P : HttpRequest -> Prop) (net net' : Net) : Prop :=
  exists new, sent net' = sent net ++ new /\ Forall P new.

Lemma sends_refl P net : sends P net net.
Proof. exists []. by rewrite app_nil_r. Qed.

Lemma sends_trans P n1 n2 n3 : sends P n1 n2 -> sends P n2 n3 -> sends P n1 n3.
Proof.
  intros (a & Ea & Ha) (b & Eb & Hb). exists (a ++ b). rewrite Eb, Ea, <- app_assoc.
  split; [done|]. by apply Forall_app.
Qed.

Lemma send_sends (P : HttpRequest -> Prop) q net : P q -> sends P net (send q net).2.
Proof. intros Hq. unfold send. destruct (server q (world net)). exists [q]. by repeat constructor. Qed.

#[local] Hint Resolve sends_refl send_sends : core.

(** A request of one MCP exchange: where it goes, with which token and which
    delegation. *)
Definition mcp_call (url token : string) (delegation : option DelegationHeader)
    (q : HttpRequest) : Prop :=
  hq_url q = url /\ hq_bearer q = token /\
  forall h, delegation = Some h -> (dh_name h, dh_value h) ∈ hq_headers q.

Lemma mcp_request_call verb url token session delegation extra payload :
  mcp_call url token delegation (mcp_request verb url token session delegation extra payload).
Proof.
  split_and!; [done|done|]. intros h ->. cbn. rewrite !elem_of_app. right. right.
  by apply list_elem_of_singleton.
Qed.

Lemma send_mcp_json_sends url token session delegation payload net :
  sends (mcp_call url token delegation) net
        (send_mcp_json url token session delegation payload net).2.
Proof.
  unfold send_mcp_json. match goal with |- context [send ?q net] =>
    pose proof (send_sends (mcp_call url token delegation) q net) as S; destruct (send q net) end.
  specialize (S (mcp_request_call _ _ _ _ _ _ _)). by repeat case_match_goal.
Qed.

Lemma close_mcp_session_sends url token session delegation net :
  sends (mcp_call url token delegation) net (close_mcp_session url token session delegation net).
Proof. destruct session; cbn; [|done]. apply send_sends, mcp_request_call. Qed.

Lemma initialize_session_sends url token delegation net :
  sends (mcp_call url token delegation) net (initialize_session url token delegation net).2.
Proof.
  unfold initialize_session.
  pose proof (send_mcp_json_sends url token None delegation (initialize_payload version) net) as S1.
  destruct (send_mcp_json _ _ None _ _ net) as [[[session payload]|] n1]; [|done].
  destruct (isSome _); [done|].
  match goal with |- context [send_mcp_json url token session delegation ?p n1] =>
    pose proof (send_mcp_json_sends url token session delegation p n1) as S2;
    destruct (send_mcp_json url token session delegation p n1) as [[] ?] end;
    by eapply sends_trans.
Qed.

Lemma invoke_tool_sends cfg tool identity arguments now net :
  (invoke_tool cfg tool identity arguments now net).2 = net \/
  exists k token delegation,
    bc_kamiwaza cfg = Some k /\ api_token env k = Some token /\
    build_delegation_header env k identity tool now = Ok delegation /\
    sends (mcp_call (kt_mcp_url tool) token delegation) net
          (invoke_tool cfg tool identity arguments now net).2.
Proof.
  unfold invoke_tool. destruct (bc_kamiwaza cfg) as [k|]; [|by left].
  destruct (api_token env k) as [token|] eqn:Et; [|by left].
  destruct (build_client cfg k) as [c|]; [|by left].
  destruct (build_delegation_header env k identity tool now) as [d|] eqn:Ed; [|by left].
  right. exists k, token, d. split_and!; try done.
  pose proof (initialize_session_sends (kt_mcp_url tool) token d net) as S1.
  destruct (initialize_session _ token d net) as [[session|] n1]; [|done].
  match goal with |- context [send_mcp_json ?u token session d ?p n1] =>
    pose proof (send_mcp_json_sends u token session d p n1) as S2;
    destruct (send_mcp_json u token session d p n1) as [r n2] end.
  eapply sends_trans; [exact S1|]. eapply sends_trans; [exact S2|].
  apply close_mcp_session_sends.
Qed.

(** C30: With delegation required, a tool is only invoked for an authenticated
    agent: every request of the call goes to the tool's own endpoint and
    carries a token signed with the configured secret whose claims name that
    agent and that tool; otherwise nothing is sent. *)
Theorem delegation_fails_closed cfg k tool identity arguments now net :
  bc_kamiwaza cfg = Some k -> d_required (k_delegation k) = true ->
  let net' := (invoke_tool cfg tool identity arguments now net).2 in
  net' = net \/
  exists id secret jwt,
    identity = Some id /\ delegation_signing_secret env (k_delegation k) = Some secret /\
    build_delegation_jwt (k_delegation k) id tool secret now = Ok jwt /\
    sends (fun q => hq_url q = kt_mcp_url tool /\
                    (d_header (k_delegation k), "Bearer " +:+ jwt) ∈ hq_headers q) net net'.
Proof.
  intros Ek Hreq. cbv zeta.
  destruct (invoke_tool_sends cfg tool identity arguments now net)
    as [->|(k' & token & d & Ek' & _ & Ed & new & En & Hnew)]; [by left|].
  rewrite Ek in Ek'. injection Ek' as <-. right.
  unfold build_delegation_header in Ed. rewrite Hreq, orb_true_r in Ed. cbn in Ed.
  destruct identity as [id|]; [|done].
  destruct (delegation_signing_secret _ _) as [secret|]; [|done].
  destruct (build_delegation_jwt _ id tool secret now) as [jwt|] eqn:Ej; [|done].
  exists id, secret, jwt. split_and!; try done. exists new. split; [done|].
  destruct (header_name_ok _); [|done]. cbn in Ed. destruct (header_value_ok _); [|done].
  cbn in Ed. injection Ed as <-. eapply Forall_impl; [exact Hnew|].
  intros q (E1 & _ & E3). split; [done|]. by apply (E3 _ eq_refl).
Qed.

(** ** Discovery *)

Lemma insert_by_slug_perm t l : insert_by_slug t l ≡ₚ t :: l.
Proof.
  induction l as [|u l IH]; [done|]. cbn. destruct (String.leb _ _); [done|].
  rewrite IH. constructor.
Qed.

Lemma sort_by_slug_perm l : sort_by_slug l ≡ₚ l.
Proof.
  unfold sort_by_slug. induction l as [|t l IH]; [done|]. cbn.
  rewrite insert_by_slug_perm. by rewrite IH.
Qed.

(** A discovered tool and the extension it was listed by. *)
Definition tool_of (k : KamiwazaConfig) (e : ExtensionResponse) (t : KamiwazaTool) : Prop :=
  extension_is_allowed k e = true /\ mcp_url_for_extension e = Some (kt_mcp_url t) /\
  kt_extension_name t = er_name e /\
  kt_slug t = tool_slug (k_tool_prefix k) (er_name e) (kt_tool_name t).

Lemma probe_all_tools k token targets net l t :
  (forall e url, (e, url) ∈ targets ->
     extension_is_allowed k e = true /\ mcp_url_for_extension e = Some url) ->
  l ∈ (probe_all (k_tool_prefix k) token targets net).1 -> t ∈ l ->
  exists e, e ∈ targets.*1 /\ tool_of k e t.
Proof.
  revert net. induction targets as [|[e url] targets IH]; intros net Ht; cbn; [set_solver|].
  unfold probe. cbn. destruct (list_mcp_tools url token net) as [r n1].
  set (p := match r with Ok _ => _ | Err _ => _ end).
  assert (Hp : forall x, x ∈ p.1 -> tool_of k e x).
  { subst p. destruct r as [tools|]; cbn; [|set_solver]. intros x Hx.
    apply list_elem_of_omap in Hx as (j & _ & Ex). unfold discovered_tool in Ex. branches Ex.
    destruct (Ht e url ltac:(left)) as [A B]. by split_and!. }
  destruct p as [l1 n2]. cbn in Hp. specialize (IH n2).
  destruct (probe_all (k_tool_prefix k) token targets n2) as [ls n3]. cbn in *.
  intros [->|Hl]%elem_of_cons Hin.
  - exists e. split; [left|auto].
  - destruct IH as (e' & He & Ho); [by intros; apply Ht; right|done|done|].
    exists e'. split; [by right|done].
Qed.

(** Whatever the cluster lists and in whatever order probes complete, every
    discovered tool belongs to a running extension that the configured types
    and name globs allow, is called at that extension's endpoint, and is
    offered under the slug of its names. *)
Theorem discovered_tools_allowed cfg k net tools net' t :
  (forall ls, completion ls ≡ₚ ls) -> bc_kamiwaza cfg = Some k ->
  discover_tools_uncached cfg net = (Ok tools, net') -> t ∈ tools ->
  exists e, tool_of k e t.
Proof.
  intros Hperm Ek. unfold discover_tools_uncached. rewrite Ek.
  destruct (k_enabled k); cbn [negb]; [|by intros [= <- _] ?%not_elem_of_nil].
  destruct (api_token env k) as [token|]; [|done].
  destruct (build_client cfg k) as [c|]; [|done].
  destruct (fetch_extensions _ _ _ _) as [[es|] n1]; [|done].
  pose proof (probe_all_tools k token (targets_of k es) n1) as P.
  destruct (probe_all _ token (targets_of k es) n1) as [ls n2]. intros [= <- <-] Ht.
  rewrite sort_by_slug_perm in Ht. rewrite list_elem_of_In, in_concat in Ht.
  destruct Ht as (l & Hl & Ht). apply list_elem_of_In in Hl, Ht. rewrite Hperm in Hl.
  destruct (P l t) as (e & _ & He); [|done|done|by exists e].
  intros e url. unfold targets_of. intros (e' & He & Eu)%list_elem_of_omap.
  apply list_elem_of_In, filter_In in He as [_ He].
  destruct (mcp_url_for_extension e') eqn:Em; simplify_eq/=. done.
Qed.

Lemma discover_tools_configured cfg t0 t1 cache net :
  is_configured cfg = false -> discover_tools cfg t0 t1 cache net = (Ok [], cache, net).
Proof.
  unfold is_configured, discover_tools. destruct (bc_kamiwaza cfg) as [k|]; [|done].
  by intros ->.
Qed.

(** A discovered catalog is served without any request for its time to live,
    at least a second, and probed again from then on. *)
Theorem discover_tools_cached cfg k t0 t1 cache net tools cache' net' :
  bc_kamiwaza cfg = Some k -> k_enabled k = true ->
  (forall entry, cache = Some entry -> cc_expires_at entry <= t0) ->
  discover_tools cfg t0 t1 cache net = (Ok tools, cache', net') ->
  forall t2 t3,
    (t1 <= t2 < t1 + Z.max (k_catalog_ttl_seconds k) 1 ->
       discover_tools cfg t2 t3 cache' net' = (Ok tools, cache', net')) /\
    (t1 + Z.max (k_catalog_ttl_seconds k) 1 <= t2 ->
       (discover_tools cfg t2 t3 cache' net').2 = (discover_tools_uncached cfg net').2).
Proof.
  intros Ek He Hexp. unfold discover_tools. rewrite Ek, He. cbn [negb].
  destruct (discover_tools_uncached cfg net) as [[ts|] n1] eqn:Ed.
  - intros E. assert (Hc : cache' = Some {| cc_expires_at := t1 + Z.max (k_catalog_ttl_seconds k) 1;
                                          cc_tools := tools |}).
    { destruct cache as [entry|]; [|by simplify_eq]. specialize (Hexp _ eq_refl).
      destruct (Z.ltb_spec t0 (cc_expires_at entry)); [lia|by simplify_eq]. }
    intros t2 t3. rewrite Hc. cbn. split; intros Ht.
    + by rewrite (proj2 (Z.ltb_lt _ _)) by lia.
    + rewrite (proj2 (Z.ltb_ge _ _)) by lia.
      by destruct (discover_tools_uncached cfg net') as [[]].
  - destruct cache as [entry|]; [|done]. specialize (Hexp _ eq_refl).
    by destruct (Z.ltb_spec t0 (cc_expires_at entry)); [lia|].
Qed.

(** The bridge declines a call, and the proxy answers for it, exactly when it
    is not configured or no discovered tool has the slug; it then answers
    nothing and, unconfigured, contacts nobody. *)
Theorem handle_proxy_call_declines cfg tool_name req t cache net :
  let r := handle_proxy_call cfg tool_name req t cache net in
  (r.1.1 = None <->
   is_configured cfg = false \/
   exists tools, (discover_tools cfg (t_lookup t) (t_stored t) cache net).1.1 = Ok tools /\
                 forall x, x ∈ tools -> kt_slug x <> tool_name) /\
  (is_configured cfg = false -> r = (None, cache, net)).
Proof.
  cbv zeta. unfold handle_proxy_call. destruct (is_configured cfg) eqn:Ec; cbn [negb].
  2: { split; [split; auto|done]. }
  split; [|done].
  destruct (discover_tools _ _ _ _ _) as [[[tools|] c1] n1]; cbn.
  2: { split; [done|]. intros [|(? & ? & _)]; done. }
  destruct (find_first _ tools) as [x|] eqn:F.
  - apply find_first_Some in F as [Hx E%bool_decide_eq_true].
    assert (G : forall (o : option Response * option CachedCatalog * Net), o.1.1 <> None ->
      (o.1.1 = None <-> true = false \/
        exists ts, (Ok tools : result KamiwazaError _) = Ok ts /\
          forall y, y ∈ ts -> kt_slug y <> tool_name)).
    { intros o Ho. split; [done|]. intros [|(ts & [= <-] & H')]; [done|]. by destruct (H' x Hx). }
    apply G. destruct (1024 * 1024 <? _); [done|].
    destruct (parse_arguments _ _ _); [|done]. by destruct (invoke_tool _ _ _ _ _ _).
  - split; [|done]. intros _. right. exists tools. split; [done|].
    intros y Hy E. rewrite find_first_None in F. specialize (F y Hy).
    by rewrite bool_decide_eq_true_2 in F.
Qed.

(** The listing offers an agent only the discovered tools its ACL permits. *)
Lemma kamiwaza_entries_acl cfg id t0 t1 cache net v :
  v ∈ (kamiwaza_entries cfg (Some id) t0 t1 cache net).1.1 ->
  exists t, v = catalog_entry t /\ allows_tool id (kt_slug t) = Ok tt.
Proof.
  unfold kamiwaza_entries. destruct (is_configured cfg); cbn [negb]; [|by intros ?%not_elem_of_nil].
  destruct (discover_tools _ _ _ _ _) as [[[tools|] c1] n1]; cbn; [|by intros ?%not_elem_of_nil].
  rewrite list_elem_of_In, in_map_iff. intros (t & <- & Ht). apply filter_In in Ht as [_ Ht].
  exists t. split; [done|]. by destruct (allows_tool id (kt_slug t)) as [[]|].
Qed.
End Bridge.

(** ** Event streams *)

(** A line of a message: not blank at its start, no line ending inside. *)
Definition line_ok (l : string) : bool :=
  negb (bool_decide (l = "")) && bool_decide (trim_start (" " +:+ l) = l)
  && str_forall (fun c => negb (is_char (ascii_of_N 10) c) && negb (is_char (ascii_of_N 13) c)) l.

(** A message as one server-sent event, with whatever follows it. *)
Definition sse_encode (ls : list string) (rest : string) : string :=
  foldr (fun l acc => "data: " +:+ l +:+ nl +:+ acc) (nl +:+ rest) ls.

Lemma lines_sse ls rest :
  forallb line_ok ls = true ->
  lines (sse_encode ls rest) = map (fun l => "data: " +:+ l) ls ++ "" :: lines rest.
Proof.
  unfold lines. induction ls as [|l ls IH]; intros Hok.
  - change (sse_encode [] rest) with ("" +:+ nl +:+ rest). by rewrite lines_from_line.
  - cbn [forallb] in Hok. apply andb_prop in Hok as [Hl Hok]. cbn [map app].
    rewrite <- (IH Hok). clear IH. unfold line_ok in Hl. apply andb_prop in Hl as [_ Hf].
    change (sse_encode (l :: ls) rest) with (("data: " +:+ l) +:+ nl +:+ sse_encode ls rest).
    by rewrite lines_from_line.
Qed.

Lemma line_ok_trim l : line_ok l = true -> l <> "" /\ trim_start (" " +:+ l) = l.
Proof. unfold line_ok. intros H. by split_ands. Qed.

Lemma sse_data_lines d ls rest :
  d <> "" -> forallb line_ok ls = true ->
  sse_data d (map (fun l => "data: " +:+ l) ls ++ "" :: rest)
    = d +:+ foldr (fun l acc => nl +:+ l +:+ acc) "" ls.
Proof.
  revert d. induction ls as [|l ls IH]; intros d Hd Hok; cbn [map app foldr].
  - cbn [sse_data strip_prefix]. rewrite (bool_decide_eq_false_2 (d = "")) by done.
    by rewrite str_app_nil_r.
  - cbn [forallb] in Hok. apply andb_prop in Hok as [Hl Hok]. apply line_ok_trim in Hl as [_ Hl].
    cbn [sse_data]. change ("data: " +:+ l) with ("data:" +:+ (" " +:+ l)).
    rewrite strip_prefix_app, Hl, (bool_decide_eq_false_2 (d = "")) by done.
    fold nl. rewrite IH by (done || by destruct d). by rewrite !str_app_assoc.
Qed.

(** A JSON message sent as an event stream is the message: the data lines of
    the first event are joined with newlines, and what follows the event is
    ignored. *)
Theorem sse_roundtrip `{SerdeJson} content_type ls rest :
  eq_ignore_ascii_case (trim (first_segment (is_char ";") content_type)) "text/event-stream" = true ->
  ls <> [] -> forallb line_ok ls = true ->
  parse_mcp_response_body content_type (sse_encode ls rest) =
    ok_or (KProtocol "json") (from_slice (join nl ls)).
Proof.
  intros Hct Hne Hok. unfold parse_mcp_response_body. rewrite Hct, lines_sse by done.
  destruct ls as [|l ls]; [done|]. cbn [forallb] in Hok. apply andb_prop in Hok as [Hl Hok].
  apply line_ok_trim in Hl as [Hl0 Hl]. cbn [map app sse_data].
  change ("data: " +:+ l) with ("data:" +:+ (" " +:+ l)).
  rewrite strip_prefix_app, Hl, (bool_decide_eq_true_2 ("" = "")) by done. cbn [append].
  rewrite sse_data_lines by done.
  assert (E : l +:+ foldr (fun l acc => nl +:+ l +:+ acc) "" ls = join nl (l :: ls)).
  { clear. revert l. induction ls as [|x ls IH]; intros l; [apply str_app_nil_r|].
    cbn [foldr]. rewrite IH. done. }
  rewrite E, bool_decide_eq_false_2; [done|]. rewrite <- E. by destruct l.
Qed.

(** ** The delegation token is a JWT *)

Lemma trim_end_matches_app c s n :
  str_forall (fun d => negb (is_char c d)) s = true ->
  trim_end_matches c (s +:+ repeat_char c n) = s.
Proof.
  intros Hs. induction s as [|d s IH].
  - destruct n; cbn [append repeat_char trim_end_matches]; [done|].
    replace (str_forall _ _) with true; [done|]. symmetry. cbn. apply andb_true_iff. split.
    + unfold is_char. by rewrite bool_decide_eq_true_2.
    + clear. induction n; cbn; [done|]. rewrite IHn. unfold is_char. by rewrite bool_decide_eq_true_2.
  - cbn [str_forall] in Hs. apply andb_prop in Hs as [H1%negb_true_iff H2].
    cbn [append trim_end_matches str_forall]. rewrite H1. cbn [andb]. by rewrite IH.
Qed.

Section Jwt.
Context `{Base64UrlLaws} `{SerdeJson} `{HmacCrate} `{HeaderCrate}.

Lemma b64_free bs c :
  is_b64url c = false -> str_forall (fun d => negb (is_char c d)) (b64_encode bs) = true.
Proof.
  intros Hc. eapply str_forall_impl; [|apply b64_encode_alphabet]. cbn. intros d Hd.
  apply negb_true_iff, bool_decide_eq_false_2. congruence.
Qed.

(** The token decodes, with the decoder used for provider tokens, to exactly
    the claims: issuer and audience as configured, the agent as subject, the
    invoked tool, and an expiry the configured time after the issue. *)
Theorem delegation_jwt_decodes d id tool secret now jwt :
  let claims := delegation_claims d id tool now in
  from_slice (to_vec claims) = Some claims ->
  build_delegation_jwt d id tool secret now = Ok jwt ->
  decode_jwt_payload jwt = Some claims /\
  json_get "sub" claims = Some (JString (id_public_id id)) /\
  json_get "tool" claims = Some (JString (kt_slug tool)) /\
  json_get "exp" claims = Some (JInt (saturating_add now (d_ttl_seconds d))).
Proof.
  cbv zeta. intros Hjson. unfold build_delegation_jwt.
  destruct (hmac_sha256 _ _) as [mac|]; [|done]. intros [= <-].
  split_and!; [|reflexivity..].
  set (claims := delegation_claims d id tool now) in *.
  unfold decode_jwt_payload, jwt_segment.
  assert (Dot : is_b64url "." = false) by reflexivity.
  assert (Eq : is_b64url "=" = false) by reflexivity.
  rewrite <- !str_app_assoc. cbn [append].
  rewrite split_cons by by apply b64_free.
  rewrite split_cons by by apply b64_free.
  rewrite split_free by by apply b64_free.
  rewrite trim_end_matches_app by by apply b64_free.
  by rewrite b64_decode_encode.
Qed.
End Jwt.

Module KamiwazaWitness.
Import Base64Model HttpModel.

Definition id0 : AgentIdentity :=
  {| id_id := 7; id_public_id := "agt"; id_name := "hermes"; id_tool_allowlist := None;
     id_tool_denylist := None |}.

Definition tool0 : KamiwazaTool :=
  {| kt_slug := "k_ext_search"; kt_extension_name := "ext"; kt_mcp_url := "https://ext/mcp";
     kt_tool_name := "search"; kt_description := None; kt_input_schema := None |}.

Definition d0 : KamiwazaDelegationConfig :=
  {| d_enabled := true; d_required := true; d_signing_secret := Some " s3cret ";
     d_header := "x-kamiwaza-agent-delegation"; d_issuer := "agent-locksmith";
     d_audience := "kamiwaza-tools"; d_ttl_seconds := 60 |}.

Definition k0 : KamiwazaConfig :=
  {| k_enabled := true; k_api_url := Some "https://kz/api/"; k_api_url_candidates := [];
     k_api_token := Some "tok"; k_tool_prefix := "k"; k_include_types := ["tool"];
     k_extension_names := ["*xt"]; k_verify_tls := true; k_cloud := false;
     k_timeout_seconds := 30; k_catalog_ttl_seconds := 600; k_discovery_concurrency := 8;
     k_delegation := d0 |}.

Definition cfg0 : BridgeConfig := {| bc_kamiwaza := Some k0; bc_egress_proxy := None |}.

Definition ext0 : ExtensionResponse :=
  {| er_name := "ext"; er_type := Some "Tool"; er_phase := Some "Running"; er_services := [];
     er_endpoints := Some {| ee_external := Some "https://ext/"; ee_internal := None |} |}.

Definition claims0 : Json := delegation_claims d0 id0 tool0 100.
Definition listing0 : Json :=
  json_obj [("result", json_obj [("tools", JArray [json_obj [("name", JString "search")]])])].

(** A parser that knows three texts. *)
#[export] Instance json0 : SerdeJson :=
  {| from_slice s := if bool_decide (s = "claims") then Some claims0
                     else if bool_decide (s = "listing") then Some listing0 else Some JNull;
     to_vec v := match json_get "iss" v with Some _ => "claims" | None => "other" end |}.

#[export] Instance hmac0 : HmacCrate := {| hmac_sha256 k m := Some k |}.
#[export] Instance headers0 : HeaderCrate := {| header_name_ok _ := true; header_value_ok _ := true |}.

Definition no_env (v : string) : option string := None.

Definition server0 (q : HttpRequest) (w : unit) : result string HttpReply * unit :=
  (Ok {| hr_status := 200; hr_headers := [("mcp-session-id", "sid")]; hr_text := Ok "listing" |}, w).

Definition decode0 (s : string) : option (list ExtensionResponse) := Some [ext0].
Definition show_status (z : Z) : string := pretty.pretty z.
Definition net0 : Net (World := unit) := {| world := tt; sent := [] |}.

Abbreviation invoke0 := (invoke_tool no_env server0 (fun _ => true) true show_status "2.0") (only parsing).
Abbreviation discover0 :=
  (discover_tools no_env server0 (fun _ => true) true decode0 show_status (fun ls => ls) "2.0")
  (only parsing).
Abbreviation uncached0 :=
  (discover_tools_uncached no_env server0 (fun _ => true) true decode0 show_status (fun ls => ls) "2.0")
  (only parsing).

Example discovers :
  (uncached0 cfg0 net0).1 = Ok [tool0].
Proof. vm_compute. reflexivity. Qed.

Lemma delegation_fails_closed_witness :
  let net' := (invoke0 cfg0 tool0 (Some id0) JNull 100 net0).2 in
  List.length (sent net') = 4%nat /\
  (net' = net0 \/
   exists id secret jwt,
     Some id0 = Some id /\ delegation_signing_secret no_env (k_delegation k0) = Some secret /\
     build_delegation_jwt (k_delegation k0) id tool0 secret 100 = Ok jwt /\
     sends (fun q => hq_url q = kt_mcp_url tool0 /\
                     (d_header (k_delegation k0), "Bearer " +:+ jwt) ∈ hq_headers q) net0 net').
Proof.
  cbv zeta. split; [vm_compute; reflexivity|].
  apply (delegation_fails_closed no_env server0 (fun _ => true) true show_status "2.0"
           cfg0 k0 tool0 (Some id0) JNull 100 net0); reflexivity.
Defined.

Lemma discovered_tools_allowed_witness : exists e, tool_of k0 e tool0.
Proof.
  apply (discovered_tools_allowed no_env server0 (fun _ => true) true decode0 show_status
           (fun ls => ls) "2.0" cfg0 k0 net0 [tool0] (uncached0 cfg0 net0).2).
  - done.
  - reflexivity.
  - vm_compute; reflexivity.
  - by left.
Defined.

Lemma discover_tools_cached_witness :
  let r := discover0 cfg0 0 10 None net0 in
  discover0 cfg0 609 620 r.1.2 r.2 = (Ok [tool0], r.1.2, r.2) /\
  (discover0 cfg0 610 620 r.1.2 r.2).2 = (uncached0 cfg0 r.2).2.
Proof.
  cbv zeta. set (r := discover0 cfg0 0 10 None net0).
  split; (eapply (discover_tools_cached no_env server0 (fun _ => true) true decode0 show_status
           (fun ls => ls) "2.0" cfg0 k0 0 10 None net0 [tool0] r.1.2 r.2);
    [reflexivity|reflexivity|intros entry [=]|vm_compute; reflexivity|cbn; lia]).
Defined.

Lemma sse_roundtrip_witness :
  parse_mcp_response_body "text/event-stream; charset=utf-8" (sse_encode ["claims"] "data: x") =
    ok_or (KProtocol "json") (from_slice (join nl ["claims"])).
Proof. apply sse_roundtrip; [vm_compute; reflexivity|done|vm_compute; reflexivity]. Defined.

Lemma delegation_jwt_decodes_witness :
  exists jwt, build_delegation_jwt d0 id0 tool0 "s3cret" 100 = Ok jwt /\
    decode_jwt_payload jwt = Some claims0 /\
    json_get "sub" claims0 = Some (JString (id_public_id id0)) /\
    json_get "tool" claims0 = Some (JString (kt_slug tool0)) /\
    json_get "exp" claims0 = Some (JInt (saturating_add 100 (d_ttl_seconds d0))).
Proof.
  eexists. split; [vm_compute; reflexivity|].
  apply (delegation_jwt_decodes d0 id0 tool0 "s3cret" 100); vm_compute; reflexivity.
Defined.

End KamiwazaWitness.
