(* ===== verification/Discovery.v ===== *)
(** * Health, discovery and the skill document ([src/app.rs], [src/skill.rs])

    The routes that only answer: liveness, readiness, version, the tool and
    model listings and the skill document in its generic and personalized
    forms.  The embedded template is a parameter, and so is the bridge that
    contributes tools to a listing (class [BridgeCatalog], which [Kamiwaza]
    implements). *)

From S2P Require Import Prelude Json Http Token AgentRepo AuditLog.
From S2P Require Import Auth Secret ResponseControls Config Registrations Oauth.
From S2P Require Import Strings KamiwazaNames Kamiwaza.

(** What the bridge adds to a tool listing, with its cache and network. *)
Class BridgeCatalog : Type := {
  bridge_state : Type;
  bridge_entries : option AgentIdentity -> bridge_state -> list Json * bridge_state
}.

(** Its entries carry the name they are called by, and an agent only gets
    those its ACL permits. *)
Class BridgeCatalogLaws `{BridgeCatalog} : Prop := {
  bridge_named : forall id s v, v ∈ (bridge_entries id s).1 ->
    exists n, json_get "name" v = Some (JString n);
  bridge_acl : forall id s v n, v ∈ (bridge_entries (Some id) s).1 ->
    json_get "name" v = Some (JString n) -> allows_tool id n = Ok tt
}.

(** ** The skill document *)

Definition text (l : list string) : string := join nl l.
Definition dq : string := String (ascii_of_N 34) "".

(** [desc.replace('\n', " ")]. *)
Definition one_line_desc (desc : string) : string :=
  str_map (fun c => if bool_decide (c = ascii_of_N 10) then " "%char else c) desc.

Definition tool_row (t : string * string) : string :=
  "| `" +:+ t.1 +:+ "` | " +:+ one_line_desc t.2 +:+ " |" +:+ nl.

Definition tools_md (available_tools : list (string * string)) : string :=
  match available_tools with
  | [] => "_No tools currently available to you._ Either your ACL excludes "
          +:+ "every active tool, or no tools are active in this deployment. "
          +:+ "Ask your operator to widen your allowlist or shrink your denylist." +:+ nl
  | _ => "| Tool | Description |" +:+ nl +:+ "|---|---|" +:+ nl
         +:+ foldr (fun t acc => tool_row t +:+ acc) "" available_tools
  end.

Definition codex_quirks_md (available_tools : list (string * string)) : string :=
  if existsb (fun t => bool_decide (t.1 = "codex")) available_tools then
    text [""; "### Codex quirks (because `codex` is in your ACL)"; "";
          "As of v2.4.0, locksmith owns every codex-specific wire piece:"; "";
          "- Authorization, ChatGPT-Account-ID, OpenAI-Beta, originator (when";
          "  missing) — all injected automatically.";
          "- Body fields store / stream / instructions — injected/overridden";
          "  automatically (instructions preserved if you supply your own)."; "";
          "Your minimal codex call:"; ""; "```"; "POST /api/codex/responses";
          "Authorization: Bearer $LOCKSMITH_TOKEN"; "Content-Type: application/json"; "";
          "{" +:+ dq +:+ "model" +:+ dq +:+ ":" +:+ dq +:+ "gpt-5.5" +:+ dq +:+ "," +:+ dq
          +:+ "input" +:+ dq +:+ ":[{" +:+ dq +:+ "type" +:+ dq +:+ ":" +:+ dq +:+ "message" +:+ dq
          +:+ "," +:+ dq +:+ "role" +:+ dq +:+ ":" +:+ dq +:+ "user" +:+ dq +:+ "," +:+ dq
          +:+ "content" +:+ dq +:+ ":[{" +:+ dq +:+ "type" +:+ dq +:+ ":" +:+ dq +:+ "input_text"
          +:+ dq +:+ "," +:+ dq +:+ "text" +:+ dq +:+ ":" +:+ dq +:+ "hi" +:+ dq +:+ "}]}]}";
          "```"; "";
          "Streaming-only — codex `/responses` returns SSE. Your client must";
          "handle it (locksmith forces `stream: true` regardless of what you";
          "send). See the " +:+ dq +:+ "Codex (OpenAI ChatGPT plan auth) — special case" +:+ dq;
          "section above for the full integration boundary."; ""]
  else "".

Definition list_md (none : string) (l : option (list string)) : string :=
  match l with Some v => "`[" +:+ join ", " v +:+ "]`" | None => none end.

Definition personalized (id : AgentIdentity) (available_tools : list (string * string)) : string :=
  let first_tool := match available_tools with t :: _ => t.1 | [] => "<tool>" end in
  text [""; ""; "---"; "";
        "## Personalized for `" +:+ id_name id +:+ "`"; "";
        "You're authenticated as **" +:+ id_name id +:+ "** (`public_id=" +:+ id_public_id id
        +:+ "`)."; ""; "### Tools available to you right now"; "";
        tools_md available_tools; "";
        "To call one of these tools:"; ""; "```";
        "curl -fsS -H " +:+ dq +:+ "Authorization: Bearer $LOCKSMITH_TOKEN" +:+ dq +:+ " \";
        "  http://<locksmith>/api/<tool>/<upstream-path>"; "```"; "";
        "The `<upstream-path>` is forwarded verbatim to the tool's upstream — for";
        "example, `/api/" +:+ first_tool +:+ "/v1/chat/completions` reaches the";
        "upstream's `v1/chat/completions` endpoint. Locksmith strips your";
        "`Authorization` header and injects the configured upstream credential";
        "before forwarding.";
        codex_quirks_md available_tools;
        "### Your ACL"; "";
        "- **Allowlist**: " +:+ list_md "`(unrestricted — no allowlist set)`" (id_tool_allowlist id);
        "- **Denylist**: " +:+ list_md "`(none)`" (id_tool_denylist id); "";
        "Both are managed by your operator via `locksmith agent modify";
        id_public_id id +:+ " --allowlist ... --denylist ...`. Re-fetch this skill after a";
        "change to see the new tool list."; "";
        "### Audit-debug recipe (operator-facing)"; "";
        "If you start getting 403 `tool_not_allowed`, your operator can trace:"; ""; "```";
        "locksmith audit query --event-class security --agent " +:+ id_public_id id +:+ " \";
        "  --since-ms <ms>"; "```"; "";
        "Recent denies for you appear with `event=authz_denied` and";
        "`details.reason` set to either `not_in_allowlist` or `in_denylist`. 401s";
        "appear with `event=auth_failure` and `details.reason` carrying the";
        "specific failure mode (`missing_credential`, `malformed_token`,";
        "`wrong_namespace`, `unknown_public_id`, `secret_mismatch`, `expired`)."; ""].

Section Skill.
Context (SKILL_TEMPLATE : string).

Definition render_unauthenticated : string := SKILL_TEMPLATE.

Definition render_authenticated (id : AgentIdentity) (available_tools : list (string * string))
  : string := SKILL_TEMPLATE +:+ personalized id available_tools.
End Skill.

(** ** The handlers *)

Section Handlers.
Context `{BridgeCatalog} (SKILL_TEMPLATE : string).

(** The parts of [AppState] these routes read; [d_uptime] is the seconds
    since the start. *)
Record DiscoveryState := {
  d_config : AppConfig;
  d_resolved : ResolvedCreds;
  d_registrations : option RegistrationRepository;
  d_uptime : Z;
  d_bridge : bridge_state
}.

Definition with_bridge (b : bridge_state) (s : DiscoveryState) : DiscoveryState :=
  {| d_config := d_config s; d_resolved := d_resolved s; d_registrations := d_registrations s;
     d_uptime := d_uptime s; d_bridge := b |}.

Definition livez_handler (s : DiscoveryState) : Response :=
  json_response 200 (json_obj [("status", JString "live"); ("uptime_seconds", JInt (d_uptime s))]).

(** The tools that declare a credential which did not resolve. *)
Definition unconfigured (s : DiscoveryState) : list string :=
  map tc_name (List.filter (fun t => match tc_auth t with
                                     | Some _ => negb (isSome (d_resolved s !! tc_name t))
                                     | None => false
                                     end) (tools (d_config s))).

Definition readyz_handler (s : DiscoveryState) : Response :=
  match unconfigured s with
  | [] => json_response 200 (json_obj [("status", JString "ready");
                                       ("uptime_seconds", JInt (d_uptime s))])
  | missing =>
      json_response 503 (json_obj [("status", JString "not_ready");
        ("reason", JString "tool_credentials_unresolved"); ("tools", JArray (map JString missing))])
  end.

(** Build metadata, from [Cargo.toml]. *)
Definition version_handler : Response :=
  json_response 200 (json_obj [("version", JString "2.7.1"); ("name", JString "agent-locksmith")]).

Definition config_item (t : ToolConfig) : Json :=
  json_obj [("name", JString (tc_name t)); ("type", JString "api");
            ("path", JString ("/api/" +:+ tc_name t)); ("description", JString (tc_description t))].

Definition permitted (identity : option AgentIdentity) (n : string) : bool :=
  match identity with None => true | Some id => is_ok (allows_tool id n) end.

Definition catalog_listing (identity : option AgentIdentity) (k : Kind) (s : DiscoveryState)
  : list Json * DiscoveryState :=
  let finish items :=
    match k with
    | Tool => let '(more, b) := bridge_entries identity (d_bridge s) in
              (items ++ more, with_bridge b s)
    | _ => (items, s)
    end in
  match d_registrations s with
  | Some db => finish (match list_public db k identity with Ok items => items | Err _ => [] end)
  | None =>
      match k with
      | Tool => finish (map config_item
                  (List.filter (fun t => permitted identity (tc_name t))
                     (active_tools_against (d_config s) (d_resolved s))))
      | _ => ([], s)
      end
  end.

Definition tools_handler (identity : option AgentIdentity) (s : DiscoveryState)
  : Response * DiscoveryState :=
  let '(items, s) := catalog_listing identity Tool s in
  (json_response 200 (json_obj [("tools", JArray items)]), s).

Definition models_handler (identity : option AgentIdentity) (s : DiscoveryState)
  : Response * DiscoveryState :=
  let '(items, s) := catalog_listing identity Model s in
  (json_response 200 (json_obj [("models", JArray items)]), s).

Definition skill_response (body cache_control : string) : Response :=
  {| resp_status := 200;
     resp_headers := header_insert "cache-control" cache_control
       (header_insert "content-type" "text/markdown; charset=utf-8"
          [("content-type", "text/plain; charset=utf-8")]);
     resp_body := TextBody body |}.

(** Name and description of the listed items that have a name. *)
Definition available (listing : list Json) : list (string * string) :=
  omap (fun v => let* n := json_get "name" v in
                 let* n := as_str n in
                 Some (n, default "" (let* d := json_get "description" v in as_str d))) listing.

Definition skill_handler (identity : option AgentIdentity) (s : DiscoveryState)
  : Response * DiscoveryState :=
  match identity with
  | Some id =>
      let '(listing, s) := catalog_listing (Some id) Tool s in
      (skill_response (render_authenticated SKILL_TEMPLATE id (available listing))
         "private, no-cache, no-store", s)
  | None => (skill_response (render_unauthenticated SKILL_TEMPLATE) "public, max-age=86400", s)
  end.
End Handlers.

(** ** Properties *)

Lemma public_json_name r : json_get "name" (public_json r) = Some (JString (name r)).
Proof. reflexivity. Qed.

Lemma config_item_name t : json_get "name" (config_item t) = Some (JString (tc_name t)).
Proof. reflexivity. Qed.

(** [big] contains [part]. *)
Definition occurs_in (part big : string) : Prop := exists a b, big = a +:+ part +:+ b.

Lemma occurs_refl s : occurs_in s s.
Proof. exists "", "". by rewrite str_app_nil_r. Qed.

Lemma occurs_app_r s a b : occurs_in s b -> occurs_in s (a +:+ b).
Proof. intros (x & y & ->). exists (a +:+ x), y. by rewrite !str_app_assoc. Qed.

Lemma occurs_app_l s a b : occurs_in s a -> occurs_in s (a +:+ b).
Proof. intros (x & y & ->). exists x, (y +:+ b). by rewrite !str_app_assoc. Qed.

Lemma occurs_join s sep x l : x ∈ l -> occurs_in s x -> occurs_in s (join sep l).
Proof.
  induction l as [|y l IH]; intros Hx Hs; [by apply not_elem_of_nil in Hx|].
  destruct l as [|z l]; apply elem_of_cons in Hx as [->|Hx]; [done|by apply not_elem_of_nil in Hx| |].
  - cbn [join]. by apply occurs_app_l.
  - cbn [join]. apply occurs_app_r, occurs_app_r. by apply IH.
Qed.

Lemma tools_md_row t l : t ∈ l -> occurs_in (tool_row t) (tools_md l).
Proof.
  intros Ht. destruct l as [|x l]; [by apply not_elem_of_nil in Ht|]. unfold tools_md.
  do 4 apply occurs_app_r. revert Ht. generalize (x :: l). clear. intros l. induction l as [|y l IH].
  - by intros ?%not_elem_of_nil.
  - intros [->|Ht]%elem_of_cons; cbn [foldr]; [apply occurs_app_l, occurs_refl|].
    apply occurs_app_r. auto.
Qed.

Section DiscoverySpec.
Context `{BridgeCatalogLaws} (SKILL_TEMPLATE : string).

(** Every listed item is named, and named by something the caller may use. *)
Lemma catalog_listing_names id k s v :
  v ∈ (catalog_listing (Some id) k s).1 ->
  exists n, json_get "name" v = Some (JString n) /\ allows_tool id n = Ok tt.
Proof.
  assert (B : forall items, (forall x, x ∈ items ->
      exists n, json_get "name" x = Some (JString n) /\ allows_tool id n = Ok tt) ->
    v ∈ (match k with
         | Tool => let '(more, b) := bridge_entries (Some id) (d_bridge s) in
                   (items ++ more, with_bridge b s)
         | _ => (items, s) end).1 ->
    exists n, json_get "name" v = Some (JString n) /\ allows_tool id n = Ok tt).
  { intros items Hi. destruct k; cbn; try (by apply Hi).
    pose proof (bridge_named (Some id) (d_bridge s) v) as Bn.
    pose proof (bridge_acl id (d_bridge s) v) as Ba.
    destruct (bridge_entries (Some id) (d_bridge s)) as [more b]. cbn in *.
    intros [Hv|Hv]%elem_of_app; [by apply Hi|].
    destruct (Bn Hv) as [n Hn]. exists n. split; [done|]. by apply Ba. }
  unfold catalog_listing. destruct (d_registrations s) as [db|].
  - apply B. destruct (list_public db k (Some id)) as [items|] eqn:E.
    + intros x Hx. destruct (list_public_elem _ _ _ _ _ E Hx) as (r & -> & Hv & _).
      exists (name r). split; [apply public_json_name|]. unfold visible_to in Hv.
      apply andb_prop in Hv as [_ Hv]. by destruct (allows_tool id (name r)) as [[]|].
    + by intros x ?%not_elem_of_nil.
  - destruct k; try (by intros ?%not_elem_of_nil). apply B.
    intros x (t & -> & Ht)%list_elem_of_fmap.
    exists (tc_name t). split; [apply config_item_name|].
    apply list_elem_of_In, filter_In in Ht as [_ Ht]. cbn in Ht.
    by destruct (allows_tool id (tc_name t)) as [[]|].
Qed.

(** Nothing an agent may use is left out: enabled registrations, or without a
    table the configured tools. *)
Lemma catalog_listing_complete id s :
  (forall db items row r, d_registrations s = Some db -> list_public db Tool (Some id) = Ok items ->
     row ∈ reg_rows db -> row_to_registration row = Ok r -> kind r = Tool -> disabled r = false ->
     allows_tool id (name r) = Ok tt -> public_json r ∈ (catalog_listing (Some id) Tool s).1) /\
  (forall t, d_registrations s = None -> t ∈ active_tools_against (d_config s) (d_resolved s) ->
     allows_tool id (tc_name t) = Ok tt -> config_item t ∈ (catalog_listing (Some id) Tool s).1).
Proof.
  unfold catalog_listing. split.
  - intros db items row r -> Hl Hrow Er Hk Hd Ha. rewrite Hl.
    destruct (bridge_entries _ _) as [more b]. apply elem_of_app. left.
    eapply list_public_complete; [done..|]. unfold visible_to. by rewrite Hd, Ha.
  - intros t -> Ht Ha. destruct (bridge_entries _ _) as [more b]. apply elem_of_app. left.
    apply list_elem_of_In, in_map, filter_In. split; [by apply list_elem_of_In|]. simpl. by rewrite Ha.
Qed.

(** C39: Discovery agrees with the ACL and the documents with discovery.  What
    [/tools] lists to an agent are tools it may use, and among them every
    enabled registration (or, without a table, configured tool) it may use.
    The skill document the same agent gets has one table row per listed item,
    in that order and with that name, and is the template followed by the
    personalized part rendered from exactly these rows, marked private: two
    states with the same answer of [/tools] give the same document, so nothing
    else shows in it.  A caller without an identity gets the fixed template
    whatever the state. *)
Theorem skill_agrees_with_tools id s :
  exists items rows,
    resp_body (tools_handler (Some id) s).1 = JsonBody (json_obj [("tools", JArray items)]) /\
    Forall2 (fun v row => json_get "name" v = Some (JString row.1) /\ allows_tool id row.1 = Ok tt /\
               row.2 = default "" (let* d := json_get "description" v in as_str d)) items rows /\
    (forall db l row r, d_registrations s = Some db -> list_public db Tool (Some id) = Ok l ->
       row ∈ reg_rows db -> row_to_registration row = Ok r -> kind r = Tool -> disabled r = false ->
       allows_tool id (name r) = Ok tt -> public_json r ∈ items) /\
    (forall t, d_registrations s = None -> t ∈ active_tools_against (d_config s) (d_resolved s) ->
       allows_tool id (tc_name t) = Ok tt -> config_item t ∈ items) /\
    (skill_handler SKILL_TEMPLATE (Some id) s).1 =
      skill_response (SKILL_TEMPLATE +:+ personalized id rows) "private, no-cache, no-store" /\
    (forall t, t ∈ rows -> occurs_in (tool_row t) (personalized id rows)) /\
    (forall s', (tools_handler (Some id) s').1 = (tools_handler (Some id) s).1 ->
       (skill_handler SKILL_TEMPLATE (Some id) s').1 = (skill_handler SKILL_TEMPLATE (Some id) s).1) /\
    resp_body (skill_handler SKILL_TEMPLATE None s).1 = TextBody SKILL_TEMPLATE.
Proof.
  destruct (catalog_listing_complete id s) as [C1 C2].
  pose proof (fun v => catalog_listing_names id Tool s v) as N.
  exists (catalog_listing (Some id) Tool s).1, (available (catalog_listing (Some id) Tool s).1).
  unfold tools_handler, skill_handler.
  destruct (catalog_listing (Some id) Tool s) as [items s1]. cbn [fst] in *. split_and!; try done.
  - clear -N. induction items as [|v items IH]; [constructor|].
    destruct (N v ltac:(by left)) as (n & Hn & Ha). cbn. rewrite Hn. cbn. constructor; [done|].
    apply IH. intros x Hx. apply N. by right.
  - intros t Ht. unfold personalized, text.
    apply (occurs_join _ _ (tools_md (available items))); [do 10 right; left|by apply tools_md_row].
  - intros s'. destruct (catalog_listing (Some id) Tool s') as [items' s1']. cbn. intros E.
    by injection E as ->.
Qed.
End DiscoverySpec.

(** Readiness is about credentials: 200 exactly when every configured tool
    that declares one has it resolved, otherwise 503 naming the others. *)
Theorem readyz_spec `{BridgeCatalog} s :
  (resp_status (readyz_handler s) = 200 <->
     forall t, t ∈ tools (d_config s) -> tc_auth t <> None -> is_Some (d_resolved s !! tc_name t)) /\
  (resp_status (readyz_handler s) <> 200 ->
     resp_status (readyz_handler s) = 503 /\
     resp_body (readyz_handler s) = JsonBody (json_obj [("status", JString "not_ready");
       ("reason", JString "tool_credentials_unresolved");
       ("tools", JArray (map JString (unconfigured s)))]) /\
     forall n, n ∈ unconfigured s <-> exists t, t ∈ tools (d_config s) /\ tc_name t = n /\
       tc_auth t <> None /\ d_resolved s !! n = None).
Proof.
  assert (U : forall n, n ∈ unconfigured s <-> exists t, t ∈ tools (d_config s) /\ tc_name t = n /\
       tc_auth t <> None /\ d_resolved s !! n = None).
  { intros n. unfold unconfigured. rewrite list_elem_of_In, in_map_iff. f_equiv. intros t.
    rewrite filter_In, <- list_elem_of_In. split.
    - intros (<- & Ht & Hf). destruct (tc_auth t); [|done]. repeat split; [done..|].
      by destruct (d_resolved s !! tc_name t).
    - intros (Ht & <- & Ha & Hr). repeat split; [done|]. rewrite Hr. by destruct (tc_auth t). }
  unfold readyz_handler. destruct (unconfigured s) as [|x l] eqn:E; cbn [resp_status json_response].
  - split; [|done]. split; [|done]. intros _ t Ht Ha.
    destruct (d_resolved s !! tc_name t) eqn:Er; [by eexists|].
    exfalso. assert (Hn : tc_name t ∈ @nil string) by (apply U; by exists t).
    by apply not_elem_of_nil in Hn.
  - split; [|by repeat split; apply U]. split; [done|]. intros Hall.
    destruct (proj1 (U x) ltac:(by left)) as (t & Ht & <- & Ha & Hr).
    destruct (Hall t Ht Ha) as [? Hs]. congruence.
Qed.

(** ** The bridge's side of the interface *)

Lemma catalog_entry_name t : json_get "name" (catalog_entry t) = Some (JString (kt_slug t)).
Proof. unfold catalog_entry. by destruct (kt_input_schema t). Qed.

Section KamiwazaCatalog.
Context `{Base64Url} `{SerdeJson} `{HmacCrate} `{HeaderCrate} `{HttpCrate} {World : Type}.
Context (env : Env) (server : HttpRequest -> World -> result string HttpReply * World).
Context (proxy_ok : string -> bool) (client_builds : bool).
Context (decode : string -> option (list ExtensionResponse)) (status_text : Z -> string).
Context (completion : list (list KamiwazaTool) -> list (list KamiwazaTool)) (version : string).
Context (cfg : BridgeConfig) (t0 t1 : Z).

#[local] Instance kamiwaza_catalog : BridgeCatalog := {|
  bridge_state := option CachedCatalog * Net (World := World);
  bridge_entries id s :=
    let '(items, cache, net) := kamiwaza_entries env server proxy_ok client_builds decode
      status_text completion version cfg id t0 t1 s.1 s.2 in (items, (cache, net))
|}.

#[local] Instance kamiwaza_catalog_laws : BridgeCatalogLaws.
Proof.
  split; cbn.
  - intros id [c n] v. cbn. unfold kamiwaza_entries.
    destruct (is_configured cfg); cbn [negb]; [|by intros ?%not_elem_of_nil].
    destruct (discover_tools _ _ _ _ _ _ _ _ _ _ _ _ _) as [[[tools|] c1] n1]; cbn;
      [|by intros ?%not_elem_of_nil].
    intros (t & -> & _)%list_elem_of_fmap. eexists. apply catalog_entry_name.
  - intros id [c n] v x. cbn.
    pose proof (kamiwaza_entries_acl env server proxy_ok client_builds decode status_text completion
      version cfg id t0 t1 c n v) as A.
    destruct (kamiwaza_entries _ _ _ _ _ _ _ _ _ _ _ _ _ _) as [[items c1] n1]. cbn in *.
    intros Hv. destruct (A Hv) as (t & -> & Ha). rewrite catalog_entry_name. by intros [= <-].
Qed.
End KamiwazaCatalog.

Module DiscoveryWitness.
Import RegWitness.

(** A bridge with one tool. *)
#[export] Instance one_tool : BridgeCatalog := {|
  bridge_state := unit;
  bridge_entries id s :=
    (if permitted id "kz_tool" then [json_obj [("name", JString "kz_tool")]] else [], tt)
|}.

#[export] Instance one_tool_laws : BridgeCatalogLaws.
Proof.
  split; cbn.
  - intros id s v. destruct (permitted id _); [|by intros ?%not_elem_of_nil].
    intros Hv. apply list_elem_of_singleton in Hv as ->. by eexists.
  - intros id s v n. destruct (is_ok (allows_tool id "kz_tool")) eqn:E;
      [|by intros ?%not_elem_of_nil]. intros Hv. apply list_elem_of_singleton in Hv as ->. intros [= <-].
    by destruct (allows_tool id "kz_tool") as [[]|].
Qed.

Definition dst : DiscoveryState :=
  {| d_config := {| tools := [] |}; d_resolved := ∅; d_registrations := Some (repo st1);
     d_uptime := 5; d_bridge := tt |}.

Example listed :
  available (catalog_listing (Some agent0) Tool dst).1 = [("tavily", "search")].
Proof. vm_compute. reflexivity. Qed.

Lemma skill_agrees_with_tools_witness :
  exists items, resp_body (tools_handler (Some agent0) dst).1 = JsonBody (json_obj [("tools", JArray items)]) /\
  exists rows, (skill_handler "template" (Some agent0) dst).1 =
    skill_response ("template" +:+ personalized agent0 rows) "private, no-cache, no-store".
Proof.
  destruct (skill_agrees_with_tools "template" agent0 dst) as (items & rows & T & _ & _ & _ & E & _).
  exists items. split; [exact T|]. exists rows. exact E.
Defined.

End DiscoveryWitness.
