(* ===== verification/AgentCreds.v ===== *)
(** * Per-agent credential overrides ([src/repo/agent_creds.rs])

    The [agent_credential_overrides] table, keyed by agent row id and
    registration name.  The foreign key to [agents(id)] is checked on insert
    ([agent_exists]); [now] is the clock. *)

From S2P Require Import Prelude AgentRepo Registrations.

Record AgentCredentialOverride := {
  ov_agent_id : Z;
  ov_registration : string;
  ov_auth_spec : AuthSpec;
  ov_created_at : Z;
  ov_updated_at : Z
}.

Record AgentCredentialRepository := {
  overrides : list AgentCredentialOverride;
  creds_online : bool
}.

Definition set_overrides (l : list AgentCredentialOverride) (db : AgentCredentialRepository)
  : AgentCredentialRepository :=
  {| overrides := l; creds_online := creds_online db |}.

Definition by_override (id : Z) (reg : string) (r : AgentCredentialOverride) : bool :=
  bool_decide (ov_agent_id r = id) && bool_decide (ov_registration r = reg).

(** ON CONFLICT: the shape and [updated_at] only. *)
Definition with_spec (a : AuthSpec) (now : Z) (r : AgentCredentialOverride)
  : AgentCredentialOverride :=
  {| ov_agent_id := ov_agent_id r; ov_registration := ov_registration r; ov_auth_spec := a;
     ov_created_at := ov_created_at r; ov_updated_at := now |}.

Definition creds_set (agent_exists : Z -> bool) (id : Z) (reg : string) (a : AuthSpec) (now : Z)
    (db : AgentCredentialRepository) : result RepoError unit * AgentCredentialRepository :=
  if negb (creds_online db) then (Err Sqlx, db)
  else if sql_exists (by_override id reg) (overrides db)
  then (Ok tt, set_overrides (sql_update (by_override id reg) (with_spec a now) (overrides db)) db)
  else if negb (agent_exists id) then (Err Sqlx, db)
  else (Ok tt, set_overrides (overrides db ++
          [{| ov_agent_id := id; ov_registration := reg; ov_auth_spec := a;
              ov_created_at := now; ov_updated_at := now |}]) db).

Definition creds_get (id : Z) (reg : string) (db : AgentCredentialRepository)
  : result RepoError (option AgentCredentialOverride) :=
  if negb (creds_online db) then Err Sqlx
  else Ok (find_first (by_override id reg) (overrides db)).

Definition creds_delete (id : Z) (reg : string) (db : AgentCredentialRepository)
  : result RepoError bool * AgentCredentialRepository :=
  if negb (creds_online db) then (Err Sqlx, db)
  else (Ok (sql_exists (by_override id reg) (overrides db)),
        set_overrides (sql_delete (by_override id reg) (overrides db)) db).

(** [ORDER BY registration]. *)
Definition registration_le (a b : AgentCredentialOverride) : Prop :=
  String.leb (ov_registration a) (ov_registration b) = true.
#[export] Instance registration_le_dec : RelDecision registration_le.
Proof. intros a b. unfold registration_le. apply _. Defined.

Definition list_for_agent (id : Z) (db : AgentCredentialRepository)
  : result RepoError (list AgentCredentialOverride) :=
  if negb (creds_online db) then Err Sqlx
  else Ok (merge_sort registration_le
             (List.filter (fun r => bool_decide (ov_agent_id r = id)) (overrides db))).

Lemma by_override_iff id reg r :
  by_override id reg r = true <-> ov_agent_id r = id /\ ov_registration r = reg.
Proof. unfold by_override. rewrite andb_true_iff, !bool_decide_eq_true. done. Qed.

Lemma by_override_other id reg id' reg' r :
  (id, reg) <> (id', reg') -> by_override id reg r = true -> by_override id' reg' r = false.
Proof.
  intros Hne [E1 E2]%by_override_iff. apply not_true_iff_false. intros [E3 E4]%by_override_iff.
  congruence.
Qed.

(** Overrides are isolated per agent and registration: after a successful
    set the agent resolves to exactly the shape that was set for that
    registration, and no other (agent, registration) pair is affected; a
    delete removes that override and no other. *)
Theorem override_isolation agent_exists id reg a now db :
  creds_online db = true ->
  (forall db', creds_set agent_exists id reg a now db = (Ok tt, db') ->
     exists ov, creds_get id reg db' = Ok (Some ov) /\ ov_auth_spec ov = a /\
       forall id' reg', (id', reg') <> (id, reg) -> creds_get id' reg' db' = creds_get id' reg' db) /\
  (let db' := snd (creds_delete id reg db) in
   creds_get id reg db' = Ok None /\
   forall id' reg', (id', reg') <> (id, reg) -> creds_get id' reg' db' = creds_get id' reg' db).
Proof.
  intros Hon. split.
  - intros db'. unfold creds_set. rewrite Hon. simpl.
    destruct (sql_exists (by_override id reg) (overrides db)) eqn:E.
    + intros [= <-]. unfold creds_get. simpl. rewrite Hon. simpl.
      assert (G : forall i r, find_first (by_override i r)
                (sql_update (by_override id reg) (with_spec a now) (overrides db)) =
              (fun x => if by_override id reg x then with_spec a now x else x)
                <$> find_first (by_override i r) (overrides db)).
      { intros i r. by apply find_first_sql_update. }
      destruct (find_first (by_override id reg) (overrides db)) as [ov|] eqn:F.
      * exists (with_spec a now ov). rewrite G, F. simpl. apply find_first_Some in F as [_ F].
        rewrite F. split; [done|]. split; [done|]. intros i r Hne. f_equal. rewrite G.
        destruct (find_first (by_override i r) (overrides db)) as [x|] eqn:Fx; [|done]. simpl.
        apply find_first_Some in Fx as [_ Fx]. by rewrite (by_override_other i r id reg x).
      * exfalso. unfold sql_exists in E. apply existsb_exists in E as (x & Hx%list_elem_of_In & Ex).
        by rewrite (proj1 (find_first_None _ _) F x Hx) in Ex.
    + destruct (agent_exists id); [|done]. intros [= <-]. unfold creds_get. simpl. rewrite Hon. simpl.
      eexists. rewrite find_first_app, (proj2 (find_first_None _ _) (proj1 (sql_exists_false _ _) E)).
      simpl. rewrite (proj2 (by_override_iff id reg _)) by done. split; [done|]. split; [done|].
      intros i r Hne. f_equal. rewrite find_first_app. destruct (find_first _ (overrides db)); [done|].
      simpl. rewrite (by_override_other id reg i r); [done|congruence|by apply by_override_iff].
  - unfold creds_delete, creds_get. rewrite Hon. simpl. rewrite Hon. simpl.
    assert (G : forall i r rows, find_first (by_override i r) (sql_delete (by_override id reg) rows) =
      if bool_decide ((i, r) = (id, reg)) then None else find_first (by_override i r) rows).
    { intros i r rows. unfold sql_delete. induction rows as [|x rows IH]; simpl; [by case_bool_decide|].
      destruct (by_override id reg x) eqn:Ex; simpl; rewrite IH; case_bool_decide as Hk; try done.
      - by rewrite (by_override_other id reg i r x) by congruence.
      - injection Hk as -> ->. by rewrite Ex. }
    split; [by rewrite G, bool_decide_eq_true_2|]. intros i r Hne. f_equal. rewrite G.
    by rewrite bool_decide_eq_false_2.
Qed.

Module CredsWitness.

Definition db0 : AgentCredentialRepository :=
  snd (creds_set (fun _ => true) 1 "lmstudio" (SpecBearer "OLD" false) 5
    {| overrides := []; creds_online := true |}).

Lemma override_isolation_witness :
  exists ov, creds_get 1 "lmstudio" (snd (creds_set (fun _ => true) 1 "lmstudio"
      (SpecBearer "NEW" false) 6 db0)) = Ok (Some ov) /\ ov_auth_spec ov = SpecBearer "NEW" false /\
    forall id' reg', (id', reg') <> (1, "lmstudio") ->
      creds_get id' reg' (snd (creds_set (fun _ => true) 1 "lmstudio" (SpecBearer "NEW" false) 6 db0))
      = creds_get id' reg' db0.
Proof.
  apply (proj1 (override_isolation (fun _ => true) 1 "lmstudio" (SpecBearer "NEW" false) 6 db0 eq_refl)).
  vm_compute. reflexivity.
Defined.

End CredsWitness.
