(* ===== verification/RegistrationRows.v ===== *)
(** * The JSON columns of registrations and overrides
      ([src/registrations/repo.rs], [src/registrations/auth_spec.rs],
       [src/repo/agent_creds.rs])

    [Registrations] and [AgentCreds] work on rows whose [auth], [timeouts] and
    [metadata] are values.  Here are the tables themselves, whose columns hold
    JSON text: what the derived [Serialize] of [AuthSpec] and [ToolTimeouts]
    writes, what the derived [Deserialize] accepts, the statements on such rows
    and [row_to_registration] with all its errors.  Every statement does to the
    text what the other files say it does to the values. *)

From S2P Require Import Prelude Json AgentRepo AuditLog AgentRows.
From S2P Require Import Auth ResponseControls Secret Config Registrations AgentCreds.

#[local] Set Warnings "-clear-no-such-hyp".

(** ** Derived deserializers on a JSON text

    A text is read as the tree of its values, objects with their entries in
    the order of the text and repeated keys repeated. *)

Record JsonFields := { jfield : string -> option Json; jpositional : bool }.

Definition entry_is (f : string) (kv : string * Json) : bool := bool_decide (kv.1 = f).

(** [deny_unknown_fields]; a repeated field is an error too. *)
Definition entries_ok (known : list string) (m : list (string * Json)) : bool :=
  forallb (fun kv => bool_decide (kv.1 ∈ known)) m
  && forallb (fun f => (List.length (List.filter (entry_is f) m) <=? 1)%nat) known.

Fixpoint nth_json (known : list string) (l : list Json) (f : string) : option Json :=
  match known, l with
  | k :: known', j :: l' => if bool_decide (k = f) then Some j else nth_json known' l' f
  | _, _ => None
  end.

(** A struct is an object, or an array with the fields in order. *)
Definition open_json (known : list string) (j : Json) : option JsonFields :=
  match j with
  | JObject m =>
      if entries_ok known m
      then Some {| jfield := fun f => snd <$> find_first (entry_is f) m; jpositional := false |}
      else None
  | JArray l =>
      if (List.length l <=? List.length known)%nat
      then Some {| jfield := nth_json known l; jpositional := true |}
      else None
  | _ => None
  end.

Definition json_required {A} (fs : JsonFields) (f : string) (de : Json -> option A) : option A :=
  let* j := jfield fs f in de j.

Definition json_defaulted {A} (fs : JsonFields) (f : string) (d : A) (de : Json -> option A) : option A :=
  match jfield fs f with Some j => de j | None => Some d end.

Definition de_json_option {A} (de : Json -> option A) (j : Json) : option (option A) :=
  match j with JNull => Some None | _ => Some <$> de j end.

Definition de_json_u64 (j : Json) : option Z :=
  match j with JInt z => if is_u64 z then Some z else None | _ => None end.

(** [#[serde(tag = "kind")]]: the tag and what is left, of an object with one
    such entry or of an array that begins with it. *)
Definition tagged (tag : string) (j : Json) : option (string * Json) :=
  match j with
  | JObject m =>
      match List.filter (entry_is tag) m with
      | [(_, JString s)] => Some (s, JObject (List.filter (fun kv => negb (entry_is tag kv)) m))
      | _ => None
      end
  | JArray (JString s :: l) => Some (s, JArray l)
  | _ => None
  end.

(** A unit variant takes any entries, [deny_unknown_fields] or not. *)
Definition unit_variant (rest : Json) : option unit :=
  match rest with JObject _ | JArray [] => Some tt | _ => None end.

Definition de_AuthSpec (j : Json) : option AuthSpec :=
  let* (kind, rest) := tagged "kind" j in
  if bool_decide (kind = "none") then
    let* _ := unit_variant rest in Some SpecNone
  else if bool_decide (kind = "header") then
    let* fs := open_json ["header"; "env_var"; "force_replace"] rest in
    let* header := json_required fs "header" as_str in
    let* env_var := json_required fs "env_var" as_str in
    let* force := json_defaulted fs "force_replace" false de_json_bool in
    Some (SpecHeader header env_var force)
  else if bool_decide (kind = "bearer") then
    let* fs := open_json ["env_var"; "force_replace"] rest in
    let* env_var := json_required fs "env_var" as_str in
    let* force := json_defaulted fs "force_replace" false de_json_bool in
    Some (SpecBearer env_var force)
  else if bool_decide (kind = "oauth_pkce") then
    let* fs := open_json ["client_id"; "redirect_uri"; "scopes"; "auth_url"; "token_url";
                          "session_label"] rest in
    let* client_id := json_required fs "client_id" as_str in
    let* redirect_uri := json_required fs "redirect_uri" as_str in
    let* scopes := json_required fs "scopes" de_strings in
    let* auth_url := json_required fs "auth_url" as_str in
    let* token_url := json_required fs "token_url" as_str in
    let* label := json_defaulted fs "session_label" None (de_json_option as_str) in
    Some (OauthPkce client_id redirect_uri scopes auth_url token_url label)
  else if bool_decide (kind = "oauth_device_code") then
    let* fs := open_json ["client_id"; "scopes"; "device_url"; "token_url"; "session_label"] rest in
    let* client_id := json_required fs "client_id" as_str in
    let* scopes := json_required fs "scopes" de_strings in
    let* device_url := json_required fs "device_url" as_str in
    let* token_url := json_required fs "token_url" as_str in
    let* label := json_defaulted fs "session_label" None (de_json_option as_str) in
    Some (OauthDeviceCode client_id scopes device_url token_url label)
  else None.

Definition de_json_ToolTimeouts (j : Json) : option ToolTimeouts :=
  let* fs := open_json ["request_seconds"; "idle_seconds"] j in
  let* request := json_defaulted fs "request_seconds" 30 de_json_u64 in
  let* idle := json_defaulted fs "idle_seconds" 60 de_json_u64 in
  Some {| request_seconds := request; idle_seconds := idle |}.

(** ** Derived serializers: the entries in the order of the declaration *)

Definition AuthSpec_tree (a : AuthSpec) : Json :=
  let flag (f : bool) := if f then [("force_replace", JBool true)] else [] in
  let lab (l : option string) :=
    match l with Some s => [("session_label", JString s)] | None => [] end in
  match a with
  | SpecNone => JObject [("kind", JString "none")]
  | SpecHeader h v f =>
      JObject ([("kind", JString "header"); ("header", JString h); ("env_var", JString v)] ++ flag f)
  | SpecBearer v f => JObject ([("kind", JString "bearer"); ("env_var", JString v)] ++ flag f)
  | OauthPkce c r s au t l =>
      JObject ([("kind", JString "oauth_pkce"); ("client_id", JString c);
                ("redirect_uri", JString r); ("scopes", names_json s); ("auth_url", JString au);
                ("token_url", JString t)] ++ lab l)
  | OauthDeviceCode c s d t l =>
      JObject ([("kind", JString "oauth_device_code"); ("client_id", JString c);
                ("scopes", names_json s); ("device_url", JString d); ("token_url", JString t)] ++ lab l)
  end.

Definition ToolTimeouts_tree (t : ToolTimeouts) : Json :=
  JObject [("request_seconds", JInt (request_seconds t)); ("idle_seconds", JInt (idle_seconds t))].

(** What is written reads back. *)
Lemma AuthSpec_roundtrip a : de_AuthSpec (AuthSpec_tree a) = Some a.
Proof.
  destruct a as [|h v []|v []|c r s au t [l|]|c s d t [l|]]; try reflexivity;
    unfold AuthSpec_tree, de_AuthSpec; lazy beta iota zeta delta -[de_strings names_json];
    rewrite de_strings_json; reflexivity.
Qed.

Lemma ToolTimeouts_roundtrip t :
  is_u64 (request_seconds t) = true -> is_u64 (idle_seconds t) = true ->
  de_json_ToolTimeouts (ToolTimeouts_tree t) = Some t.
Proof.
  intros H1 H2. destruct t as [a b]. simpl in *. unfold de_json_ToolTimeouts, ToolTimeouts_tree.
  lazy beta iota zeta delta -[is_u64]. by rewrite H1, H2.
Qed.

(** An object names no field its shape does not have, once the shape is not
    [none]. *)
Lemma AuthSpec_strict m a :
  de_AuthSpec (JObject m) = Some a -> a <> SpecNone ->
  forall kv, kv ∈ m -> kv.1 ∈ "kind" :: map fst (match AuthSpec_tree a with JObject e => e | _ => [] end)
    ++ ["force_replace"; "session_label"].
Proof.
  intros E Ha kv Hkv. unfold de_AuthSpec in E. destruct (tagged _ _) as [[kd rest]|] eqn:Et; [|done].
  assert (R : exists e, rest = JObject e /\ (kv.1 = "kind" \/ kv ∈ e)).
  { unfold tagged in Et. destruct (List.filter (entry_is "kind") m) as [|[k0 []] []]; try done.
    injection Et as _ <-. eexists. split; [done|].
    destruct (decide (kv.1 = "kind")) as [?|Hne]; [by left|right].
    apply list_elem_of_In, filter_In. split; [by apply list_elem_of_In|].
    unfold entry_is. by rewrite bool_decide_eq_false_2. }
  destruct R as (e & -> & [->|He]); [left|].
  assert (K : forall known fs, open_json known (JObject e) = Some fs -> kv.1 ∈ known).
  { intros known fs. simpl. destruct (entries_ok known e) eqn:Eo; [|done]. intros _.
    apply andb_true_iff in Eo as [Eo _]. rewrite forallb_forall in Eo.
    by specialize (Eo kv ltac:(by apply list_elem_of_In)) as ?%bool_decide_eq_true. }
  repeat case_bool_decide; [simpl in E; congruence|..|done];
    (destruct (open_json _ _) as [fs|] eqn:Ef; [|done]; apply K in Ef);
    repeat (match type of E with context [match ?x with Some _ => _ | None => _ end] => destruct x; [|done] end);
    injection E as <-; revert Ef; simpl; rewrite !elem_of_cons; set_solver.
Qed.

(** ** The registrations table *)

Record RegText := {
  rt_name : string;
  rt_kind : string;
  rt_description : string;
  rt_upstream : string;
  rt_auth_json : string;
  rt_egress : string;
  rt_timeouts_json : string;
  rt_body_limit : Z;
  rt_metadata_json : string;
  rt_seed : Z;
  rt_disabled : Z;
  rt_created_at : Z;
  rt_updated_at : Z
}.

Record RegTable := { rt_rows : list RegText; rt_seed_version : option string; rt_online : bool }.

Definition set_rt_rows (l : list RegText) (t : RegTable) : RegTable :=
  {| rt_rows := l; rt_seed_version := rt_seed_version t; rt_online := rt_online t |}.

(** [serde_json] on texts that are read into and written from derived types:
    the tree of a text, the text of a tree.  The metadata is a [Value] and goes
    through [SerdeJson]. *)
Class JsonText : Type := { json_tree : string -> option Json; json_text : Json -> string }.

(** Numbers in the range of [i64] and [u64], no floating point. *)
Fixpoint plain_json (j : Json) : bool :=
  match j with
  | JNull | JBool _ | JString _ => true
  | JInt z => (- two63 <=? z) && (z <? two64)
  | JFloat _ => false
  | JArray l => forallb plain_json l
  | JObject m => (fix entries m := match m with [] => true | kv :: m => plain_json kv.2 && entries m end) m
  end.

(** Such a tree reads back from its text. *)
Class JsonTextLaws `{JsonText} : Prop := {
  json_tree_text : forall j, plain_json j = true -> json_tree (json_text j) = Some j
}.

Section Columns.
Context `{JsonText} `{SerdeJson}.

(** The bound columns of [create] and [upsert]. *)
Definition text_row_of (r : Registration) : RegText :=
  {| rt_name := name r; rt_kind := kind_as_str (kind r); rt_description := description r;
     rt_upstream := upstream r; rt_auth_json := json_text (AuthSpec_tree (auth r));
     rt_egress := egress_as_str (egress r);
     rt_timeouts_json := json_text (ToolTimeouts_tree (timeouts r));
     rt_body_limit := as_i64 (body_limit_bytes r); rt_metadata_json := to_vec (metadata r);
     rt_seed := bool_i64 (seed r); rt_disabled := bool_i64 (disabled r);
     rt_created_at := created_at r; rt_updated_at := updated_at r |}.

Definition text_to_registration (row : RegText) : result RegistrationError Registration :=
  let? k := ok_or (RegBackend "unexpected kind in DB") (parse_kind (rt_kind row)) in
  let? a := ok_or (RegBackend "deserialize auth") (json_tree (rt_auth_json row) ≫= de_AuthSpec) in
  let? e := ok_or (RegBackend "unexpected egress in DB") (parse_egress (rt_egress row)) in
  let? t := ok_or (RegBackend "deserialize timeouts")
              (json_tree (rt_timeouts_json row) ≫= de_json_ToolTimeouts) in
  let? m := ok_or (RegBackend "deserialize metadata") (from_slice (rt_metadata_json row)) in
  Ok {| name := rt_name row; kind := k; description := rt_description row;
        upstream := rt_upstream row; auth := a; egress := e; timeouts := t;
        body_limit_bytes := Z.max (rt_body_limit row) 0; metadata := m;
        seed := negb (rt_seed row =? 0); disabled := negb (rt_disabled row =? 0);
        created_at := rt_created_at row; updated_at := rt_updated_at row |}.

(** *** Statements *)

Definition text_by_name (n : string) (row : RegText) : bool := bool_decide (rt_name row = n).

Definition text_create (r : Registration) (t : RegTable) : result RegistrationError unit * RegTable :=
  if negb (rt_online t) then (Err sqlx_err, t)
  else if sql_exists (text_by_name (name r)) (rt_rows t) then (Err sqlx_err, t)
  else (Ok tt, set_rt_rows (rt_rows t ++ [text_row_of r]) t).

Definition text_get (n : string) (t : RegTable) : result RegistrationError (option Registration) :=
  if negb (rt_online t) then Err sqlx_err
  else match find_first (text_by_name n) (rt_rows t) with
       | None => Ok None
       | Some row => let? r := text_to_registration row in Ok (Some r)
       end.

Definition text_name_le (a b : RegText) : Prop := String.leb (rt_name a) (rt_name b) = true.
#[global] Instance text_name_le_dec : RelDecision text_name_le.
Proof. intros a b. unfold text_name_le. apply _. Defined.

Definition text_list (k : option Kind) (t : RegTable) : result RegistrationError (list Registration) :=
  if negb (rt_online t) then Err sqlx_err
  else map_results text_to_registration
         (merge_sort text_name_le
            (List.filter (fun r => match k with
                                   | Some k => bool_decide (rt_kind r = kind_as_str k)
                                   | None => true
                                   end) (rt_rows t))).

(** The DO UPDATE list: every column but the key, [kind] and [created_at]. *)
Definition text_excluded_into (new old : RegText) : RegText :=
  {| rt_name := rt_name old; rt_kind := rt_kind old; rt_description := rt_description new;
     rt_upstream := rt_upstream new; rt_auth_json := rt_auth_json new; rt_egress := rt_egress new;
     rt_timeouts_json := rt_timeouts_json new; rt_body_limit := rt_body_limit new;
     rt_metadata_json := rt_metadata_json new; rt_seed := rt_seed new;
     rt_disabled := rt_disabled new; rt_created_at := rt_created_at old;
     rt_updated_at := rt_updated_at new |}.

Definition text_upsert (r : Registration) (t : RegTable) : result RegistrationError unit * RegTable :=
  if negb (rt_online t) then (Err sqlx_err, t)
  else if sql_exists (text_by_name (name r)) (rt_rows t)
  then (Ok tt, set_rt_rows (sql_update (text_by_name (name r)) (text_excluded_into (text_row_of r))
                                       (rt_rows t)) t)
  else (Ok tt, set_rt_rows (rt_rows t ++ [text_row_of r]) t).

Definition text_delete (n : string) (t : RegTable) : result RegistrationError bool * RegTable :=
  if negb (rt_online t) then (Err sqlx_err, t)
  else (Ok (sql_exists (text_by_name n) (rt_rows t)),
        set_rt_rows (sql_delete (text_by_name n) (rt_rows t)) t).

Definition text_with_disabled (d : bool) (now : Z) (r : RegText) : RegText :=
  {| rt_name := rt_name r; rt_kind := rt_kind r; rt_description := rt_description r;
     rt_upstream := rt_upstream r; rt_auth_json := rt_auth_json r; rt_egress := rt_egress r;
     rt_timeouts_json := rt_timeouts_json r; rt_body_limit := rt_body_limit r;
     rt_metadata_json := rt_metadata_json r; rt_seed := rt_seed r; rt_disabled := bool_i64 d;
     rt_created_at := rt_created_at r; rt_updated_at := now |}.

Definition text_set_disabled (n : string) (d : bool) (now : Z) (t : RegTable)
  : result RegistrationError bool * RegTable :=
  if negb (rt_online t) then (Err sqlx_err, t)
  else (Ok (sql_exists (text_by_name n) (rt_rows t)),
        set_rt_rows (sql_update (text_by_name n) (text_with_disabled d now) (rt_rows t)) t).

Definition text_get_seed_version (t : RegTable) : result RegistrationError (option string) :=
  if rt_online t then Ok (rt_seed_version t) else Err sqlx_err.

Definition text_set_seed_version (v : string) (t : RegTable) : result RegistrationError unit * RegTable :=
  if rt_online t
  then (Ok tt, {| rt_rows := rt_rows t; rt_seed_version := Some v; rt_online := true |})
  else (Err sqlx_err, t).

(** *** What the text stands for *)

Record reads_as (row : RegText) (r : RegRow) : Prop := {
  ra_scalars :
    (rt_name row, rt_kind row, rt_description row, rt_upstream row, rt_egress row,
     rt_body_limit row, rt_seed row, rt_disabled row, rt_created_at row, rt_updated_at row) =
    (rr_name r, rr_kind r, rr_description r, rr_upstream r, rr_egress r,
     rr_body_limit r, rr_seed r, rr_disabled r, rr_created_at r, rr_updated_at r);
  ra_auth : json_tree (rt_auth_json row) ≫= de_AuthSpec = Some (rr_auth r);
  ra_timeouts : json_tree (rt_timeouts_json row) ≫= de_json_ToolTimeouts = Some (rr_timeouts r);
  ra_metadata : from_slice (rt_metadata_json row) = Some (rr_metadata r)
}.

Definition table_represents (t : RegTable) (db : RegistrationRepository) : Prop :=
  Forall2 reads_as (rt_rows t) (reg_rows db) /\ rt_seed_version t = seed_version db /\
  rt_online t = reg_online db.

(** A registration whose text reads back. *)
Definition writable_reg (r : Registration) : Prop :=
  is_u64 (request_seconds (timeouts r)) = true /\ is_u64 (idle_seconds (timeouts r)) = true /\
  stable (metadata r).

Lemma reads_as_registration row r :
  reads_as row r -> text_to_registration row = row_to_registration r.
Proof.
  intros [Hs Ha Ht Hm]. unfold text_to_registration, row_to_registration.
  rewrite Ha, Ht, Hm. injection Hs as -> -> -> -> -> -> -> -> -> ->. simpl.
  destruct (parse_kind _); [|done]. by destruct (parse_egress _).
Qed.

Lemma reads_as_name row r n : reads_as row r -> text_by_name n row = by_name n r.
Proof. intros [Hs _ _ _]. unfold text_by_name, by_name. by injection Hs as ->. Qed.

Context `{!JsonTextLaws}.

Lemma plain_names l : plain_json (names_json l) = true.
Proof. simpl. by induction l. Qed.

Lemma plain_AuthSpec a : plain_json (AuthSpec_tree a) = true.
Proof.
  destruct a as [|h v []|v []|c r s au t [l|]|c s d t [l|]]; try reflexivity;
    cbn -[names_json]; by rewrite plain_names.
Qed.

Lemma AuthSpec_column a : json_tree (json_text (AuthSpec_tree a)) ≫= de_AuthSpec = Some a.
Proof. rewrite json_tree_text by apply plain_AuthSpec. apply AuthSpec_roundtrip. Qed.

Lemma ToolTimeouts_column t :
  is_u64 (request_seconds t) = true -> is_u64 (idle_seconds t) = true ->
  json_tree (json_text (ToolTimeouts_tree t)) ≫= de_json_ToolTimeouts = Some t.
Proof.
  intros Hr Hi. rewrite json_tree_text; [by apply ToolTimeouts_roundtrip|].
  unfold is_u64 in *. simpl. apply andb_true_iff in Hr as [A1 B1], Hi as [A2 B2].
  apply Z.leb_le in A1, A2. unfold two63. rewrite !(proj2 (Z.leb_le _ _)), B1, B2 by lia. done.
Qed.

Lemma row_of_reads r : writable_reg r -> reads_as (text_row_of r) (reg_row_of r).
Proof.
  intros (Hr & Hi & Hm). split; simpl; [done|apply AuthSpec_column|by apply ToolTimeouts_column|done].
Qed.

Lemma excluded_reads new new' row r :
  reads_as new new' -> reads_as row r -> reads_as (text_excluded_into new row) (excluded_into new' r).
Proof.
  intros [Hs Ha Ht Hm] [Hs' _ _ _]. split; simpl; try done.
  by injection Hs as ? ? -> -> -> -> -> -> ? ->; injection Hs' as -> -> ? ? ? ? ? ? -> ?.
Qed.

Lemma disabled_reads d now row r :
  reads_as row r -> reads_as (text_with_disabled d now row) (with_disabled d now r).
Proof.
  intros [Hs Ha Ht Hm]. split; simpl; try done.
  by injection Hs as -> -> -> -> -> -> -> ? -> ?.
Qed.

(** *** Histories of statements *)

Inductive RegStmt :=
| StmtCreate (r : Registration)
| StmtUpsert (r : Registration)
| StmtDelete (n : string)
| StmtDisable (n : string) (d : bool) (now : Z)
| StmtVersion (v : string).

Definition stmt_writable (s : RegStmt) : Prop :=
  match s with StmtCreate r | StmtUpsert r => writable_reg r | _ => True end.

(** [()] is no value, a count is whether it was positive. *)
Definition no_value {D} (x : result RegistrationError unit * D) : result RegistrationError (option bool) * D :=
  (let? _ := x.1 in Ok None, x.2).
Definition counted {D} (x : result RegistrationError bool * D) : result RegistrationError (option bool) * D :=
  (let? b := x.1 in Ok (Some b), x.2).

Definition text_stmt (s : RegStmt) (t : RegTable) : result RegistrationError (option bool) * RegTable :=
  match s with
  | StmtCreate r => no_value (text_create r t)
  | StmtUpsert r => no_value (text_upsert r t)
  | StmtDelete n => counted (text_delete n t)
  | StmtDisable n d now => counted (text_set_disabled n d now t)
  | StmtVersion v => no_value (text_set_seed_version v t)
  end.

Definition reg_stmt (s : RegStmt) (db : RegistrationRepository)
  : result RegistrationError (option bool) * RegistrationRepository :=
  match s with
  | StmtCreate r => no_value (reg_create r db)
  | StmtUpsert r => no_value (reg_upsert r db)
  | StmtDelete n => counted (reg_delete n db)
  | StmtDisable n d now => counted (set_disabled n d now db)
  | StmtVersion v => no_value (set_seed_version v db)
  end.

(** The replies and the table a sequence of statements leaves. *)
Definition replies {D} (step : RegStmt -> D -> result RegistrationError (option bool) * D)
  : list RegStmt -> D -> list (result RegistrationError (option bool)) * D :=
  fix go ss d :=
    match ss with
    | [] => ([], d)
    | s :: ss => let '(x, d) := step s d in let '(xs, d) := go ss d in (x :: xs, d)
    end.

Lemma stmt_refines s t db :
  table_represents t db -> stmt_writable s ->
  (text_stmt s t).1 = (reg_stmt s db).1 /\ table_represents (text_stmt s t).2 (reg_stmt s db).2.
Proof.
  intros Hrep Hw. pose proof Hrep as (HR & Hv & Ho).
  assert (X : forall n, sql_exists (text_by_name n) (rt_rows t) = sql_exists (by_name n) (reg_rows db)).
  { intros n. eapply related_exists; [|exact HR]. intros. by apply reads_as_name. }
  assert (P : forall l k, Forall2 reads_as l k ->
                table_represents (set_rt_rows l t) (set_rows k db)) by by split.
  destruct s as [r|r|n|n d now|v]; cbn [text_stmt reg_stmt stmt_writable] in *.
  - unfold text_create, reg_create. rewrite Ho, X. destruct (reg_online db); [|by split]. simpl.
    destruct (sql_exists _ _); [by split|]. split; [done|]. apply P, Forall2_app; [done|].
    by repeat constructor; apply row_of_reads.
  - unfold text_upsert, reg_upsert. rewrite Ho, X. destruct (reg_online db); [|by split]. simpl.
    destruct (sql_exists _ _); (split; [done|]); apply P.
    + apply related_update; [by intros; apply reads_as_name| |done].
      intros row x Hx. apply excluded_reads; [by apply row_of_reads|done].
    + apply Forall2_app; [done|]. by repeat constructor; apply row_of_reads.
  - unfold text_delete, reg_delete. rewrite Ho, X. destruct (reg_online db); [|by split]. simpl.
    split; [done|]. apply P. unfold sql_delete. apply related_filter; [|done].
    intros a b Hab. by rewrite (reads_as_name a b n Hab).
  - unfold text_set_disabled, set_disabled. rewrite Ho, X. destruct (reg_online db); [|by split]. simpl.
    split; [done|]. apply P, related_update; [by intros; apply reads_as_name|intros; by apply disabled_reads|done].
  - unfold text_set_seed_version, set_seed_version. rewrite Ho. by destruct (reg_online db).
Qed.

Lemma text_reads t db :
  table_represents t db ->
  (forall n, text_get n t = reg_get n db) /\ (forall k, text_list k t = reg_list k db) /\
  text_get_seed_version t = get_seed_version db.
Proof.
  intros (HR & Hv & Ho). split_and!.
  - intros n. unfold text_get, reg_get. rewrite Ho. destruct (negb _); [done|].
    destruct (related_find _ _ _ _ _ (fun a b => reads_as_name a b n) HR) as [row r E|]; [|done].
    by rewrite (reads_as_registration _ _ E).
  - intros k. unfold text_list, reg_list. rewrite Ho. destruct (negb _); [done|].
    apply map_results_related with (R := reads_as); [apply reads_as_registration|].
    apply related_sort.
    + intros a b a' b' [E _ _ _] [E' _ _ _]. unfold text_name_le, name_le.
      by injection E as ->; injection E' as ->.
    + apply related_filter; [|done]. intros a b [E _ _ _]. by injection E as _ ->.
  - unfold text_get_seed_version, get_seed_version. by rewrite Ho, Hv.
Qed.

(** C19: Whatever sequence of statements runs on the registrations table, its rows
    of JSON text stay what the value-level table says: every statement gives
    the same reply, every row still decodes, and afterwards each lookup, each
    listing and the catalog version answer as the values do. *)
Theorem registration_rows_refine ss t db :
  table_represents t db -> Forall stmt_writable ss ->
  let '(xs, t') := replies text_stmt ss t in
  let '(ys, db') := replies reg_stmt ss db in
  xs = ys /\ table_represents t' db' /\
  (forall n, text_get n t' = reg_get n db') /\ (forall k, text_list k t' = reg_list k db') /\
  text_get_seed_version t' = get_seed_version db'.
Proof.
  intros HR Hs. revert t db HR. induction Hs as [|s ss Hs Hss IH]; intros t db HR; simpl.
  - split; [done|]. split; [done|]. by apply text_reads.
  - pose proof (stmt_refines s t db HR Hs) as [E R].
    destruct (text_stmt s t) as [x t1], (reg_stmt s db) as [y d1]. simpl in *. subst y.
    specialize (IH t1 d1 R). destruct (replies text_stmt ss t1), (replies reg_stmt ss d1).
    by destruct IH as (-> & ?).
Qed.
End Columns.

(** ** The overrides table *)

Record OverrideText := {
  ot_agent_id : Z;
  ot_registration : string;
  ot_auth_spec : string;
  ot_created_at : Z;
  ot_updated_at : Z
}.

Record OverrideTable := { ot_rows : list OverrideText; ot_online : bool }.

Definition set_ot_rows (l : list OverrideText) (t : OverrideTable) : OverrideTable :=
  {| ot_rows := l; ot_online := ot_online t |}.

Section Overrides.
Context `{JsonText}.

Definition text_to_override (row : OverrideText) : result RepoError AgentCredentialOverride :=
  let? a := ok_or JsonError (json_tree (ot_auth_spec row) ≫= de_AuthSpec) in
  Ok {| ov_agent_id := ot_agent_id row; ov_registration := ot_registration row; ov_auth_spec := a;
        ov_created_at := ot_created_at row; ov_updated_at := ot_updated_at row |}.

Definition text_by_override (id : Z) (reg : string) (row : OverrideText) : bool :=
  bool_decide (ot_agent_id row = id) && bool_decide (ot_registration row = reg).

Definition text_with_spec (text : string) (now : Z) (row : OverrideText) : OverrideText :=
  {| ot_agent_id := ot_agent_id row; ot_registration := ot_registration row; ot_auth_spec := text;
     ot_created_at := ot_created_at row; ot_updated_at := now |}.

Definition text_creds_set (agent_exists : Z -> bool) (id : Z) (reg : string) (a : AuthSpec) (now : Z)
    (t : OverrideTable) : result RepoError unit * OverrideTable :=
  let auth_json := json_text (AuthSpec_tree a) in
  if negb (ot_online t) then (Err Sqlx, t)
  else if sql_exists (text_by_override id reg) (ot_rows t)
  then (Ok tt, set_ot_rows (sql_update (text_by_override id reg) (text_with_spec auth_json now)
                                       (ot_rows t)) t)
  else if negb (agent_exists id) then (Err Sqlx, t)
  else (Ok tt, set_ot_rows (ot_rows t ++
          [{| ot_agent_id := id; ot_registration := reg; ot_auth_spec := auth_json;
              ot_created_at := now; ot_updated_at := now |}]) t).

Definition text_creds_get (id : Z) (reg : string) (t : OverrideTable)
  : result RepoError (option AgentCredentialOverride) :=
  if negb (ot_online t) then Err Sqlx
  else match find_first (text_by_override id reg) (ot_rows t) with
       | None => Ok None
       | Some row => let? ov := text_to_override row in Ok (Some ov)
       end.

Definition text_creds_delete (id : Z) (reg : string) (t : OverrideTable)
  : result RepoError bool * OverrideTable :=
  if negb (ot_online t) then (Err Sqlx, t)
  else (Ok (sql_exists (text_by_override id reg) (ot_rows t)),
        set_ot_rows (sql_delete (text_by_override id reg) (ot_rows t)) t).

Definition text_registration_le (a b : OverrideText) : Prop :=
  String.leb (ot_registration a) (ot_registration b) = true.
#[global] Instance text_registration_le_dec : RelDecision text_registration_le.
Proof. intros a b. unfold text_registration_le. apply _. Defined.

(** The loop over the rows stops at the first text that does not decode. *)
Definition text_list_for_agent (id : Z) (t : OverrideTable)
  : result RepoError (list AgentCredentialOverride) :=
  if negb (ot_online t) then Err Sqlx
  else map_results text_to_override
         (merge_sort text_registration_le
            (List.filter (fun r => bool_decide (ot_agent_id r = id)) (ot_rows t))).

Definition overrides_represent (t : OverrideTable) (db : AgentCredentialRepository) : Prop :=
  Forall2 (fun row ov => text_to_override row = Ok ov) (ot_rows t) (overrides db) /\
  ot_online t = creds_online db.

Lemma override_fields row ov :
  text_to_override row = Ok ov ->
  ot_agent_id row = ov_agent_id ov /\ ot_registration row = ov_registration ov /\
  ot_created_at row = ov_created_at ov.
Proof. unfold text_to_override. destruct (ok_or _ _); [|done]. by intros [= <-]. Qed.

Lemma override_key row ov id reg :
  text_to_override row = Ok ov -> text_by_override id reg row = by_override id reg ov.
Proof. intros (E1 & E2 & _)%override_fields. unfold text_by_override. by rewrite E1, E2. Qed.

Context `{!JsonTextLaws}.

(** Setting and deleting an override do to its text what they do to its
    value, and every read agrees. *)
Lemma override_rows_refine agent_exists id reg a now t db :
  overrides_represent t db ->
  ((text_creds_set agent_exists id reg a now t).1 = (creds_set agent_exists id reg a now db).1 /\
   overrides_represent (text_creds_set agent_exists id reg a now t).2
                       (creds_set agent_exists id reg a now db).2) /\
  ((text_creds_delete id reg t).1 = (creds_delete id reg db).1 /\
   overrides_represent (text_creds_delete id reg t).2 (creds_delete id reg db).2) /\
  text_creds_get id reg t = creds_get id reg db /\
  text_list_for_agent id t = list_for_agent id db.
Proof.
  intros Hrep. pose proof Hrep as [HR Ho].
  assert (X : sql_exists (text_by_override id reg) (ot_rows t) =
              sql_exists (by_override id reg) (overrides db)).
  { eapply related_exists; [|exact HR]. intros. by apply override_key. }
  assert (P : forall l k, Forall2 (fun row ov => text_to_override row = Ok ov) l k ->
                overrides_represent (set_ot_rows l t) (set_overrides k db)) by by split.
  split; [split|split; [split|split]].
  - unfold text_creds_set, creds_set. rewrite Ho, X. repeat case_match; done.
  - unfold text_creds_set, creds_set. rewrite Ho, X. destruct (negb (creds_online db)); [done|].
    destruct (sql_exists (by_override id reg) _); [|destruct (negb _); [done|]]; apply P.
    + apply related_update; [by intros; apply override_key| |done].
      intros row ov (E1 & E2 & E3)%override_fields. unfold text_to_override. simpl.
      by rewrite AuthSpec_column, E1, E2, E3.
    + apply Forall2_app; [done|]. repeat constructor. unfold text_to_override. simpl.
      by rewrite AuthSpec_column.
  - unfold text_creds_delete, creds_delete. rewrite Ho, X. by case_match.
  - unfold text_creds_delete, creds_delete. rewrite Ho. case_match; [done|]. apply P.
    apply related_filter; [|done]. intros row ov E. by rewrite (override_key _ _ id reg E).
  - unfold text_creds_get, creds_get. rewrite Ho. case_match; [done|].
    destruct (related_find _ _ _ _ _ (fun r ov => override_key r ov id reg) HR) as [row ov E|]; [|done].
    by rewrite E.
  - unfold text_list_for_agent, list_for_agent. rewrite Ho. case_match; [done|].
    apply map_results_ok, related_sort.
    + intros x y x' y' (_ & E & _)%override_fields (_ & E' & _)%override_fields.
      unfold text_registration_le, registration_le. by rewrite E, E'.
    + apply related_filter; [|done]. by intros row ov (-> & _)%override_fields.
Qed.
End Overrides.

(** ** Witness *)

Module RegistrationRowsWitness.
Import RegWitness.

(** A concrete syntax for trees: the binary digits of a code. *)
Fixpoint code (j : Json) : gen_tree (string + Z) :=
  match j with
  | JNull => GenNode 0 []
  | JBool b => GenNode (if b then 1 else 2) []
  | JInt z => GenNode 3 [GenLeaf (inr z)]
  | JFloat r => GenNode 4 [GenLeaf (inl r)]
  | JString s => GenNode 5 [GenLeaf (inl s)]
  | JArray l => GenNode 6 (map code l)
  | JObject m => GenNode 7 (map (fun kv => GenNode 8 [GenLeaf (inl kv.1); code kv.2]) m)
  end.

Fixpoint uncode (t : gen_tree (string + Z)) : Json :=
  match t with
  | GenNode 1 _ => JBool true
  | GenNode 2 _ => JBool false
  | GenNode 3 [GenLeaf (inr z)] => JInt z
  | GenNode 4 [GenLeaf (inl r)] => JFloat r
  | GenNode 5 [GenLeaf (inl s)] => JString s
  | GenNode 6 l => JArray (map uncode l)
  | GenNode 7 l =>
      JObject (map (fun t => match t with
                             | GenNode 8 [GenLeaf (inl k); v] => (k, uncode v)
                             | _ => ("", JNull)
                             end) l)
  | _ => JNull
  end.

Fixpoint uncode_code (j : Json) : uncode (code j) = j.
Proof.
  destruct j as [|[]|z|r|s|l|m]; try reflexivity; simpl; f_equal.
  - induction l as [|x l IH]; [done|]. simpl. by rewrite uncode_code, IH.
  - induction m as [|[k v] m IH]; [done|]. simpl. by rewrite uncode_code, IH.
Qed.

Fixpoint digits (p : positive) : string :=
  match p with xH => "" | xO p => String "0" (digits p) | xI p => String "1" (digits p) end.

Fixpoint undigits (s : string) : positive :=
  match s with
  | EmptyString => xH
  | String c s => if is_char "0" c then xO (undigits s) else xI (undigits s)
  end.

Lemma undigits_digits p : undigits (digits p) = p.
Proof. induction p; simpl; congruence. Qed.

#[export] Instance bit_text : JsonText :=
  {| json_tree s := uncode <$> decode (undigits s); json_text j := digits (encode (code j)) |}.

#[export] Instance bit_text_laws : JsonTextLaws.
Proof.
  split. intros j _. simpl. rewrite undigits_digits, decode_encode. simpl. by rewrite uncode_code.
Qed.

#[export] Instance bit_json : SerdeJson := {| from_slice := json_tree; to_vec := json_text |}.

Definition codex : Registration :=
  {| name := "codex"; kind := Model; description := ""; upstream := "https://chatgpt.com";
     auth := OauthDeviceCode "app" ["openid"] "https://d" "https://t" None; egress := Direct;
     timeouts := default_timeouts; body_limit_bytes := 1024; metadata := JObject []; seed := true;
     disabled := false; created_at := 1; updated_at := 1 |}.

Definition empty_table : RegTable := {| rt_rows := []; rt_seed_version := None; rt_online := true |}.

Definition history : list RegStmt :=
  [StmtCreate codex; StmtCreate codex; StmtDisable "codex" true 9; StmtVersion "2"].

Lemma registration_rows_refine_witness :
  (replies text_stmt history empty_table).1 =
    [Ok None; Err sqlx_err; Ok (Some true); Ok None] /\
  text_get "codex" (replies text_stmt history empty_table).2 =
    reg_get "codex" (replies reg_stmt history empty_repo).2.
Proof.
  pose proof (registration_rows_refine history empty_table empty_repo) as T.
  destruct (replies text_stmt history empty_table) as [xs t'].
  destruct (replies reg_stmt history empty_repo) as [ys db'] eqn:E.
  destruct T as (-> & _ & G & _).
  - by repeat constructor.
  - repeat constructor; apply json_tree_text; reflexivity.
  - split; [vm_compute in E; by injection E as <- _|apply G].
Defined.

Lemma override_rows_refine_witness :
  let t := {| ot_rows := []; ot_online := true |} in
  let db := {| overrides := []; creds_online := true |} in
  text_creds_get 1 "codex" (text_creds_set (fun _ => true) 1 "codex" (SpecBearer "K" true) 5 t).2 =
  creds_get 1 "codex" (creds_set (fun _ => true) 1 "codex" (SpecBearer "K" true) 5 db).2.
Proof.
  intros t db. apply (override_rows_refine (fun _ => true) 1 "codex" SpecNone 6).
  apply (override_rows_refine (fun _ => true) 1 "codex" (SpecBearer "K" true) 5 t db).
  by split; [constructor|].
Defined.

(** A [none] that names a credential is read as no authentication. *)
Example none_ignores_fields :
  de_AuthSpec (JObject [("kind", JString "none"); ("env_var", JString "API_KEY")]) = Some SpecNone.
Proof. reflexivity. Qed.
End RegistrationRowsWitness.
