(* ===== verification/AdminService.v ===== *)
(** * The admin service ([src/admin/service.rs])

    The transport-independent admin operations over the agent, bootstrap and
    audit repositories: agent self-registration with a bootstrap token, agent
    self-service, the operator operations and their audit rows.  The entropy
    of a call and its clock are arguments; the text third-party crates give
    their errors is [crate_text]. *)

From S2P Require Import Prelude Json Token Argon2Helper AgentRepo BootstrapRepo.
From S2P Require Import AuditLog Auth Secret ResponseControls Config.

Inductive AdminError :=
| InvalidBootstrap
| AdminNameConflict
| AdminRotationInProgress
| AdminAgentNotFound
| NotAuthorized
| AdminBackend (text : string).

Definition admin_error_display (e : AdminError) : string :=
  match e with
  | InvalidBootstrap => "invalid bootstrap token"
  | AdminNameConflict => "agent name conflict"
  | AdminRotationInProgress => "rotation in progress"
  | AdminAgentNotFound => "agent not found"
  | NotAuthorized => "not authorized"
  | AdminBackend t => "backend: " +:+ t
  end.

Record RegisterInput := {
  in_bootstrap_token : string;
  in_name : string;
  in_description : option string;
  in_metadata : option Json
}.

Record RegisterOutput := {
  out_public_id : string;
  out_token : string;
  out_allowlist : option (list string)
}.

Record AgentStatusOutput := {
  so_public_id : string;
  so_name : string;
  so_description : option string;
  so_allowlist : option (list string);
  so_denylist : option (list string);
  so_registered_at : Z;
  so_last_used_at : option Z;
  so_expires_at : option Z
}.

Definition status_of_record (r : AgentRecord) : AgentStatusOutput :=
  {| so_public_id := ag_public_id r; so_name := ag_name r; so_description := ag_description r;
     so_allowlist := ag_tool_allowlist r; so_denylist := ag_tool_denylist r;
     so_registered_at := ag_registered_at r; so_last_used_at := ag_last_used_at r;
     so_expires_at := ag_expires_at r |}.

Record CreateAgentInput := {
  ci_name : string;
  ci_description : option string;
  ci_allowlist : option (list string);
  ci_denylist : option (list string);
  ci_metadata : option Json;
  ci_expires_at : option Z
}.

Record ModifyAgentInput := {
  mi_allowlist : option (option (list string));
  mi_denylist : option (option (list string));
  mi_metadata : option (option Json);
  mi_expires_at : option (option Z)
}.

Record ToolInfo := {
  ti_name : string;
  ti_description : string;
  ti_egress : string;
  ti_credential_present : bool
}.

Record AdminService := {
  sv_agents : AgentDb;
  sv_bootstrap : BootstrapTokenRepository;
  sv_config : AppConfig;
  sv_audit : option AuditRepository;
  sv_resolved_creds : option (gmap string string)
}.

Definition sv_with_agents (db : AgentDb) (s : AdminService) : AdminService :=
  {| sv_agents := db; sv_bootstrap := sv_bootstrap s; sv_config := sv_config s;
     sv_audit := sv_audit s; sv_resolved_creds := sv_resolved_creds s |}.

Definition sv_with_bootstrap (db : BootstrapTokenRepository) (s : AdminService) : AdminService :=
  {| sv_agents := sv_agents s; sv_bootstrap := db; sv_config := sv_config s;
     sv_audit := sv_audit s; sv_resolved_creds := sv_resolved_creds s |}.

Definition sv_record (e : AuditEvent) (s : AdminService) : AdminService :=
  {| sv_agents := sv_agents s; sv_bootstrap := sv_bootstrap s; sv_config := sv_config s;
     sv_audit := audit_record (sv_audit s) e; sv_resolved_creds := sv_resolved_creds s |}.

(** The clock and randomness of one call. *)
Record Call := { now : Z; now_ms : Z; entropy : Entropy }.

(** The fields the operations set over [AuditEvent::default()]. *)
Definition admin_event (t : Z) (cls : EventClass) (ev : string) (pid : option string) (d : Decision)
    (det : option Json) : AuditEvent :=
  {| ts_ms := t; event_class := cls; event := ev; agent_public_id := pid; agent_name := None;
     operator_name := None; tool := None; upstream_host := None; method := None; path := None;
     status := None; latency_ms := None; decision := d; auth_method := None; origin_ip := None;
     details := det |}.

Definition with_actor (op am : option string) (e : AuditEvent) : AuditEvent :=
  {| ts_ms := ts_ms e; event_class := event_class e; event := event e;
     agent_public_id := agent_public_id e; agent_name := agent_name e; operator_name := op;
     tool := tool e; upstream_host := upstream_host e; method := method e; path := path e;
     status := status e; latency_ms := latency_ms e; decision := decision e; auth_method := am;
     origin_ip := origin_ip e; details := details e |}.

Definition admin_audit (e : AuditEvent) (s : AdminService) : AdminService :=
  let am := match auth_method e with
            | Some m => Some m
            | None => Some (if isSome (operator_name e) then "operator"
                            else if bool_decide (event e = "agent_register") then "bootstrap"
                            else "agent")
            end in
  sv_record (with_actor (operator_name e) am e) s.

Definition audit_for_operator (op : OperatorIdentity) (e : AuditEvent) (s : AdminService)
  : AdminService :=
  let name := match operator_name e with Some n => Some n | None => Some (op_name op) end in
  let am := match auth_method e with
            | Some m => Some m | None => Some (default "operator" (op_auth_method op)) end in
  admin_audit (with_actor name am e) s.

Section Admin.
Context `{Base64Url} `{Argon2Crate}.
Context (crate_text : RepoError -> string).

(** [RepoError]'s [Display]. *)
Definition repo_error_display (e : RepoError) : string :=
  match e with
  | AgentNameConflict n => "agent name conflict: " +:+ n
  | RotationInProgress p => "rotation already in progress for agent " +:+ p
  | AgentNotFound => "agent not found"
  | AgentRepo.InvalidCredential => "invalid current credential"
  | Hash _ => "hash: " +:+ crate_text e
  | Sqlx => "sqlx: " +:+ crate_text e
  | JsonError => "json: " +:+ crate_text e
  end.

Definition from_repo_error (e : RepoError) : AdminError :=
  match e with
  | AgentNameConflict _ => AdminNameConflict
  | RotationInProgress _ => AdminRotationInProgress
  | AgentNotFound => AdminAgentNotFound
  | AgentRepo.InvalidCredential => InvalidBootstrap
  | other => AdminBackend (repo_error_display other)
  end.

Definition decision_of {E A} (r : result E A) : Decision :=
  match r with Ok _ => Allowed | Err _ => Denied end.

Definition error_details {A} (r : result RepoError A) : option Json :=
  match r with
  | Ok _ => None
  | Err e => Some (json_obj [("error", JString (repo_error_display e))])
  end.

(** [result.as_ref().err().map(|e| e.to_string())] in a [json!]. *)
Definition error_field {A} (r : result RepoError A) : Json :=
  match r with Ok _ => JNull | Err e => JString (repo_error_display e) end.

Definition credential_present (s : AdminService) (t : ToolConfig) : bool :=
  match tc_auth t with
  | None => false
  | Some a =>
      match sv_resolved_creds s with
      | Some resolved => isSome (resolved !! tc_name t)
      | None => looks_present (ta_value a)
      end
  end.

(** ** Agent self-service *)

(** The foreign key of [used_by_agent_id]. *)
Definition agent_row_exists (db : AgentDb) (id : Z) : bool :=
  existsb (fun r => bool_decide (ag_id r = id)) (agents db).

Definition register_agent_inner (c : Call) (input : RegisterInput) (s : AdminService)
  : result AdminError RegisterOutput * AdminService :=
  match parse (in_bootstrap_token input) with
  | Err _ => (Err InvalidBootstrap, s)
  | Ok (ns, pid, sec) =>
      if negb (bool_decide (ns = Bootstrap)) then (Err InvalidBootstrap, s)
      else
        match preview_scope pid (now c) (sv_bootstrap s) with
        | Err e => (Err (from_repo_error e), s)
        | Ok scope_preview =>
            match create (in_name input) (in_description input) (sc_tool_allowlist scope_preview) None
                    (in_metadata input) None (entropy c) (now c) (sv_agents s) with
            | (Err e, db) => (Err (from_repo_error e), sv_with_agents db s)
            | (Ok (agent_pid, agent_secret), db) =>
                let s := sv_with_agents db s in
                match get_active_by_public_id agent_pid db with
                | Err e => (Err (from_repo_error e), s)
                | Ok None => (Err AdminAgentNotFound, s)
                | Ok (Some agent) =>
                    match consume (agent_row_exists db) pid sec (ag_id agent) (now c)
                            (sv_bootstrap s) with
                    | (Err e, bt) =>
                        (Err (from_repo_error e),
                         sv_with_agents (snd (revoke agent_pid (now c) db)) (sv_with_bootstrap bt s))
                    | (Ok _, bt) =>
                        (Ok {| out_public_id := agent_pid;
                               out_token := "lk_" +:+ ag_public_id agent +:+ "." +:+ agent_secret;
                               out_allowlist := sc_tool_allowlist scope_preview |},
                         sv_with_bootstrap bt s)
                    end
                end
            end
        end
  end.

(** The bootstrap public id for the audit row of a failure. *)
Definition bootstrap_public_id (raw : string) : option string :=
  match parse raw with
  | Ok (Bootstrap, pid, _) => Some pid
  | _ => None
  end.

(** Whether a failed registration reused a spent or revoked token. *)
Definition is_reuse (c : Call) (e : AdminError) (pid : option string) (s : AdminService) : bool :=
  match e, pid with
  | InvalidBootstrap, Some pid =>
      match diagnose pid (now c) (sv_bootstrap s) with
      | Ok BUsed | Ok BRevoked => true
      | _ => false
      end
  | _, _ => false
  end.

Definition register_agent (c : Call) (input : RegisterInput) (s : AdminService)
  : result AdminError RegisterOutput * AdminService :=
  let bt_pid := bootstrap_public_id (in_bootstrap_token input) in
  let '(result, s) := register_agent_inner c input s in
  match result with
  | Ok out =>
      (Ok out, admin_audit (admin_event (now_ms c) OperatorClass "agent_register"
         (Some (out_public_id out)) Allowed (Some (json_obj [("via", JString "bootstrap")]))) s)
  | Err e =>
      let '(cls, ev) := if is_reuse c e bt_pid s then (Security, "bootstrap_reuse_attempt")
                        else (OperatorClass, "agent_register") in
      (Err e, admin_audit (admin_event (now_ms c) cls ev None Denied
         (Some (json_obj [("error", JString (admin_error_display e));
                          ("bootstrap_public_id", json_opt JString bt_pid)]))) s)
  end.

Definition get_agent_status (agent : AgentIdentity) (s : AdminService)
  : result AdminError AgentStatusOutput :=
  match get_active_by_public_id (id_public_id agent) (sv_agents s) with
  | Err e => Err (from_repo_error e)
  | Ok None => Err AdminAgentNotFound
  | Ok (Some r) => Ok (status_of_record r)
  end.

Definition rotate_agent (c : Call) (agent : AgentIdentity) (current_secret : string)
    (s : AdminService) : result AdminError (string * string) * AdminService :=
  let '(result, db) := rotate (id_public_id agent) current_secret (entropy c) (sv_agents s) in
  let s := admin_audit (admin_event (now_ms c) OperatorClass "agent_rotate"
             (Some (id_public_id agent)) (decision_of result) (error_details result))
             (sv_with_agents db s) in
  (match result with
   | Err e => Err (from_repo_error e)
   | Ok new_secret =>
       Ok (id_public_id agent, "lk_" +:+ id_public_id agent +:+ "." +:+ new_secret)
   end, s).

Definition deregister_agent (c : Call) (agent : AgentIdentity) (s : AdminService)
  : result AdminError unit * AdminService :=
  let '(result, db) := revoke (id_public_id agent) (now c) (sv_agents s) in
  (map_err from_repo_error result,
   admin_audit (admin_event (now_ms c) Security "agent_deregister" (Some (id_public_id agent))
     (decision_of result) (error_details result)) (sv_with_agents db s)).

Definition tool_info (s : AdminService) (t : ToolConfig) : ToolInfo :=
  {| ti_name := tc_name t; ti_description := tc_description t;
     ti_egress := match tc_egress t with Direct => "direct" | Proxied => "proxied" end;
     ti_credential_present := credential_present s t || negb (isSome (tc_auth t)) |}.

Definition list_tools_for_agent (agent : AgentIdentity) (s : AdminService) : list ToolInfo :=
  map (tool_info s) (List.filter (fun t =>
    let allowed := match id_tool_allowlist agent with
                   | None => true | Some l => list_has l (tc_name t) end in
    let not_denied := match id_tool_denylist agent with
                      | None => true | Some l => negb (list_has l (tc_name t)) end in
    allowed && not_denied) (tools (sv_config s))).

(** ** Operator *)

Definition admin_list_agents (include_revoked : bool) (s : AdminService)
  : result AdminError (list AgentRecord) :=
  map_err from_repo_error (list_agents include_revoked (sv_agents s)).

Definition get_agent (public_id_or_name : string) (s : AdminService)
  : result AdminError AgentRecord :=
  match get_active_by_public_id public_id_or_name (sv_agents s) with
  | Err e => Err (from_repo_error e)
  | Ok (Some r) => Ok r
  | Ok None =>
      match get_by_name public_id_or_name (sv_agents s) with
      | Err e => Err (from_repo_error e)
      | Ok (Some r) => Ok r
      | Ok None => Err AdminAgentNotFound
      end
  end.

Definition create_agent_as_operator (c : Call) (op : OperatorIdentity) (input : CreateAgentInput)
    (s : AdminService) : result AdminError RegisterOutput * AdminService :=
  let '(result, db) := create (ci_name input) (ci_description input) (ci_allowlist input)
    (ci_denylist input) (ci_metadata input) (ci_expires_at input) (entropy c) (now c) (sv_agents s) in
  let s := sv_with_agents db s in
  match result with
  | Ok (pid, sec) =>
      (Ok {| out_public_id := pid; out_token := "lk_" +:+ pid +:+ "." +:+ sec;
             out_allowlist := ci_allowlist input |},
       audit_for_operator op (admin_event (now_ms c) OperatorClass "agent_create" (Some pid) Allowed
         None) s)
  | Err e =>
      (Err (from_repo_error e),
       audit_for_operator op (admin_event (now_ms c) OperatorClass "agent_create" None Denied
         (Some (json_obj [("error", JString (repo_error_display e)); ("name", JString (ci_name input))])))
         s)
  end.

Definition modify_agent (c : Call) (op : OperatorIdentity) (pid : string) (input : ModifyAgentInput)
    (s : AdminService) : result AdminError unit * AdminService :=
  let '(result, db) := update_policy pid (mi_allowlist input) (mi_denylist input)
    (mi_metadata input) (mi_expires_at input) (sv_agents s) in
  (map_err from_repo_error result,
   audit_for_operator op (admin_event (now_ms c) OperatorClass "agent_modify" (Some pid)
     (decision_of result) (error_details result)) (sv_with_agents db s)).

Definition set_agent_cert_identity (c : Call) (op : OperatorIdentity) (pid : string)
    (cert : option string) (s : AdminService) : result AdminError unit * AdminService :=
  let '(result, db) := set_cert_identity pid cert (sv_agents s) in
  (map_err from_repo_error result,
   audit_for_operator op (admin_event (now_ms c) OperatorClass "agent_set_cert_identity" (Some pid)
     (decision_of result)
     (Some (json_obj [("cert_identity", json_opt JString cert); ("error", error_field result)])))
     (sv_with_agents db s)).

Definition revoke_agent (c : Call) (op : OperatorIdentity) (pid : string) (s : AdminService)
  : result AdminError unit * AdminService :=
  let '(result, db) := revoke pid (now c) (sv_agents s) in
  (map_err from_repo_error result,
   audit_for_operator op (admin_event (now_ms c) Security "agent_revoke" (Some pid)
     (decision_of result) (error_details result)) (sv_with_agents db s)).

Definition scope_json (sc : BootstrapScope) : Json :=
  json_obj [("tool_allowlist", json_opt (fun l => JArray (map JString l)) (sc_tool_allowlist sc));
            ("expires_at", json_opt JInt (sc_expires_at sc)); ("single_use", JBool (sc_single_use sc))].

(** [MintBootstrapInput] has the fields of the scope it becomes. *)
Definition mint_bootstrap_token (c : Call) (op : OperatorIdentity) (scope : BootstrapScope)
    (s : AdminService) : result AdminError (string * string) * AdminService :=
  let '(result, bt) := mint scope (op_name op) (entropy c) (now c) (sv_bootstrap s) in
  let s := sv_with_bootstrap bt s in
  match result with
  | Ok (pid, sec) =>
      (Ok (pid, "lkbt_" +:+ pid +:+ "." +:+ sec),
       audit_for_operator op (admin_event (now_ms c) OperatorClass "bootstrap_mint" None Allowed
         (Some (json_obj [("bootstrap_public_id", JString pid); ("scope", scope_json scope)]))) s)
  | Err e =>
      (Err (from_repo_error e),
       audit_for_operator op (admin_event (now_ms c) OperatorClass "bootstrap_mint" None Denied
         (Some (json_obj [("error", JString (repo_error_display e))]))) s)
  end.

Definition list_bootstrap_tokens (s : AdminService)
  : result AdminError (list BootstrapTokenRecord) :=
  map_err from_repo_error (bt_list (sv_bootstrap s)).

Definition revoke_bootstrap_token (c : Call) (op : OperatorIdentity) (pid : string)
    (s : AdminService) : result AdminError unit * AdminService :=
  let '(result, bt) := bt_revoke pid (now c) (sv_bootstrap s) in
  (map_err from_repo_error result,
   audit_for_operator op (admin_event (now_ms c) Security "bootstrap_revoke" None
     (decision_of result)
     (Some (json_obj [("bootstrap_public_id", JString pid); ("error", error_field result)])))
     (sv_with_bootstrap bt s)).

Definition admin_query_audit (filter : AuditFilter) (page : AuditPage) (s : AdminService)
  : result AdminError (list AuditEvent) :=
  match sv_audit s with
  | None => Err (AdminBackend "audit_disabled")
  | Some audit => map_err from_repo_error (query_audit filter page (sv_agents s) audit)
  end.

Definition list_tools_for_operator (s : AdminService) : list ToolInfo :=
  map (tool_info s) (tools (sv_config s)).
End Admin.

(** ** Registration *)

Section Registration.
Context `{Base64Url} `{!Base64UrlLaws} `{Argon2Crate} `{!Argon2Laws}.
Context (crate_text : RepoError -> string).

(** The row a successful [create] appends, and its freshness. *)
Lemma create_ok n d a dl m e rng t db pid sec db' :
  create n d a dl m e rng t db = (Ok (pid, sec), db') ->
  online db = true /\ online db' = true /\
  pid = public_id (generate Agent (id_bytes rng) (secret_bytes rng)) /\
  sec = secret (generate Agent (id_bytes rng) (secret_bytes rng)) /\
  (forall r, r ∈ agents db -> ag_public_id r <> pid) /\
  exists row, agents db' = agents db ++ [row] /\ ag_public_id row = pid /\ ag_name row = n /\
    ag_tool_allowlist row = a /\ ag_tool_denylist row = dl /\ ag_expires_at row = e /\
    ag_revoked_at row = None /\ verify (ag_secret_hash row) sec = Ok true.
Proof.
  unfold create. destruct (hash _ _) as [h|] eqn:Hh; [|done]. unfold query.
  destruct (online db) eqn:Hon; [|done]. destruct (sql_exists _ _) eqn:E; [done|].
  intros [= <- <- <-]. split; [done|]. split; [done|]. split; [done|]. split; [done|]. split.
  - intros r Hr. pose proof (proj1 (sql_exists_false _ _) E r Hr) as Hn.
    apply orb_false_iff in Hn as [Hn _]. by apply bool_decide_eq_false in Hn.
  - eexists. split; [done|]. repeat (split; [done|]).
    rewrite (hash_verify _ _ _ Hh). by rewrite bool_decide_eq_true_2.
Qed.

Lemma create_err n d a dl m e rng t db x db' :
  create n d a dl m e rng t db = (Err x, db') -> db' = db.
Proof. unfold create, query. intros Hc. repeat case_match; by simplify_eq. Qed.

Lemma active_fresh rows row :
  (forall r, r ∈ rows -> ag_public_id r <> ag_public_id row) -> ag_revoked_at row = None ->
  find_first (active_by_public_id (ag_public_id row)) (rows ++ [row]) = Some row.
Proof.
  intros Hf Hr. rewrite find_first_app. rewrite (proj2 (find_first_None _ _)).
  - simpl. unfold active_by_public_id, by_public_id, is_active. by rewrite bool_decide_eq_true_2, Hr.
  - intros r Hin. unfold active_by_public_id, by_public_id. by rewrite bool_decide_eq_false_2 by auto.
Qed.

(** Every outcome of a registration: nothing changed; the agent was created
    and the token consumed; or the created agent was revoked again because
    the token could not be consumed. *)
Lemma register_cases c input s r s' :
  register_agent_inner crate_text c input s = (r, s') ->
  (exists e, r = Err e /\ s' = s) \/
  exists pid sec scope apid asec row db,
    parse (in_bootstrap_token input) = Ok (Bootstrap, pid, sec) /\
    preview_scope pid (now c) (sv_bootstrap s) = Ok scope /\
    create (in_name input) (in_description input) (sc_tool_allowlist scope) None
      (in_metadata input) None (entropy c) (now c) (sv_agents s) = (Ok (apid, asec), db) /\
    find_first (active_by_public_id apid) (agents db) = Some row /\
    let '(cr, bt) := consume (agent_row_exists db) pid sec (ag_id row) (now c) (sv_bootstrap s) in
    match cr with
    | Ok _ => r = Ok {| out_public_id := apid;
                        out_token := "lk_" +:+ ag_public_id row +:+ "." +:+ asec;
                        out_allowlist := sc_tool_allowlist scope |} /\
              s' = sv_with_bootstrap bt (sv_with_agents db s)
    | Err e => r = Err (from_repo_error crate_text e) /\
               s' = sv_with_agents (snd (revoke apid (now c) db)) (sv_with_bootstrap bt s)
    end.
Proof.
  unfold register_agent_inner.
  destruct (parse _) as [[[ns pid] sec]|]; [|intros [= <- <-]; eauto].
  case_bool_decide as Hns; [|intros [= <- <-]; eauto]. subst ns. cbn [negb].
  destruct (preview_scope _ _ _) as [scope|] eqn:Ep; [|intros [= <- <-]; eauto].
  destruct (create _ _ _ _ _ _ _ _ _) as [[[apid asec]|e] db] eqn:Ec.
  2: { apply create_err in Ec as ->. intros [= <- <-]. left. eexists. split; [done|]. by destruct s. }
  destruct (create_ok _ _ _ _ _ _ _ _ _ _ _ _ Ec) as (_ & Hon & _ & _ & Hf & row & Hdb & Hpid & _ & _ & _ & _ & Hrv & _).
  assert (F : find_first (active_by_public_id apid) (agents db) = Some row).
  { rewrite Hdb, <- Hpid. apply active_fresh; [|done]. intros x Hx. rewrite Hpid. auto. }
  unfold get_active_by_public_id. rewrite Hon, F. intros E. right.
  exists pid, sec, scope, apid, asec, row, db. repeat (split; [done|]).
  cbn [sv_bootstrap sv_with_agents] in E. destruct (consume _ _ _ _ _ _) as [[sc|e] bt]; by simplify_eq.
Qed.

Lemma register_agent_shape c input s :
  fst (register_agent crate_text c input s) = fst (register_agent_inner crate_text c input s) /\
  sv_agents (snd (register_agent crate_text c input s)) =
    sv_agents (snd (register_agent_inner crate_text c input s)) /\
  sv_bootstrap (snd (register_agent crate_text c input s)) =
    sv_bootstrap (snd (register_agent_inner crate_text c input s)).
Proof.
  unfold register_agent. destruct (register_agent_inner _ _ _ _) as [[out|e] s']; simpl; [done|].
  by destruct (is_reuse _ _ _ _).
Qed.

Lemma bearer_accepts decoy t t_ms pid sec st r :
  well_formed {| namespace := Agent; public_id := pid; secret := sec |} ->
  online (as_agents st) = true ->
  find_first (active_by_public_id pid) (agents (as_agents st)) = Some r ->
  expired_at t r = false -> verify (ag_secret_hash r) sec = Ok true ->
  fst (authenticate_bearer decoy t t_ms ("Bearer " +:+ ("lk_" +:+ pid +:+ "." +:+ sec)) st)
  = Ok (identity_of r).
Proof.
  intros Hwf Hon F He Hv. unfold authenticate_bearer. rewrite strip_prefix_app.
  change ("lk_" +:+ pid +:+ "." +:+ sec)
    with (wire_format {| namespace := Agent; public_id := pid; secret := sec |}).
  rewrite (parse_wire_format _ Hwf). simpl. unfold resolve, get_active_by_public_id.
  by rewrite Hon, F, He, Hv.
Qed.

(** C15: a successful registration hands out a working credential for exactly
    what the bootstrap token allows: the presented token was a usable
    bootstrap token with the right secret; the returned agent token
    authenticates, at any time, as an agent of the requested name with the
    bootstrap scope's allowlist; and a single-use token is spent for good. *)
Theorem register_issues_working_token c input s out s' :
  String.length (id_bytes (entropy c)) = 16%nat -> String.length (secret_bytes (entropy c)) = 32%nat ->
  register_agent crate_text c input s = (Ok out, s') ->
  exists pid sec r,
    in_bootstrap_token input = wire_format {| namespace := Bootstrap; public_id := pid; secret := sec |} /\
    token_at pid (sv_bootstrap s) = Some r /\ usable (now c) r = true /\
    verify (bt_secret_hash r) sec = Ok true /\
    out_allowlist out = sc_tool_allowlist (bt_scope r) /\
    (forall decoy t t_ms audit v, exists id,
       fst (authenticate_bearer decoy t t_ms ("Bearer " +:+ out_token out)
              {| as_agents := sv_agents s'; as_audit := audit; as_verifies := v |}) = Ok id /\
       id_name id = in_name input /\ id_public_id id = out_public_id out /\
       id_tool_allowlist id = sc_tool_allowlist (bt_scope r) /\ id_tool_denylist id = None) /\
    (sc_single_use (bt_scope r) = true ->
       forall t, preview_scope pid t (sv_bootstrap s') = Err AgentRepo.InvalidCredential).
Proof.
  intros Hi Hs Hreg. destruct (register_agent_shape c input s) as (E1 & E2 & E3).
  rewrite Hreg in E1, E2, E3. simpl in E1, E2, E3.
  destruct (register_agent_inner crate_text c input s) as [r0 s0] eqn:Er. simpl in *. subst r0.
  destruct (register_cases _ _ _ _ _ Er) as [(e & He & _)|(pid & sec & scope & apid & asec & row & db & Hp & Hsc & Hc & F & Hm)];
    [done|].
  destruct (consume _ _ _ _ _ _) as [[sc|] bt] eqn:Eco; [|by destruct Hm].
  destruct Hm as [[= ->] ->]. simpl in E2, E3.
  destruct (consume_ok _ _ _ _ _ _ _ _ Eco) as ((r & Hat & Hu & Hscope & Hv & Hat') & _ & Hon').
  assert (Hsceq : scope = bt_scope r).
  { unfold preview_scope in Hsc. destruct (negb (bt_online _)); [done|]. unfold token_at in Hat.
    rewrite Hat, Hu in Hsc. by injection Hsc. }
  destruct (create_ok _ _ _ _ _ _ _ _ _ _ _ _ Hc)
    as (_ & Hon & Hapid & Hasec & Hf & row' & Hdb & Hpid & Hname & Hal & Hdl & Hex & Hrv & Hver).
  assert (row = row') as ->.
  { rewrite Hdb, <- Hpid, active_fresh in F; [by injection F| |done]. intros x Hx. rewrite Hpid. auto. }
  exists pid, sec, r. destruct (parse_ok_shape _ _ _ _ Hp) as [-> _]. subst scope.
  repeat (split; [done|]). split.
  - intros decoy t t_ms audit v. exists (identity_of row'). simpl. rewrite Hpid. split; [|done].
    apply bearer_accepts; simpl; rewrite ?E2; try done.
    + rewrite Hapid, Hasec. by apply generate_well_formed.
    + unfold expired_at. by rewrite Hex.
  - intros Hsu t. rewrite E3. unfold preview_scope. rewrite Hon'.
    unfold consume, consume_read in Eco. destruct (bt_online (sv_bootstrap s)); [|done]. simpl.
    unfold token_at in Hat'. rewrite Hat'. rewrite <- Hscope, Hsu. done.
Qed.

(** A failed registration costs nothing: whatever the error, the
    bootstrap table is as it was (in particular a name conflict does not
    consume the token) and the same agents are active as before. *)
Theorem register_failure_harmless c input s e s' :
  register_agent crate_text c input s = (Err e, s') ->
  sv_bootstrap s' = sv_bootstrap s /\
  forall pid, get_active_by_public_id pid (sv_agents s') = get_active_by_public_id pid (sv_agents s).
Proof.
  intros Hreg. destruct (register_agent_shape c input s) as (E1 & E2 & E3).
  rewrite Hreg in E1, E2, E3. simpl in E1, E2, E3. rewrite E2, E3. clear Hreg E2 E3 s'.
  destruct (register_agent_inner crate_text c input s) as [r0 s0] eqn:Er. simpl in *. subst r0.
  destruct (register_cases _ _ _ _ _ Er) as [(e' & _ & ->)|(pid & sec & scope & apid & asec & row & db & Hp & Hsc & Hc & F & Hm)];
    [done|].
  destruct (consume _ _ _ _ _ _) as [[sc|e'] bt] eqn:Eco; [by destruct Hm|].
  destruct Hm as [_ ->]. apply consume_err in Eco as ->. split; [done|]. intros pid'. simpl.
  destruct (create_ok _ _ _ _ _ _ _ _ _ _ _ _ Hc)
    as (Hon0 & Hon & _ & _ & Hf & row' & Hdb & Hpid & _ & _ & _ & _ & _ & _).
  unfold revoke, update_or_not_found, query. rewrite Hon.
  assert (Hex : sql_exists (by_public_id apid) (agents db) = true).
  { unfold sql_exists. rewrite Hdb, existsb_app. simpl. unfold by_public_id at 2.
    rewrite bool_decide_eq_true_2 by done. by rewrite orb_true_r. }
  rewrite Hex. unfold get_active_by_public_id. simpl. rewrite Hon, Hon0, Hdb. f_equal.
  unfold sql_update. rewrite map_app. fold (sql_update (by_public_id apid) (with_revoked_at (Some (now c))) (agents (sv_agents s))).
  rewrite sql_update_none.
  2: { intros x Hx. unfold by_public_id. rewrite bool_decide_eq_false_2; auto. }
  rewrite find_first_app.
  destruct (find_first (active_by_public_id pid') (agents (sv_agents s))); [done|]. simpl.
  unfold by_public_id at 1. rewrite bool_decide_eq_true_2 by done.
  unfold active_by_public_id, is_active. simpl. by rewrite andb_false_r.
Qed.

(** A name, once taken, stays taken. *)
Lemma name_taken_step n db db' :
  db_step db db' -> (exists r, r ∈ agents db /\ ag_name r = n) ->
  exists r, r ∈ agents db' /\ ag_name r = n.
Proof.
  intros [|p f Hf|row Hid Hu] (r & Hr & Hn).
  - by exists r.
  - exists (if p r then f r else r). split; [apply elem_of_sql_update; eauto|].
    destruct (p r); [|done]. by destruct (Hf r) as (_ & _ & -> & _).
  - exists r. split; [apply elem_of_app; by left|done].
Qed.

Lemma name_taken_run n ops db :
  (exists r, r ∈ agents db /\ ag_name r = n) -> exists r, r ∈ agents (run ops db) /\ ag_name r = n.
Proof.
  unfold run. revert db. induction ops as [|o ops IH]; [done|]. intros db Hdb.
  apply IH. eapply name_taken_step; [apply exec_step|done].
Qed.

Lemma create_taken n d a dl m e rng t db :
  (exists r, r ∈ agents db /\ ag_name r = n) -> is_ok (fst (create n d a dl m e rng t db)) = false.
Proof.
  intros (r & Hr & Hn). unfold create. destruct (hash _ _); [|done]. unfold query.
  destruct (online db); [|done]. destruct (sql_exists _ _) eqn:E; [done|]. exfalso.
  pose proof (proj1 (sql_exists_false _ _) E r Hr) as Hx. apply orb_false_iff in Hx as [_ Hx].
  by apply bool_decide_eq_false in Hx.
Qed.

(** An agent name can be taken without the bootstrap secret: a
    registration that names a usable bootstrap token but has the wrong secret
    is refused, yet the agent row it inserted first stays behind, revoked, so
    no later registration or operator create under that name succeeds,
    whatever happens to the table in between. *)
Theorem register_wrong_secret_burns_name c input s pid sec r :
  parse (in_bootstrap_token input) = Ok (Bootstrap, pid, sec) ->
  bt_online (sv_bootstrap s) = true -> token_at pid (sv_bootstrap s) = Some r ->
  usable (now c) r = true -> verify (bt_secret_hash r) sec = Ok false ->
  is_ok (fst (create (in_name input) (in_description input) (sc_tool_allowlist (bt_scope r)) None
                (in_metadata input) None (entropy c) (now c) (sv_agents s))) = true ->
  fst (register_agent crate_text c input s) = Err InvalidBootstrap /\
  forall ops d a dl m e rng t,
    is_ok (fst (create (in_name input) d a dl m e rng t
      (run ops (sv_agents (snd (register_agent crate_text c input s)))))) = false.
Proof.
  intros Hp Hon Hat Hu Hv Hcr. destruct (register_agent_shape c input s) as (E1 & E2 & _).
  rewrite E1, E2. unfold register_agent_inner. rewrite Hp. simpl.
  unfold preview_scope. rewrite Hon. simpl. fold (token_at pid (sv_bootstrap s)). rewrite Hat, Hu.
  destruct (create _ _ _ _ _ _ _ _ _) as [[[apid asec]|] db] eqn:Ec; [|done].
  destruct (create_ok _ _ _ _ _ _ _ _ _ _ _ _ Ec)
    as (_ & Hon' & _ & _ & Hf & row & Hdb & Hpid & Hname & _ & _ & _ & Hrv & _).
  assert (F : find_first (active_by_public_id apid) (agents db) = Some row).
  { rewrite Hdb, <- Hpid. apply active_fresh; [|done]. intros x Hx. rewrite Hpid. auto. }
  unfold get_active_by_public_id. rewrite Hon', F. cbn [sv_bootstrap sv_with_agents].
  rewrite (consume_wrong_secret _ _ _ _ _ _ _ Hon Hat Hv). simpl. split; [done|].
  intros ops d a dl m e rng t. apply create_taken, name_taken_run.
  eapply name_taken_step; [apply (exec_step (OpRevoke apid (now c)) db)|].
  exists row. split; [|done]. rewrite Hdb. apply elem_of_app. right. left.
Qed.
End Registration.

(** ** Rotation *)

Section AdminRotation.
Context `{Base64Url} `{!Base64UrlLaws} `{Argon2Crate} `{!Argon2Laws}.
Context (crate_text : RepoError -> string).

(** What a successful rotation does to the agent's row. *)
Lemma rotate_ok pid cur rng db sec db' :
  agents_wf db -> rotate pid cur rng db = (Ok sec, db') ->
  exists r h, find_first (active_by_public_id pid) (agents db) = Some r /\
    verify (ag_secret_hash r) cur = Ok true /\
    sec = secret (generate Agent (id_bytes rng) (secret_bytes rng)) /\ hash sec (salt rng) = Ok h /\
    online db' = true /\
    find_first (active_by_public_id pid) (agents db') = Some (with_secret_hash h r).
Proof.
  intros W. unfold rotate, rotate_read. destruct (online db) eqn:Hon; [|done].
  destruct (find_first (active_by_public_id pid) (agents db)) as [r|] eqn:F; [|done].
  destruct (verify _ _) as [[]|] eqn:Hv; try done.
  destruct (hash _ _) as [h|] eqn:Hh; [|done]. unfold rotate_cas, query. rewrite Hon.
  set (p := fun x => active_by_public_id pid x && _).
  destruct (sql_exists p (agents db)); [|done]. intros [= <- <-].
  exists r, h. repeat (split; [done|]). simpl.
  rewrite find_first_sql_update.
  2: { intros x. by unfold active_by_public_id, by_public_id, is_active. }
  rewrite F. simpl. apply find_first_Some in F as [_ F]. unfold p. rewrite F. simpl.
  by rewrite bool_decide_eq_true_2.
Qed.

(** Rotation replaces the credential: after a successful rotation the
    returned token authenticates as the same agent (while it is unexpired)
    and the secret it replaced no longer does. *)
Theorem rotate_switches_secret c agent cur s pid tok s' :
  String.length (id_bytes (entropy c)) = 16%nat -> String.length (secret_bytes (entropy c)) = 32%nat ->
  agents_wf (sv_agents s) ->
  well_formed {| namespace := Agent; public_id := id_public_id agent; secret := cur |} ->
  b64_encode (secret_bytes (entropy c)) <> cur ->
  rotate_agent crate_text c agent cur s = (Ok (pid, tok), s') ->
  exists r, find_first (active_by_public_id pid) (agents (sv_agents s)) = Some r /\
    forall decoy t t_ms audit v,
      let st := {| as_agents := sv_agents s'; as_audit := audit; as_verifies := v |} in
      (expired_at t r = false ->
         fst (authenticate_bearer decoy t t_ms ("Bearer " +:+ tok) st) = Ok (identity_of r)) /\
      is_ok (fst (authenticate_bearer decoy t t_ms
        ("Bearer " +:+ wire_format {| namespace := Agent; public_id := pid; secret := cur |}) st)) = false.
Proof.
  intros Hi Hs W Hwf Hne. unfold rotate_agent.
  destruct (rotate _ _ _ _) as [[sec|] db] eqn:Er; [|done]. intros [= <- <- <-].
  destruct (rotate_ok _ _ _ _ _ _ W Er) as (r & h & F & Hv & Hsec & Hh & Hon & F').
  exists r. split; [done|]. intros decoy t t_ms audit v. split.
  - intros He. change (identity_of r) with (identity_of (with_secret_hash h r)).
    apply bearer_accepts; try done.
    + pose proof (generate_well_formed Agent (id_bytes (entropy c)) (secret_bytes (entropy c)) Hi Hs)
        as (_ & G2 & _ & G4 & _). rewrite Hsec. destruct Hwf as (W1 & _ & W3 & _ & W5). done.
    + simpl. rewrite (hash_verify _ _ _ Hh). by rewrite bool_decide_eq_true_2.
  - unfold authenticate_bearer. rewrite strip_prefix_app, (parse_wire_format _ Hwf). simpl.
    unfold resolve, get_active_by_public_id. simpl. rewrite Hon, F'.
    destruct (expired_at t _); [done|]. simpl. rewrite (hash_verify _ _ _ Hh).
    rewrite bool_decide_eq_false_2; [done|]. rewrite Hsec. simpl. congruence.
Qed.
End AdminRotation.

(** ** Audit coverage *)

Section AdminOps.
Context `{Base64Url} `{Argon2Crate}.
Context (crate_text : RepoError -> string).

(** The operations that change state. *)
Inductive AdminOp :=
| ARegister (input : RegisterInput)
| ARotate (agent : AgentIdentity) (current_secret : string)
| ADeregister (agent : AgentIdentity)
| ACreate (op : OperatorIdentity) (input : CreateAgentInput)
| AModify (op : OperatorIdentity) (pid : string) (input : ModifyAgentInput)
| ASetCert (op : OperatorIdentity) (pid : string) (cert : option string)
| ARevoke (op : OperatorIdentity) (pid : string)
| AMint (op : OperatorIdentity) (scope : BootstrapScope)
| ARevokeBootstrap (op : OperatorIdentity) (pid : string).

Definition actor (o : AdminOp) : option OperatorIdentity :=
  match o with
  | ARegister _ | ARotate _ _ | ADeregister _ => None
  | ACreate op _ | AModify op _ _ | ASetCert op _ _ | ARevoke op _ | AMint op _
  | ARevokeBootstrap op _ => Some op
  end.

Definition outcome {E A} (rs : result E A * AdminService) : bool * AdminService :=
  (is_ok rs.1, rs.2).

Definition admin_exec (c : Call) (o : AdminOp) (s : AdminService) : bool * AdminService :=
  match o with
  | ARegister input => outcome (register_agent crate_text c input s)
  | ARotate agent sec => outcome (rotate_agent crate_text c agent sec s)
  | ADeregister agent => outcome (deregister_agent crate_text c agent s)
  | ACreate op input => outcome (create_agent_as_operator crate_text c op input s)
  | AModify op pid input => outcome (modify_agent crate_text c op pid input s)
  | ASetCert op pid cert => outcome (set_agent_cert_identity crate_text c op pid cert s)
  | ARevoke op pid => outcome (revoke_agent crate_text c op pid s)
  | AMint op scope => outcome (mint_bootstrap_token crate_text c op scope s)
  | ARevokeBootstrap op pid => outcome (revoke_bootstrap_token crate_text c op pid s)
  end.

(** One row about the call was appended. *)
Definition audited (c : Call) (op : option OperatorIdentity) (before : AdminService)
    (after : bool * AdminService) : Prop :=
  exists row,
    audit_rows (sv_audit after.2) = audit_rows (sv_audit before) ++ [row] /\
    row_ts row = now_ms c /\ row_decision row = (if after.1 then "allowed" else "denied") /\
    row_operator_name row = op_name <$> op /\
    row_auth_method row = Some (match op with
      | Some op => default "operator" (op_auth_method op)
      | None => if bool_decide (row_event row = "agent_register") then "bootstrap" else "agent"
      end).

Lemma admin_audit_rows e s : audit_writable (sv_audit s) = true ->
  exists am, audit_rows (sv_audit (admin_audit e s)) =
    audit_rows (sv_audit s) ++ [row_of (with_actor (operator_name e) (Some am) e)] /\
  am = match auth_method e with
       | Some m => m
       | None => if isSome (operator_name e) then "operator"
                 else if bool_decide (event e = "agent_register") then "bootstrap" else "agent"
       end.
Proof.
  intros Hw. eexists. split; [|reflexivity]. unfold admin_audit. cbn [sv_audit sv_record].
  rewrite audit_record_rows, Hw. by destruct (auth_method e).
Qed.

Lemma agent_audited c ok cls ev pid d det before s :
  audit_writable (sv_audit s) = true -> sv_audit s = sv_audit before ->
  decision_as_str d = (if ok : bool then "allowed" else "denied") ->
  audited c None before (ok, admin_audit (admin_event (now_ms c) cls ev pid d det) s).
Proof.
  intros Hw Hs Hd. destruct (admin_audit_rows (admin_event (now_ms c) cls ev pid d det) s Hw)
    as (am & E & Ham). eexists. cbn [fst snd]. rewrite E, Hs. split; [reflexivity|].
  simpl in *. by rewrite Hd, Ham.
Qed.

Lemma operator_audited c op ok cls ev pid d det before s :
  audit_writable (sv_audit s) = true -> sv_audit s = sv_audit before ->
  decision_as_str d = (if ok : bool then "allowed" else "denied") ->
  audited c (Some op) before
    (ok, audit_for_operator op (admin_event (now_ms c) cls ev pid d det) s).
Proof.
  intros Hw Hs Hd. unfold audit_for_operator. cbn [operator_name auth_method admin_event].
  destruct (admin_audit_rows (with_actor (Some (op_name op)) (Some (default "operator" (op_auth_method op)))
    (admin_event (now_ms c) cls ev pid d det)) s Hw) as (am & E & Ham).
  eexists. cbn [fst snd]. rewrite E, Hs. split; [reflexivity|]. simpl in *. by rewrite Hd, Ham.
Qed.

Lemma decision_of_str {A} (r : result RepoError A) :
  decision_as_str (decision_of r) = if is_ok (map_err (from_repo_error crate_text) r) then "allowed" else "denied".
Proof. by destruct r. Qed.

Lemma register_inner_audit c input s :
  sv_audit (snd (register_agent_inner crate_text c input s)) = sv_audit s.
Proof. unfold register_agent_inner. by repeat case_match. Qed.

Lemma admin_exec_audited c o s :
  audit_writable (sv_audit s) = true -> audited c (actor o) s (admin_exec c o s).
Proof.
  intros Hw. destruct o; cbn [actor admin_exec].
  - unfold register_agent. pose proof (register_inner_audit c input s) as Ha.
    destruct (register_agent_inner crate_text c input s) as [[out|e] s'] eqn:Er; simpl in Ha.
    + apply agent_audited; [congruence|done|done].
    + destruct (is_reuse _ _ _ _); apply agent_audited; first [congruence|done].
  - unfold rotate_agent. destruct (rotate _ _ _ _) as [[sec|e] db]; by apply agent_audited.
  - unfold deregister_agent. destruct (revoke _ _ _) as [r db]. apply agent_audited; [done|done|].
    apply decision_of_str.
  - unfold create_agent_as_operator. destruct (create _ _ _ _ _ _ _ _ _) as [[[pid sec]|e] db];
      by apply operator_audited.
  - unfold modify_agent. destruct (update_policy _ _ _ _ _ _) as [r db].
    apply operator_audited; [done|done|]. apply decision_of_str.
  - unfold set_agent_cert_identity. destruct (set_cert_identity _ _ _) as [r db].
    apply operator_audited; [done|done|]. apply decision_of_str.
  - unfold revoke_agent. destruct (revoke _ _ _) as [r db].
    apply operator_audited; [done|done|]. apply decision_of_str.
  - unfold mint_bootstrap_token. destruct (mint _ _ _ _ _) as [[[pid sec]|e] db];
      by apply operator_audited.
  - unfold revoke_bootstrap_token. destruct (bt_revoke _ _ _) as [r db].
    apply operator_audited; [done|done|]. apply decision_of_str.
Qed.

(** Every state-changing admin call leaves exactly one audit row:
    successful or not, the log gains one row stamped with the call's time,
    [allowed] exactly when the call succeeded, naming the operator and the
    transport it authenticated with for operator calls; an agent-side row
    says [bootstrap] only under the event name [agent_register], so a refused
    reuse of a bootstrap token is filed under [agent]. *)
Theorem admin_ops_audited c o s :
  audit_writable (sv_audit s) = true -> audited c (actor o) s (admin_exec c o s).
Proof. apply admin_exec_audited. Qed.
End AdminOps.

(** The self-service listing shows exactly the tools the proxy's ACL would
    let the agent call. *)
Lemma list_tools_acl agent s n :
  n ∈ map ti_name (list_tools_for_agent agent s) <->
  n ∈ map tc_name (tools (sv_config s)) /\ allows_tool agent n = Ok tt.
Proof.
  assert (Hacl : forall t, (match id_tool_allowlist agent with
      | None => true | Some l => list_has l t end &&
    match id_tool_denylist agent with None => true | Some l => negb (list_has l t) end) = true <->
    allows_tool agent t = Ok tt).
  { intros t. unfold allows_tool. destruct (id_tool_denylist agent) as [deny|];
      destruct (id_tool_allowlist agent) as [allow|]; simpl; rewrite ?andb_true_r;
      repeat (destruct (list_has _ _); simpl); done. }
  unfold list_tools_for_agent. rewrite map_map. rewrite !list_elem_of_In, !in_map_iff. split.
  - intros (t & <- & [Hin Ht]%filter_In). split; [by exists t|]. by apply Hacl.
  - intros [(t & <- & Hin) Ha]. exists t. split; [done|]. apply filter_In. split; [done|]. by apply Hacl.
Qed.

(** ** Witnesses *)

Module AdminWitness.
Import Base64Model Argon2Model AgentWitness BootstrapWitness.

Definition text0 (e : RepoError) : string := "".

Definition svc : AdminService :=
  {| sv_agents := dev_db; sv_bootstrap := minted; sv_config := {| tools := [] |};
     sv_audit := Some {| rows := []; writable := true; sink := None |}; sv_resolved_creds := None |}.

Definition call0 : Call := {| now := 20; now_ms := 20000; entropy := rng "c" |}.

Definition bt_wire : string :=
  wire_format {| namespace := Bootstrap; public_id := bt_pid; secret := bt_secret |}.

Definition reg_in (tok : string) : RegisterInput :=
  {| in_bootstrap_token := tok; in_name := "hermes"; in_description := None; in_metadata := None |}.

Definition reg_result : result AdminError RegisterOutput * AdminService :=
  register_agent text0 call0 (reg_in bt_wire) svc.

Definition reg_out : RegisterOutput :=
  match fst reg_result with Ok o => o | Err _ => {| out_public_id := ""; out_token := ""; out_allowlist := None |} end.

Lemma register_issues_working_token_witness :
  exists pid sec r,
    bt_wire = wire_format {| namespace := Bootstrap; public_id := pid; secret := sec |} /\
    token_at pid minted = Some r /\ usable 20 r = true /\
    verify (bt_secret_hash r) sec = Ok true /\
    out_allowlist reg_out = sc_tool_allowlist (bt_scope r) /\
    (forall decoy t t_ms audit v, exists id,
       fst (authenticate_bearer decoy t t_ms ("Bearer " +:+ out_token reg_out)
              {| as_agents := sv_agents (snd reg_result); as_audit := audit; as_verifies := v |}) = Ok id /\
       id_name id = "hermes" /\ id_public_id id = out_public_id reg_out /\
       id_tool_allowlist id = sc_tool_allowlist (bt_scope r) /\ id_tool_denylist id = None) /\
    (sc_single_use (bt_scope r) = true ->
       forall t, preview_scope pid t (sv_bootstrap (snd reg_result)) = Err AgentRepo.InvalidCredential).
Proof.
  apply (register_issues_working_token text0 call0 (reg_in bt_wire) svc reg_out (snd reg_result));
    vm_compute; reflexivity.
Defined.

(** The name is taken by [dev]: the token is not consumed. *)
Definition conflict_in : RegisterInput :=
  {| in_bootstrap_token := bt_wire; in_name := "dev"; in_description := None; in_metadata := None |}.

Lemma register_failure_harmless_witness :
  sv_bootstrap (snd (register_agent text0 call0 conflict_in svc)) = minted.
Proof.
  apply (register_failure_harmless text0 call0 conflict_in svc AdminNameConflict).
  vm_compute. reflexivity.
Defined.

Definition wrong_wire : string :=
  wire_format {| namespace := Bootstrap; public_id := bt_pid; secret := dev_secret |}.

Definition minted_row : BootstrapTokenRecord := default
  {| bt_id := 0; bt_public_id := ""; bt_secret_hash := ""; bt_scope := scope0; bt_created_by := "";
     bt_created_at := 0; bt_expires_at := None; bt_used_at := None; bt_used_by_agent_id := None;
     bt_revoked_at := None |} (token_at bt_pid minted).

Lemma register_wrong_secret_burns_name_witness :
  fst (register_agent text0 call0 (reg_in wrong_wire) svc) = Err InvalidBootstrap.
Proof.
  apply (register_wrong_secret_burns_name text0 call0 (reg_in wrong_wire) svc bt_pid dev_secret minted_row);
    vm_compute; reflexivity.
Defined.

Definition dev_identity : AgentIdentity :=
  {| id_id := 1; id_public_id := dev_pid; id_name := "dev"; id_tool_allowlist := Some ["anthropic"];
     id_tool_denylist := None |}.

Definition rot_result : result AdminError (string * string) * AdminService :=
  rotate_agent text0 call0 dev_identity dev_secret svc.

Definition rot_token : string := match fst rot_result with Ok (_, t) => t | Err _ => "" end.

Lemma rotate_switches_secret_witness :
  exists r, find_first (active_by_public_id dev_pid) (agents dev_db) = Some r /\
    forall decoy t t_ms audit v,
      let st := {| as_agents := sv_agents (snd rot_result); as_audit := audit; as_verifies := v |} in
      (expired_at t r = false ->
         fst (authenticate_bearer decoy t t_ms ("Bearer " +:+ rot_token) st) = Ok (identity_of r)) /\
      is_ok (fst (authenticate_bearer decoy t t_ms
        ("Bearer " +:+ wire_format {| namespace := Agent; public_id := dev_pid; secret := dev_secret |}) st))
      = false.
Proof.
  apply (rotate_switches_secret text0 call0 dev_identity dev_secret svc dev_pid rot_token (snd rot_result));
    [vm_compute; reflexivity | vm_compute; reflexivity | apply dev_wf | | | vm_compute; reflexivity].
  - repeat split; vm_compute; reflexivity.
  - apply (bool_decide_unpack _). vm_compute. exact I.
Defined.

Definition op0 : OperatorIdentity := {| op_name := "root"; op_scope := None; op_auth_method := Some "mtls" |}.

Lemma admin_ops_audited_witness :
  audited call0 (Some op0) svc (admin_exec text0 call0 (ARevoke op0 dev_pid) svc).
Proof. apply (admin_ops_audited text0 call0 (ARevoke op0 dev_pid) svc). reflexivity. Defined.

End AdminWitness.
