(* ===== verification/RegisterRace.v ===== *)
(** * Registrations at the same time ([src/admin/service.rs])

    [register_agent_inner] is five statements on two tables with no lock or
    transaction around them: the preview of the bootstrap token, the INSERT of
    the agent, its lookup, the SELECT and the UPDATE of [consume], and the
    revocation that undoes the INSERT when the token could not be consumed.
    Here each is a step of its own, and any number of registrations run among
    mints, revocations and whatever else happens to the agents table.  A
    registration may be dropped at any step ([reg_drop]), as when its client
    disconnects. *)

From S2P Require Import Prelude Json Token Argon2Helper AgentRepo BootstrapRepo.
From S2P Require Import AuditLog Auth Secret ResponseControls Config AdminService.

Inductive RegPhase :=
| RgWaiting                                                  (* the token is parsed *)
| RgPreviewed (scope : BootstrapScope)
| RgCreated (scope : BootstrapScope) (agent_pid agent_secret : string)
| RgFound (scope : BootstrapScope) (agent_pid agent_secret : string) (agent : AgentRecord)
| RgChecked (scope : BootstrapScope) (agent_pid agent_secret : string) (agent : AgentRecord)
    (consumed : BootstrapScope)                              (* [consume] has read the token *)
| RgRollback (agent_pid : string) (e : RepoError)            (* about to revoke the new agent *)
| RgWon (consumed : BootstrapScope) (out : RegisterOutput)
| RgLost (created : option string) (e : AdminError)
| RgDropped.

Record RegThread := { rg_pid : string; rg_sec : string; rg_input : RegisterInput; rg_phase : RegPhase }.

Definition at_reg_phase (ph : RegPhase) (th : RegThread) : RegThread :=
  {| rg_pid := rg_pid th; rg_sec := rg_sec th; rg_input := rg_input th; rg_phase := ph |}.

Record RegSys := {
  rg_agents : AgentDb;
  rg_tokens : BootstrapTokenRepository;
  rg_threads : gmap nat RegThread
}.

Section Register.
Context `{Base64Url} `{Argon2Crate}.
Context (crate_text : RepoError -> string).

Definition register_step (c : Call) (th : RegThread) (db : AgentDb) (bt : BootstrapTokenRepository)
  : option (RegPhase * AgentDb * BootstrapTokenRepository) :=
  match rg_phase th with
  | RgWaiting =>
      match preview_scope (rg_pid th) (now c) bt with
      | Err e => Some (RgLost None (from_repo_error crate_text e), db, bt)
      | Ok scope => Some (RgPreviewed scope, db, bt)
      end
  | RgPreviewed scope =>
      match create (in_name (rg_input th)) (in_description (rg_input th)) (sc_tool_allowlist scope) None
              (in_metadata (rg_input th)) None (entropy c) (now c) db with
      | (Err e, db) => Some (RgLost None (from_repo_error crate_text e), db, bt)
      | (Ok (p, s), db) => Some (RgCreated scope p s, db, bt)
      end
  | RgCreated scope p s =>
      match get_active_by_public_id p db with
      | Err e => Some (RgLost (Some p) (from_repo_error crate_text e), db, bt)
      | Ok None => Some (RgLost (Some p) AdminAgentNotFound, db, bt)
      | Ok (Some agent) => Some (RgFound scope p s agent, db, bt)
      end
  | RgFound scope p s agent =>
      match consume_read (rg_pid th) (rg_sec th) (now c) bt with
      | Err e => Some (RgRollback p e, db, bt)
      | Ok consumed => Some (RgChecked scope p s agent consumed, db, bt)
      end
  | RgChecked scope p s agent consumed =>
      match consume_mark (agent_row_exists db) consumed (rg_pid th) (ag_id agent) (now c) bt with
      | (Err e, bt) => Some (RgRollback p e, db, bt)
      | (Ok _, bt) =>
          Some (RgWon consumed {| out_public_id := p;
                                  out_token := "lk_" +:+ ag_public_id agent +:+ "." +:+ s;
                                  out_allowlist := sc_tool_allowlist scope |}, db, bt)
      end
  | RgRollback p e =>
      Some (RgLost (Some p) (from_repo_error crate_text e), snd (revoke p (now c) db), bt)
  | RgWon _ _ | RgLost _ _ | RgDropped => None
  end.

(** ** Alone, the steps are [register_agent_inner] *)

Fixpoint register_run (n : nat) (c : Call) (th : RegThread) (db : AgentDb) (bt : BootstrapTokenRepository)
  : RegPhase * AgentDb * BootstrapTokenRepository :=
  match n with
  | O => (rg_phase th, db, bt)
  | S n =>
      match register_step c th db bt with
      | None => (rg_phase th, db, bt)
      | Some (ph, db, bt) => register_run n c (at_reg_phase ph th) db bt
      end
  end.

Definition reg_outcome (ph : RegPhase) : option (result AdminError RegisterOutput) :=
  match ph with
  | RgWon _ out => Some (Ok out)
  | RgLost _ e => Some (Err e)
  | _ => None
  end.

Lemma register_uninterrupted c input pid sec s :
  parse (in_bootstrap_token input) = Ok (Bootstrap, pid, sec) ->
  let '(ph, db, bt) := register_run 6 c
      {| rg_pid := pid; rg_sec := sec; rg_input := input; rg_phase := RgWaiting |}
      (sv_agents s) (sv_bootstrap s) in
  let '(r, s') := register_agent_inner crate_text c input s in
  reg_outcome ph = Some r /\ s' = sv_with_agents db (sv_with_bootstrap bt s).
Proof.
  intros Hp. unfold register_agent_inner. rewrite Hp. simpl.
  unfold register_step at 1. simpl. destruct (preview_scope _ _ _) as [scope|e] eqn:Ev; simpl; [|by destruct s].
  unfold register_step at 1. simpl. destruct (create _ _ _ _ _ _ _ _ _) as [[[p a]|e] db] eqn:Ec; simpl; [|by destruct s].
  unfold register_step at 1. simpl. destruct (get_active_by_public_id _ _) as [[agent|]|e] eqn:Eg; simpl; [|by destruct s..].
  unfold register_step at 1. simpl. unfold consume.
  destruct (consume_read _ _ _ _) as [consumed|e] eqn:Er; simpl; [|by destruct s].
  unfold register_step at 1. simpl.
  destruct (consume_mark _ _ _ _ _ _) as [[x|e] bt] eqn:Em; simpl; by destruct s.
Qed.

(** ** Together *)

Definition set_reg (i : nat) (th : RegThread) (s : RegSys) : RegSys :=
  {| rg_agents := rg_agents s; rg_tokens := rg_tokens s; rg_threads := <[i := th]> (rg_threads s) |}.

Definition with_reg_tables (db : AgentDb) (bt : BootstrapTokenRepository) (s : RegSys) : RegSys :=
  {| rg_agents := db; rg_tokens := bt; rg_threads := rg_threads s |}.

(** [reg_agents] is any other statement on the agents table: operators'
    creations, revocations and edits, rotations, the time stamps of requests. *)
Inductive reg_sys_step : RegSys -> RegSys -> Prop :=
| reg_arrive s i th :
    rg_threads s !! i = None -> rg_phase th = RgWaiting -> reg_sys_step s (set_reg i th s)
| reg_act s i th c ph db bt :
    rg_threads s !! i = Some th -> register_step c th (rg_agents s) (rg_tokens s) = Some (ph, db, bt) ->
    reg_sys_step s (set_reg i (at_reg_phase ph th) (with_reg_tables db bt s))
| reg_agents s db :
    db_step (rg_agents s) db -> reg_sys_step s (with_reg_tables db (rg_tokens s) s)
| reg_mint s scope by_ rng t :
    reg_sys_step s (with_reg_tables (rg_agents s) (mint scope by_ rng t (rg_tokens s)).2 s)
| reg_revoke_token s pid t :
    reg_sys_step s (with_reg_tables (rg_agents s) (bt_revoke pid t (rg_tokens s)).2 s)
| reg_drop s i th :
    rg_threads s !! i = Some th -> (forall sc out, rg_phase th <> RgWon sc out) ->
    reg_sys_step s (set_reg i (at_reg_phase RgDropped th) s).

Definition reg_init (s : RegSys) : Prop :=
  agents_wf (rg_agents s) /\ online (rg_agents s) = true /\ tokens_wf (rg_tokens s) /\
  forall i th, rg_threads s !! i = Some th -> rg_phase th = RgWaiting.

(** *** Seen from one token, registrations are [consume] calls *)

Definition seen_as (pid : string) (th : RegThread) (o : option CPhase) : Prop :=
  rg_pid th = pid ->
  match rg_phase th with
  | RgWaiting | RgPreviewed _ | RgCreated _ _ _ => o = None
  | RgFound _ _ _ agent => o = Some (CStart (rg_sec th) (ag_id agent))
  | RgChecked _ _ _ agent consumed => o = Some (CRead consumed (ag_id agent))
  | RgWon consumed _ => o = Some (CWon consumed)
  | _ => True
  end.

Definition simulates (pid : string) (s : RegSys) (cs : ConSys) : Prop :=
  cdb cs = rg_tokens s /\
  (forall i, rg_threads s !! i = None -> consumers cs !! i = None) /\
  forall i th, rg_threads s !! i = Some th -> seen_as pid th (consumers cs !! i).

(** A thread moves on without a [consume] statement for the token. *)
Lemma simulates_quiet pid s cs i th ph :
  simulates pid s cs -> rg_threads s !! i = Some th -> 
  seen_as pid (at_reg_phase ph th) (consumers cs !! i) ->
  simulates pid (set_reg i (at_reg_phase ph th) s) cs.
Proof.
  intros (Hd & Hn & Ht) Hi Hs. split; [done|]. split; simpl.
  - intros j Hj. apply lookup_insert_None in Hj as [Hj _]. by apply Hn.
  - intros j th' [[<- <-]|[_ Hj]]%lookup_insert_Some; [done|by apply Ht].
Qed.

Lemma simulates_move pid s cs i th ph bt db p :
  simulates pid s cs -> rg_threads s !! i = Some th ->
  seen_as pid (at_reg_phase ph th) (Some p) ->
  simulates pid (set_reg i (at_reg_phase ph th) (with_reg_tables db bt s))
    {| cdb := bt; consumers := <[i := p]> (consumers cs) |}.
Proof.
  intros (Hd & Hn & Ht) Hi Hs. split; [done|]. split; simpl.
  - intros j [Hj Hne]%lookup_insert_None. rewrite lookup_insert_ne by done. by apply Hn.
  - intros j th' [[<- <-]|[Hne Hj]]%lookup_insert_Some; [by rewrite lookup_insert_eq|].
    rewrite lookup_insert_ne by done. by apply Ht.
Qed.

Lemma simulates_tables pid s cs db bt :
  simulates pid s cs ->
  simulates pid (with_reg_tables db bt s) {| cdb := bt; consumers := consumers cs |}.
Proof. by intros (Hd & Hn & Ht). Qed.

Lemma simulates_agents pid s cs db :
  simulates pid s cs -> simulates pid (with_reg_tables db (rg_tokens s) s) cs.
Proof. by intros (Hd & Hn & Ht). Qed.

(** [consume_mark] answers with the scope it was given, or leaves the table. *)
Lemma mark_reply ex scope pid aid t bt :
  match consume_mark ex scope pid aid t bt with
  | (Ok sc, _) => sc = scope
  | (Err _, bt') => bt' = bt
  end.
Proof. unfold consume_mark. by repeat case_match; simplify_eq. Qed.

Lemma act_simulated pid s cs i th c ph db bt :
  simulates pid s cs -> rg_threads s !! i = Some th ->
  register_step c th (rg_agents s) (rg_tokens s) = Some (ph, db, bt) ->
  exists cs', rtc (con_step pid) cs cs' /\
    simulates pid (set_reg i (at_reg_phase ph th) (with_reg_tables db bt s)) cs'.
Proof.
  intros S Hi. pose proof S as (Hd & Hn & Ht). specialize (Ht i th Hi). unfold seen_as in Ht.
  assert (Q : forall ph' db', seen_as pid (at_reg_phase ph' th) (consumers cs !! i) ->
    simulates pid (set_reg i (at_reg_phase ph' th) (with_reg_tables db' (rg_tokens s) s)) cs).
  { intros ph' db' Hs. by apply simulates_quiet; [apply simulates_agents|..]. }
  unfold register_step. destruct (rg_phase th) as [|sc|sc p a|sc p a ag|sc p a ag con|p e|con out|o e|] eqn:Eph;
    try done.
  - destruct (preview_scope _ _ _); intros [= <- <- <-]; exists cs; (split; [done|]); by apply Q.
  - destruct (create _ _ _ _ _ _ _ _ _) as [[[p a]|e] db']; intros [= <- <- <-]; exists cs; (split; [done|]);
      by apply Q.
  - destruct (get_active_by_public_id _ _) as [[ag|]|]; intros [= <- <- <-];
      [|exists cs; (split; [done|]); by apply Q..].
    destruct (decide (rg_pid th = pid)) as [E|E]; [|exists cs; split; [done|]; apply Q; intros []%E].
    eexists. split; [apply rtc_once, (con_arrive pid cs i (rg_sec th) (ag_id ag)), Ht, E|].
    rewrite Hd. by apply simulates_move.
  - destruct (consume_read _ _ _ _) as [con|e] eqn:Er; intros [= <- <- <-];
      [|exists cs; (split; [done|]); by apply Q].
    destruct (decide (rg_pid th = pid)) as [E|E]; [|exists cs; split; [done|]; apply Q; intros []%E].
    eexists. split; [apply rtc_once; eapply (con_read pid cs i); [by apply Ht|by rewrite Hd, <- E]|].
    rewrite Hd. by apply simulates_move.
  - pose proof (mark_reply (agent_row_exists (rg_agents s)) con (rg_pid th) (ag_id ag) (now c) (rg_tokens s)) as M.
    destruct (consume_mark _ _ _ _ _ _) as [[x|e] bt'] eqn:Em; intros [= <- <- <-]; subst;
      [|exists cs; (split; [done|]); by apply Q].
    destruct (decide (rg_pid th = pid)) as [E|E].
    + eexists. split; [|by apply simulates_move].
      apply rtc_once. eapply (con_mark pid cs i); [by apply Ht|by rewrite Hd, <- E].
    + exists {| cdb := bt'; consumers := consumers cs |}. split.
      * apply rtc_once. pose proof (con_other pid cs (rg_pid th) (agent_row_exists (rg_agents s)) con
          (ag_id ag) (now c)) as O. by rewrite Hd, Em in O.
      * by apply simulates_quiet; [apply simulates_tables|done|intros []%E].
  - intros [= <- <- <-]. exists cs. split; [done|]. by apply Q.
Qed.

Lemma step_simulated pid s s' cs :
  simulates pid s cs -> reg_sys_step s s' ->
  exists cs', rtc (con_step pid) cs cs' /\ simulates pid s' cs'.
Proof.
  intros S Hst. pose proof S as (Hd & Hn & Ht).
  destruct Hst as [s i th Hi Hw|s i th c ph db bt Hi Hs|s db Hs|s scope by_ rng t|s pid' t|s i th Hi Hw].
  - exists cs. split; [done|]. split; [done|]. split; simpl.
    + intros j [Hj _]%lookup_insert_None. by apply Hn.
    + intros j th' [[<- <-]|[_ Hj]]%lookup_insert_Some; [|by apply Ht].
      intros _. rewrite Hw. by apply Hn.
  - by eapply act_simulated.
  - exists cs. split; [done|]. by apply simulates_agents.
  - eexists. split; [apply rtc_once, (con_mint pid cs scope by_ rng t)|]. rewrite Hd. by apply simulates_tables.
  - eexists. split; [apply rtc_once, (con_revoke pid cs pid' t)|]. rewrite Hd. by apply simulates_tables.
  - exists cs. split; [done|]. by apply simulates_quiet.
Qed.

Lemma reachable_simulated pid s s' cs :
  simulates pid s cs -> rtc reg_sys_step s s' ->
  exists cs', rtc (con_step pid) cs cs' /\ simulates pid s' cs'.
Proof.
  intros S Hr. revert cs S. induction Hr as [|s s1 s2 Hst _ IH]; intros cs S; [by exists cs|].
  destruct (step_simulated _ _ _ _ S Hst) as (cs1 & R1 & S1).
  destruct (IH cs1 S1) as (cs2 & R2 & S2). exists cs2. split; [by transitivity cs1|done].
Qed.

Lemma init_simulated pid s :
  reg_init s -> simulates pid s {| cdb := rg_tokens s; consumers := ∅ |} /\
  con_inv pid {| cdb := rg_tokens s; consumers := ∅ |}.
Proof.
  intros (_ & _ & W & Hw). split.
  - split; [done|]. split; [done|]. intros i th Hi _. by rewrite (Hw i th Hi).
  - by split.
Qed.

(** *** The agents left behind *)

Definition present_in (p : string) (db : AgentDb) : Prop :=
  exists r, r ∈ agents db /\ ag_public_id r = p.

Lemma db_step_present p db db' : db_step db db' -> present_in p db -> present_in p db'.
Proof.
  intros [|q f Hf|row Hid Hu] (r & Hr & Hp).
  - by exists r.
  - exists (if q r then f r else r). split; [apply elem_of_sql_update; eauto|].
    destruct (q r); [|done]. destruct (Hf r) as (_ & -> & _). done.
  - exists r. split; [apply elem_of_app; by left|done].
Qed.

(** The agent a registration has made, while it has not failed. *)
Definition holds_agent (ph : RegPhase) : option string :=
  match ph with
  | RgCreated _ p _ | RgFound _ p _ _ | RgChecked _ p _ _ _ | RgRollback p _ => Some p
  | RgWon _ out => Some (out_public_id out)
  | _ => None
  end.

Record tidy (s : RegSys) : Prop := {
  ty_wf : agents_wf (rg_agents s);
  ty_online : online (rg_agents s) = true;
  ty_held : forall i th p, rg_threads s !! i = Some th -> holds_agent (rg_phase th) = Some p ->
    present_in p (rg_agents s);
  ty_lost : forall i th p e, rg_threads s !! i = Some th -> rg_phase th = RgLost (Some p) e ->
    revoked_in p (rg_agents s)
}.

Lemma tidy_agents s db bt :
  db_step (rg_agents s) db -> tidy s -> tidy (with_reg_tables db bt s).
Proof.
  intros Hs [W O H1 L]. split; simpl.
  - by eapply db_step_wf.
  - by destruct Hs.
  - intros i th p Hi Hp. eapply db_step_present; [done|by eapply H1].
  - intros i th p e Hi Hp. eapply db_step_revoked; [done|by eapply L].
Qed.

Lemma tidy_thread s i th :
  tidy s ->
  (forall p, holds_agent (rg_phase th) = Some p -> present_in p (rg_agents s)) ->
  (forall p e, rg_phase th = RgLost (Some p) e -> revoked_in p (rg_agents s)) ->
  tidy (set_reg i th s).
Proof.
  intros [W O H1 L] Hp Hl. split; simpl; try done.
  - intros j th' p [[<- <-]|[_ Hj]]%lookup_insert_Some; [by apply Hp|by apply (H1 j)].
  - intros j th' p e [[<- <-]|[_ Hj]]%lookup_insert_Some; [by apply Hl|by apply (L j)].
Qed.

(** An agent that is there and not active has been revoked. *)
Lemma inactive_revoked p db :
  present_in p db -> get_active_by_public_id p db = Ok None -> revoked_in p db.
Proof.
  intros (r & Hr & Hp). unfold get_active_by_public_id. destruct (online db); [|done].
  intros [= F]. exists r. split; [done|]. split; [done|].
  pose proof (proj1 (find_first_None _ _) F r Hr) as N. unfold active_by_public_id, by_public_id in N.
  rewrite bool_decide_eq_true_2 in N by done. unfold is_active in N. by destruct (isSome _).
Qed.

Lemma present_revoked p t db :
  present_in p db -> online db = true -> revoked_in p (revoke p t db).2.
Proof.
  intros (r & Hr & Hp) Hon. apply revoke_revokes. unfold revoke, update_or_not_found, query.
  rewrite Hon. destruct (sql_exists _ _) eqn:E; [done|].
  pose proof (proj1 (sql_exists_false _ _) E r Hr) as N. unfold by_public_id in N.
  by rewrite bool_decide_eq_true_2 in N.
Qed.

Lemma find_first_bt_unique bt r pid :
  tokens_wf bt -> r ∈ tokens bt -> bt_public_id r = pid -> find_first (by_bt pid) (tokens bt) = Some r.
Proof. intros [W] Hr <-. exact (find_first_key bt_public_id _ _ W Hr). Qed.

Lemma create_present n d a dl m e rng t db p sec db' :
  create n d a dl m e rng t db = (Ok (p, sec), db') -> present_in p db'.
Proof.
  unfold create, query. intros E. repeat case_match; simplify_eq/=. eexists.
  split; [apply elem_of_app; right; by apply list_elem_of_singleton|done].
Qed.

Lemma act_tidy s i th c ph db bt :
  tidy s -> rg_threads s !! i = Some th ->
  register_step c th (rg_agents s) (rg_tokens s) = Some (ph, db, bt) ->
  tidy (set_reg i (at_reg_phase ph th) (with_reg_tables db bt s)).
Proof.
  intros T Hi. pose proof (ty_held _ T i th) as Hh.
  assert (K : forall ph' bt', (forall p, holds_agent ph' = Some p -> present_in p (rg_agents s)) ->
    (forall p e, ph' = RgLost (Some p) e -> revoked_in p (rg_agents s)) ->
    tidy (set_reg i (at_reg_phase ph' th) (with_reg_tables (rg_agents s) bt' s))).
  { intros ph' bt' Hp Hl. by apply tidy_thread; [apply tidy_agents; [apply db_same|]|..]. }
  unfold register_step. destruct (rg_phase th) as [|sc|sc p a|sc p a ag|sc p a ag con|p e|con out|o e|] eqn:Eph;
    try done.
  - destruct (preview_scope _ _ _); intros [= <- <- <-]; by apply K.
  - match goal with |- context [create ?a ?b ?d ?e ?f ?g ?h ?j ?k] =>
      pose proof (create_step a b d e f g h j k) as Hst end.
    destruct (create _ _ _ _ _ _ _ _ _) as [[[p a]|e] db'] eqn:Ec; intros [= <- <- <-]; simpl in Hst;
      (apply tidy_thread; [by apply tidy_agents|simpl|done]); [|done].
    intros q [= <-]. by eapply create_present.
  - destruct (get_active_by_public_id _ _) as [[ag|]|x] eqn:Eg; intros [= <- <- <-]; apply K; try done.
    + intros q [= <-]. by apply (Hh p).
    + intros q x [= <- <-]. apply inactive_revoked; [by apply (Hh p)|done].
    + unfold get_active_by_public_id in Eg. by rewrite (ty_online _ T) in Eg.
  - destruct (consume_read _ _ _ _); intros [= <- <- <-]; apply K; try done; intros q [= <-]; by apply (Hh p).
  - destruct (consume_mark _ _ _ _ _ _) as [[x|x] bt']; intros [= <- <- <-]; apply K; try done;
      intros q [= <-]; by apply (Hh p).
  - intros [= <- <- <-].
    apply tidy_thread; [apply tidy_agents; [apply (exec_step (OpRevoke p (now c)))|done]|done|].
    intros q x [= <- <-]. simpl. apply present_revoked; [by apply (Hh p)|apply T].
Qed.

Lemma step_tidy s s' : reg_sys_step s s' -> tidy s -> tidy s'.
Proof.
  intros [a i th Hi Hw|a i th c ph db bt Hi Hs|a db Hs|a scope by_ rng t|a pid' t|a i th Hi Hw] T.
  - by apply tidy_thread; [|rewrite Hw..].
  - by eapply act_tidy.
  - by apply tidy_agents.
  - by apply tidy_agents; [apply db_same|].
  - by apply tidy_agents; [apply db_same|].
  - by apply tidy_thread.
Qed.

Lemma reachable_tidy s s' : reg_init s -> rtc reg_sys_step s s' -> tidy s'.
Proof.
  intros (W & O & _ & Hw) Hr. assert (T : tidy s).
  { split; [done|done|..]; intros i th p; [|intros e]; intros Hi; by rewrite (Hw i th Hi). }
  clear W O Hw. induction Hr; eauto using step_tidy.
Qed.

(** C16: However registrations overlap, with each other, with mints and
    revocations, with everything else that writes the agents table, and with
    clients that disconnect half-way: a single-use bootstrap token registers
    at most one agent and is spent once it has, a registration that answers
    with an error has left no active agent behind, for good, and the agent of
    one that succeeded is in the table. *)
Theorem registrations_race s0 s :
  reg_init s0 -> rtc reg_sys_step s0 s ->
  (forall i j thi thj sc sc' out out',
     rg_threads s !! i = Some thi -> rg_phase thi = RgWon sc out ->
     rg_threads s !! j = Some thj -> rg_phase thj = RgWon sc' out' ->
     rg_pid thi = rg_pid thj -> sc_single_use sc = true -> i = j) /\
  (forall i th sc out, rg_threads s !! i = Some th -> rg_phase th = RgWon sc out ->
     present_in (out_public_id out) (rg_agents s) /\
     (sc_single_use sc = true -> forall t, is_ok (preview_scope (rg_pid th) t (rg_tokens s)) = false)) /\
  (forall i th p e, rg_threads s !! i = Some th -> rg_phase th = RgLost (Some p) e ->
     get_active_by_public_id p (rg_agents s) = Ok None).
Proof.
  intros Hi Hr. pose proof (reachable_tidy _ _ Hi Hr) as T.
  assert (C : forall pid, exists cs, con_inv pid cs /\ simulates pid s cs).
  { intros pid. destruct (init_simulated pid s0 Hi) as [S0 I0].
    destruct (reachable_simulated _ _ _ _ S0 Hr) as (cs & Rc & S). exists cs.
    split; [by eapply con_reachable|done]. }
  split; [|split].
  - intros i j thi thj sc sc' out out' Hti Hpi Htj Hpj E Hs.
    destruct (C (rg_pid thi)) as (cs & I & (_ & _ & Ht)).
    pose proof (Ht i thi Hti eq_refl) as A. rewrite Hpi in A.
    pose proof (Ht j thj Htj (eq_sym E)) as B. rewrite Hpj in B. by eapply (ci_once _ _ I).
  - intros i th sc out Hth Hph. split; [apply (ty_held _ T i th); [done|by rewrite Hph]|].
    intros Hs t. destruct (C (rg_pid th)) as (cs & I & (Hd & _ & Ht)).
    pose proof (Ht i th Hth eq_refl) as A. rewrite Hph in A.
    destruct (ci_won _ _ I i sc A) as (r & Hin & Hp & Hsc & Hu). rewrite Hd in Hin.
    unfold preview_scope. destruct (negb _); [done|].
    rewrite (find_first_bt_unique (rg_tokens s) r (rg_pid th)); [|rewrite <- Hd; apply I|done|done].
    unfold usable. by rewrite Hu.
  - intros i th p e Hth Hph. unfold get_active_by_public_id. rewrite (ty_online _ T). f_equal.
    apply revoked_not_active; [apply T|by eapply (ty_lost _ T)].
Qed.

(** An interleaving as the list of who moves next. *)
Definition reg_turn (s : RegSys) (m : nat * Call) : RegSys :=
  match rg_threads s !! m.1 with
  | None => s
  | Some th =>
      match register_step m.2 th (rg_agents s) (rg_tokens s) with
      | None => s
      | Some (ph, db, bt) => set_reg m.1 (at_reg_phase ph th) (with_reg_tables db bt s)
      end
  end.

Lemma turns_reachable ms s : rtc reg_sys_step s (fold_left reg_turn ms s).
Proof.
  revert s. induction ms as [|[i c] ms IH]; intros s; [done|]. simpl. etransitivity; [|apply IH].
  unfold reg_turn. simpl. destruct (rg_threads s !! i) as [th|] eqn:Hi; [|done].
  destruct (register_step _ _ _ _) as [[[ph db] bt]|] eqn:E; [|done].
  apply rtc_once. by eapply reg_act.
Qed.
End Register.

Module RegisterRaceWitness.
Import Base64Model Argon2Model AgentWitness BootstrapWitness.

Definition text0 : RepoError -> string := fun _ => "".

Definition call (t : Z) (seed : string) : Call := {| now := t; now_ms := t * 1000; entropy := rng seed |}.

Definition contender (name : string) : RegThread :=
  {| rg_pid := bt_pid; rg_sec := bt_secret;
     rg_input := {| in_bootstrap_token := ""; in_name := name; in_description := None;
                    in_metadata := None |};
     rg_phase := RgWaiting |}.

Definition sys0 : RegSys :=
  {| rg_agents := {| agents := []; next_id := 1; online := true |}; rg_tokens := minted;
     rg_threads := {[0%nat := contender "hermes"; 1%nat := contender "openclaw"]} |}.

Lemma sys0_init : reg_init sys0.
Proof.
  split; [split; try constructor; intros r Hr; by apply not_elem_of_nil in Hr|].
  split; [done|]. split; [apply con0_init|].
  intros i th. simpl. intros [[_ <-]|[_ [_ <-]%lookup_singleton_Some]]%lookup_insert_Some; done.
Qed.

(** Both check the token before either marks it; the second is faster. *)
Definition turns : list (nat * Call) :=
  [(0, call 20 "x"); (0, call 20 "x"); (1, call 20 "y"); (1, call 20 "y"); (0, call 21 "x");
   (1, call 21 "y"); (0, call 22 "x"); (1, call 22 "y"); (1, call 23 "y"); (0, call 24 "x");
   (0, call 25 "x")]%nat.

Definition raced : RegSys := fold_left (reg_turn text0) turns sys0.

Definition phase_name (ph : RegPhase) : string :=
  match ph with RgWon _ _ => "won" | RgLost (Some _) InvalidBootstrap => "lost" | _ => "other" end.

Example raced_outcome :
  phase_name <$> (rg_phase <$> rg_threads raced !! 0%nat) = Some "lost" /\
  phase_name <$> (rg_phase <$> rg_threads raced !! 1%nat) = Some "won".
Proof. vm_compute. done. Qed.

(** The agent the slower one had made. *)
Definition losing_agent : string :=
  match rg_phase <$> rg_threads raced !! 0%nat with Some (RgLost (Some p) _) => p | _ => "" end.

Definition loser : RegThread := default (contender "") (rg_threads raced !! 0%nat).

Example losing_agent_exists :
  existsb (fun r => bool_decide (ag_public_id r = losing_agent)) (agents (rg_agents raced)) = true.
Proof. vm_compute. reflexivity. Qed.

Lemma registrations_race_witness :
  get_active_by_public_id losing_agent (rg_agents raced) = Ok None.
Proof.
  apply (proj2 (proj2 (registrations_race text0 sys0 raced sys0_init (turns_reachable text0 turns sys0)))
           0%nat loser losing_agent InvalidBootstrap); vm_compute; reflexivity.
Defined.
End RegisterRaceWitness.
