(* ===== verification/AdminHttp.v ===== *)
(** * The admin router ([src/admin/uds.rs])

    The route tables of the agent and operator nests, their authentication
    middleware and every handler, over the admin service, the registrations
    API, the OAuth handlers and the credential overrides.  The extractors
    ([serde]'s decoders, percent-decoding) are parameters, as is what [axum]
    answers itself (no such route, wrong method, an extractor's rejection).  Agents and the audit log are shared with the
    authenticators, as they share the database. *)

From S2P Require Import Prelude Json Http Token Argon2Helper AgentRepo.
From S2P Require Import BootstrapRepo AuditLog Auth Secret ResponseControls Config.
From S2P Require Import Registrations Oauth AgentCreds AdminService OauthAdmin.

(** ** State *)

Record UdsConfig := {
  uc_operators : list OperatorRecord;
  uc_agent_decoy : string;
  (** [OperatorMtlsContext]: the mode and the validator. *)
  uc_operator_mtls : option (AuthMode * MtlsValidator)
}.

Record UdsState := {
  us_admin : AdminService;
  us_verifies : nat;
  us_registrations : option AdminRegistrationsState;
  us_oauth : option OauthAdminState;
  us_agent_creds : option AgentCredentialRepository
}.

Definition auth_view (st : UdsState) : AuthSt :=
  {| as_agents := sv_agents (us_admin st); as_audit := sv_audit (us_admin st);
     as_verifies := us_verifies st |}.

Definition with_auth (a : AuthSt) (st : UdsState) : UdsState :=
  {| us_admin := {| sv_agents := as_agents a; sv_bootstrap := sv_bootstrap (us_admin st);
                    sv_config := sv_config (us_admin st); sv_audit := as_audit a;
                    sv_resolved_creds := sv_resolved_creds (us_admin st) |};
     us_verifies := as_verifies a; us_registrations := us_registrations st;
     us_oauth := us_oauth st; us_agent_creds := us_agent_creds st |}.

Definition with_admin (s : AdminService) (st : UdsState) : UdsState :=
  {| us_admin := s; us_verifies := us_verifies st; us_registrations := us_registrations st;
     us_oauth := us_oauth st; us_agent_creds := us_agent_creds st |}.

(** The table, the catalog and the resolved credentials are shared: the OAuth
    handlers read the first two, the admin service the third. *)
Definition with_registrations (r : AdminRegistrationsState) (st : UdsState) : UdsState :=
  {| us_admin := {| sv_agents := sv_agents (us_admin st); sv_bootstrap := sv_bootstrap (us_admin st);
                    sv_config := sv_config (us_admin st); sv_audit := sv_audit (us_admin st);
                    sv_resolved_creds :=
                      match resolved_creds r with
                      | Some m => Some m | None => sv_resolved_creds (us_admin st) end |};
     us_verifies := us_verifies st; us_registrations := Some r;
     us_oauth := (fun o => {| oa_registrations := repo r; oa_sessions := oa_sessions o;
                              oa_sealing_key := oa_sealing_key o;
                              oa_catalog := default (oa_catalog o) (catalog r);
                              oa_locks := oa_locks o |}) <$> us_oauth st;
     us_agent_creds := us_agent_creds st |}.

Definition with_oauth (o : OauthAdminState) (st : UdsState) : UdsState :=
  {| us_admin := us_admin st; us_verifies := us_verifies st;
     us_registrations := us_registrations st; us_oauth := Some o;
     us_agent_creds := us_agent_creds st |}.

Definition with_agent_creds (c : AgentCredentialRepository) (st : UdsState) : UdsState :=
  {| us_admin := us_admin st; us_verifies := us_verifies st;
     us_registrations := us_registrations st; us_oauth := us_oauth st; us_agent_creds := Some c |}.

(** ** Responses *)

(** [error_response]. *)
Definition uds_error_response (e : AuthError) : Response :=
  json_response (auth_status e)
    (error_envelope [("code", JString (auth_code e)); ("message", JString (auth_message e))]).

Definition admin_err_response (e : AdminError) : Response :=
  let '(status, code) :=
    match e with
    | InvalidBootstrap => (401, "invalid_credential")
    | AdminNameConflict => (409, "agent_name_conflict")
    | AdminRotationInProgress => (409, "rotation_in_progress")
    | AdminAgentNotFound => (404, "agent_not_found")
    | NotAuthorized => (403, "forbidden")
    | AdminBackend _ => (500, "backend_error")
    end in
  json_response status
    (error_envelope [("code", JString code); ("message", JString (admin_error_display e))]).

Definition strings_json (l : option (list string)) : Json :=
  json_opt (fun l => JArray (map JString l)) l.

Definition agent_json (a : AgentRecord) : Json :=
  json_obj [("public_id", JString (ag_public_id a)); ("name", JString (ag_name a));
            ("description", json_opt JString (ag_description a));
            ("tool_allowlist", strings_json (ag_tool_allowlist a));
            ("tool_denylist", strings_json (ag_tool_denylist a));
            ("registered_at", JInt (ag_registered_at a));
            ("last_used_at", json_opt JInt (ag_last_used_at a));
            ("expires_at", json_opt JInt (ag_expires_at a));
            ("revoked_at", json_opt JInt (ag_revoked_at a));
            ("cert_identity", json_opt JString (ag_cert_identity a))].

Definition token_json (t : BootstrapTokenRecord) : Json :=
  json_obj [("public_id", JString (bt_public_id t)); ("scope", scope_json (bt_scope t));
            ("created_by", JString (bt_created_by t)); ("created_at", JInt (bt_created_at t));
            ("expires_at", json_opt JInt (bt_expires_at t));
            ("used_at", json_opt JInt (bt_used_at t));
            ("used_by_agent_id", json_opt JInt (bt_used_by_agent_id t));
            ("revoked_at", json_opt JInt (bt_revoked_at t))].

Definition audit_event_json (e : AuditEvent) : Json :=
  json_obj [("ts_ms", JInt (ts_ms e));
            ("event_class", JString (event_class_as_str (event_class e)));
            ("event", JString (event e));
            ("agent_public_id", json_opt JString (agent_public_id e));
            ("agent_name", json_opt JString (agent_name e));
            ("operator_name", json_opt JString (operator_name e));
            ("tool", json_opt JString (tool e));
            ("upstream_host", json_opt JString (upstream_host e));
            ("method", json_opt JString (method e)); ("path", json_opt JString (path e));
            ("status", json_opt JInt (status e)); ("latency_ms", json_opt JInt (latency_ms e));
            ("decision", JString (decision_as_str (decision e)));
            ("auth_method", json_opt JString (auth_method e));
            ("origin_ip", json_opt JString (origin_ip e)); ("details", json_opt id (details e))].

Definition tool_info_json (t : ToolInfo) : Json :=
  json_obj [("name", JString (ti_name t)); ("description", JString (ti_description t));
            ("egress", JString (ti_egress t));
            ("credential_present", JBool (ti_credential_present t))].

Definition status_json (o : AgentStatusOutput) : Json :=
  json_obj [("public_id", JString (so_public_id o)); ("name", JString (so_name o));
            ("description", json_opt JString (so_description o));
            ("allowlist", strings_json (so_allowlist o)); ("denylist", strings_json (so_denylist o));
            ("registered_at", JInt (so_registered_at o));
            ("last_used_at", json_opt JInt (so_last_used_at o));
            ("expires_at", json_opt JInt (so_expires_at o))].

Definition register_json (o : RegisterOutput) : Json :=
  json_obj [("public_id", JString (out_public_id o)); ("token", JString (out_token o));
            ("allowlist", strings_json (out_allowlist o))].

Definition token_pair_json (p : string * string) : Json :=
  json_obj [("public_id", JString p.1); ("token", JString p.2)].

(** ** Requests *)

Record AuditQueryParams := {
  q_since_ms : option Z;
  q_until_ms : option Z;
  q_agent : option string;
  q_tool : option string;
  q_event_class : option string;
  q_decision : option string;
  q_limit : option nat;
  q_offset : option nat
}.

(** The extractors: [serde] on bodies and query strings, percent-decoding on
    path parameters; and the replies [axum] makes itself. *)
Class Extractors : Type := {
  path_params : list string -> option (list string);
  dec_register : Request -> option RegisterInput;
  dec_rotate : Request -> option string;
  dec_create_agent : Request -> option CreateAgentInput;
  dec_modify_agent : Request -> option ModifyAgentInput;
  dec_cert_identity : Request -> option (option string);
  dec_mint : Request -> option BootstrapScope;
  dec_auth_spec : Request -> option AuthSpec;
  dec_put : Request -> option PutBody;
  dec_oauth_bootstrap : Request -> option string;
  dec_include_revoked : Request -> option bool;
  dec_audit_query : Request -> option AuditQueryParams;
  dec_label : Request -> option (option string);
  rejection : Request -> Response;
  no_route : Request -> Response;
  method_not_allowed : Request -> Response;
  head_reply : Response -> Response
}.

Inductive Segment := Lit (s : string) | Param.

Fixpoint match_segments (pat : list Segment) (segs : list string) : option (list string) :=
  match pat, segs with
  | [], [] => Some []
  | Lit l :: pat', s :: segs' => if bool_decide (l = s) then match_segments pat' segs' else None
  | Param :: pat', s :: segs' =>
      if bool_decide (s = "") then None else cons s <$> match_segments pat' segs'
  | _, _ => None
  end.

(** A method router also serves HEAD where it serves GET; [any] serves all. *)
Definition serves (m req_m : string) : bool :=
  bool_decide (m = "ANY") || bool_decide (m = req_m)
  || (bool_decide (m = "GET") && bool_decide (req_m = "HEAD")).

(** The routes of a table whose path matches, with the path parameters. *)
Definition routes_at {H} (table : list (string * list Segment * H)) (segs : list string)
  : list (string * H * list string) :=
  omap (fun r => (fun ps => (r.1.1, r.2, ps)) <$> match_segments r.1.2 segs) table.

Inductive AgentHandler := HStatus | HRotate | HDeregister | HTools.

Definition agent_authed_routes : list (string * list Segment * AgentHandler) :=
  [("GET", [Lit "status"], HStatus); ("POST", [Lit "rotate"], HRotate);
   ("POST", [Lit "deregister"], HDeregister); ("GET", [Lit "tools"], HTools)].

Inductive OperatorHandler :=
| OListAgents | OCreateAgent | OGetAgent | OModifyAgent | ORevokeAgent | OSetCertIdentity
| OListCredentials | OSetCredential | OUnsetCredential
| OListBootstrap | OMintBootstrap | ORevokeBootstrap | OListTools | OQueryAudit
| ORegList (k : Kind) | ORegGet (k : Kind) | ORegPut (k : Kind) | ORegDelete (k : Kind)
| ORegEnable (k : Kind)
| OOauthList | OOauthStatus | OOauthRevoke | OOauthBootstrap.

Definition operator_existing : list (string * list Segment * OperatorHandler) :=
  [("GET", [Lit "agents"], OListAgents); ("POST", [Lit "agents"], OCreateAgent);
   ("GET", [Lit "agents"; Param], OGetAgent); ("PATCH", [Lit "agents"; Param], OModifyAgent);
   ("POST", [Lit "agents"; Param; Lit "revoke"], ORevokeAgent);
   ("PATCH", [Lit "agents"; Param; Lit "cert_identity"], OSetCertIdentity);
   ("GET", [Lit "agents"; Param; Lit "credentials"], OListCredentials);
   ("PUT", [Lit "agents"; Param; Lit "credentials"; Param], OSetCredential);
   ("DELETE", [Lit "agents"; Param; Lit "credentials"; Param], OUnsetCredential);
   ("GET", [Lit "bootstrap_tokens"], OListBootstrap);
   ("POST", [Lit "bootstrap_tokens"], OMintBootstrap);
   ("POST", [Lit "bootstrap_tokens"; Param; Lit "revoke"], ORevokeBootstrap);
   ("GET", [Lit "tools-legacy"], OListTools); ("GET", [Lit "audit"], OQueryAudit)].

(** [build_registrations_admin_router], one kind at a time. *)
Definition kind_routes (k : Kind) (seg : string) : list (string * list Segment * OperatorHandler) :=
  [("GET", [Lit seg], ORegList k); ("GET", [Lit seg; Param], ORegGet k);
   ("PUT", [Lit seg; Param], ORegPut k); ("DELETE", [Lit seg; Param], ORegDelete k);
   ("POST", [Lit seg; Param; Lit "enable"], ORegEnable k)].

Definition registrations_routes : list (string * list Segment * OperatorHandler) :=
  kind_routes Tool "tools" ++ kind_routes Model "models" ++ kind_routes Infra "infra".

Definition oauth_routes : list (string * list Segment * OperatorHandler) :=
  [("GET", [Lit "oauth"], OOauthList); ("GET", [Lit "oauth"; Param], OOauthStatus);
   ("DELETE", [Lit "oauth"; Param], OOauthRevoke);
   ("POST", [Lit "oauth"; Param; Lit "bootstrap"], OOauthBootstrap)].

Definition operator_routes (st : UdsState) : list (string * list Segment * OperatorHandler) :=
  operator_existing
  ++ (if isSome (us_registrations st) then registrations_routes else [])
  ++ (if isSome (us_oauth st) then oauth_routes else []).

(** ** Middleware *)

(** The clock, randomness and sealing nonces of one request; [ef_later] is
    the clock at the OAuth exchange. *)
Record Effects := {
  ef_call : Call;
  ef_nonces : option string * option string * option string;
  ef_later : Z
}.

Section Uds.
Context `{Base64Url} `{Base64Std} `{Argon2Crate} `{HttpCrate} `{X509Crate}.
Context `{AesGcm} `{SerdeJson} `{Sha2Crate} `{Extractors}.
Context (cfg : UdsConfig) (env : string -> option string).
Context (post : string -> list (string * string) -> option (Z * option TokenResponse)).
Context (crate_text : RepoError -> string) (registration_text : RegistrationError -> string).
Context (session_text : OauthSessionError -> string) (refresh_text : RefreshError -> string).

Definition agent_auth_middleware (ef : Effects) (req : Request) (st : UdsState)
  : result Response AgentIdentity * UdsState :=
  match header_str "authorization" req with
  | None => (Err (uds_error_response MissingCredential), st)
  | Some header =>
      let '(r, a) := authenticate_bearer (uc_agent_decoy cfg) (now (ef_call ef))
                       (now_ms (ef_call ef)) header (auth_view st) in
      (map_err uds_error_response r, with_auth a st)
  end.

(** The bearer tail of [operator_auth_middleware]. *)
Definition operator_bearer (ef : Effects) (req : Request) (st : UdsState)
  : result Response OperatorIdentity * UdsState :=
  match header_str "authorization" req with
  | None => (Err (uds_error_response MissingCredential), st)
  | Some header =>
      let '(r, a) := op_authenticate_bearer (uc_operators cfg) (now_ms (ef_call ef)) header
                       (auth_view st) in
      (map_err uds_error_response r, with_auth a st)
  end.

Definition operator_cert (ef : Effects) (v : MtlsValidator) (der : string) (st : UdsState)
  : result Response OperatorIdentity * UdsState :=
  match validate v (now (ef_call ef)) der with
  | Err _ => (Err (uds_error_response InvalidCredential), st)
  | Ok i =>
      let '(r, a) := authenticate_cert_identity (uc_operators cfg) (now_ms (ef_call ef))
                       (mi_value i) (auth_view st) in
      (map_err uds_error_response r, with_auth a st)
  end.

Definition operator_auth_middleware (ef : Effects) (req : Request) (st : UdsState)
  : result Response OperatorIdentity * UdsState :=
  match uc_operator_mtls cfg with
  | None => operator_bearer ef req st
  | Some (mode, v) =>
      let cert_der := match peer_cert (req_ext req) with Some c => c | None => None end in
      match mode, cert_der with
      | MtlsMode, None => (Err (uds_error_response MissingCredential), st)
      | MtlsMode, Some der | BothMode, Some der => operator_cert ef v der st
      | BothMode, None | BearerMode, _ => operator_bearer ef req st
      end
  end.

(** ** Agent handlers *)

(** A handler body that failed to decode is rejected before it runs. *)
Definition extract {A} (o : option A) (req : Request) (st : UdsState)
    (k : A -> Response * UdsState) : Response * UdsState :=
  match o with Some x => k x | None => (rejection req, st) end.

(** [Ok] through [f], [Err] through [admin_err_response]. *)
Definition admin_reply {A} (f : A -> Response) (r : result AdminError A) : Response :=
  match r with Ok x => f x | Err e => admin_err_response e end.

Definition reply_with {A} (f : A -> Response) (rs : result AdminError A * AdminService)
    (st : UdsState) : Response * UdsState :=
  (admin_reply f rs.1, with_admin rs.2 st).

Definition handle_register (ef : Effects) (req : Request) (st : UdsState) : Response * UdsState :=
  extract (dec_register req) req st (fun input =>
    reply_with (fun out => json_response 200 (register_json out))
      (register_agent crate_text (ef_call ef) input (us_admin st)) st).

Definition handle_status (agent : AgentIdentity) (st : UdsState) : Response * UdsState :=
  (admin_reply (fun out => json_response 200 (status_json out))
     (get_agent_status crate_text agent (us_admin st)), st).

Definition handle_rotate (ef : Effects) (agent : AgentIdentity) (req : Request) (st : UdsState)
  : Response * UdsState :=
  extract (dec_rotate req) req st (fun current_secret =>
    reply_with (fun p => json_response 200 (token_pair_json p))
      (rotate_agent crate_text (ef_call ef) agent current_secret (us_admin st)) st).

Definition handle_deregister (ef : Effects) (agent : AgentIdentity) (st : UdsState)
  : Response * UdsState :=
  reply_with (fun _ => status_response 204)
    (deregister_agent crate_text (ef_call ef) agent (us_admin st)) st.

Definition handle_agent_tools (agent : AgentIdentity) (st : UdsState) : Response * UdsState :=
  (json_response 200 (json_obj [("tools",
     JArray (map tool_info_json (list_tools_for_agent agent (us_admin st))))]), st).

Definition agent_handler (h : AgentHandler) (ef : Effects) (agent : AgentIdentity)
    (req : Request) (st : UdsState) : Response * UdsState :=
  match h with
  | HStatus => handle_status agent st
  | HRotate => handle_rotate ef agent req st
  | HDeregister => handle_deregister ef agent st
  | HTools => handle_agent_tools agent st
  end.

(** ** Operator handlers *)

Definition op_list_agents (req : Request) (st : UdsState) : Response * UdsState :=
  extract (dec_include_revoked req) req st (fun include_revoked =>
    (admin_reply (fun l => json_response 200 (json_obj [("agents", JArray (map agent_json l))]))
       (admin_list_agents crate_text include_revoked (us_admin st)), st)).

Definition op_get_agent (id : string) (st : UdsState) : Response * UdsState :=
  (admin_reply (fun a => json_response 200 (agent_json a)) (get_agent crate_text id (us_admin st)),
   st).

Definition op_create_agent (ef : Effects) (op : OperatorIdentity) (req : Request) (st : UdsState)
  : Response * UdsState :=
  extract (dec_create_agent req) req st (fun input =>
    reply_with (fun out => json_response 200 (register_json out))
      (create_agent_as_operator crate_text (ef_call ef) op input (us_admin st)) st).

Definition no_content (_ : unit) : Response := status_response 204.

Definition op_modify_agent (ef : Effects) (op : OperatorIdentity) (id : string) (req : Request)
    (st : UdsState) : Response * UdsState :=
  extract (dec_modify_agent req) req st (fun input =>
    reply_with no_content (modify_agent crate_text (ef_call ef) op id input (us_admin st)) st).

Definition op_revoke_agent (ef : Effects) (op : OperatorIdentity) (id : string) (st : UdsState)
  : Response * UdsState :=
  reply_with no_content (revoke_agent crate_text (ef_call ef) op id (us_admin st)) st.

Definition op_set_agent_cert_identity (ef : Effects) (op : OperatorIdentity) (id : string)
    (req : Request) (st : UdsState) : Response * UdsState :=
  extract (dec_cert_identity req) req st (fun cert =>
    reply_with no_content
      (set_agent_cert_identity crate_text (ef_call ef) op id cert (us_admin st)) st).

Definition op_mint_bootstrap (ef : Effects) (op : OperatorIdentity) (req : Request)
    (st : UdsState) : Response * UdsState :=
  extract (dec_mint req) req st (fun scope =>
    reply_with (fun p => json_response 200 (json_set "scope" (scope_json scope) (token_pair_json p)))
      (mint_bootstrap_token crate_text (ef_call ef) op scope (us_admin st)) st).

Definition op_list_bootstrap (st : UdsState) : Response * UdsState :=
  (admin_reply (fun l => json_response 200 (json_obj [("tokens", JArray (map token_json l))]))
     (list_bootstrap_tokens crate_text (us_admin st)), st).

Definition op_revoke_bootstrap (ef : Effects) (op : OperatorIdentity) (id : string)
    (st : UdsState) : Response * UdsState :=
  reply_with no_content (revoke_bootstrap_token crate_text (ef_call ef) op id (us_admin st)) st.

Definition op_list_tools (st : UdsState) : Response * UdsState :=
  (json_response 200 (json_obj [("tools",
     JArray (map tool_info_json (list_tools_for_operator (us_admin st))))]), st).

Definition bad_request (code message : string) : Response :=
  json_response 400 (error_envelope [("code", JString code); ("message", JString message)]).

Definition query_event_class (o : option string) : result Response (option EventClass) :=
  match o with
  | None => Ok None
  | Some s =>
      if bool_decide (s = "proxy") then Ok (Some Proxy)
      else if bool_decide (s = "operator") then Ok (Some OperatorClass)
      else if bool_decide (s = "security") then Ok (Some Security)
      else Err (bad_request "invalid_event_class" ("unknown event_class: " +:+ s))
  end.

Definition query_decision (o : option string) : result Response (option Decision) :=
  match o with
  | None => Ok None
  | Some s =>
      if bool_decide (s = "allowed") then Ok (Some Allowed)
      else if bool_decide (s = "denied") then Ok (Some Denied)
      else if bool_decide (s = "error") then Ok (Some Error)
      else Err (bad_request "invalid_decision" ("unknown decision: " +:+ s))
  end.

Definition op_query_audit (req : Request) (st : UdsState) : Response * UdsState :=
  extract (dec_audit_query req) req st (fun q =>
    match query_event_class (q_event_class q) with
    | Err resp => (resp, st)
    | Ok event_class =>
        match query_decision (q_decision q) with
        | Err resp => (resp, st)
        | Ok decision =>
            let filter := {| since_ms := q_since_ms q; until_ms := q_until_ms q;
                             f_agent_public_id := q_agent q; f_tool := q_tool q;
                             f_event_class := event_class; f_decision := decision |} in
            let page := {| limit := default 100%nat (q_limit q);
                           offset := default 0%nat (q_offset q) |} in
            (admin_reply (fun rows => json_response 200
                            (json_obj [("events", JArray (map audit_event_json rows))]))
               (admin_query_audit crate_text filter page (us_admin st)), st)
        end
    end).

(** The repository and the agent a credential-override handler works on. *)
Definition with_override_target (id : string) (st : UdsState)
    (k : AgentCredentialRepository -> AgentRecord -> Response * UdsState) : Response * UdsState :=
  match us_agent_creds st with
  | None => (admin_err_response (AdminBackend "agent_credential_overrides not wired"), st)
  | Some creds =>
      match get_agent crate_text id (us_admin st) with
      | Err e => (admin_err_response e, st)
      | Ok agent => k creds agent
      end
  end.

Definition overrides_error (op : string) (e : RepoError) : Response :=
  admin_err_response (AdminBackend ("agent_credential_overrides." +:+ op +:+ ": "
                                    +:+ repo_error_display crate_text e)).

Definition op_set_agent_credential (ef : Effects) (id registration : string) (req : Request)
    (st : UdsState) : Response * UdsState :=
  extract (dec_auth_spec req) req st (fun spec =>
    with_override_target id st (fun creds agent =>
      match creds_set (agent_row_exists (sv_agents (us_admin st))) (ag_id agent) registration spec
              (now (ef_call ef)) creds with
      | (Ok _, creds) =>
          (json_response 200 (json_obj [("agent_public_id", JString (ag_public_id agent));
                                        ("registration", JString registration);
                                        ("auth_spec", auth_spec_json spec)]),
           with_agent_creds creds st)
      | (Err e, creds) => (overrides_error "set" e, with_agent_creds creds st)
      end)).

Definition op_unset_agent_credential (id registration : string) (st : UdsState)
  : Response * UdsState :=
  with_override_target id st (fun creds agent =>
    match creds_delete (ag_id agent) registration creds with
    | (Ok _, creds) => (status_response 204, with_agent_creds creds st)
    | (Err e, creds) => (overrides_error "delete" e, with_agent_creds creds st)
    end).

Definition op_list_agent_credentials (id : string) (st : UdsState) : Response * UdsState :=
  with_override_target id st (fun creds agent =>
    match list_for_agent (ag_id agent) creds with
    | Ok rows =>
        (json_response 200 (json_obj
           [("agent_public_id", JString (ag_public_id agent));
            ("overrides", JArray (map (fun o => json_obj
               [("registration", JString (ov_registration o));
                ("auth_spec", auth_spec_json (ov_auth_spec o));
                ("created_at", JInt (ov_created_at o));
                ("updated_at", JInt (ov_updated_at o))]) rows))]), st)
    | Err e => (overrides_error "list" e, st)
    end).

(** The sub-routers' handlers run on their own state. *)
Definition reading {S} (o : option S) (st : UdsState) (req : Request) (k : S -> Response)
  : Response * UdsState :=
  match o with Some s => (k s, st) | None => (no_route req, st) end.

Definition on_registrations (st : UdsState) (req : Request)
    (k : AdminRegistrationsState -> Response * AdminRegistrationsState) : Response * UdsState :=
  match us_registrations st with
  | Some r => let '(resp, r') := k r in (resp, with_registrations r' st)
  | None => (no_route req, st)
  end.

Definition on_oauth (st : UdsState) (req : Request)
    (k : OauthAdminState -> Response * OauthAdminState) : Response * UdsState :=
  match us_oauth st with
  | Some o => let '(resp, o') := k o in (resp, with_oauth o' st)
  | None => (no_route req, st)
  end.

(** A handler with its path parameters; [Path] rejects a wrong number. *)
Definition operator_handler (h : OperatorHandler) (ef : Effects) (op : OperatorIdentity)
    (ps : list string) (req : Request) (st : UdsState) : Response * UdsState :=
  let t := now (ef_call ef) in
  let '(n0, n1, n2) := ef_nonces ef in
  match h, ps with
  | OListAgents, _ => op_list_agents req st
  | OCreateAgent, _ => op_create_agent ef op req st
  | OGetAgent, [id] => op_get_agent id st
  | OModifyAgent, [id] => op_modify_agent ef op id req st
  | ORevokeAgent, [id] => op_revoke_agent ef op id st
  | OSetCertIdentity, [id] => op_set_agent_cert_identity ef op id req st
  | OListCredentials, [id] => op_list_agent_credentials id st
  | OSetCredential, [id; reg] => op_set_agent_credential ef id reg req st
  | OUnsetCredential, [id; reg] => op_unset_agent_credential id reg st
  | OListBootstrap, _ => op_list_bootstrap st
  | OMintBootstrap, _ => op_mint_bootstrap ef op req st
  | ORevokeBootstrap, [id] => op_revoke_bootstrap ef op id st
  | OListTools, _ => op_list_tools st
  | OQueryAudit, _ => op_query_audit req st
  | ORegList k, _ => reading (us_registrations st) st req (op_list k)
  | ORegGet k, [n] => reading (us_registrations st) st req (op_get k n)
  | ORegPut k, [n] =>
      extract (dec_put req) req st (fun body => on_registrations st req (op_put env k n body t))
  | ORegDelete k, [n] => on_registrations st req (op_delete env k n t)
  | ORegEnable k, [n] => on_registrations st req (op_enable env k n t)
  | OOauthList, _ => reading (us_oauth st) st req (op_oauth_list session_text)
  | OOauthStatus, [n] =>
      extract (dec_label req) req st (fun label =>
        reading (us_oauth st) st req (op_oauth_status session_text n label))
  | OOauthRevoke, [n] =>
      extract (dec_label req) req st (fun label =>
        on_oauth st req (op_oauth_revoke session_text n label))
  | OOauthBootstrap, [n] =>
      extract (dec_label req) req st (fun label =>
        extract (dec_oauth_bootstrap req) req st (fun token =>
          on_oauth st req (op_oauth_bootstrap post registration_text session_text refresh_text
            n label token n0 n1 n2 t (ef_later ef))))
  | _, _ => (rejection req, st)
  end.

(** ** The router *)

(** The method router behind the middleware: the route that serves the
    method, its path parameters decoded; HEAD runs the GET handler. *)
Definition dispatch {H} (routes : list (string * H * list string)) (req : Request)
    (run : H -> list string -> UdsState -> Response * UdsState) (st : UdsState)
  : Response * UdsState :=
  match find_first (fun r => serves r.1.1 (req_method req)) routes with
  | None => (method_not_allowed req, st)
  | Some (_, h, raw) =>
      extract (path_params raw) req st (fun ps =>
        let '(resp, st) := run h ps st in
        (if bool_decide (req_method req = "HEAD") then head_reply resp else resp, st))
  end.

Definition agent_nest (ef : Effects) (segs : list string) (req : Request) (st : UdsState)
  : Response * UdsState :=
  match routes_at [("ANY", [Lit "register"], tt)] segs with
  | _ :: _ => handle_register ef req st
  | [] =>
      match routes_at agent_authed_routes segs with
      | [] => (no_route req, st)
      | routes =>
          match agent_auth_middleware ef req st with
          | (Err resp, st) => (resp, st)
          | (Ok agent, st) =>
              dispatch routes req (fun h _ st => agent_handler h ef agent req st) st
          end
      end
  end.

Definition operator_nest (ef : Effects) (segs : list string) (req : Request) (st : UdsState)
  : Response * UdsState :=
  match routes_at (operator_routes st) segs with
  | [] => (no_route req, st)
  | routes =>
      match operator_auth_middleware ef req st with
      | (Err resp, st) => (resp, st)
      | (Ok op, st) => dispatch routes req (fun h ps st => operator_handler h ef op ps req st) st
      end
  end.

Definition split_path (p : string) : list string :=
  split (fun c => bool_decide (c = "/"%char)) p.

(** [build_router], applied to a request. *)
Definition admin_router (ef : Effects) (req : Request) (st : UdsState) : Response * UdsState :=
  match split_path (req_path req) with
  | root :: nest :: side :: segs =>
      if negb (bool_decide (root = "") && bool_decide (nest = "admin")) then (no_route req, st)
      else if bool_decide (side = "agent") then agent_nest ef segs req st
      else if bool_decide (side = "operator") then operator_nest ef segs req st
      else (no_route req, st)
  | _ => (no_route req, st)
  end.

(** ** Who may write *)

(** Everything the admin API manages, the audit log and counters aside. *)
Definition managed (st : UdsState) :=
  (sv_agents (us_admin st), sv_bootstrap (us_admin st), us_registrations st, us_oauth st,
   us_agent_creds st).

(** The request carries operator [r]'s credential: a certificate the
    listener's validator accepts and [r] is bound to, or, where the listener
    takes bearer tokens, [r]'s token. *)
Definition vouched (ef : Effects) (req : Request) (r : OperatorRecord) : Prop :=
  let cert := match peer_cert (req_ext req) with Some c => c | None => None end in
  (exists mode v der i, uc_operator_mtls cfg = Some (mode, v) /\ mode <> BearerMode /\
     cert = Some der /\ validate v (now (ef_call ef)) der = Ok i /\
     rec_cert_identity r = Some (mi_value i)) \/
  ((forall v, uc_operator_mtls cfg <> Some (MtlsMode, v)) /\
   exists sec, header_str "authorization" req = Some ("Bearer " +:+
       wire_format {| namespace := Operator; public_id := rec_public_id r; secret := sec |}) /\
     verify (rec_token_hash r) sec = Ok true).

Lemma op_bearer_ok recs t header s id :
  (op_authenticate_bearer recs t header s).1 = Ok id ->
  exists sec r, r ∈ recs /\ header = "Bearer " +:+ wire_format
      {| namespace := Operator; public_id := rec_public_id r; secret := sec |} /\
    verify (rec_token_hash r) sec = Ok true.
Proof.
  unfold op_authenticate_bearer.
  destruct (strip_prefix "Bearer " header) as [raw|] eqn:Eh; [|done].
  apply strip_prefix_Some in Eh as ->.
  destruct (parse raw) as [[[ns pid] sec]|] eqn:Ep; [|done].
  case_bool_decide as Hns; [|done]. subst. simpl.
  destruct (parse_ok_shape _ _ _ _ Ep) as [-> _].
  destruct (find_first _ _) as [r|] eqn:F; [|done].
  destruct (verify _ _) as [[]|] eqn:Ev; try done. intros _.
  apply find_first_Some in F as [F1 F2]. apply bool_decide_eq_true in F2 as <-.
  by exists sec, r.
Qed.

Lemma op_bearer_agents recs t header s :
  as_agents (op_authenticate_bearer recs t header s).2 = as_agents s.
Proof.
  unfold op_authenticate_bearer. destruct (strip_prefix _ _) as [raw|]; [|done].
  destruct (parse raw) as [[[ns pid] sec]|]; [|done].
  destruct (bool_decide _); [|done]. simpl.
  destruct (find_first _ _) as [r|]; [|done]. by destruct (verify _ _) as [[]|].
Qed.

Lemma op_cert_agents recs t cert s :
  as_agents (authenticate_cert_identity recs t cert s).2 = as_agents s.
Proof. unfold authenticate_cert_identity. by destruct (find_first _ _). Qed.

Lemma with_auth_managed a st :
  as_agents a = sv_agents (us_admin st) -> managed (with_auth a st) = managed st.
Proof. intros E. unfold managed, with_auth. simpl. by rewrite E. Qed.

Lemma operator_bearer_spec ef req st :
  managed (operator_bearer ef req st).2 = managed st /\
  match (operator_bearer ef req st).1 with
  | Ok _ => (forall v, uc_operator_mtls cfg <> Some (MtlsMode, v)) ->
            exists r, r ∈ uc_operators cfg /\ vouched ef req r
  | Err resp => exists e, resp = uds_error_response e
  end.
Proof.
  unfold operator_bearer. destruct (header_str _ req) as [hd|] eqn:Eh; simpl; [|by eauto].
  destruct (op_authenticate_bearer _ _ hd _) as [r a] eqn:E. simpl. split.
  - apply with_auth_managed. replace a with (op_authenticate_bearer (uc_operators cfg)
      (now_ms (ef_call ef)) hd (auth_view st)).2 by (by rewrite E). apply op_bearer_agents.
  - destruct r as [op|e]; simpl; [|by eauto]. intros Hm.
    destruct (op_bearer_ok (uc_operators cfg) (now_ms (ef_call ef)) hd (auth_view st) op)
      as (sec & r & Hr & -> & V); [by rewrite E|].
    exists r. split; [done|]. right. eauto.
Qed.

Lemma operator_cert_spec ef v der req mode st :
  uc_operator_mtls cfg = Some (mode, v) -> mode <> BearerMode ->
  peer_cert (req_ext req) = Some (Some der) ->
  managed (operator_cert ef v der st).2 = managed st /\
  match (operator_cert ef v der st).1 with
  | Ok _ => exists r, r ∈ uc_operators cfg /\ vouched ef req r
  | Err resp => exists e, resp = uds_error_response e
  end.
Proof.
  intros Hc Hm Hp. unfold operator_cert.
  destruct (validate _ _ der) as [i|] eqn:Ev; simpl; [|by eauto].
  unfold authenticate_cert_identity.
  destruct (find_first _ _) as [r|] eqn:F; simpl; (split; [by apply with_auth_managed|]); [|by eauto].
  apply find_first_Some in F as [F1 F2]. apply bool_decide_eq_true in F2.
  exists r. split; [done|]. left. exists mode, v, der, i. by rewrite Hp.
Qed.

Lemma operator_middleware_spec ef req st :
  managed (operator_auth_middleware ef req st).2 = managed st /\
  match (operator_auth_middleware ef req st).1 with
  | Ok _ => exists r, r ∈ uc_operators cfg /\ vouched ef req r
  | Err resp => exists e, resp = uds_error_response e
  end.
Proof.
  unfold operator_auth_middleware.
  assert (B := operator_bearer_spec ef req st).
  assert (C := fun v der mode => operator_cert_spec ef v der req mode st).
  destruct (uc_operator_mtls cfg) as [[mode v]|] eqn:Ec.
  2: { destruct B as [B1 B2]. split; [done|]. destruct (operator_bearer _ _ _).1; [|done].
       by apply B2. }
  destruct (peer_cert (req_ext req)) as [[der|]|] eqn:Ep; destruct mode;
    try (by apply (C v der _ eq_refl)); try (by simpl; eauto);
    (destruct B as [B1 B2]; split; [done|]; destruct (operator_bearer _ _ _).1; [|done];
     apply B2; by intros ? [=]).
Qed.

(** C5: A request to the operator API that carries no operator's credential for
    this listener's mode (a verified token, or in the mTLS modes a valid
    certificate bound to an operator) is answered by the missing route or an
    authentication error, and changes nothing the API manages: no handler
    runs, for reading or writing. *)
Theorem operator_unauthenticated_denied ef req st segs :
  split_path (req_path req) = "" :: "admin" :: "operator" :: segs ->
  (forall r, r ∈ uc_operators cfg -> ~ vouched ef req r) ->
  managed (admin_router ef req st).2 = managed st /\
  ((admin_router ef req st).1 = no_route req \/
   exists e, (admin_router ef req st).1 = uds_error_response e).
Proof.
  intros Hp Hn. unfold admin_router. rewrite Hp. simpl. unfold operator_nest.
  destruct (routes_at _ segs) as [|x l]; [by auto|].
  destruct (operator_middleware_spec ef req st) as [M1 M2].
  destruct (operator_auth_middleware ef req st) as [[op|resp] st1]; simpl in *.
  - destruct M2 as (r & Hr & V). by destruct (Hn r Hr).
  - auto.
Qed.

(** ** What an agent may write *)

(** Only rows with public id [pid] differ. *)
Definition confined (pid : string) (db db' : AgentDb) : Prop :=
  forall x, ag_public_id x <> pid -> x ∈ agents db <-> x ∈ agents db'.

Lemma confined_refl pid db : confined pid db db.
Proof. done. Qed.

Lemma confined_trans pid db1 db2 db3 :
  confined pid db1 db2 -> confined pid db2 db3 -> confined pid db1 db3.
Proof. intros A B x Hx. by rewrite (A x Hx), (B x Hx). Qed.

Lemma confined_update pid p f db :
  (forall r, p r = true -> ag_public_id r = pid) ->
  (forall r, ag_public_id (f r) = ag_public_id r) ->
  confined pid db (set_agents (sql_update p f (agents db)) db).
Proof.
  intros Hp Hf x Hx. simpl. split.
  - intros Hi. apply elem_of_sql_update. exists x. split; [done|].
    destruct (p x) eqn:E; [by destruct (Hx (Hp x E))|done].
  - intros (r & Hr & ->)%elem_of_sql_update. destruct (p r) eqn:E; [|done].
    destruct Hx. by rewrite Hf, (Hp r E).
Qed.

Lemma by_public_id_eq pid r : by_public_id pid r = true -> ag_public_id r = pid.
Proof. unfold by_public_id. by intros ?%bool_decide_eq_true. Qed.

Lemma revoke_confined pid t db : confined pid db (revoke pid t db).2.
Proof.
  unfold revoke, update_or_not_found, query. destruct (online db); [|done].
  destruct (sql_exists _ _); [|done]. apply confined_update; [apply by_public_id_eq|done].
Qed.

Lemma touch_confined pid t db : confined pid db (touch_last_used pid t db).2.
Proof.
  unfold touch_last_used, query. destruct (online db); [|done].
  apply confined_update; [apply by_public_id_eq|done].
Qed.

Lemma rotate_confined pid cur rng db : confined pid db (rotate pid cur rng db).2.
Proof.
  unfold rotate. destruct (rotate_read _ _ _) as [h|]; [|done].
  destruct (hash _ _) as [nh|]; [|done]. unfold rotate_cas, query. destruct (online db); [|done].
  destruct (sql_exists _ _); [|done]. apply confined_update; [|done].
  intros r [[E _]%andb_true_iff _]%andb_true_iff. by apply by_public_id_eq.
Qed.

(** A successful login touches the row it authenticated, a failed one none. *)
Lemma authenticate_confined decoy t t_ms header s :
  match authenticate_bearer decoy t t_ms header s with
  | (Ok id, s') => confined (id_public_id id) (as_agents s) (as_agents s')
  | (Err _, s') => as_agents s' = as_agents s
  end.
Proof.
  unfold authenticate_bearer. destruct (strip_prefix _ _) as [raw|]; [|done].
  destruct (parse raw) as [[[ns pid] sec]|]; [|done].
  destruct (bool_decide _); [|done]. simpl. unfold resolve.
  destruct (get_active_by_public_id _ _) as [[r|]|]; try done.
  destruct (expired_at _ r); [done|]. destruct (verify _ _) as [[]|]; try done.
  apply touch_confined.
Qed.

(** The agent self-service handlers write the caller's row and the audit log. *)
Definition self_confined (pid : string) (st st' : UdsState) : Prop :=
  confined pid (sv_agents (us_admin st)) (sv_agents (us_admin st')) /\
  sv_bootstrap (us_admin st') = sv_bootstrap (us_admin st) /\
  us_registrations st' = us_registrations st /\ us_oauth st' = us_oauth st /\
  us_agent_creds st' = us_agent_creds st.

Lemma self_confined_refl pid st : self_confined pid st st.
Proof. by repeat split. Qed.

Lemma agent_handler_confined h ef agent req st :
  self_confined (id_public_id agent) st (agent_handler h ef agent req st).2.
Proof.
  destruct h; simpl; try apply self_confined_refl.
  - unfold handle_rotate, extract. destruct (dec_rotate req) as [cur|]; [|apply self_confined_refl].
    unfold reply_with, rotate_agent. simpl.
    pose proof (rotate_confined (id_public_id agent) cur (entropy (ef_call ef))
      (sv_agents (us_admin st))) as C.
    destruct (rotate _ _ _ _) as [r db]. by repeat split; simpl; try apply C.
  - unfold reply_with, handle_deregister, reply_with, deregister_agent. simpl.
    pose proof (revoke_confined (id_public_id agent) (now (ef_call ef))
      (sv_agents (us_admin st))) as C.
    destruct (revoke _ _ _) as [r db]. by repeat split; simpl; try apply C.
Qed.

(** C6: A request to the agent API other than a registration either leaves
    everything the API manages alone, or its bearer token authenticates an
    agent and only that agent's row changes: no other agent, no bootstrap
    token, registration, OAuth session or credential override. *)
Theorem agent_self_service_confined ef req st segs :
  split_path (req_path req) = "" :: "admin" :: "agent" :: segs -> segs <> ["register"] ->
  managed (admin_router ef req st).2 = managed st \/
  exists header id,
    header_str "authorization" req = Some header /\
    (authenticate_bearer (uc_agent_decoy cfg) (now (ef_call ef)) (now_ms (ef_call ef)) header
       (auth_view st)).1 = Ok id /\
    self_confined (id_public_id id) st (admin_router ef req st).2.
Proof.
  intros Hp Hr. unfold admin_router. rewrite Hp. simpl. unfold agent_nest.
  destruct (routes_at [("ANY", _, tt)] segs) as [|x l] eqn:E1.
  2: { destruct Hr. unfold routes_at in E1. simpl in E1. destruct segs as [|a [|b k]]; try done;
       case_bool_decide; simpl in *; congruence. }
  destruct (routes_at agent_authed_routes segs) as [|x l]; [by left|].
  unfold agent_auth_middleware. destruct (header_str _ req) as [hd|] eqn:Eh; [|by left].
  pose proof (authenticate_confined (uc_agent_decoy cfg) (now (ef_call ef)) (now_ms (ef_call ef)) hd
    (auth_view st)) as A.
  destruct (authenticate_bearer _ _ _ hd _) as [[id|e] a] eqn:Ea; simpl.
  2: { left. by apply with_auth_managed. }
  right. exists hd, id. split; [done|]. split; [by rewrite Ea|].
  assert (self_confined (id_public_id id) st (with_auth a st)) as S0
    by (split; [exact A|by repeat split]).
  unfold dispatch. destruct (find_first _ _) as [[[m h] raw]|]; [|done].
  unfold extract. destruct (path_params raw) as [ps|]; [|done].
  pose proof (agent_handler_confined h ef id req (with_auth a st)) as S1.
  destruct (agent_handler _ _ _ _ _) as [resp st'] eqn:Ehd. simpl in *.
  destruct S0 as (C0 & B0 & R0 & O0 & K0), S1 as (C1 & B1 & R1 & O1 & K1).
  split; [exact (confined_trans _ _ _ _ C0 C1)|]. repeat split; congruence.
Qed.

(** ** Which writes are audited *)

(** The writes of the registrations, credential-override and OAuth handlers. *)
Definition unaudited (h : OperatorHandler) : bool :=
  match h with
  | ORegPut _ | ORegDelete _ | ORegEnable _ | OSetCredential | OUnsetCredential
  | OOauthRevoke | OOauthBootstrap => true
  | _ => false
  end.

Lemma extract_keeps {A B} (f : UdsState -> B) (o : option A) req st k :
  (forall x, f (k x).2 = f st) -> f (extract o req st k).2 = f st.
Proof. intros Hk. destruct o; simpl; auto. Qed.

Lemma on_registrations_audit st req k :
  sv_audit (us_admin (on_registrations st req k).2) = sv_audit (us_admin st).
Proof. unfold on_registrations. destruct (us_registrations st); [|done]. by destruct (k _). Qed.

Lemma on_oauth_audit st req k :
  sv_audit (us_admin (on_oauth st req k).2) = sv_audit (us_admin st).
Proof. unfold on_oauth. destruct (us_oauth st); [|done]. by destruct (k _). Qed.

Lemma with_override_target_keeps {B} (f : UdsState -> B) id st k :
  (forall c a, f (k c a).2 = f st) -> f (with_override_target id st k).2 = f st.
Proof. intros Hk. unfold with_override_target. by repeat case_match. Qed.

Lemma unaudited_keeps_log h ef op ps req st :
  unaudited h = true ->
  sv_audit (us_admin (operator_handler h ef op ps req st).2) = sv_audit (us_admin st).
Proof.
  intros Hh. unfold operator_handler. destruct (ef_nonces ef) as [[n0 n1] n2].
  destruct h; try discriminate Hh; destruct ps as [|p [|p' [|p'' ps]]]; try reflexivity;
    try apply on_registrations_audit.
  - apply (extract_keeps (fun st => sv_audit (us_admin st))). intros spec.
    apply (with_override_target_keeps (fun st => sv_audit (us_admin st))). intros c a.
    by destruct (creds_set _ _ _ _ _ _) as [[]].
  - apply (with_override_target_keeps (fun st => sv_audit (us_admin st))). intros c a.
    by destruct (creds_delete _ _ _) as [[]].
  - apply (extract_keeps (fun st => sv_audit (us_admin st))). intros. apply on_registrations_audit.
  - apply (extract_keeps (fun st => sv_audit (us_admin st))). intros. apply on_oauth_audit.
  - apply (extract_keeps (fun st => sv_audit (us_admin st))). intros.
    apply (extract_keeps (fun st => sv_audit (us_admin st))). intros. apply on_oauth_audit.
Qed.

Lemma with_target_reads id st (k : AgentCredentialRepository -> AgentRecord -> Response * UdsState) :
  (forall c a, (k c a).2 = st) -> (with_override_target id st k).2 = st.
Proof. intros Hk. unfold with_override_target. by repeat case_match. Qed.

(** C22: What an operator's call leaves in the log: the agent and bootstrap-token
    handlers either change nothing at all or append exactly one row that
    names the operator, while the handlers that write registrations,
    credential overrides and OAuth sessions never append one. *)
Theorem operator_write_audit h ef op ps req st :
  audit_writable (sv_audit (us_admin st)) = true ->
  let st' := (operator_handler h ef op ps req st).2 in
  if unaudited h then sv_audit (us_admin st') = sv_audit (us_admin st)
  else st' = st \/
       exists ok, audited (ef_call ef) (Some op) (us_admin st) (ok, us_admin st').
Proof.
  intros Hw st'. destruct (unaudited h) eqn:Hh; [by apply unaudited_keeps_log|].
  assert (X : forall o ok, actor o = Some op ->
    admin_exec crate_text (ef_call ef) o (us_admin st) = (ok, us_admin st') ->
    audited (ef_call ef) (Some op) (us_admin st) (ok, us_admin st')).
  { intros o ok <- <-. by apply admin_exec_audited. }
  subst st'. unfold operator_handler in *. destruct (ef_nonces ef) as [[n0 n1] n2].
  destruct h; try discriminate Hh; destruct ps as [|p [|p' ps]]; try (by left);
    try (left; apply (extract_keeps id); intros; unfold reading; by repeat case_match);
    try (left; unfold reading; by case_match);
    try (left; apply with_target_reads; intros; by case_match);
    try (unfold op_create_agent, op_modify_agent, op_set_agent_cert_identity, op_mint_bootstrap in *;
         match goal with |- context [extract ?o] => destruct o as [x|]; [|by left] end);
    right; eexists.
  all: first [ eapply (X (ACreate op x)); reflexivity | eapply (X (AModify op p x)); reflexivity
             | eapply (X (ARevoke op p)); reflexivity | eapply (X (ASetCert op p x)); reflexivity
             | eapply (X (AMint op x)); reflexivity | eapply (X (ARevokeBootstrap op p)); reflexivity ].
Qed.
End Uds.

Module AdminHttpWitness.
Import Base64Model Argon2Model HttpModel AgentWitness AuthWitness OauthWitness ControlsWitness.

(** Decoders that read the body literally; path parameters are
    percent-decoded. *)
#[export] Instance extractors : Extractors := {|
  path_params l := Some (map percent_decode l);
  dec_register _ := None;
  dec_rotate r := Some (req_body r);
  dec_create_agent _ := None;
  dec_modify_agent _ := None;
  dec_cert_identity r := Some (Some (req_body r));
  dec_mint _ := None;
  dec_auth_spec r := Some (SpecBearer (req_body r) false);
  dec_put _ := None;
  dec_oauth_bootstrap r := Some (req_body r);
  dec_include_revoked _ := Some false;
  dec_audit_query _ := None;
  dec_label _ := Some None;
  rejection _ := status_response 422;
  no_route _ := status_response 404;
  method_not_allowed _ := status_response 405;
  head_reply r := {| resp_status := resp_status r; resp_headers := resp_headers r;
                     resp_body := EmptyBody |}
|}.

Definition ust0 : UdsState :=
  {| us_admin := AdminWitness.svc; us_verifies := 0; us_registrations := Some RegWitness.st1;
     us_oauth := Some OauthAdminWitness.st0; us_agent_creds := Some CredsWitness.db0 |}.

Definition ucfg : UdsConfig :=
  {| uc_operators := operators; uc_agent_decoy := "decoy"; uc_operator_mtls := None |}.
Definition ucfg_mtls : UdsConfig :=
  {| uc_operators := operators; uc_agent_decoy := "decoy";
     uc_operator_mtls := Some (MtlsMode, validator) |}.

Definition ef0 : Effects :=
  {| ef_call := AdminWitness.call0; ef_nonces := (nonce, nonce, nonce); ef_later := 21 |}.

Definition request (m p auth body : string) : Request :=
  {| req_method := m; req_path := p; req_query := None; req_headers := [("authorization", auth)];
     req_body := body;
     req_ext := {| peer_cert := None; authenticated_as := None; identity := None |} |}.

Definition handle (cfg : UdsConfig) (req : Request) : Response * UdsState :=
  admin_router cfg RegWitness.env0 provider AdminWitness.text0 OauthAdminWitness.text1
    OauthAdminWitness.text1 OauthAdminWitness.text1 ef0 req ust0.

Definition revoke_path : string := "/admin/operator/agents/" +:+ dev_pid +:+ "/revoke".

Example operator_revokes :
  resp_status (handle ucfg (request "POST" revoke_path op_header "")).1 = 204.
Proof. vm_compute. reflexivity. Qed.

Example wrong_method :
  resp_status (handle ucfg (request "DELETE" revoke_path op_header "")).1 = 405.
Proof. vm_compute. reflexivity. Qed.

Example override_set :
  resp_status (handle ucfg (request "PUT"
    ("/admin/operator/agents/dev/credentials/tavily") op_header "KEY")).1 = 200.
Proof. vm_compute. reflexivity. Qed.

(** An operator's token does not pass a listener in mTLS-only mode. *)
Lemma operator_unauthenticated_denied_witness :
  managed (handle ucfg_mtls (request "POST" revoke_path op_header "")).2 = managed ust0 /\
  ((handle ucfg_mtls (request "POST" revoke_path op_header "")).1 =
     no_route (request "POST" revoke_path op_header "") \/
   exists e, (handle ucfg_mtls (request "POST" revoke_path op_header "")).1 = uds_error_response e).
Proof.
  apply (operator_unauthenticated_denied ucfg_mtls RegWitness.env0 provider AdminWitness.text0
    OauthAdminWitness.text1 OauthAdminWitness.text1 OauthAdminWitness.text1 ef0 _ ust0
    ["agents"; dev_pid; "revoke"]).
  - vm_compute. reflexivity.
  - intros r _ [(mode & v & der & i & _ & _ & [=] & _)|[Hn _]].
    by apply (Hn validator).
Defined.

Definition rotate_req : Request := request "POST" "/admin/agent/rotate" dev_header dev_secret.

Lemma agent_self_service_confined_witness :
  managed (handle ucfg rotate_req).2 = managed ust0 \/
  exists header id,
    header_str "authorization" rotate_req = Some header /\
    (authenticate_bearer "decoy" 20 20000 header (auth_view ust0)).1 = Ok id /\
    self_confined (id_public_id id) ust0 (handle ucfg rotate_req).2.
Proof.
  apply (agent_self_service_confined ucfg RegWitness.env0 provider AdminWitness.text0
    OauthAdminWitness.text1 OauthAdminWitness.text1 OauthAdminWitness.text1 ef0 rotate_req ust0
    ["rotate"]); [vm_compute; reflexivity|discriminate].
Defined.

Definition set_req : Request := request "PUT" "" op_header "KEY".

Lemma operator_write_audit_witness :
  sv_audit (us_admin (operator_handler RegWitness.env0 provider AdminWitness.text0
    OauthAdminWitness.text1 OauthAdminWitness.text1 OauthAdminWitness.text1
    OSetCredential ef0 alice ["dev"; "tavily"] set_req ust0).2) = sv_audit (us_admin ust0).
Proof.
  apply (operator_write_audit RegWitness.env0 provider AdminWitness.text0
    OauthAdminWitness.text1 OauthAdminWitness.text1 OauthAdminWitness.text1
    OSetCredential ef0 alice ["dev"; "tavily"] set_req ust0). vm_compute. reflexivity.
Defined.

End AdminHttpWitness.
