(* ===== verification/RouterInvariant.v ===== *)
(** * Invariants of the admin router

    What every request to [admin_router] preserves: a predicate on the state
    that holds after each of the writes the handlers and the authenticators
    are made of holds after the whole request, whatever it is. *)

From S2P Require Import Prelude Json Http Token Argon2Helper AgentRepo.
From S2P Require Import BootstrapRepo AuditLog Auth Secret ResponseControls Config.
From S2P Require Import Registrations Oauth AgentCreds AdminService OauthAdmin AdminHttp.

Section OauthViews.
Context `{AesGcm} `{Base64Std} `{SerdeJson} `{Base64Url} `{Sha2Crate}.
Context (post : string -> list (string * string) -> option (Z * option TokenResponse)).
Context (registration_text : RegistrationError -> string).
Context (session_text : OauthSessionError -> string) (refresh_text : RefreshError -> string).

Lemma revoke_keeps n label o :
  oa_registrations (op_oauth_revoke session_text n label o).2 = oa_registrations o /\
  oa_catalog (op_oauth_revoke session_text n label o).2 = oa_catalog o.
Proof. unfold op_oauth_revoke. by destruct (session_delete _ _ _) as [[]]. Qed.

Lemma bootstrap_keeps_views n label tok n0 n1 n2 t0 t1 o :
  let o' := (op_oauth_bootstrap post registration_text session_text refresh_text
               n label tok n0 n1 n2 t0 t1 o).2 in
  oa_registrations o' = oa_registrations o /\ oa_catalog o' = oa_catalog o.
Proof.
  unfold op_oauth_bootstrap. destruct (reg_get _ _) as [[r|]|]; try done.
  destruct (is_oauth _); simpl; [|done]. destruct (session_create _ _ _ _ _ _ _ _ _ _ _) as [[s|e] db].
  - destruct (refresh_session _ _ _ _ _ _ _ _) as [[u|e] db']; done.
  - by destruct (is_conflict _ _).
Qed.
End OauthViews.

Section Preserve.
Context `{Base64Url} `{Base64Std} `{Argon2Crate} `{HttpCrate} `{X509Crate}.
Context `{AesGcm} `{SerdeJson} `{Sha2Crate} `{Extractors}.
Context (env : string -> option string).
Context (post : string -> list (string * string) -> option (Z * option TokenResponse)).
Context (crate_text : RepoError -> string) (registration_text : RegistrationError -> string).
Context (session_text : OauthSessionError -> string) (refresh_text : RefreshError -> string).

(** [R] survives every write a request is made of. *)
Record preserved (R : UdsState -> Prop) : Prop := {
  keeps_exec : forall c o st, R st -> R (with_admin (admin_exec crate_text c o (us_admin st)).2 st);
  keeps_bearer : forall decoy t t_ms header st, R st ->
    R (with_auth (authenticate_bearer decoy t t_ms header (auth_view st)).2 st);
  keeps_op : forall recs t_ms header st, R st ->
    R (with_auth (op_authenticate_bearer recs t_ms header (auth_view st)).2 st);
  keeps_cert : forall recs t_ms cert st, R st ->
    R (with_auth (authenticate_cert_identity recs t_ms cert (auth_view st)).2 st);
  keeps_creds : forall c st, R st -> R (with_agent_creds c st);
  keeps_reg : forall o r st, us_registrations st = Some r -> R st ->
    R (with_registrations (reg_exec env o r) st);
  keeps_oauth : forall o o' st, us_oauth st = Some o ->
    oa_registrations o' = oa_registrations o -> oa_catalog o' = oa_catalog o ->
    R st -> R (with_oauth o' st)
}.

Context (R : UdsState -> Prop) (K : preserved R).

Lemma on_reg_keeps st req o k :
  (forall r, (k r).2 = reg_exec env o r) -> R st -> R (on_registrations st req k).2.
Proof.
  intros Hk Hw. unfold on_registrations. destruct (us_registrations st) as [r|] eqn:E; [|done].
  specialize (Hk r). destruct (k r) as [resp r']. simpl in *. rewrite Hk. by apply (keeps_reg _ K).
Qed.

Lemma on_oauth_keeps st req k :
  (forall o, oa_registrations (k o).2 = oa_registrations o /\ oa_catalog (k o).2 = oa_catalog o) ->
  R st -> R (on_oauth st req k).2.
Proof.
  intros Hk Hw. unfold on_oauth. destruct (us_oauth st) as [o|] eqn:E; [|done].
  destruct (Hk o) as [H1' H2']. destruct (k o) as [resp o']. simpl in *.
  by eapply (keeps_oauth _ K).
Qed.

Lemma decoded_keeps {A} (o : option A) req st k :
  (forall x, R (k x).2) -> R st -> R (extract o req st k).2.
Proof. intros Hk Hw. destruct o; simpl; auto. Qed.

Lemma target_keeps id st k :
  (forall c a, R (k c a).2) -> R st -> R (with_override_target crate_text id st k).2.
Proof. intros Hk Hw. unfold with_override_target. by repeat case_match. Qed.

(** The steps that follow every case of [operator_handler]. *)
Local Ltac handler_leaf :=
  lazymatch goal with
  | |- R (extract _ _ _ _).2 => apply decoded_keeps; [intros ?; handler_leaf|assumption]
  | |- R (reading _ _ _ _).2 => unfold reading; case_match; assumption
  | |- R (with_override_target _ _ _ _).2 =>
      apply target_keeps; [intros ? ?; case_match; simpl; repeat case_match; first [assumption|by apply (keeps_creds _ K)]
                          |assumption]
  | |- R (on_oauth _ _ _).2 =>
      apply on_oauth_keeps; [intros; auto using revoke_keeps, bootstrap_keeps_views|assumption]
  | |- R (on_registrations _ _ (op_put _ ?k ?n ?b ?t)).2 =>
      by apply (on_reg_keeps _ _ (Put k n b t))
  | |- R (on_registrations _ _ (op_delete _ ?k ?n ?t)).2 =>
      by apply (on_reg_keeps _ _ (Delete k n t))
  | |- R (on_registrations _ _ (op_enable _ ?k ?n ?t)).2 =>
      by apply (on_reg_keeps _ _ (Enable k n t))
  | |- _ => idtac
  end.

Lemma handler_keeps h ef op ps req st :
  R st ->
  R (operator_handler env post crate_text registration_text session_text refresh_text
           h ef op ps req st).2.
Proof.
  intros Hw. unfold operator_handler. destruct (ef_nonces ef) as [[n0 n1] n2].
  destruct h; try (destruct ps as [|p [|p' [|p'' ps]]]; try exact Hw);
    unfold op_list_agents, op_create_agent, op_modify_agent, op_set_agent_cert_identity,
      op_mint_bootstrap, op_query_audit, op_set_agent_credential, op_unset_agent_credential,
      op_list_agent_credentials; handler_leaf; try exact Hw.
  all: try (repeat case_match; exact Hw).
  all: first [ exact (keeps_exec _ K (ef_call ef) (ACreate op x) st Hw)
             | exact (keeps_exec _ K (ef_call ef) (AModify op p x) st Hw)
             | exact (keeps_exec _ K (ef_call ef) (ARevoke op p) st Hw)
             | exact (keeps_exec _ K (ef_call ef) (ASetCert op p x) st Hw)
             | exact (keeps_exec _ K (ef_call ef) (AMint op x) st Hw)
             | exact (keeps_exec _ K (ef_call ef) (ARevokeBootstrap op p) st Hw) ].
Qed.

Lemma agent_handler_keeps h ef agent req st :
  R st -> R (agent_handler crate_text h ef agent req st).2.
Proof.
  intros Hw. destruct h; [exact Hw| | |exact Hw].
  - apply decoded_keeps; [|done]. intros sec.
    exact (keeps_exec _ K (ef_call ef) (ARotate agent sec) st Hw).
  - exact (keeps_exec _ K (ef_call ef) (ADeregister agent) st Hw).
Qed.

Lemma dispatch_keeps {T} (routes : list (string * T * list string)) req run st :
  (forall h ps, R (run h ps st).2) -> R st -> R (dispatch routes req run st).2.
Proof.
  intros Hr Hw. unfold dispatch. destruct (find_first _ _) as [[[m h] raw]|]; [|done].
  apply decoded_keeps; [|done]. intros ps. specialize (Hr h ps). by destruct (run h ps st).
Qed.

Lemma operator_auth_keeps cfg ef req st :
  R st -> R (operator_auth_middleware cfg ef req st).2.
Proof.
  intros Hw. unfold operator_auth_middleware.
  assert (B : R (operator_bearer cfg ef req st).2).
  { unfold operator_bearer. destruct (header_str _ _) as [hd|]; [|done].
    pose proof (keeps_op _ K (uc_operators cfg) (now_ms (ef_call ef)) hd st Hw) as B.
    by destruct (op_authenticate_bearer _ _ _ _). }
  assert (C : forall v der, R (operator_cert cfg ef v der st).2).
  { intros v der. unfold operator_cert. destruct (validate _ _ _) as [i|]; [|done].
    pose proof (keeps_cert _ K (uc_operators cfg) (now_ms (ef_call ef)) (mi_value i) st Hw) as C.
    by destruct (authenticate_cert_identity _ _ _ _). }
  destruct (uc_operator_mtls cfg) as [[[] v]|]; [|repeat case_match; auto..|]; auto.
Qed.

Lemma router_keeps cfg ef req st :
  R st ->
  R (admin_router cfg env post crate_text registration_text session_text refresh_text
           ef req st).2.
Proof.
  intros Hw. unfold admin_router. destruct (split_path _) as [|a [|b [|c segs]]]; try exact Hw.
  destruct (negb _); [exact Hw|]. destruct (bool_decide (c = "agent")).
  - unfold agent_nest. destruct (routes_at _ _); [|apply decoded_keeps; [|exact Hw]; intros input;
      exact (keeps_exec _ K (ef_call ef) (ARegister input) st Hw)].
    destruct (routes_at _ _); [exact Hw|]. unfold agent_auth_middleware.
    destruct (header_str _ _) as [hd|]; [|exact Hw].
    pose proof (keeps_bearer _ K (uc_agent_decoy cfg) (now (ef_call ef)) (now_ms (ef_call ef)) hd st Hw) as B.
    destruct (authenticate_bearer _ _ _ _ _) as [[id|e] s0]; [|exact B].
    apply dispatch_keeps; [intros; by apply agent_handler_keeps|exact B].
  - destruct (bool_decide (c = "operator")); [|exact Hw]. unfold operator_nest.
    destruct (routes_at _ _); [exact Hw|]. pose proof (operator_auth_keeps cfg ef req st Hw) as Ha.
    destruct (operator_auth_middleware _ _ _ _) as [[op|resp] st']; [|exact Ha].
    apply dispatch_keeps; [intros; by apply handler_keeps|exact Ha].
Qed.

End Preserve.
