(* ===== verification/Proxy.v ===== *)
(** * The proxy hot path ([src/proxy.rs])

    From an authenticated request to the upstream call and back: the tool
    ACL, target resolution, the request allowlist, per-agent credential
    overrides, OAuth token resolution, fail-closed replacement, the codex body
    fixup, the upstream request, the response controls, and the audit row of
    every outcome.

    The upstream ([send]), the OAuth token endpoint ([post]), the URL parser
    ([url_parse]), the process environment ([env]) and the Kamiwaza bridge
    ([kamiwaza], any function of the request here) are parameters.  A request
    is followed until its response body has been consumed. *)

From S2P Require Import Prelude Json Http Token Argon2Helper AgentRepo.
From S2P Require Import AuditLog Auth Secret CodexBody ResponseControls Config.
From S2P Require Import Registrations Oauth OauthAdmin AgentCreds.

(** ** Data *)

(** [Instant]s and clocks read once per request. *)
Record RequestCtx := {
  tool_name : string;
  request_path : string;
  ctx_method : string;
  ctx_auth_method : string;
  ctx_agent_public_id : option string;
  ctx_agent_name : option string;
  codex_body_fixup : option Json;
  ctx_now_ms : Z;
  ctx_latency_ms : Z
}.

Inductive ProxyAuth :=
| PNone
| PHeader (header audit_mode : string) (force_replace : bool) (override_value : option string)
| PBearer (force_replace : bool) (override_value : option string)
| POauth (audit_mode oauth_session_id : string) (access_token account_id : option string).

Record ProxyTarget := {
  pt_name : string;
  pt_upstream : string;
  pt_body_limit_bytes : Z;
  pt_timeouts : ToolTimeouts;
  pt_egress : EgressMode;
  pt_auth : ProxyAuth;
  auth_source : string;
  pt_oauth_session_label : option string
}.

Definition pt_with_auth (a : ProxyAuth) (t : ProxyTarget) : ProxyTarget :=
  {| pt_name := pt_name t; pt_upstream := pt_upstream t; pt_body_limit_bytes := pt_body_limit_bytes t;
     pt_timeouts := pt_timeouts t; pt_egress := pt_egress t; pt_auth := a;
     auth_source := auth_source t; pt_oauth_session_label := pt_oauth_session_label t |}.

Definition snapshot (req : Request) (tool : string) (now_ms latency : Z) : RequestCtx :=
  {| tool_name := tool; request_path := req_path req; ctx_method := req_method req;
     ctx_auth_method := match authenticated_as (req_ext req) with
                        | Some Mtls => "mtls" | _ => "bearer" end;
     ctx_agent_public_id := id_public_id <$> identity (req_ext req);
     ctx_agent_name := id_name <$> identity (req_ext req);
     codex_body_fixup := None; ctx_now_ms := now_ms; ctx_latency_ms := latency |}.

Definition with_fixup (j : Json) (c : RequestCtx) : RequestCtx :=
  {| tool_name := tool_name c; request_path := request_path c; ctx_method := ctx_method c;
     ctx_auth_method := ctx_auth_method c; ctx_agent_public_id := ctx_agent_public_id c;
     ctx_agent_name := ctx_agent_name c; codex_body_fixup := Some j;
     ctx_now_ms := ctx_now_ms c; ctx_latency_ms := ctx_latency_ms c |}.

(** [audit_event_base] with the fields the callers fill in. *)
Definition audit_event (c : RequestCtx) (cls : EventClass) (ev : string) (st : Z) (d : Decision)
    (host : option string) (det : option Json) : AuditEvent :=
  {| ts_ms := ctx_now_ms c; event_class := cls; event := ev;
     agent_public_id := ctx_agent_public_id c; agent_name := None; operator_name := None;
     tool := Some (tool_name c); upstream_host := host; method := Some (ctx_method c);
     path := Some (request_path c); status := Some st; latency_ms := Some (ctx_latency_ms c);
     decision := d; auth_method := Some (ctx_auth_method c); origin_ip := None; details := det |}.

Definition audit_mode (a : ProxyAuth) : string :=
  match a with
  | PNone => "none"
  | PHeader _ m _ _ => m
  | PBearer _ _ => "bearer"
  | POauth m _ _ _ => m
  end.

Definition oauth_session_id (a : ProxyAuth) : option string :=
  match a with POauth _ sid _ _ => Some sid | _ => None end.

(** [to_lowercase] of a header name, byte by byte: the same on the ASCII names
    a header can have. *)
Definition strip_header_lower (a : ProxyAuth) : option string :=
  match a with PHeader h _ _ _ => Some (to_ascii_lowercase h) | _ => None end.

Definition audit_details (c : RequestCtx) (t : ProxyTarget) : Json :=
  let v := json_obj [("auth_mode", JString (audit_mode (pt_auth t)));
                     ("auth_source", JString (auth_source t))] in
  let v := match oauth_session_id (pt_auth t) with
           | Some sid => json_set "oauth_session_id" (JString sid) v | None => v end in
  let v := match pt_oauth_session_label t with
           | Some l => json_set "oauth_session_label" (JString l) v | None => v end in
  match codex_body_fixup c with
  | Some f => json_set "codex_body_fixup" f v | None => v end.

Definition url_host (url : string) : option string :=
  let stripped :=
    match strip_prefix "https://" url with
    | Some s => s
    | None => match strip_prefix "http://" url with Some s => s | None => url end
    end in
  let host := first_segment (fun c => is_char "/" c || is_char ":" c) stripped in
  if bool_decide (host = "") then None else Some host.

(** ** Targets *)

Definition from_registration (r : Registration) : ProxyTarget :=
  {| pt_name := name r; pt_upstream := upstream r; pt_body_limit_bytes := body_limit_bytes r;
     pt_timeouts := timeouts r; pt_egress := egress r;
     pt_auth := match auth r with
                | SpecNone => PNone
                | SpecHeader h _ f => PHeader h "header" f None
                | SpecBearer _ f => PBearer f None
                | OauthPkce _ _ _ _ _ _ => POauth "oauth_pkce" "" None None
                | OauthDeviceCode _ _ _ _ _ => POauth "oauth_device_code" "" None None
                end;
     auth_source := "registration_default"; pt_oauth_session_label := None |}.

Definition from_tool_config (t : ToolConfig) : ProxyTarget :=
  {| pt_name := tc_name t; pt_upstream := tc_upstream t;
     pt_body_limit_bytes := tc_body_limit_bytes t; pt_timeouts := tc_timeouts t;
     pt_egress := tc_egress t;
     pt_auth := match tc_auth t with
                | None => PNone
                | Some a => PHeader (ta_header a) "config" (ta_force_replace a) None
                end;
     auth_source := "registration_default"; pt_oauth_session_label := None |}.

Definition resolve_target (cat : gmap string Registration) (cfg : AppConfig) (n : string)
  : option ProxyTarget :=
  match lookup_active n cat with
  | Some r => Some (from_registration r)
  | None => from_tool_config <$> find_first (fun t => bool_decide (tc_name t = n)) (active_tools cfg)
  end.

Definition force_replace_missing (a : ProxyAuth) (creds : gmap string string) (n : string) : bool :=
  match a with
  | PHeader _ _ force ov | PBearer force ov =>
      force && negb (isSome ov) && negb (isSome (creds !! n))
  | PNone | POauth _ _ _ _ => false
  end.

(** ** Credential handles and the request allowlist *)

Section Handles.
Context `{HttpCrate}.

Definition credential_handle_matches (cfg : AppConfig) (n : string) (headers : HeaderMap) : bool :=
  match find_first (fun t => bool_decide (tc_name t = n)) (tools cfg) with
  | None => false
  | Some t =>
      match tc_credential_handles t with
      | [] => false
      | handles =>
          match (let* v := header_get "authorization" headers in
                 let* v := to_str v in
                 strip_prefix "Bearer " (trim v)) with
          | None => false
          | Some token =>
              let token := trim token in
              negb (bool_decide (token = "")) &&
              existsb (fun h => negb (bool_decide (trim h = "")) && bool_decide (token = trim h))
                handles
          end
      end
  end.
End Handles.

(** What the handlers read of a parsed URL. *)
Record Url := { u_path : string; u_query : option string; u_fragment : option string }.

Definition tool_request_allowed (url_parse : string -> option Url) (t : ToolConfig)
    (upstream_url : string) (req : Request) : bool :=
  match tc_request_allowlist t with
  | None => true
  | Some rules =>
      if negb (is_literal_request_path (req_path req)) || isSome (req_query req) then false
      else
        match url_parse upstream_url with
        | None => false
        | Some url =>
            negb (isSome (u_query url)) && negb (isSome (u_fragment url))
            && is_literal_request_path (u_path url)
            && existsb (fun r => bool_decide (rule_method r = req_method req)
                                 && bool_decide (rule_path r = u_path url)) rules
        end
  end.

Definition upstream_url_of (t : ProxyTarget) (path : string) (req : Request) : string :=
  let base := trim_end_matches "/" (pt_upstream t) +:+ "/" +:+ path in
  match req_query req with
  | Some q => if negb (bool_decide (q = "")) then base +:+ "?" +:+ q else base
  | None => base
  end.

(** ** The upstream request *)

Definition is_chatgpt_codex_upstream (u : string) : bool :=
  str_contains "/backend-api/codex" (to_ascii_lowercase u).

Definition request_path_ends_with_responses (p : string) : bool :=
  ends_with "/responses" (to_ascii_lowercase p).

(** The request as built: the calls of [.header] in order, and the body if
    one was attached. *)
Record OutReq := {
  out_method : string;
  out_url : string;
  out_headers : list (string * string);
  out_body : option string
}.

Definition is_stripped (codex : bool) (extra : option string) (n : string) : bool :=
  let lower := to_ascii_lowercase n in
  bool_decide (lower = "host") || bool_decide (lower = "authorization")
  || bool_decide (lower = "x-api-key") || bool_decide (lower = "content-length")
  || bool_decide (lower = "transfer-encoding")
  || (codex && bool_decide (lower = "openai-beta"))
  || bool_decide (extra = Some lower).

(** The headers the configured credential adds. *)
Definition injected (creds : gmap string string) (t : ProxyTarget) : list (string * string) :=
  match pt_auth t with
  | PNone => []
  | PHeader h _ _ ov =>
      match ov with
      | Some v => [(h, v)]
      | None => match creds !! pt_name t with Some v => [(h, v)] | None => [] end
      end
  | PBearer _ ov =>
      match ov with
      | Some v => [("Authorization", "Bearer " +:+ v)]
      | None => match creds !! pt_name t with
                | Some v => [("Authorization", "Bearer " +:+ v)] | None => [] end
      end
  | POauth _ _ access account =>
      (match access with Some tk => [("Authorization", "Bearer " +:+ tk)] | None => [] end) ++
      (match account with
       | Some acct =>
           if is_chatgpt_codex_upstream (pt_upstream t) then [("ChatGPT-Account-ID", acct)] else []
       | None => []
       end)
  end.

Definition codex_headers (codex agent_sent_originator : bool) (agent : option string)
  : list (string * string) :=
  if codex then
    ("OpenAI-Beta", "responses=experimental") ::
    (if negb agent_sent_originator then [("originator", default "locksmith-proxy" agent)] else [])
  else [].

Definition build_upstream_request (creds : gmap string string) (t : ProxyTarget)
    (meth url : string) (headers : HeaderMap) (body : string) (agent : option string) : OutReq :=
  let codex := is_chatgpt_codex_upstream (pt_upstream t) in
  let sent_originator :=
    codex && existsb (fun kv => eq_ignore_ascii_case kv.1 "originator") headers in
  {| out_method := meth; out_url := url;
     out_headers :=
       List.filter (fun kv => negb (is_stripped codex (strip_header_lower (pt_auth t)) kv.1)) headers
       ++ injected creds t ++ codex_headers codex sent_originator agent;
     out_body := if bool_decide (body = "") then None else Some body |}.

(** ** The response *)

Definition is_hop_by_hop (n : string) : bool :=
  list_has ["transfer-encoding"; "content-length"; "connection"; "keep-alive"; "proxy-connection";
            "upgrade"; "te"; "trailer"] (to_ascii_lowercase n).

(** [out.insert(name, v)] for every kept header. *)
Definition forward_response_headers (up : HeaderMap) : HeaderMap :=
  fold_left (fun out kv => if is_hop_by_hop kv.1 then out else header_insert kv.1 kv.2 out) up [].

(** What [send().await] gives: an error (with [is_timeout]) or a response
    whose body arrives as stream items. *)
Inductive UpstreamReply :=
| SendError (timeout : bool)
| Upstream (code : Z) (headers : HeaderMap) (items : list (option StreamItem)).

(** [resp.bytes().await]. *)
Fixpoint collect_bytes (items : list (option StreamItem)) : result string string :=
  match items with
  | [] => Ok EmptyString
  | Some (Chunk b) :: l => let? rest := collect_bytes l in Ok (b +:+ rest)
  | Some (StreamError e) :: _ => Err e
  | None :: l => collect_bytes l
  end.

(** The server stops polling at the first error. *)
Fixpoint before_error (items : list (option StreamItem)) : list (option StreamItem) :=
  match items with
  | [] => []
  | Some (StreamError _) :: _ => []
  | i :: l => i :: before_error l
  end.

Definition status_code (s : Z) : Z := if (100 <=? s) && (s <? 1000) then s else 502.

Definition rc_should_buffer `{RegexCrate} (rc : ResponseControls) : bool := has_redaction_patterns rc.

(** ** Shared state *)

Record OauthRuntime := {
  rt_sessions : OauthSessionRepository;
  rt_sealing_key : SealingKey;
  rt_locks : gmap string nat
}.

Section AppState.
Context `{RegexCrate}.

(** What the proxy reads of [AppState]; the audit log and the OAuth sessions
    are the parts it changes. *)
Record AppState := {
  st_config : AppConfig;
  st_catalog : gmap string Registration;
  st_creds : gmap string string;
  st_response_controls : gmap string ResponseControls;
  st_agent_creds : option AgentCredentialRepository;
  st_oauth : option OauthRuntime;
  st_audit : option AuditRepository
}.

(** [compile_response_controls] of [app.rs]. *)
Definition compile_response_controls (cfg : AppConfig) : gmap string ResponseControls :=
  fold_left (fun out t =>
    match tc_response t with
    | None => out
    | Some rc_cfg => match compile rc_cfg with Some rc => <[tc_name t := rc]> out | None => out end
    end) (tools cfg) ∅.

Definition record_event (e : AuditEvent) (s : AppState) : AppState :=
  {| st_config := st_config s; st_catalog := st_catalog s; st_creds := st_creds s;
     st_response_controls := st_response_controls s; st_agent_creds := st_agent_creds s;
     st_oauth := st_oauth s; st_audit := audit_record (st_audit s) e |}.

Definition set_oauth (rt : option OauthRuntime) (s : AppState) : AppState :=
  {| st_config := st_config s; st_catalog := st_catalog s; st_creds := st_creds s;
     st_response_controls := st_response_controls s; st_agent_creds := st_agent_creds s;
     st_oauth := rt; st_audit := st_audit s |}.

Definition msg_type (m t : string) : Json :=
  error_envelope [("message", JString m); ("type", JString t)].

(** ** The audit-emitting helpers *)

Definition record_authz_denied (c : RequestCtx) (reason : string) (s : AppState)
  : Response * AppState :=
  (json_response 403 (error_envelope [("message", JString "tool access denied");
     ("type", JString "authz_error"); ("code", JString "tool_not_allowed")]),
   record_event (audit_event c Security "authz_denied" 403 Denied None (Some (reason_json reason))) s).

Definition record_tool_not_found (c : RequestCtx) (s : AppState) : Response * AppState :=
  (json_response 404 (msg_type ("Unknown tool: " +:+ tool_name c) "not_found"),
   record_event (audit_event c Proxy "tool_not_found" 404 Denied None None) s).

Definition record_body_read_error (c : RequestCtx) (host : option string) (s : AppState)
  : Response * AppState :=
  (json_response 400 (msg_type "Failed to read request body" "bad_request"),
   record_event (audit_event c Proxy "request_body_read_error" 400 Error host None) s).

Definition record_credential_unavailable (c : RequestCtx) (t : ProxyTarget) (host : option string)
    (s : AppState) : Response * AppState :=
  (json_response 503 (error_envelope [("message", JString "configured credential unavailable");
     ("type", JString "auth_error"); ("code", JString "credential_unavailable")]),
   record_event (audit_event c Proxy "credential_unavailable" 503 Error host
     (Some (json_set "credential_cause" (JString "force_replace_missing_credential")
              (audit_details c t)))) s).

Definition record_codex_body_too_large (c : RequestCtx) (host : option string) (s : AppState)
  : Response * AppState :=
  (json_response 413 (error_envelope
     [("message", JString ("Codex request body exceeds " +:+ pretty.pretty MAX_BODY_BYTES +:+ " byte cap"));
      ("type", JString "payload_too_large"); ("code", JString "codex_body_too_large")]),
   record_event (audit_event c Proxy "codex_body_too_large" 413 Denied host None) s).

Definition record_response_content_type_disallowed (c : RequestCtx) (host ct : option string)
    (s : AppState) : Response * AppState :=
  (json_response 502 (msg_type "upstream content-type not allowed" "response_content_type_disallowed"),
   record_event (audit_event c Proxy "response_content_type_disallowed" 502 Denied host
     (Some (json_obj [("observed_content_type", json_opt JString ct)]))) s).

Definition record_proxy_request_success (c : RequestCtx) (t : ProxyTarget) (host : option string)
    (upstream_status : Z) (s : AppState) : AppState :=
  record_event (audit_event c Proxy "proxy_request" upstream_status
    (if 500 <=? upstream_status then Error else Allowed) host (Some (audit_details c t))) s.

Definition record_upstream_error (c : RequestCtx) (t : ProxyTarget) (host : option string)
    (timeout : bool) (s : AppState) : Response * AppState :=
  let '(code, kind, message) :=
    if timeout then (504, "timeout", "Upstream timeout") else (502, "upstream_error", "Upstream error") in
  (json_response code (msg_type message kind),
   record_event (audit_event c Proxy kind code Error host (Some (audit_details c t))) s).

Definition record_upstream_body_read_error (c : RequestCtx) (host : option string) (e : string)
    (s : AppState) : Response * AppState :=
  (json_response 502 (msg_type "upstream body read failed" "upstream_error"),
   record_event (audit_event c Proxy "upstream_body_read_error" 502 Error host
     (Some (json_obj [("error", JString e)]))) s).

Definition record_response_size_exceeded_buffered (c : RequestCtx) (host : option string)
    (observed cap : Z) (s : AppState) : Response * AppState :=
  (json_response 502 (msg_type "response too large" "response_size_exceeded"),
   record_event (audit_event c Proxy "response_size_exceeded" 502 Denied host
     (Some (json_obj [("observed_bytes", JInt observed); ("cap_bytes", JInt cap);
                      ("flow", JString "non_streaming")]))) s).

Definition record_response_redaction (c : RequestCtx) (host : option string) (upstream_status : Z)
    (s : AppState) (rec : RedactionRecord) : AppState :=
  record_event (audit_event c Proxy "response_redaction" upstream_status Allowed host
    (Some (json_obj [("pattern_id", JString (pattern_id rec));
                     ("matches", JInt (Z.of_nat (matches rec)));
                     ("match_hash", JString (match_hash rec))]))) s.

Definition record_oauth_unavailable (c : RequestCtx) (cause : string) (s : AppState) : AppState :=
  record_event (audit_event c Proxy "oauth_unavailable" 503 Error None
    (Some (json_obj [("oauth_cause", JString cause)]))) s.

(** The row [on_truncate] writes: no latency is recorded. *)
Definition truncation_event (c : RequestCtx) (host : option string) (upstream_status cap : Z)
    (observed : Z) : AuditEvent :=
  {| ts_ms := ctx_now_ms c; event_class := Proxy; event := "response_size_exceeded";
     agent_public_id := ctx_agent_public_id c; agent_name := None; operator_name := None;
     tool := Some (tool_name c); upstream_host := host; method := Some (ctx_method c);
     path := Some (request_path c); status := Some upstream_status; latency_ms := None;
     decision := Denied; auth_method := Some (ctx_auth_method c); origin_ip := None;
     details := Some (json_obj [("observed_bytes", JInt observed); ("cap_bytes", JInt cap);
                                ("flow", JString "streaming")]) |}.

(** ** The response pipeline *)

Context `{Sha2Crate} `{HttpCrate}.

Definition apply_buffered_response_controls (rc : ResponseControls) (c : RequestCtx)
    (t : ProxyTarget) (host : option string) (upstream_status : Z) (ct : option string)
    (headers : HeaderMap) (items : list (option StreamItem)) (s : AppState) : Response * AppState :=
  match collect_bytes items with
  | Err e => record_upstream_body_read_error c host e s
  | Ok body_bytes =>
      match apply_non_streaming rc ct body_bytes with
      | SizeExceeded observed cap => record_response_size_exceeded_buffered c host observed cap s
      | ContentTypeDisallowed observed =>
          record_response_content_type_disallowed c host (Some observed) s
      | AllowedBody body redactions =>
          let s := fold_left (record_response_redaction c host upstream_status) redactions s in
          let s := record_proxy_request_success c t host upstream_status s in
          ({| resp_status := status_code upstream_status; resp_headers := headers;
              resp_body := BytesBody body |}, s)
      end
  end.

(** The streamed body as the agent receives it, with the truncation rows the
    adapter writes while it is consumed. *)
Definition stream_body (c : RequestCtx) (host : option string) (upstream_status : Z)
    (cap : option Z) (items : list (option StreamItem)) (s : AppState) : Body * AppState :=
  let items := before_error items in
  match cap with
  | None => (StreamBody [payload items], s)
  | Some cap =>
      match drain (List.length items + 3) (new_stream items (Some cap)) with
      | None => (StreamBody [], s)
      | Some (bytes, st) =>
          (StreamBody [bytes],
           fold_left (fun s observed =>
             record_event (truncation_event c host upstream_status cap observed) s) (calls st) s)
      end
  end.

Definition handle_upstream_response (c : RequestCtx) (t : ProxyTarget) (host : option string)
    (upstream_status : Z) (up_headers : HeaderMap) (items : list (option StreamItem)) (s : AppState)
  : Response * AppState :=
  let ct := let* v := header_get "content-type" up_headers in to_str v in
  let response_headers := forward_response_headers up_headers in
  let finish cap s :=
    let s := record_proxy_request_success c t host upstream_status s in
    let '(body, s) := stream_body c host upstream_status cap items s in
    ({| resp_status := status_code upstream_status; resp_headers := response_headers;
        resp_body := body |}, s) in
  match st_response_controls s !! tool_name c with
  | None => finish None s
  | Some rc =>
      if negb (streaming_content_type_allowed rc ct)
      then record_response_content_type_disallowed c host ct s
      else if rc_should_buffer rc
      then apply_buffered_response_controls rc c t host upstream_status ct response_headers items s
      else finish (streaming_size_cap rc) s
  end.
End AppState.

(** ** Credentials *)

Section Credentials.
Context (env : string -> option string).

Definition override_auth (spec : AuthSpec) (t : ProxyTarget) : ProxyTarget :=
  let t := {| pt_name := pt_name t; pt_upstream := pt_upstream t;
              pt_body_limit_bytes := pt_body_limit_bytes t; pt_timeouts := pt_timeouts t;
              pt_egress := pt_egress t; pt_auth := pt_auth t; auth_source := "agent_override";
              pt_oauth_session_label := pt_oauth_session_label t |} in
  match spec with
  | SpecNone => pt_with_auth PNone t
  | SpecHeader h env_var force => pt_with_auth (PHeader h "header" force (env env_var)) t
  | SpecBearer env_var force => pt_with_auth (PBearer force (env env_var)) t
  | OauthPkce _ _ _ _ _ label | OauthDeviceCode _ _ _ _ label =>
      {| pt_name := pt_name t; pt_upstream := pt_upstream t;
         pt_body_limit_bytes := pt_body_limit_bytes t; pt_timeouts := pt_timeouts t;
         pt_egress := pt_egress t; pt_auth := pt_auth t; auth_source := auth_source t;
         pt_oauth_session_label := Some (default DEFAULT_SESSION_LABEL label) |}
  end.

Definition apply_agent_credential_override (creds_repo : option AgentCredentialRepository)
    (ext : Extensions) (t : ProxyTarget) : ProxyTarget :=
  match creds_repo with
  | None => t
  | Some repo =>
      match identity ext with
      | None => t
      | Some id =>
          match creds_get (id_id id) (pt_name t) repo with
          | Ok (Some row) => override_auth (ov_auth_spec row) t
          | Ok None | Err _ => t
          end
      end
  end.
End Credentials.

Record OauthUnavailable := { ou_response : Response; ou_audit_cause : string }.

Definition oauth_unavailable_envelope (code : Z) (c m : string) : Response :=
  json_response code (error_envelope [("type", JString "auth_error"); ("code", JString c);
                                      ("message", JString m)]).

Definition unavailable (code : Z) (c m cause : string) : OauthUnavailable :=
  {| ou_response := oauth_unavailable_envelope code c m; ou_audit_cause := cause |}.

Section OauthToken.
Context `{AesGcm} `{Base64Std} `{Base64Url} `{SerdeJson} `{Sha2Crate}.
Context (post : TokenEndpoint).

(** The access token is absent or expires within a minute. *)
Definition needs_refresh (now : Z) (s : OauthSession) : bool :=
  match os_access_token s, os_expires_at s with
  | None, _ => true
  | Some _, Some e => e <=? now + 60
  | _, _ => false
  end.

Definition set_rt_sessions (db : OauthSessionRepository) (rt : OauthRuntime) : OauthRuntime :=
  {| rt_sessions := db; rt_sealing_key := rt_sealing_key rt; rt_locks := rt_locks rt |}.

Definition oauth_auth (mode : string) (s : OauthSession) : ProxyAuth :=
  POauth mode (audit_session_id s) (os_access_token s) (os_account_id s).

(** Runs under the session's lock. *)
Definition resolve_oauth_token (cat : gmap string Registration) (oauth : option OauthRuntime)
    (t : ProxyTarget) (label : string) (nonces : option string * option string) (now : Z)
  : result OauthUnavailable ProxyAuth * option OauthRuntime :=
  match oauth with
  | None =>
      (Err (unavailable 503 "oauth_sealing_key_unset"
         "OAuth registration requires LOCKSMITH_OAUTH_SEALING_KEY at daemon startup"
         "sealing_key_unset"), None)
  | Some rt =>
      let mode := match pt_auth t with POauth m _ _ _ => m | _ => "oauth_unknown" end in
      let rt := {| rt_sessions := rt_sessions rt; rt_sealing_key := rt_sealing_key rt;
                   rt_locks := snd (lock_get (pt_name t) label (rt_locks rt)) |} in
      match session_get (rt_sealing_key rt) (pt_name t) label (rt_sessions rt) with
      | Ok None =>
          (Err (unavailable 503 "oauth_session_missing"
             "OAuth session not bootstrapped for this registration" "session_missing"), Some rt)
      | Err _ =>
          (Err (unavailable 500 "oauth_session_read_failed"
             "OAuth session unavailable (sealing failure)" "session_read_failed"), Some rt)
      | Ok (Some session) =>
          if os_degraded session then
            (Err (unavailable 503 "oauth_refresh_failed"
               "OAuth session degraded — operator must re-bootstrap" "degraded"), Some rt)
          else if needs_refresh now session then
            match refresh_session post cat (rt_sealing_key rt) session nonces.1 nonces.2 now
                    (rt_sessions rt) with
            | (Ok updated, db) => (Ok (oauth_auth mode updated), Some (set_rt_sessions db rt))
            | (Err e, db) =>
                (Err (unavailable 503 "oauth_refresh_failed"
                   "OAuth refresh failed — operator must re-bootstrap" (audit_cause e)),
                 Some (set_rt_sessions (snd (mark_degraded (pt_name t) label now db)) rt))
            end
          else (Ok (oauth_auth mode session), Some rt)
      end
  end.
End OauthToken.

(** ** The handler *)

Section Handler.
Context `{RegexCrate} `{Sha2Crate} `{HttpCrate} `{AesGcm} `{Base64Std} `{Base64Url} `{SerdeJson}.
Context (env : string -> option string) (post : TokenEndpoint)
  (url_parse : string -> option Url) (send : OutReq -> UpstreamReply)
  (kamiwaza : AppConfig -> string -> Request -> option Response).

(** The clock and randomness of one request. *)
Record Moment := {
  m_now : Z; m_now_ms : Z; m_latency_ms : Z; m_nonces : option string * option string
}.

(** The response, the state after it, and the request sent upstream, if one
    was. *)
Record ProxyResult := { px_response : Response; px_state : AppState; px_sent : option OutReq }.

Definition answer (rs : Response * AppState) : ProxyResult :=
  {| px_response := rs.1; px_state := rs.2; px_sent := None |}.

(** The outcome of the codex step: the body to send and the context, or too
    large. *)
Definition codex_step (c : RequestCtx) (t : ProxyTarget) (body : string)
  : option (RequestCtx * string) :=
  if is_chatgpt_codex_upstream (pt_upstream t) && request_path_ends_with_responses (request_path c)
  then
    match fixup body with
    | Ok (new_body, summary) =>
        let c' := if negb (is_noop summary) then
          with_fixup (json_obj [("fields_added", JArray (map JString (fields_added summary)));
            ("fields_overridden", JArray (map JString (fields_overridden summary)));
            ("fields_removed", JArray (map JString (fields_removed summary)))]) c
          else c in
        Some (c', new_body)
    | Err TooLarge => None
    end
  else Some (c, body).

(** From the point where the target's credential is known. *)
Definition forward (c : RequestCtx) (t : ProxyTarget) (url : string) (req : Request) (s : AppState)
  : ProxyResult :=
  let host := url_host (pt_upstream t) in
  if force_replace_missing (pt_auth t) (st_creds s) (pt_name t)
  then answer (record_credential_unavailable c t host s)
  else if pt_body_limit_bytes t <? Z.of_nat (String.length (req_body req))
  then answer (record_body_read_error c host s)
  else
    match codex_step c t (req_body req) with
    | None => answer (record_codex_body_too_large c host s)
    | Some (c, body) =>
        let out := build_upstream_request (st_creds s) t (req_method req) url (req_headers req) body
                     (ctx_agent_name c) in
        let '(resp, s') :=
          match send out with
          | Upstream code hs items => handle_upstream_response c t host code hs items s
          | SendError timeout => record_upstream_error c t host timeout s
          end in
        {| px_response := resp; px_state := s'; px_sent := Some out |}
    end.

Definition proxy_tool_request (m : Moment) (tool path : string) (req : Request) (s : AppState)
  : ProxyResult :=
  let c := snapshot req tool (m_now_ms m) (m_latency_ms m) in
  match (match identity (req_ext req) with
         | Some id => allows_tool id tool
         | None => Ok tt
         end) with
  | Err reason => answer (record_authz_denied c reason s)
  | Ok _ =>
      match resolve_target (st_catalog s) (st_config s) tool with
      | None =>
          match kamiwaza (st_config s) tool req with
          | Some response => answer (response, s)
          | None => answer (record_tool_not_found c s)
          end
      | Some t =>
          let url := upstream_url_of t path req in
          if negb (forallb (fun tc => tool_request_allowed url_parse tc url req)
                     (List.filter (fun tc => bool_decide (tc_name tc = tool)) (tools (st_config s))))
          then answer (record_authz_denied c "request_not_in_allowlist" s)
          else
            let t := apply_agent_credential_override env (st_agent_creds s) (req_ext req) t in
            match pt_auth t with
            | POauth _ _ _ _ =>
                let label := default DEFAULT_SESSION_LABEL (pt_oauth_session_label t) in
                match resolve_oauth_token post (st_catalog s) (st_oauth s) t label (m_nonces m) (m_now m) with
                | (Err u, rt) =>
                    answer (ou_response u, record_oauth_unavailable c (ou_audit_cause u) (set_oauth rt s))
                | (Ok updated, rt) => forward c (pt_with_auth updated t) url req (set_oauth rt s)
                end
            | _ => forward c t url req s
            end
      end
  end.

Definition credential_transport_request (m : Moment) (tool path : string) (req : Request)
    (s : AppState) : ProxyResult :=
  if negb (credential_handle_matches (st_config s) tool (req_headers req))
  then answer (json_response 401 (error_envelope
                 [("code", JString "credential_handle_rejected");
                  ("message", JString "Credential transport handle rejected")]), s)
  else proxy_tool_request m tool path req s.
End Handler.

(** ** What reaches the upstream *)

Section Sent.
Context `{RegexCrate} `{Sha2Crate} `{HttpCrate} `{AesGcm} `{Base64Std} `{Base64Url} `{SerdeJson}.
Context (env : string -> option string) (post : TokenEndpoint)
  (url_parse : string -> option Url) (send : OutReq -> UpstreamReply)
  (kamiwaza : AppConfig -> string -> Request -> option Response).

(** The target a request is sent to: what the name resolves to, with the
    agent's override and, for OAuth, the resolved token. *)
Definition final_target (m : Moment) (tool : string) (req : Request) (s : AppState)
    (t : ProxyTarget) : Prop :=
  exists t0,
    resolve_target (st_catalog s) (st_config s) tool = Some t0 /\
    let t1 := apply_agent_credential_override env (st_agent_creds s) (req_ext req) t0 in
    match pt_auth t1 with
    | POauth _ _ _ _ =>
        exists a rt,
          resolve_oauth_token post (st_catalog s) (st_oauth s) t1
            (default DEFAULT_SESSION_LABEL (pt_oauth_session_label t1)) (m_nonces m) (m_now m)
          = (Ok a, rt) /\ t = pt_with_auth a t1
    | _ => t = t1
    end.

Definition allowlisted (tool url : string) (req : Request) (s : AppState) : bool :=
  forallb (fun tc => tool_request_allowed url_parse tc url req)
    (List.filter (fun tc => bool_decide (tc_name tc = tool)) (tools (st_config s))).

Lemma forward_sent c t url req s o :
  px_sent (forward send c t url req s) = Some o ->
  force_replace_missing (pt_auth t) (st_creds s) (pt_name t) = false /\
  Z.of_nat (String.length (req_body req)) <= pt_body_limit_bytes t /\
  exists body, o = build_upstream_request (st_creds s) t (req_method req) url (req_headers req) body
                     (ctx_agent_name c).
Proof.
  unfold forward. destruct (force_replace_missing _ _ _); [done|].
  destruct (Z.ltb_spec (pt_body_limit_bytes t) (Z.of_nat (String.length (req_body req)))); [done|].
  destruct (codex_step c t (req_body req)) as [[c' body]|] eqn:E; [|done].
  assert (Hn : ctx_agent_name c' = ctx_agent_name c).
  { unfold codex_step in E. repeat case_match; simplify_eq/=; done. }
  intros Hs. split; [done|]. split; [done|]. exists body. rewrite <- Hn.
  destruct (match send _ with SendError _ => _ | Upstream _ _ _ => _ end). by injection Hs as <-.
Qed.

Lemma upstream_url_override t path req creds :
  upstream_url_of (apply_agent_credential_override env creds (req_ext req) t) path req =
  upstream_url_of t path req /\
  pt_name (apply_agent_credential_override env creds (req_ext req) t) = pt_name t /\
  pt_body_limit_bytes (apply_agent_credential_override env creds (req_ext req) t)
    = pt_body_limit_bytes t.
Proof.
  unfold apply_agent_credential_override, upstream_url_of.
  repeat (case_match; try done); unfold override_auth; by case_match.
Qed.

(** Everything that holds when a request was sent upstream. *)
Lemma sent_inv m tool path req s o :
  px_sent (proxy_tool_request env post url_parse send kamiwaza m tool path req s) = Some o ->
  (forall id, identity (req_ext req) = Some id -> allows_tool id tool = Ok tt) /\
  exists t, final_target m tool req s t /\
    allowlisted tool (out_url o) req s = true /\
    force_replace_missing (pt_auth t) (st_creds s) (pt_name t) = false /\
    Z.of_nat (String.length (req_body req)) <= pt_body_limit_bytes t /\
    exists body, o = build_upstream_request (st_creds s) t (req_method req)
                       (upstream_url_of t path req) (req_headers req) body
                       (id_name <$> identity (req_ext req)).
Proof.
  unfold proxy_tool_request. intros Hs.
  destruct (match identity (req_ext req) with Some _ => _ | None => _ end) as [[]|] eqn:Eid; [|done].
  split; [intros id Hid; by rewrite Hid in Eid|].
  destruct (resolve_target _ _ _) as [t0|] eqn:Et; [|by destruct (kamiwaza _ _ _)].
  destruct (forallb _ _) eqn:Ea; [|done]. cbn [negb] in Hs.
  set (t1 := apply_agent_credential_override env (st_agent_creds s) (req_ext req) t0) in *.
  assert (Hu : upstream_url_of t1 path req = upstream_url_of t0 path req)
    by apply upstream_url_override.
  destruct (pt_auth t1) eqn:Ep.
  4: { destruct (resolve_oauth_token _ _ _ _ _ _ _) as [[a|u] rt] eqn:Er; [|done].
       apply forward_sent in Hs as (Hf & Hl & body & ->).
       exists (pt_with_auth a t1). split.
       { exists t0. split; [done|]. cbv zeta. fold t1. rewrite Ep. by exists a, rt. }
       split; [done|]. split; [done|]. split; [done|]. exists body.
       change (upstream_url_of (pt_with_auth a t1) path req) with (upstream_url_of t1 path req).
       by rewrite Hu. }
  all: apply forward_sent in Hs as (Hf & Hl & body & ->); exists t1;
    (split; [exists t0; split; [done|]; cbv zeta; fold t1; rewrite Ep; reflexivity|]);
    (split; [done|]); (split; [done|]); (split; [done|]); exists body; by rewrite Hu.
Qed.

(** The headers that authenticate or frame a message. *)
Definition guarded_headers : list string :=
  ["authorization"; "x-api-key"; "host"; "content-length"; "transfer-encoding"].

Lemma is_stripped_iff codex extra n :
  is_stripped codex extra n = true <->
  to_ascii_lowercase n ∈ guarded_headers \/ extra = Some (to_ascii_lowercase n) \/
  codex = true /\ to_ascii_lowercase n = "openai-beta".
Proof.
  unfold is_stripped, guarded_headers. rewrite !orb_true_iff, andb_true_iff, !bool_decide_eq_true.
  rewrite !elem_of_cons, elem_of_nil. tauto.
Qed.

(** C2: the agent's own credentials never reach the upstream: in any request
    the proxy sends, a header that authenticates (Authorization, X-Api-Key,
    the tool's configured header) or that frames the message (Host,
    Content-Length, Transfer-Encoding) is one the proxy itself put there, from
    the configured credential of the resolved target (or, for a codex
    upstream whose configured header has that name, as a codex header), and
    every other header the agent sent is passed on unchanged. *)
Theorem agent_credentials_stripped m tool path req s o :
  px_sent (proxy_tool_request env post url_parse send kamiwaza m tool path req s) = Some o ->
  exists t, final_target m tool req s t /\
    (forall n v, (n, v) ∈ out_headers o ->
       to_ascii_lowercase n ∈ guarded_headers \/
       strip_header_lower (pt_auth t) = Some (to_ascii_lowercase n) ->
       (n, v) ∈ injected (st_creds s) t \/
       is_chatgpt_codex_upstream (pt_upstream t) = true /\
       ((n, v) = ("OpenAI-Beta", "responses=experimental") \/ n = "originator")) /\
    (forall n v, (n, v) ∈ req_headers req ->
       to_ascii_lowercase n ∉ guarded_headers ->
       strip_header_lower (pt_auth t) <> Some (to_ascii_lowercase n) ->
       (is_chatgpt_codex_upstream (pt_upstream t) = true -> to_ascii_lowercase n <> "openai-beta") ->
       (n, v) ∈ out_headers o).
Proof.
  intros (_ & t & Ht & _ & _ & _ & body & ->)%sent_inv. exists t. split; [done|]. split.
  - intros n v Hin Hs. simpl in Hin. rewrite !elem_of_app in Hin.
    destruct Hin as [Hin|[Hin|Hin]]; [|by left|].
    + apply list_elem_of_In, filter_In in Hin as [_ Hn]. simpl in Hn.
      rewrite (proj2 (is_stripped_iff _ _ n)) in Hn; [done|]. tauto.
    + right. unfold codex_headers in Hin.
      destruct (is_chatgpt_codex_upstream (pt_upstream t)); [|by apply not_elem_of_nil in Hin].
      split; [done|]. apply elem_of_cons in Hin as [->|Hin]; [by left|]. right.
      destruct (negb _); [|by apply not_elem_of_nil in Hin].
      by apply list_elem_of_singleton in Hin as [= -> ->].
  - intros n v Hin Hg Hx Hc. simpl. apply elem_of_app. left. apply list_elem_of_In, filter_In.
    split; [by apply list_elem_of_In|]. simpl. apply negb_true_iff, not_true_iff_false.
    rewrite is_stripped_iff. tauto.
Qed.

(** C8: replacement fails closed: a request is only sent to a target that
    demands replacement ([force_replace]) together with a credential the proxy
    injected for it. *)
Theorem force_replace_fails_closed m tool path req s o :
  px_sent (proxy_tool_request env post url_parse send kamiwaza m tool path req s) = Some o ->
  exists t, final_target m tool req s t /\
    (match pt_auth t with PHeader _ _ f _ | PBearer f _ => f | _ => false end = true ->
     exists n v, injected (st_creds s) t = [(n, v)] /\ (n, v) ∈ out_headers o).
Proof.
  intros (_ & t & Ht & _ & Hf & _ & body & ->)%sent_inv. exists t. split; [done|].
  intros Hforce. assert (G : exists n v, injected (st_creds s) t = [(n, v)]).
  { unfold injected, force_replace_missing in *.
    destruct (pt_auth t) as [|h a f ov|f ov|]; try done; subst f; (destruct ov; [by do 2 eexists|]);
      simpl in Hf; (destruct (st_creds s !! pt_name t); [by do 2 eexists|done]). }
  destruct G as (n & v & G). exists n, v. split; [done|]. simpl. rewrite G, !elem_of_app.
  right. left. left.
Qed.

Lemma forward_missing c t url req s :
  force_replace_missing (pt_auth t) (st_creds s) (pt_name t) = true ->
  px_sent (forward send c t url req s) = None /\
  resp_status (px_response (forward send c t url req s)) = 503.
Proof. intros Hf. unfold forward. by rewrite Hf. Qed.

(** C14: the request allowlist is enforced on the URL that is sent: whenever a
    request goes upstream, for every configured tool of that name that has a
    request allowlist the sent URL has no query and no fragment, its path is
    literal, and some rule lists exactly its method and path. *)
Theorem request_allowlist_enforced m tool path req s o tc rules :
  px_sent (proxy_tool_request env post url_parse send kamiwaza m tool path req s) = Some o ->
  tc ∈ tools (st_config s) -> tc_name tc = tool -> tc_request_allowlist tc = Some rules ->
  exists url r, url_parse (out_url o) = Some url /\ u_query url = None /\ u_fragment url = None /\
    is_literal_request_path (u_path url) = true /\ r ∈ rules /\
    rule_method r = out_method o /\ rule_path r = u_path url.
Proof.
  intros (_ & t & _ & Hal & _ & _ & body & E)%sent_inv Htc Hn Hr.
  assert (Hm : out_method o = req_method req) by (by rewrite E).
  unfold allowlisted in Hal. rewrite forallb_forall in Hal.
  assert (Hin : In tc (List.filter (fun x => bool_decide (tc_name x = tool)) (tools (st_config s)))).
  { apply filter_In. split; [by apply list_elem_of_In|]. by apply bool_decide_eq_true. }
  specialize (Hal tc Hin). unfold tool_request_allowed in Hal. rewrite Hr in Hal.
  destruct (negb _ || _); [done|]. destruct (url_parse (out_url o)) as [url|]; [|done].
  apply andb_prop in Hal as [Hal Hex]. split_ands.
  apply existsb_exists in Hex as (r & Hrin & Hrm). split_ands.
  exists url, r. repeat split; try done; try congruence.
  - by destruct (u_query url).
  - by destruct (u_fragment url).
  - by apply list_elem_of_In.
Qed.
(** ** Denials *)

(** C13: a tool the agent's ACL refuses is never contacted: the agent gets the
    generic 403 whatever the tool, nothing is sent upstream, nothing but the
    audit log changes, and the log gains exactly one Security/Denied row with
    the ACL's reason. *)
Theorem acl_denied m tool path req s id reason :
  identity (req_ext req) = Some id -> allows_tool id tool = Err reason ->
  audit_writable (st_audit s) = true ->
  let r := proxy_tool_request env post url_parse send kamiwaza m tool path req s in
  px_sent r = None /\ resp_status (px_response r) = 403 /\
  (forall tool2 path2 req2 s2 id2 reason2, identity (req_ext req2) = Some id2 ->
     allows_tool id2 tool2 = Err reason2 ->
     px_response (proxy_tool_request env post url_parse send kamiwaza m tool2 path2 req2 s2) = px_response r) /\
  px_state r = record_event (audit_event (snapshot req tool (m_now_ms m) (m_latency_ms m))
                 Security "authz_denied" 403 Denied None (Some (reason_json reason))) s /\
  audit_rows (st_audit (px_state r)) = audit_rows (st_audit s) ++
    [row_of (audit_event (snapshot req tool (m_now_ms m) (m_latency_ms m))
               Security "authz_denied" 403 Denied None (Some (reason_json reason)))].
Proof.
  intros Hid Ha Hw r.
  assert (E : r = answer (record_authz_denied (snapshot req tool (m_now_ms m) (m_latency_ms m)) reason s))
    by (unfold r, proxy_tool_request; by rewrite Hid, Ha).
  rewrite E. split; [done|]. split; [done|]. split.
  { intros tool2 path2 req2 s2 id2 reason2 Hid2 Ha2. unfold proxy_tool_request. by rewrite Hid2, Ha2. }
  split; [done|]. simpl. rewrite audit_record_rows. by rewrite Hw.
Qed.
End Sent.

(** ** Audit coverage *)

Section Coverage.
Context `{RegexCrate} `{Sha2Crate} `{HttpCrate} `{AesGcm} `{Base64Std} `{Base64Url} `{SerdeJson}.

(** A row about the request in hand. *)
Definition row_for (c : RequestCtx) (r : AuditRow) : Prop :=
  row_tool r = Some (tool_name c) /\ row_agent_public_id r = ctx_agent_public_id c /\
  row_method r = Some (ctx_method c) /\ row_path r = Some (request_path c) /\
  row_auth_method r = Some (ctx_auth_method c).

(** The log grew by rows about the request. *)
Definition logs0 (c : RequestCtx) (s s' : AppState) : Prop :=
  audit_writable (st_audit s') = audit_writable (st_audit s) /\
  exists rows, audit_rows (st_audit s') = audit_rows (st_audit s) ++ rows /\ Forall (row_for c) rows.

Definition logs (c : RequestCtx) (s s' : AppState) : Prop :=
  audit_writable (st_audit s') = audit_writable (st_audit s) /\
  exists r rows, audit_rows (st_audit s') = audit_rows (st_audit s) ++ r :: rows /\
    Forall (row_for c) (r :: rows).

Lemma logs0_refl c s s' : st_audit s' = st_audit s -> logs0 c s s'.
Proof. intros E. split; [by rewrite E|]. exists []. by rewrite E, app_nil_r. Qed.

Lemma logs0_trans c s1 s2 s3 : logs0 c s1 s2 -> logs0 c s2 s3 -> logs0 c s1 s3.
Proof.
  intros [W1 (r1 & E1 & F1)] [W2 (r2 & E2 & F2)]. split; [congruence|]. exists (r1 ++ r2).
  rewrite E2, E1, app_assoc. split; [done|]. by apply Forall_app.
Qed.

Lemma logs0_logs c s1 s2 s3 : logs0 c s1 s2 -> logs c s2 s3 -> logs c s1 s3.
Proof.
  intros [W1 (r1 & E1 & F1)] [W2 (r2 & rs & E2 & F2)]. split; [congruence|].
  destruct r1 as [|x r1].
  - exists r2, rs. rewrite E2, E1, app_nil_r. done.
  - exists x, (r1 ++ r2 :: rs). rewrite E2, E1, <- app_assoc. split; [done|].
    change (x :: r1 ++ r2 :: rs) with ((x :: r1) ++ r2 :: rs). by apply Forall_app.
Qed.

Lemma logs_logs0 c s1 s2 s3 : logs c s1 s2 -> logs0 c s2 s3 -> logs c s1 s3.
Proof.
  intros [W1 (r1 & rs & E1 & F1)] [W2 (r2 & E2 & F2)]. split; [congruence|].
  exists r1, (rs ++ r2). rewrite E2, E1, <- app_assoc. split; [done|].
  change (r1 :: rs ++ r2) with ((r1 :: rs) ++ r2). by apply Forall_app.
Qed.

Lemma logs_weaken c s1 s2 : logs c s1 s2 -> logs0 c s1 s2.
Proof. intros [W (r & rs & E & F)]. split; [done|]. by exists (r :: rs). Qed.

Lemma record_event_logs c e s :
  audit_writable (st_audit s) = true -> row_for c (row_of e) -> logs c s (record_event e s).
Proof.
  intros Hw Hr. split; [simpl; by rewrite audit_record_writable|].
  exists (row_of e), []. simpl. rewrite audit_record_rows, Hw. split; [done|]. by constructor.
Qed.

Lemma fold_record_logs {A} c (f : A -> AuditEvent) l s :
  audit_writable (st_audit s) = true -> (forall x, row_for c (row_of (f x))) ->
  logs0 c s (fold_left (fun s x => record_event (f x) s) l s).
Proof.
  revert s. induction l as [|x l IH]; intros s Hw Hf; simpl; [by apply logs0_refl|].
  pose proof (record_event_logs c (f x) s Hw (Hf x)) as L.
  eapply logs0_trans; [by apply logs_weaken|]. apply IH; [|done].
  exact (eq_trans (proj1 L) Hw).
Qed.

Lemma event_row_for c cls ev st d host det : row_for c (row_of (audit_event c cls ev st d host det)).
Proof. done. Qed.

(** One row was recorded. *)
Ltac one_row := apply record_event_logs; [assumption|apply event_row_for].

Lemma stream_body_logs c host st cap items s :
  audit_writable (st_audit s) = true ->
  logs0 c s (snd (stream_body c host st cap items s)).
Proof.
  intros Hw. unfold stream_body. destruct cap as [cap|]; [|by apply logs0_refl].
  destruct (drain _ _) as [[b s']|]; [|by apply logs0_refl]. simpl.
  by apply (fold_record_logs c (truncation_event c host st cap)).
Qed.

Lemma handle_upstream_response_logs c t host st hs items s :
  audit_writable (st_audit s) = true ->
  logs c s (snd (handle_upstream_response c t host st hs items s)).
Proof.
  intros Hw. unfold handle_upstream_response.
  assert (Hfin : forall cap, logs c s (snd (
    let '(body, s') := stream_body c host st cap items (record_proxy_request_success c t host st s) in
    ({| resp_status := status_code st; resp_headers := forward_response_headers hs;
        resp_body := body |}, s')))).
  { intros cap. pose proof (record_event_logs c (audit_event c Proxy "proxy_request" st
      (if 500 <=? st then Error else Allowed) host (Some (audit_details c t))) s Hw (event_row_for _ _ _ _ _ _ _)) as L.
    eapply logs_logs0; [exact L|].
    pose proof (stream_body_logs c host st cap items
      (record_proxy_request_success c t host st s) (eq_trans (proj1 L) Hw)) as L2.
    revert L2. destruct (stream_body c host st cap items _) as [b s'] eqn:Eb. intros L2.
    exact L2. }
  destruct (st_response_controls s !! tool_name c) as [rc|]; [|apply Hfin].
  destruct (negb _); [by one_row|]. destruct (rc_should_buffer rc); [|apply Hfin].
  unfold apply_buffered_response_controls.
  destruct (collect_bytes items); [|by one_row].
  destruct (apply_non_streaming _ _ _); [|by one_row..]. simpl.
  set (s1 := fold_left _ redactions s).
  assert (L1 : logs0 c s s1) by (apply (fold_record_logs c (fun rec => audit_event c Proxy
    "response_redaction" st Allowed host (Some (json_obj [("pattern_id", JString (pattern_id rec));
      ("matches", JInt (Z.of_nat (matches rec))); ("match_hash", JString (match_hash rec))])))); done).
  eapply logs0_logs; [exact L1|]. apply record_event_logs; [exact (eq_trans (proj1 L1) Hw)|done].
Qed.

Context (env : string -> option string) (post : TokenEndpoint)
  (url_parse : string -> option Url) (send : OutReq -> UpstreamReply)
  (kamiwaza : AppConfig -> string -> Request -> option Response).

Lemma logs_ctx c c' s s' :
  (forall r, row_for c' r -> row_for c r) -> logs c' s s' -> logs c s s'.
Proof.
  intros Hc [W (r & rs & E & F)]. split; [done|]. exists r, rs. split; [done|].
  eapply Forall_impl; [exact F|done].
Qed.

Lemma forward_logs c t url req s :
  audit_writable (st_audit s) = true -> logs c s (px_state (forward send c t url req s)).
Proof.
  intros Hw. unfold forward. destruct (force_replace_missing _ _ _); [by one_row|].
  destruct (_ <? _); [by one_row|].
  destruct (codex_step c t (req_body req)) as [[c' body]|] eqn:E; [|by one_row].
  assert (Hc : forall r, row_for c' r -> row_for c r).
  { unfold codex_step in E. repeat case_match; simplify_eq/=; done. }
  destruct (send _) as [timeout|code hs items].
  - destruct timeout; apply (logs_ctx c c' _ _ Hc); by apply record_event_logs.
  - pose proof (handle_upstream_response_logs c' t (url_host (pt_upstream t)) code hs items s Hw) as L.
    destruct (handle_upstream_response _ _ _ _ _ _ _). apply (logs_ctx c c' _ _ Hc). exact L.
Qed.

(** C12: every proxied request is audited: with a writable log, whatever the
    outcome (denied, unknown tool, missing credential, OAuth failure, body too
    large, upstream error, refused or delivered response), the log only grows,
    by at least one row, and all of them name this tool, agent, method, path
    and transport.  The one exception is a call answered by the Kamiwaza
    bridge, which leaves the log as it was. *)
Theorem every_request_audited m tool path req s :
  audit_writable (st_audit s) = true ->
  let r := proxy_tool_request env post url_parse send kamiwaza m tool path req s in
  logs (snapshot req tool (m_now_ms m) (m_latency_ms m)) s (px_state r) \/
  (resolve_target (st_catalog s) (st_config s) tool = None /\
   kamiwaza (st_config s) tool req = Some (px_response r) /\ px_state r = s).
Proof.
  intros Hw. unfold proxy_tool_request.
  destruct (match identity (req_ext req) with Some _ => _ | None => _ end) as [u|reason];
    [|left; by one_row].
  destruct (resolve_target _ _ _) as [t0|] eqn:Et.
  2: { destruct (kamiwaza _ _ _) as [resp|]; [by right|left; by one_row]. }
  left. destruct (negb _); [by one_row|].
  assert (Hset : forall c rt s', logs c (set_oauth rt s) s' -> logs c s s') by done.
  destruct (pt_auth _); try by apply forward_logs.
  destruct (resolve_oauth_token _ _ _ _ _ _ _) as [[a|u'] rt].
  - apply (Hset _ rt). by apply forward_logs.
  - apply (Hset _ rt). by apply record_event_logs.
Qed.
End Coverage.

(** ** OAuth upstreams *)

Section OauthForward.
Context `{RegexCrate} `{Sha2Crate} `{HttpCrate} `{AesGcm} `{!AesGcmLaws} `{Base64Std} `{Base64Url}
  `{SerdeJson}.
Context (env : string -> option string) (post : TokenEndpoint)
  (url_parse : string -> option Url) (send : OutReq -> UpstreamReply)
  (kamiwaza : AppConfig -> string -> Request -> option Response).

(** Whatever recording a row leaves alone, the response path does. *)
Section Frame.
Context {B : Type} (f : AppState -> B) (Hf : forall e s, f (record_event e s) = f s).

Lemma fold_record_frame {A} (ev : A -> AuditEvent) l s :
  f (fold_left (fun s x => record_event (ev x) s) l s) = f s.
Proof. revert s. induction l as [|x l IH]; intros s; simpl; [done|]. by rewrite IH. Qed.

Lemma stream_body_frame c host st cap items s :
  f (snd (stream_body c host st cap items s)) = f s.
Proof.
  unfold stream_body. destruct cap as [cap|]; [|done]. destruct (drain _ _) as [[b s']|]; [|done].
  apply (fold_record_frame (truncation_event c host st cap)).
Qed.

Lemma forward_frame c t url req s : f (px_state (forward send c t url req s)) = f s.
Proof.
  unfold forward. destruct (force_replace_missing _ _ _); [apply Hf|]. destruct (_ <? _); [apply Hf|].
  destruct (codex_step c t (req_body req)) as [[c' body]|]; [|apply Hf].
  destruct (send _) as [timeout|code hs items]; [destruct timeout; apply Hf|].
  unfold handle_upstream_response, apply_buffered_response_controls.
  set (host := url_host (pt_upstream t)).
  assert (Hfin : forall cap, f (snd (stream_body c' host code cap items
            (record_proxy_request_success c' t host code s))) = f s)
    by (intros cap; rewrite stream_body_frame; apply Hf).
  destruct (st_response_controls s !! tool_name c') as [rc|].
  - destruct (negb _); [apply Hf|]. destruct (rc_should_buffer rc).
    + destruct (collect_bytes items); [|apply Hf]. destruct (apply_non_streaming _ _ _); [|apply Hf..].
      simpl. unfold record_proxy_request_success. rewrite Hf.
      apply (fold_record_frame (fun rec => audit_event c' Proxy
        "response_redaction" code Allowed host (Some (json_obj [("pattern_id", JString (pattern_id rec));
        ("matches", JInt (Z.of_nat (matches rec))); ("match_hash", JString (match_hash rec))])))).
    + specialize (Hfin (streaming_size_cap rc)). by destruct (stream_body _ _ _ _ _ _).
  - specialize (Hfin None). by destruct (stream_body _ _ _ _ _ _).
Qed.

(** The whole handler also writes the OAuth sessions. *)
Context (Ho : forall rt s, f (set_oauth rt s) = f s).

Lemma proxy_frame m tool path req s :
  f (px_state (proxy_tool_request env post url_parse send kamiwaza m tool path req s)) = f s.
Proof.
  unfold proxy_tool_request. destruct (match identity _ with Some _ => _ | None => _ end); [|apply Hf].
  destruct (resolve_target _ _ _) as [t|]; [|destruct (kamiwaza _ _ _); [done|apply Hf]].
  destruct (negb _); [apply Hf|]. set (t' := apply_agent_credential_override _ _ _ _).
  destruct (pt_auth t'); try apply forward_frame.
  destruct (resolve_oauth_token _ _ _ _ _ _ _) as [[u|u] rt].
  - by rewrite forward_frame.
  - simpl. unfold record_oauth_unavailable. by rewrite Hf.
Qed.
End Frame.

Lemma forward_oauth c t url req s : st_oauth (px_state (forward send c t url req s)) = st_oauth s.
Proof. by apply forward_frame. Qed.

Lemma resolve_oauth_key post2 cat rt t label nonces now :
  rt_sealing_key <$> (resolve_oauth_token post2 cat rt t label nonces now).2 =
  rt_sealing_key <$> rt.
Proof.
  unfold resolve_oauth_token. destruct rt as [rt|]; [|done]. simpl.
  destruct (session_get _ _ _ _) as [[ss|]|]; [|done..]. destruct (os_degraded ss); [done|].
  destruct (needs_refresh now ss); [|done]. by destruct (refresh_session _ _ _ _ _ _ _ _) as [[u|u] db].
Qed.

(** OAuth stays on or off, with the same key. *)
Lemma proxy_oauth_key m tool path req s :
  rt_sealing_key <$> st_oauth (px_state
    (proxy_tool_request env post url_parse send kamiwaza m tool path req s)) =
  rt_sealing_key <$> st_oauth s.
Proof.
  unfold proxy_tool_request. destruct (match identity _ with Some _ => _ | None => _ end); [|done].
  destruct (resolve_target _ _ _) as [t|]; [|by destruct (kamiwaza _ _ _)].
  destruct (negb _); [done|]. set (t' := apply_agent_credential_override _ _ _ _).
  destruct (pt_auth t'); try by rewrite forward_oauth.
  set (label := default _ _).
  pose proof (resolve_oauth_key post (st_catalog s) (st_oauth s) t' label (m_nonces m) (m_now m)) as K.
  destruct (resolve_oauth_token _ _ _ _ _ _ _) as [[u|u] rt]; [by rewrite forward_oauth|done].
Qed.

(** The request is for an OAuth registration, and this is its target and the
    session it uses. *)
Definition oauth_request (tool : string) (req : Request) (s : AppState) (t : ProxyTarget)
    (label : string) : Prop :=
  (exists t0, resolve_target (st_catalog s) (st_config s) tool = Some t0 /\
     t = apply_agent_credential_override env (st_agent_creds s) (req_ext req) t0) /\
  isSome (oauth_session_id (pt_auth t)) = true /\
  label = default DEFAULT_SESSION_LABEL (pt_oauth_session_label t).

(** What [resolve_oauth_token] hands out. *)
Lemma resolve_oauth_token_ok cat rt t label nonces now a rt' :
  nonce_ok nonces.1 -> nonce_ok nonces.2 -> reply_utf8 post ->
  resolve_oauth_token post cat (Some rt) t label nonces now = (Ok a, rt') ->
  exists sess cur rt1 mode tok,
    session_get (rt_sealing_key rt) (pt_name t) label (rt_sessions rt) = Ok (Some sess) /\
    os_degraded sess = false /\ rt' = Some rt1 /\
    session_get (rt_sealing_key rt) (pt_name t) label (rt_sessions rt1) = Ok (Some cur) /\
    a = oauth_auth mode cur /\ os_access_token cur = Some tok /\
    if needs_refresh now sess
    then exists tr, exchanged post cat sess tr /\ cur = refreshed now tr sess
    else cur = sess.
Proof.
  intros Hn1 Hn2 Hu. unfold resolve_oauth_token. simpl.
  destruct (session_get _ _ _ _) as [[sess|]|] eqn:Eg; [|done..].
  destruct (os_degraded sess) eqn:Ed; [done|].
  destruct (needs_refresh now sess) eqn:En.
  - destruct (refresh_session _ _ _ _ _ _ _ _) as [[upd|e] db] eqn:Er; [|done]. intros [= <- <-].
    destruct (session_get_key _ _ _ _ _ Eg) as [Ekn Ekl].
    rewrite <- Ekn, <- Ekl in Eg.
    destruct (refresh_session_stores _ _ _ _ _ _ _ _ _ _ Hn1 Hn2 Hu Eg Er) as (tr & Hx & Hc & Hg & _).
    rewrite <- Ekn, <- Ekl.
    eexists sess, upd, _, _, (tr_access_token tr).
    repeat (split; [first [reflexivity | assumption | by rewrite Hc]|]).
    rewrite En. by exists tr.
  - intros [= <- <-]. destruct (os_access_token sess) as [tok|] eqn:Et.
    2: { unfold needs_refresh in En. by rewrite Et in En. }
    eexists sess, sess, _, _, tok.
    repeat (split; [first [reflexivity | assumption]|]). by rewrite En.
Qed.

(** C9: an OAuth upstream only ever sees a live token of the session the
    request selects: if a request is sent, that session existed and was not
    degraded, every Authorization header of the request is ["Bearer "] and the
    access token now stored for the session (and there is one), and that token
    is the old one only if it was valid for more than a minute, otherwise the
    one the provider just returned. *)
Theorem oauth_token_injected m tool path req s o t label :
  nonce_ok (m_nonces m).1 -> nonce_ok (m_nonces m).2 -> reply_utf8 post ->
  oauth_request tool req s t label ->
  let r := proxy_tool_request env post url_parse send kamiwaza m tool path req s in
  px_sent r = Some o ->
  exists rt sess rt' cur tok,
    st_oauth s = Some rt /\
    session_get (rt_sealing_key rt) (pt_name t) label (rt_sessions rt) = Ok (Some sess) /\
    os_degraded sess = false /\
    st_oauth (px_state r) = Some rt' /\
    session_get (rt_sealing_key rt) (pt_name t) label (rt_sessions rt') = Ok (Some cur) /\
    os_access_token cur = Some tok /\
    ("Authorization", "Bearer " +:+ tok) ∈ out_headers o /\
    (forall n v, (n, v) ∈ out_headers o -> to_ascii_lowercase n = "authorization" ->
       v = "Bearer " +:+ tok) /\
    if needs_refresh (m_now m) sess
    then exists tr, exchanged post (st_catalog s) sess tr /\ cur = refreshed (m_now m) tr sess
    else cur = sess.
Proof.
  intros Hn1 Hn2 Hu ((t0 & Ht0 & Ht) & Ho & Hl) r. unfold r, proxy_tool_request.
  destruct (match identity (req_ext req) with Some _ => _ | None => _ end); [|done].
  rewrite Ht0. destruct (negb _); [done|]. rewrite <- Ht.
  destruct (pt_auth t) eqn:Ea; try done. rewrite <- Hl.
  destruct (resolve_oauth_token _ _ _ _ _ _ _) as [[pa|u] rt'] eqn:Er; [|done]. intros Hs.
  destruct (st_oauth s) as [rt|] eqn:Eo; [|done].
  destruct (resolve_oauth_token_ok _ _ _ _ _ _ _ _ Hn1 Hn2 Hu Er)
    as (sess & cur & rt1 & mode & tok & Hg & Hd & -> & Hg' & -> & Htok & Hcase).
  exists rt, sess, rt1, cur, tok. rewrite forward_oauth.
  apply forward_sent in Hs as (_ & _ & body & ->). repeat split; try done.
  - simpl. rewrite !elem_of_app. right. left. unfold injected. simpl. rewrite Htok. left.
  - intros n v Hin Hn. simpl in Hin. rewrite !elem_of_app in Hin. destruct Hin as [Hin|[Hin|Hin]].
    + apply list_elem_of_In, filter_In in Hin as [_ Hf]. simpl in Hf. unfold is_stripped in Hf.
      rewrite Hn in Hf. simpl in Hf. done.
    + unfold injected in Hin. simpl in Hin. rewrite Htok in Hin. simpl in Hin.
      apply elem_of_cons in Hin as [[= -> ->]|Hin]; [done|].
      destruct (os_account_id cur); [|by apply not_elem_of_nil in Hin].
      destruct (is_chatgpt_codex_upstream _); [|by apply not_elem_of_nil in Hin].
      apply list_elem_of_singleton in Hin as [= -> ->]. done.
    + unfold codex_headers in Hin. destruct (is_chatgpt_codex_upstream _); [|by apply not_elem_of_nil in Hin].
      apply elem_of_cons in Hin as [[= -> ->]|Hin]; [done|].
      destruct (negb _); [|by apply not_elem_of_nil in Hin].
      apply list_elem_of_singleton in Hin as [= -> ->]. done.
Qed.

End OauthForward.

(** ** A degraded session stays out of use *)

Section OauthLatch.
Context `{RegexCrate} `{Sha2Crate} `{HttpCrate} `{AesGcm} `{Base64Std} `{Base64Url} `{SerdeJson}.
Context (env : string -> option string) (post : TokenEndpoint)
  (url_parse : string -> option Url) (send : OutReq -> UpstreamReply)
  (kamiwaza : AppConfig -> string -> Request -> option Response).

(** The session [n]/[l] is stored and marked degraded. *)
Definition degraded_at (n l : string) (s : AppState) : Prop :=
  exists rt row, st_oauth s = Some rt /\ row_at n l (rt_sessions rt) = Some row /\
    sr_degraded row = 1%Z.

(** The runtime as the admin listener holds it, and its writes. *)
Definition admin_holds (rt : OauthRuntime) (o : OauthAdminState) : Prop :=
  oa_sessions o = rt_sessions rt /\ oa_sealing_key o = rt_sealing_key rt.

Definition admin_left (o : OauthAdminState) : OauthRuntime :=
  {| rt_sessions := oa_sessions o; rt_sealing_key := oa_sealing_key o; rt_locks := oa_locks o |}.

(** Everything the daemon runs that writes the session table, with any
    provider, upstream, clock and randomness, short of revoking the session
    [n]/[l]: proxied requests, ticks of the background refresher, bootstraps of
    any session and revocations of other ones; and any change to the rest of
    the state (catalog, configuration, credentials, overrides, audit log, locks). *)
Inductive later (n l : string) : AppState -> AppState -> Prop :=
| later_request post2 send2 kamiwaza2 m tool path req s :
    later n l s (px_state (proxy_tool_request env post2 url_parse send2 kamiwaza2 m tool path req s))
| later_tick post2 cat now nonces locks rt s :
    st_oauth s = Some rt ->
    later n l s (set_oauth (Some
      {| rt_sessions := tick post2 cat (rt_sealing_key rt) now nonces (rt_sessions rt);
         rt_sealing_key := rt_sealing_key rt; rt_locks := locks |}) s)
| later_bootstrap post2 e1 e2 e3 o n' label refresh n0 n1 n2 t0 t1 rt s :
    st_oauth s = Some rt -> admin_holds rt o ->
    later n l s (set_oauth (Some (admin_left
      (op_oauth_bootstrap post2 e1 e2 e3 n' label refresh n0 n1 n2 t0 t1 o).2)) s)
| later_revoke e2 o n' label rt s :
    st_oauth s = Some rt -> admin_holds rt o -> (n, l) <> (n', label_or_default label) ->
    later n l s (set_oauth (Some (admin_left (op_oauth_revoke e2 n' label o).2)) s)
| later_elsewhere s s' : st_oauth s' = st_oauth s -> later n l s s'.

(** A degraded session is refused whatever the provider would answer, and
    stays as it is whichever session is resolved. *)
Lemma resolve_oauth_degraded post2 cat rt t label nonces now row :
  row_at (pt_name t) label (rt_sessions rt) = Some row -> sr_degraded row = 1 ->
  exists u rt', resolve_oauth_token post2 cat (Some rt) t label nonces now = (Err u, Some rt') /\
    rt_sessions rt' = rt_sessions rt.
Proof.
  intros Hat Hd. unfold resolve_oauth_token. simpl.
  destruct (session_get _ _ _ _) as [[sess|]|] eqn:Eg; [|by do 2 eexists..].
  apply session_get_row in Eg as (_ & row' & Hat' & Hs). rewrite Hat in Hat'. injection Hat' as <-.
  apply row_to_session_key in Hs as (_ & _ & -> & _). rewrite Hd. simpl. by do 2 eexists.
Qed.

Lemma resolve_oauth_other post2 cat rt t label nonces now n l :
  (n, l) <> (pt_name t, label) ->
  exists rt', (resolve_oauth_token post2 cat (Some rt) t label nonces now).2 = Some rt' /\
    row_at n l (rt_sessions rt') = row_at n l (rt_sessions rt).
Proof.
  intros Hne. unfold resolve_oauth_token. simpl.
  destruct (session_get _ _ _ _) as [[sess|]|] eqn:Eg; [|by eexists..].
  destruct (os_degraded sess); [by eexists|]. destruct (needs_refresh now sess); [|by eexists].
  destruct (refresh_session _ _ _ _ _ _ _ _) as [[upd|e] db] eqn:Er.
  - eexists. split; [done|]. simpl. destruct (session_get_key _ _ _ _ _ Eg) as [En El].
    destruct (refresh_session_cases _ _ _ _ _ _ _ _ _ _ Er) as [(e & ? & ->)|(tr & _ & Hu & _)]; [done|].
    destruct (update_tokens_row _ _ _ _ _ _ _ _ _ _ _ Hu) as (_ & ? & ? & ? & _ & _ & ->).
    by rewrite En, El, bool_decide_eq_false_2.
  - eexists. split; [done|]. simpl.
    by apply (refresh_failed_degrades _ _ _ _ _ _ _ _ now _ _ _ _ Eg Er).
Qed.

Lemma proxy_degraded post2 send2 kamiwaza2 m tool path req s n l :
  degraded_at n l s ->
  degraded_at n l (px_state (proxy_tool_request env post2 url_parse send2 kamiwaza2 m tool path req s)).
Proof.
  intros (rt & row & Ho & Hat & Hd). unfold proxy_tool_request.
  assert (Hs : degraded_at n l s) by by exists rt, row.
  destruct (match identity _ with Some _ => _ | None => _ end); [|done].
  destruct (resolve_target _ _ _) as [t|]; [|by destruct (kamiwaza2 _ _ _)].
  destruct (negb _); [done|]. set (t' := apply_agent_credential_override _ _ _ _).
  destruct (pt_auth t'); try (exists rt, row; by rewrite forward_oauth).
  set (label := default _ _).
  assert (exists rt', (resolve_oauth_token post2 (st_catalog s) (st_oauth s) t' label (m_nonces m)
            (m_now m)).2 = Some rt' /\ row_at n l (rt_sessions rt') = Some row) as (rt' & E & Hat').
  { rewrite Ho. destruct (decide ((n, l) = (pt_name t', label))) as [[= -> ->]|Hne].
    - destruct (resolve_oauth_degraded post2 (st_catalog s) rt t' label (m_nonces m) (m_now m) row)
        as (u & rt' & -> & Hrt); [done..|]. exists rt'. by rewrite Hrt.
    - destruct (resolve_oauth_other post2 (st_catalog s) rt t' label (m_nonces m) (m_now m) n l)
        as (rt' & ? & Hrt); [done|]. exists rt'. by rewrite Hrt. }
  destruct (resolve_oauth_token _ _ _ _ _ _ _) as [[u|u] rt1]; simpl in E; subst rt1;
    [|by exists rt', row]. exists rt', row. by rewrite forward_oauth.
Qed.

Lemma later_degraded n l s s' : later n l s s' -> degraded_at n l s -> degraded_at n l s'.
Proof.
  intros [post2 send2 kw m tool path req s1|post2 cat now nonces locks rt s1 Ho
         |post2 e1 e2 e3 o n' label refresh n0 n1 n2 t0 t1 rt s1 Ho [Hs Hk]
         |e2 o n' label rt s1 Ho [Hs Hk] Hne|s1 s2 E];
    intros HD; [by apply proxy_degraded|..]; destruct HD as (rt0 & row & Ho0 & Hat & Hd).
  - rewrite Ho in Ho0. injection Ho0 as ->. eexists _, row. split; [done|]. split; [|done].
    by apply tick_degraded.
  - rewrite Ho in Ho0. injection Ho0 as ->. eexists _, row. split; [done|]. split; [|done].
    apply bootstrap_keeps_rows. by rewrite Hs.
  - rewrite Ho in Ho0. injection Ho0 as ->. eexists _, row. split; [done|]. split; [|done].
    simpl. by rewrite revoke_keeps_others, Hs.
  - exists rt0, row. by rewrite E.
Qed.

Lemma later_degraded_rtc n l s s' : rtc (later n l) s s' -> degraded_at n l s -> degraded_at n l s'.
Proof. induction 1; eauto using later_degraded. Qed.

Lemma degraded_not_sent post2 send2 kamiwaza2 m tool path req s t label :
  oauth_request env tool req s t label -> degraded_at (pt_name t) label s ->
  px_sent (proxy_tool_request env post2 url_parse send2 kamiwaza2 m tool path req s) = None.
Proof.
  intros ((t0 & Ht0 & Ht) & Ho & Hl) (rt & row & Hrt & Hat & Hd). unfold proxy_tool_request.
  destruct (match identity (req_ext req) with Some _ => _ | None => _ end); [|done].
  rewrite Ht0. destruct (negb _); [done|]. rewrite <- Ht.
  destruct (pt_auth t); try done. rewrite <- Hl, Hrt.
  destruct (resolve_oauth_degraded post2 (st_catalog s) rt t label (m_nonces m) (m_now m) row)
    as (u & rt' & -> & _); done.
Qed.

(** A request whose refresh fails is answered with what the failure is
    reported as, and the session is marked. *)
Lemma failed_refresh_answer m tool path req s t label rt sess e db' :
  oauth_request env tool req s t label ->
  (forall id, identity (req_ext req) = Some id -> allows_tool id tool = Ok tt) ->
  allowlisted url_parse tool (upstream_url_of t path req) req s = true ->
  st_oauth s = Some rt ->
  session_get (rt_sealing_key rt) (pt_name t) label (rt_sessions rt) = Ok (Some sess) ->
  os_degraded sess = false -> needs_refresh (m_now m) sess = true ->
  refresh_session post (st_catalog s) (rt_sealing_key rt) sess (m_nonces m).1 (m_nonces m).2 (m_now m)
    (rt_sessions rt) = (Err e, db') ->
  let r := proxy_tool_request env post url_parse send kamiwaza m tool path req s in
  px_sent r = None /\ resp_status (px_response r) = 503 /\
  exists locks, st_oauth (px_state r) =
    Some {| rt_sessions := snd (mark_degraded (pt_name t) label (m_now m) db');
            rt_sealing_key := rt_sealing_key rt; rt_locks := locks |}.
Proof.
  intros ((t0 & Ht0 & Ht) & Hoa & Hl) Hacl Hal Ho Hg Hd Hnr Hre r. unfold r, proxy_tool_request.
  replace (match identity (req_ext req) with Some id => allows_tool id tool | None => Ok tt end)
    with (Ok tt : result string unit) by (destruct (identity (req_ext req)); [by rewrite Hacl|done]).
  rewrite Ht0. unfold allowlisted in Hal.
  assert (Hu : upstream_url_of t path req = upstream_url_of t0 path req)
    by (rewrite Ht; apply upstream_url_override).
  rewrite <- Hu, Hal. simpl. rewrite <- Ht. destruct (pt_auth t); try done. rewrite <- Hl.
  unfold resolve_oauth_token. rewrite Ho. cbn [rt_sealing_key rt_sessions]. rewrite Hg, Hd, Hnr, Hre.
  simpl. split_and!; try done. by eexists.
Qed.

(** C10: a failed refresh latches: when the exchange for an expired token
    fails, the agent gets 503, nothing is sent upstream, the session's row is
    marked degraded and no other session's row changes.  From then on the
    session stays stored and degraded, and no request that selects it is sent,
    through any history of proxied requests, refresher ticks, bootstraps
    (of this session too) and revocations of other sessions, whatever the
    provider would answer: only revoking the session ends it. *)
Theorem oauth_failed_refresh_latches m tool path req s t label rt sess e db' :
  oauth_request env tool req s t label ->
  (forall id, identity (req_ext req) = Some id -> allows_tool id tool = Ok tt) ->
  allowlisted url_parse tool (upstream_url_of t path req) req s = true ->
  st_oauth s = Some rt ->
  session_get (rt_sealing_key rt) (pt_name t) label (rt_sessions rt) = Ok (Some sess) ->
  os_degraded sess = false -> needs_refresh (m_now m) sess = true ->
  refresh_session post (st_catalog s) (rt_sealing_key rt) sess (m_nonces m).1 (m_nonces m).2 (m_now m)
    (rt_sessions rt) = (Err e, db') ->
  let r := proxy_tool_request env post url_parse send kamiwaza m tool path req s in
  px_sent r = None /\ resp_status (px_response r) = 503 /\
  (exists rt' row, st_oauth (px_state r) = Some rt' /\
    row_at (pt_name t) label db' = Some row /\
    row_at (pt_name t) label (rt_sessions rt') = Some (with_degraded (m_now m) row) /\
    (forall n l, (n, l) <> (pt_name t, label) ->
       row_at n l (rt_sessions rt') = row_at n l (rt_sessions rt))) /\
  forall s2, rtc (later (pt_name t) label) (px_state r) s2 ->
    degraded_at (pt_name t) label s2 /\
    forall post2 send2 kamiwaza2 m2 tool2 path2 req2 t2,
      oauth_request env tool2 req2 s2 t2 label -> pt_name t2 = pt_name t ->
      px_sent (proxy_tool_request env post2 url_parse send2 kamiwaza2 m2 tool2 path2 req2 s2) = None.
Proof.
  intros Hreq Hacl Hal Ho Hg Hd Hnr Hre r.
  destruct (refresh_failed_degrades _ _ _ _ _ _ _ _ (m_now m) _ _ _ _ Hg Hre)
    as (_ & (row & Hat & Hdeg) & Hoth).
  destruct (failed_refresh_answer _ _ path _ _ _ _ _ _ _ _ Hreq Hacl Hal Ho Hg Hd Hnr Hre)
    as (Hs & H503 & locks & Hrt). fold r in Hs, H503, Hrt.
  split; [done|]. split; [done|]. split; [by eexists _, row|]. intros s2 Hrtc.
  assert (HD : degraded_at (pt_name t) label s2).
  { apply (later_degraded_rtc _ _ _ _ Hrtc). by eexists _, (with_degraded (m_now m) row). }
  split; [done|]. intros post2 send2 kw2 m2 tool2 path2 req2 t2 Hr2 Hn2.
  eapply degraded_not_sent; [done|by rewrite Hn2].
Qed.
End OauthLatch.

(** ** Overrides and resolution *)

Section Overrides.
Context `{RegexCrate} `{Sha2Crate} `{HttpCrate} `{AesGcm} `{Base64Std} `{Base64Url} `{SerdeJson}.
Context (env : string -> option string) (post : TokenEndpoint)
  (url_parse : string -> option Url) (send : OutReq -> UpstreamReply)
  (kamiwaza : AppConfig -> string -> Request -> option Response).

(** A name resolves to its active registration, else to the configured tool
    of that name; a disabled registration is no obstacle to the latter. *)
Lemma resolve_target_spec cat cfg n :
  resolve_target cat cfg n =
  match cat !! n with
  | Some r => if disabled r
              then from_tool_config <$> find_first (fun t => bool_decide (tc_name t = n)) (active_tools cfg)
              else Some (from_registration r)
  | None => from_tool_config <$> find_first (fun t => bool_decide (tc_name t = n)) (active_tools cfg)
  end.
Proof.
  unfold resolve_target, lookup_active. destruct (cat !! n) as [r|]; [|done]. simpl.
  by destruct (disabled r).
Qed.

(** An override whose environment variable is not set does not send the
    request without a credential: the request goes out with the
    registration's default credential in the override's place, while its
    target is recorded as [agent_override]. *)
Theorem override_unset_env_uses_default m tool path req s id reg repo row var f v :
  identity (req_ext req) = Some id -> allows_tool id tool = Ok tt ->
  lookup_active tool (st_catalog s) = Some reg -> name reg = tool ->
  is_chatgpt_codex_upstream (upstream reg) = false ->
  (forall tc, tc ∈ tools (st_config s) -> tc_name tc <> tool) ->
  st_agent_creds s = Some repo -> creds_get (id_id id) tool repo = Ok (Some row) ->
  ov_auth_spec row = SpecBearer var f -> env var = None ->
  st_creds s !! tool = Some v ->
  Z.of_nat (String.length (req_body req)) <= body_limit_bytes reg ->
  let r := proxy_tool_request env post url_parse send kamiwaza m tool path req s in
  exists o t, px_sent r = Some o /\ final_target env post m tool req s t /\
    auth_source t = "agent_override" /\ pt_auth t = PBearer f None /\
    ("Authorization", "Bearer " +:+ v) ∈ out_headers o.
Proof.
  intros Hid Hacl Hlk Hname Hcx Hcfg Hrepo Hrow Hspec Henv Hv Hlen r.
  assert (Hres : resolve_target (st_catalog s) (st_config s) tool = Some (from_registration reg))
    by (unfold resolve_target; by rewrite Hlk).
  set (t := override_auth env (ov_auth_spec row) (from_registration reg)).
  assert (Hov : apply_agent_credential_override env (st_agent_creds s) (req_ext req)
                  (from_registration reg) = t).
  { unfold apply_agent_credential_override. rewrite Hrepo, Hid. simpl. by rewrite Hname, Hrow. }
  assert (Ha : pt_auth t = PBearer f None) by (unfold t; rewrite Hspec; simpl; by rewrite Henv).
  assert (Hs : auth_source t = "agent_override") by (unfold t; by rewrite Hspec).
  assert (Hn : pt_name t = tool /\ pt_body_limit_bytes t = body_limit_bytes reg /\
               pt_upstream t = upstream reg) by (unfold t; rewrite Hspec; done).
  destruct Hn as (Hn & Hb & Hup).
  assert (Hinj : injected (st_creds s) t = [("Authorization", "Bearer " +:+ v)])
    by (unfold injected; by rewrite Ha, Hn, Hv).
  assert (Hnil : List.filter (fun tc => bool_decide (tc_name tc = tool)) (tools (st_config s)) = []).
  { destruct (List.filter _ _) as [|tc l] eqn:Ef; [done|]. exfalso.
    assert (Hin : In tc (tc :: l)) by (by left). rewrite <- Ef in Hin.
    apply filter_In in Hin as [Hin Htc]. apply bool_decide_eq_true in Htc.
    by apply (Hcfg tc); [apply list_elem_of_In|]. }
  assert (Hsent : exists o, px_sent r = Some o).
  { unfold r, proxy_tool_request. rewrite Hid, Hacl, Hres, Hnil. simpl. rewrite Hov, Ha.
    unfold forward. rewrite Ha, Hn, Hb. simpl. rewrite Hv. simpl. rewrite andb_false_r.
    rewrite (proj2 (Z.ltb_ge _ _) Hlen). unfold codex_step. rewrite Hup, Hcx. simpl.
    destruct (match send _ with SendError _ => _ | Upstream _ _ _ => _ end). by eexists. }
  destruct Hsent as [o Ho]. exists o, t. split; [done|]. split.
  { exists (from_registration reg). split; [done|]. cbv zeta. by rewrite Hov, Ha. }
  split; [done|]. split; [done|].
  apply sent_inv in Ho as (_ & t' & (t0 & Ht0 & Ht') & _ & _ & _ & body & ->).
  rewrite Hres in Ht0. injection Ht0 as <-. cbv zeta in Ht'. rewrite Hov, Ha in Ht'. subst t'.
  simpl. rewrite Hinj, !elem_of_app. right. left. left.
Qed.
End Overrides.

(** ** Response headers *)

Lemma header_get_insert n n' v hs :
  header_get n (header_insert n' v hs) =
  if eq_ignore_ascii_case n' n then Some v else header_get n hs.
Proof.
  unfold header_get, header_insert. rewrite find_first_app. simpl.
  destruct (eq_ignore_ascii_case n' n) eqn:E.
  - destruct (find_first _ (List.filter _ hs)) as [kv|] eqn:F; [|done]. exfalso.
    apply find_first_Some in F as [Hin Hn]. apply list_elem_of_In, filter_In in Hin as [_ Hf].
    apply bool_decide_eq_true in E, Hn. unfold eq_ignore_ascii_case in Hf.
    by rewrite Hn, <- E, bool_decide_eq_true_2 in Hf.
  - induction hs as [|kv hs IH]; simpl; [done|].
    destruct (eq_ignore_ascii_case kv.1 n') eqn:E1; simpl.
    + destruct (eq_ignore_ascii_case kv.1 n) eqn:E2; [|done]. exfalso.
      apply bool_decide_eq_true in E1, E2. apply bool_decide_eq_false in E. congruence.
    + by destruct (eq_ignore_ascii_case kv.1 n).
Qed.

(** What the agent sees of the upstream's headers: under every name that
    is not hop-by-hop exactly one value, the last the upstream sent (so of
    several [Set-Cookie] headers only the last survives), and nothing under a
    hop-by-hop name. *)
Theorem forward_response_headers_spec up n :
  header_get n (forward_response_headers up) =
    (if is_hop_by_hop n then None else header_get n (rev up)) /\
  NoDup (map (fun kv => to_ascii_lowercase kv.1) (forward_response_headers up)).
Proof.
  unfold forward_response_headers. induction up as [|kv up IH] using rev_ind.
  - simpl. split; [by destruct (is_hop_by_hop n)|apply NoDup_nil_2].
  - rewrite fold_left_app, rev_app_distr. simpl. destruct IH as [IH1 IH2].
    assert (Hh : eq_ignore_ascii_case kv.1 n = true -> is_hop_by_hop kv.1 = is_hop_by_hop n).
    { intros E%bool_decide_eq_true. unfold is_hop_by_hop. by rewrite E. }
    assert (Hg : header_get n (kv :: rev up) =
              if eq_ignore_ascii_case kv.1 n then Some kv.2 else header_get n (rev up)).
    { unfold header_get. simpl. by destruct (eq_ignore_ascii_case kv.1 n). }
    rewrite Hg. destruct (is_hop_by_hop kv.1) eqn:Ek.
    + split; [|done]. rewrite IH1. destruct (eq_ignore_ascii_case kv.1 n) eqn:E; [|done].
      by rewrite <- Hh.
    + split.
      * rewrite header_get_insert, IH1. destruct (eq_ignore_ascii_case kv.1 n) eqn:E; [|done].
        by rewrite <- Hh.
      * unfold header_insert. rewrite map_app. apply NoDup_app. split; [|split].
        -- clear -IH2. induction (fold_left _ up []) as [|x l IHl]; simpl; [apply NoDup_nil_2|].
           simpl in IH2. apply NoDup_cons in IH2 as [Hn IH2].
           destruct (negb _); simpl; [|by apply IHl]. apply NoDup_cons. split; [|by apply IHl].
           intros Hin. apply Hn. apply list_elem_of_In, in_map_iff in Hin as (y & Hy & Hin).
           apply filter_In in Hin as [Hin _]. apply list_elem_of_In, in_map_iff. by exists y.
        -- intros x Hin. apply list_elem_of_In, in_map_iff in Hin as (y & <- & Hin).
           apply filter_In in Hin as [_ Hf]. intros Hx%list_elem_of_singleton.
           unfold eq_ignore_ascii_case in Hf. by rewrite bool_decide_eq_true_2 in Hf.
        -- apply NoDup_singleton.
Qed.

(** ** Witnesses *)

Module ProxyWitness.
Import ControlsWitness Registrations Base64Model HttpModel OauthWitness.

Definition agent : AgentIdentity :=
  {| id_id := 1; id_public_id := "ag_1"; id_name := "hermes"; id_tool_allowlist := None;
     id_tool_denylist := Some ["shell"] |}.

Definition ext0 : Extensions :=
  {| peer_cert := None; authenticated_as := Some Bearer; identity := Some agent |}.

Definition get (p : string) : Request :=
  {| req_method := "GET"; req_path := p; req_query := None;
     req_headers := [("Authorization", "Bearer lk_agent"); ("Accept", "*/*")];
     req_body := ""; req_ext := ext0 |}.

Definition tavily_reg : Registration :=
  {| name := "tavily"; kind := Tool; description := ""; upstream := "https://api.tavily.com";
     auth := SpecBearer "TAVILY" true; egress := Direct; timeouts := default_timeouts;
     body_limit_bytes := 100; metadata := JObject []; seed := false; disabled := false;
     created_at := 0; updated_at := 0 |}.

Definition overrides0 : AgentCredentialRepository :=
  {| overrides := [{| ov_agent_id := 1; ov_registration := "tavily";
       ov_auth_spec := SpecBearer "HERMES_TAVILY" true; ov_created_at := 0; ov_updated_at := 0 |}];
     creds_online := true |}.

Definition s0 : AppState :=
  {| st_config := ConfigWitness.cfg0; st_catalog := <["tavily" := tavily_reg]> cat0;
     st_creds := {["tavily" := "tv-key"; "github" := "Bearer gh-key"]};
     st_response_controls := ∅; st_agent_creds := Some overrides0;
     st_oauth := Some {| rt_sessions := db0; rt_sealing_key := key; rt_locks := ∅ |};
     st_audit := Some {| rows := []; writable := true; sink := None |} |}.

Definition m0 : Moment :=
  {| m_now := 90; m_now_ms := 90000; m_latency_ms := 3; m_nonces := (nonce, nonce) |}.

(** Splits a URL at its third slash. *)
Definition url_parse0 (u : string) : option Url :=
  let* rest := strip_prefix "https://api.github.com" u in
  Some {| u_path := rest; u_query := None; u_fragment := None |}.

Definition send0 (o : OutReq) : UpstreamReply :=
  Upstream 200 [("content-type", "text/plain")] [Some (Chunk "ok")].
Definition no_kamiwaza (c : AppConfig) (n : string) (r : Request) : option Response := None.
Definition no_env (v : string) : option string := None.

Definition run0 (tool path : string) : ProxyResult :=
  proxy_tool_request no_env provider url_parse0 send0 no_kamiwaza m0 tool path (get ("/" +:+ path)) s0.

Definition sent (r : ProxyResult) : OutReq :=
  default {| out_method := ""; out_url := ""; out_headers := []; out_body := None |} (px_sent r).

Example github_sent : sent (run0 "github" "repos/x") =
  {| out_method := "GET"; out_url := "https://api.github.com/repos/x";
     out_headers := [("Accept", "*/*"); ("Authorization", "Bearer gh-key")]; out_body := None |}.
Proof. vm_compute. reflexivity. Qed.

Lemma agent_credentials_stripped_witness :
  exists t, final_target no_env provider m0 "github" (get "/repos/x") s0 t /\
    (forall n v, (n, v) ∈ out_headers (sent (run0 "github" "repos/x")) ->
       to_ascii_lowercase n ∈ guarded_headers \/
       strip_header_lower (pt_auth t) = Some (to_ascii_lowercase n) ->
       (n, v) ∈ injected (st_creds s0) t \/
       is_chatgpt_codex_upstream (pt_upstream t) = true /\
       ((n, v) = ("OpenAI-Beta", "responses=experimental") \/ n = "originator")) /\
    (forall n v, (n, v) ∈ req_headers (get "/repos/x") ->
       to_ascii_lowercase n ∉ guarded_headers ->
       strip_header_lower (pt_auth t) <> Some (to_ascii_lowercase n) ->
       (is_chatgpt_codex_upstream (pt_upstream t) = true -> to_ascii_lowercase n <> "openai-beta") ->
       (n, v) ∈ out_headers (sent (run0 "github" "repos/x"))).
Proof.
  apply (agent_credentials_stripped no_env provider url_parse0 send0 no_kamiwaza m0 "github" "repos/x"
           (get "/repos/x") s0).
  vm_compute. reflexivity.
Defined.

Lemma force_replace_fails_closed_witness :
  exists t, final_target no_env provider m0 "github" (get "/repos/x") s0 t /\
    (match pt_auth t with PHeader _ _ f _ | PBearer f _ => f | _ => false end = true ->
     exists n v, injected (st_creds s0) t = [(n, v)] /\
       (n, v) ∈ out_headers (sent (run0 "github" "repos/x"))).
Proof.
  apply (force_replace_fails_closed no_env provider url_parse0 send0 no_kamiwaza m0 "github" "repos/x"
           (get "/repos/x") s0).
  vm_compute. reflexivity.
Defined.

Lemma request_allowlist_enforced_witness :
  exists url r, url_parse0 "https://api.github.com/repos/x" = Some url /\ u_query url = None /\
    u_fragment url = None /\ is_literal_request_path (u_path url) = true /\
    r ∈ [{| rule_method := "GET"; rule_path := "/repos/x" |}] /\
    rule_method r = "GET" /\ rule_path r = u_path url.
Proof.
  apply (request_allowlist_enforced no_env provider url_parse0 send0 no_kamiwaza m0 "github" "repos/x"
           (get "/repos/x") s0 (sent (run0 "github" "repos/x")) ConfigWitness.tool0);
    [vm_compute; reflexivity | left | reflexivity | reflexivity].
Defined.

Lemma acl_denied_witness :
  px_sent (run0 "shell" "x") = None /\ resp_status (px_response (run0 "shell" "x")) = 403.
Proof.
  destruct (acl_denied no_env provider url_parse0 send0 no_kamiwaza m0 "shell" "x" (get "/x") s0
              agent "in_denylist") as (E1 & E2 & _); [reflexivity..|]. split; [exact E1 | exact E2].
Defined.

Lemma every_request_audited_witness :
  logs (snapshot (get "/nope") "nope" 90000 3) s0 (px_state (run0 "nope" "nope")) \/
  (resolve_target (st_catalog s0) (st_config s0) "nope" = None /\
   no_kamiwaza (st_config s0) "nope" (get "/nope") = Some (px_response (run0 "nope" "nope")) /\
   px_state (run0 "nope" "nope") = s0).
Proof.
  apply (every_request_audited no_env provider url_parse0 send0 no_kamiwaza m0 "nope" "nope"
           (get "/nope") s0).
  reflexivity.
Defined.

Definition codex_target : ProxyTarget := from_registration codex_reg.

Lemma codex_request (req : Request) :
  req_ext req = ext0 -> oauth_request no_env "codex" req s0 codex_target "default".
Proof.
  intros E. split; [|split; vm_compute; reflexivity]. exists codex_target. rewrite E.
  split; vm_compute; reflexivity.
Qed.

Lemma oauth_token_injected_witness :
  exists rt sess rt' cur tok,
    st_oauth s0 = Some rt /\
    session_get (rt_sealing_key rt) "codex" "default" (rt_sessions rt) = Ok (Some sess) /\
    os_degraded sess = false /\
    st_oauth (px_state (run0 "codex" "models")) = Some rt' /\
    session_get (rt_sealing_key rt) "codex" "default" (rt_sessions rt') = Ok (Some cur) /\
    os_access_token cur = Some tok /\
    ("Authorization", "Bearer " +:+ tok) ∈ out_headers (sent (run0 "codex" "models")) /\
    (forall n v, (n, v) ∈ out_headers (sent (run0 "codex" "models")) ->
       to_ascii_lowercase n = "authorization" -> v = "Bearer " +:+ tok) /\
    if needs_refresh 90 sess
    then exists tr, exchanged provider (st_catalog s0) sess tr /\ cur = refreshed 90 tr sess
    else cur = sess.
Proof.
  apply (oauth_token_injected no_env provider url_parse0 send0 no_kamiwaza m0 "codex" "models"
           (get "/models") s0 (sent (run0 "codex" "models")) codex_target "default");
    [exact nonce_len | exact nonce_len | exact provider_utf8 | by apply codex_request |
     vm_compute; reflexivity].
Defined.

(** A provider that has revoked the grant. *)
Definition revoked_provider (url : string) (form : list (string * string))
  : option (Z * option TokenResponse) := Some (400, None).

Definition failed : ProxyResult :=
  proxy_tool_request no_env revoked_provider url_parse0 send0 no_kamiwaza m0 "codex" "models"
    (get "/models") s0.

(** After the failure the grant is restored and the refresher runs; the next
    request is still refused. *)
Definition ticked (s : AppState) : AppState :=
  match st_oauth s with
  | None => s
  | Some rt => set_oauth (Some
      {| rt_sessions := tick provider cat0 (rt_sealing_key rt) 200 (fun _ => (nonce, nonce)) (rt_sessions rt);
         rt_sealing_key := rt_sealing_key rt; rt_locks := rt_locks rt |}) s
  end.

Lemma oauth_failed_refresh_latches_witness :
  px_sent failed = None /\ degraded_at "codex" "default" (ticked (px_state failed)) /\
  px_sent (proxy_tool_request no_env provider url_parse0 send0 no_kamiwaza m0 "codex" "models"
             (get "/models") (ticked (px_state failed))) = None.
Proof.
  destruct (oauth_failed_refresh_latches no_env revoked_provider url_parse0 send0 no_kamiwaza m0
    "codex" "models" (get "/models") s0 codex_target "default"
    {| rt_sessions := db0; rt_sealing_key := key; rt_locks := ∅ |} sess0 (RevokedByProvider 400) db0
    (codex_request (get "/models") eq_refl)
    ltac:(intros id [= <-]; vm_compute; reflexivity)
    ltac:(vm_compute; reflexivity) ltac:(reflexivity) ltac:(vm_compute; reflexivity)
    ltac:(reflexivity) ltac:(vm_compute; reflexivity) ltac:(vm_compute; reflexivity))
    as (Hs & _ & (rt' & row & Hrt & _) & Hlater). fold failed in Hs, Hrt, Hlater.
  destruct (Hlater (ticked (px_state failed))) as [HD Hn].
  { apply rtc_once. unfold ticked. rewrite Hrt. by apply later_tick. }
  split; [exact Hs|]. split; [exact HD|].
  apply (Hn provider send0 no_kamiwaza m0 "codex" "models" (get "/models") codex_target); [|done].
  unfold ticked. rewrite Hrt. exact (codex_request (get "/models") eq_refl).
Defined.

Lemma override_unset_env_uses_default_witness :
  exists o t, px_sent (run0 "tavily" "search") = Some o /\
    final_target no_env provider m0 "tavily" (get "/search") s0 t /\
    auth_source t = "agent_override" /\ pt_auth t = PBearer true None /\
    ("Authorization", "Bearer " +:+ "tv-key") ∈ out_headers o.
Proof.
  apply (override_unset_env_uses_default no_env provider url_parse0 send0 no_kamiwaza m0 "tavily"
    "search" (get "/search") s0 agent tavily_reg overrides0
    {| ov_agent_id := 1; ov_registration := "tavily"; ov_auth_spec := SpecBearer "HERMES_TAVILY" true;
       ov_created_at := 0; ov_updated_at := 0 |} "HERMES_TAVILY" true "tv-key");
    try (vm_compute; reflexivity); try (vm_compute; discriminate).
  intros tc [->|Hin]%elem_of_cons; [by vm_compute|]. by apply not_elem_of_nil in Hin.
Defined.

End ProxyWitness.
