(* ===== verification/OauthRace.v ===== *)
(** * Concurrent use of one OAuth session
      ([src/oauth/refresh.rs], [src/oauth/admin.rs], [src/proxy.rs])

    Proxied requests, the background task and operators' bootstraps refresh
    the same sessions at the same time, each under the session's lock; a
    revocation takes no lock.  Here every database statement, the exchange
    with the provider and the taking of a lock are steps of their own, in any
    interleaving.  [cancels] says whether a request may be dropped at an
    [await], which is what happens to a handler whose client disconnects: its
    lock is released and nothing else of it runs. *)

From S2P Require Import Prelude Json Http Token Argon2Helper AgentRepo.
From S2P Require Import AuditLog Auth Secret CodexBody ResponseControls Config.
From S2P Require Import Registrations Oauth AgentCreds AdminService OauthAdmin Proxy.

(** ** [refresh_session], cut at its awaits *)

Section Split.
Context `{AesGcm} `{Base64Std} `{Base64Url} `{SerdeJson}.

(** The token endpoint and the form to post. *)
Definition refresh_form (cat : gmap string Registration) (s : OauthSession)
  : result RefreshError (string * list (string * string)) :=
  match lookup_active (os_name s) cat with
  | None => Err (RegistrationGone (os_name s))
  | Some registration =>
      match auth registration with
      | OauthPkce client_id _ _ _ token_url _ | OauthDeviceCode client_id _ _ token_url _ =>
          Ok (token_url, [("grant_type", "refresh_token"); ("refresh_token", os_refresh_token s);
                          ("client_id", client_id)])
      | _ => Err (NotOauth (os_name s))
      end
  end.

Definition refresh_store (k : SealingKey) (s : OauthSession)
    (reply : option (Z * option TokenResponse)) (nonce1 nonce2 : option string) (now : Z)
    (db : OauthSessionRepository) : result RefreshError unit * OauthSessionRepository :=
  match reply with
  | None => (Err Network, db)
  | Some (status, body) =>
      if negb (is_success status) then
        (Err (if is_client_error status then RevokedByProvider status else ProviderError status), db)
      else
        match body with
        | None => (Err BadResponse, db)
        | Some tr =>
            match update_tokens k (os_name s) (os_label s) (tr_access_token tr)
                    (as_i64 (now + default 3600 (tr_expires_in tr))) (tr_refresh_token tr)
                    nonce1 nonce2 now db with
            | (Err _, db') => (Err Persist, db')
            | (Ok _, db') => (Ok tt, db')
            end
        end
  end.

Definition refresh_read_back (k : SealingKey) (s : OauthSession) (db : OauthSessionRepository)
  : result RefreshError OauthSession :=
  match session_get k (os_name s) (os_label s) db with
  | Ok (Some s') => Ok s'
  | Ok None | Err _ => Err Persist
  end.

(** Run without interruption the three parts are [refresh_session]. *)
Lemma refresh_session_split post cat k s n1 n2 now db :
  refresh_session post cat k s n1 n2 now db =
  match refresh_form cat s with
  | Err e => (Err e, db)
  | Ok (url, form) =>
      match refresh_store k s (post url form) n1 n2 now db with
      | (Err e, db') => (Err e, db')
      | (Ok _, db') => (refresh_read_back k s db', db')
      end
  end.
Proof.
  unfold refresh_session, refresh_form, refresh_store, refresh_read_back.
  destruct (lookup_active _ _) as [r|]; [|done].
  destruct (auth r); try done; (destruct (post _ _) as [[st [tr|]]|]; [|by destruct (negb _)|done]);
    (destruct (negb _); [done|]); by destruct (update_tokens _ _ _ _ _ _ _ _ _ _) as [[]].
Qed.
End Split.

(** ** Threads *)

(** Who works on the session: a proxied request, an item of the tick, a
    bootstrap with the operator's refresh token. *)
Inductive Caller := OnDemand | Due (threshold : Z) | Boot (refresh_token : string).

Inductive RefreshPhase :=
| Waiting                                   (* before [lock.lock().await] *)
| Holding                                   (* the lock is taken *)
| Ready (s : OauthSession)                  (* read or created, about to be exchanged *)
| Exchanged (s : OauthSession) (reply : option (Z * option TokenResponse))
| Stored (s : OauthSession)                 (* [update_tokens] went through *)
| Failed                                    (* about to mark degraded or roll back *)
| Finished (r : option OauthSession).

Record Thread := { th_name : string; th_label : string; th_caller : Caller; th_phase : RefreshPhase }.

Definition at_phase (ph : RefreshPhase) (th : Thread) : Thread :=
  {| th_name := th_name th; th_label := th_label th; th_caller := th_caller th; th_phase := ph |}.

(** What the world supplies to one step. *)
Record Inputs := {
  x_now : Z;
  x_nonces : option string * option string;
  x_catalog : gmap string Registration;
  x_reply : option (Z * option TokenResponse)
}.

(** The database, the threads, the lock map with its holders, the refresh
    tokens presented to providers so far (newest first), and the tokens ever
    issued with the session they were issued for. *)
Record Sys := {
  sys_db : OauthSessionRepository;
  sys_threads : gmap nat Thread;
  sys_holders : gmap string nat;
  sys_presented : list string;
  sys_issued : gmap string (string * string)
}.

Section Race.
Context `{AesGcm} `{Base64Std} `{Base64Url} `{SerdeJson}.
Context (k : SealingKey).

Definition wants_refresh (c : Caller) (now : Z) (s : OauthSession) : bool :=
  match c with
  | OnDemand => needs_refresh now s
  | Due threshold => match os_expires_at s with Some e => negb (threshold <? e) | None => true end
  | Boot _ => true
  end.

(** The next step of a thread inside its lock: its phase, the database and
    the token it presents. *)
Definition thread_step (x : Inputs) (th : Thread) (db : OauthSessionRepository)
  : option (RefreshPhase * OauthSessionRepository * option string) :=
  let n := th_name th in
  let l := th_label th in
  match th_phase th with
  | Waiting | Finished _ => None
  | Holding =>
      match th_caller th with
      | Boot token =>
          match session_create k n l token None None "" (x_nonces x).1 (x_nonces x).1 (x_now x) db with
          | (Ok s, db') => Some (Ready s, db', None)
          | (Err _, db') => Some (Finished None, db', None)
          end
      | c =>
          match session_get k n l db with
          | Ok (Some s) =>
              Some (if os_degraded s then Finished None
                    else if wants_refresh c (x_now x) s then Ready s else Finished (Some s), db, None)
          | _ => Some (Finished None, db, None)
          end
      end
  | Ready s =>
      match refresh_form (x_catalog x) s with
      | Err _ => Some (Failed, db, None)
      | Ok _ => Some (Exchanged s (x_reply x), db, Some (os_refresh_token s))
      end
  | Exchanged s reply =>
      match refresh_store k s reply (x_nonces x).1 (x_nonces x).2 (x_now x) db with
      | (Err _, db') => Some (Failed, db', None)
      | (Ok _, db') => Some (Stored s, db', None)
      end
  | Stored s =>
      match refresh_read_back k s db with
      | Ok s' => Some (Finished (Some s'), db, None)
      | Err _ => Some (Failed, db, None)
      end
  | Failed =>
      Some (Finished None,
            match th_caller th with
            | Boot _ => (session_delete n l db).2
            | _ => (mark_degraded n l (x_now x) db).2
            end, None)
  end.

Definition in_section (ph : RefreshPhase) : bool :=
  match ph with Waiting | Finished _ => false | _ => true end.

Definition th_lock (th : Thread) : string := lock_key (th_name th) (th_label th).

(** The tokens that come into the world at a step. *)
Definition issue (x : Inputs) (th : Thread) (m : gmap string (string * string))
  : gmap string (string * string) :=
  let key := (th_name th, th_label th) in
  match th_phase th, th_caller th with
  | Holding, Boot token => <[token := key]> m
  | Ready _, _ =>
      match x_reply x with
      | Some (status, Some tr) =>
          match tr_refresh_token tr with
          | Some t => if is_success status then <[t := key]> m else m
          | None => m
          end
      | _ => m
      end
  | _, _ => m
  end.

(** Nonces have their length; strings are Rust strings. *)
Definition inputs_ok (x : Inputs) : Prop :=
  nonce_ok (x_nonces x).1 /\ nonce_ok (x_nonces x).2 /\
  forall st tr, x_reply x = Some (st, Some tr) ->
    is_utf8 (tr_access_token tr) = true /\
    forall t, tr_refresh_token tr = Some t -> is_utf8 t = true.

Definition thread_ok (th : Thread) : Prop :=
  forall t, th_caller th = Boot t -> is_utf8 t = true.

Definition set_thread (i : nat) (th : Thread) (sys : Sys) : Sys :=
  {| sys_db := sys_db sys; sys_threads := <[i := th]> (sys_threads sys);
     sys_holders := sys_holders sys; sys_presented := sys_presented sys;
     sys_issued := sys_issued sys |}.

Definition set_holders (hs : gmap string nat) (sys : Sys) : Sys :=
  {| sys_db := sys_db sys; sys_threads := sys_threads sys; sys_holders := hs;
     sys_presented := sys_presented sys; sys_issued := sys_issued sys |}.

Definition set_db (db : OauthSessionRepository) (sys : Sys) : Sys :=
  {| sys_db := db; sys_threads := sys_threads sys; sys_holders := sys_holders sys;
     sys_presented := sys_presented sys; sys_issued := sys_issued sys |}.

(** The state after thread [i] has made a step. *)
Definition stepped (i : nat) (x : Inputs) (th : Thread) (ph : RefreshPhase) (db : OauthSessionRepository)
    (p : option string) (sys : Sys) : Sys :=
  {| sys_db := db; sys_threads := <[i := at_phase ph th]> (sys_threads sys);
     sys_holders := if in_section ph then sys_holders sys
                    else delete (th_lock th) (sys_holders sys);
     sys_presented := option_list p ++ sys_presented sys;
     sys_issued := issue x th (sys_issued sys) |}.

(** [policy] is what is known of tokens that come into the world. *)
Abbreviation Policy := (Thread -> Inputs -> gmap string (string * string) -> Prop) (only parsing).

Inductive race_step (cancels : bool) (policy : Policy) : Sys -> Sys -> Prop :=
| race_arrive sys i th :
    sys_threads sys !! i = None -> th_phase th = Waiting -> thread_ok th ->
    race_step cancels policy sys (set_thread i th sys)
| race_lock sys i th :
    sys_threads sys !! i = Some th -> th_phase th = Waiting ->
    sys_holders sys !! th_lock th = None ->
    race_step cancels policy sys
      (set_holders (<[th_lock th := i]> (sys_holders sys)) (set_thread i (at_phase Holding th) sys))
| race_act sys i th x ph db p :
    sys_threads sys !! i = Some th -> inputs_ok x -> policy th x (sys_issued sys) ->
    thread_step x th (sys_db sys) = Some (ph, db, p) ->
    race_step cancels policy sys (stepped i x th ph db p sys)
| race_revoke sys n l :
    race_step cancels policy sys (set_db (session_delete n l (sys_db sys)).2 sys)
| race_cancel sys i th :
    cancels = true -> sys_threads sys !! i = Some th -> in_section (th_phase th) = true ->
    race_step cancels policy sys
      (set_holders (delete (th_lock th) (sys_holders sys))
         (set_thread i (at_phase (Finished None) th) sys)).

Definition race_init (sys : Sys) : Prop :=
  (forall i th, sys_threads sys !! i = Some th -> th_phase th = Waiting /\ thread_ok th) /\
  sess_online (sys_db sys) = true.

(** ** The lock protects the session in hand *)

Definition in_hand (ph : RefreshPhase) : option OauthSession :=
  match ph with Ready s | Exchanged s _ => Some s | _ => None end.

(** The session is as it was read, or has been revoked since. *)
Definition as_read (n l : string) (s : OauthSession) (db : OauthSessionRepository) : Prop :=
  os_name s = n /\ os_label s = l /\
  (row_at n l db = None \/ exists row, row_at n l db = Some row /\ row_to_session k row = Ok s).

Record guarded (sys : Sys) : Prop := {
  g_holder : forall i th, sys_threads sys !! i = Some th -> in_section (th_phase th) = true ->
    sys_holders sys !! th_lock th = Some i;
  g_hand : forall i th s, sys_threads sys !! i = Some th -> in_hand (th_phase th) = Some s ->
    as_read (th_name th) (th_label th) s (sys_db sys);
  g_ok : forall i th, sys_threads sys !! i = Some th -> thread_ok th;
  g_online : sess_online (sys_db sys) = true
}.

Lemma init_guarded sys : race_init sys -> guarded sys.
Proof.
  intros [Hs Hon]. split; [..|done]; intros i th.
  - intros Hi. by rewrite (proj1 (Hs i th Hi)).
  - intros s Hi. by rewrite (proj1 (Hs i th Hi)).
  - intros Hi. apply (Hs i th Hi).
Qed.

(** A step of a thread touches only its own session's row. *)
Definition names (th : Thread) (s : OauthSession) : Prop :=
  os_name s = th_name th /\ os_label s = th_label th.

Definition frames (n l : string) (db db' : OauthSessionRepository) : Prop :=
  sess_online db' = sess_online db /\
  forall n' l', (n', l') <> (n, l) -> row_at n' l' db' = row_at n' l' db.

Lemma frames_refl n l db : frames n l db db.
Proof. done. Qed.

Lemma create_frames n l token n0 t db :
  frames n l db (session_create k n l token None None "" n0 n0 t db).2.
Proof.
  unfold session_create. destruct (seal _ _ _) as [[rct rn]|]; [|apply frames_refl]. cbn [seal_opt].
  destruct (negb _); [apply frames_refl|]. destruct (sql_exists _ _); [apply frames_refl|].
  split; [done|]. intros n' l' Hne. unfold row_at. cbn [snd sessions set_sessions]. rewrite find_first_app.
  destruct (find_first _ (sessions db)); [done|]. cbn [find_first].
  rewrite (by_session_other n l n' l'); [done|congruence|by apply by_session_iff].
Qed.

Lemma delete_frames n l db : frames n l db (session_delete n l db).2.
Proof.
  unfold session_delete. destruct (negb _); [apply frames_refl|]. split; [done|].
  intros n' l' Hne. cbn [snd]. rewrite row_at_delete. by rewrite bool_decide_eq_false_2.
Qed.

Lemma degrade_frames n l t db : frames n l db (mark_degraded n l t db).2.
Proof.
  split; [apply (mark_degraded_row n l t db n l)|]. intros n' l' Hne.
  rewrite (proj2 (mark_degraded_row n l t db n' l')).
  by rewrite (bool_decide_eq_false_2 ((n', l') = (n, l))), andb_false_r.
Qed.

Lemma store_frames th s reply n1 n2 t db :
  names th s -> frames (th_name th) (th_label th) db (refresh_store k s reply n1 n2 t db).2.
Proof.
  intros [<- <-]. unfold refresh_store. destruct reply as [[st body]|]; [|apply frames_refl].
  destruct (negb _); [apply frames_refl|]. destruct body as [tr|]; [|apply frames_refl].
  destruct (update_tokens _ _ _ _ _ _ _ _ _ _) as [[[]|e] db'] eqn:E.
  - destruct (update_tokens_row _ _ _ _ _ _ _ _ _ _ _ E) as (Hon & ? & ? & ? & _ & _ & Hr).
    split; [done|]. intros n' l' Hne. cbn [snd]. rewrite Hr. by rewrite bool_decide_eq_false_2.
  - unfold update_tokens in E. branches E; apply frames_refl.
Qed.

Lemma step_frames x th db ph db' p :
  (forall s, in_hand (th_phase th) = Some s -> names th s) ->
  thread_step x th db = Some (ph, db', p) -> frames (th_name th) (th_label th) db db'.
Proof.
  intros Hn. unfold thread_step. destruct (th_phase th) as [| |s|s reply|s| |r]; try done.
  - destruct (th_caller th) as [|thr|token].
    1-2: destruct (session_get _ _ _ _) as [[s|]|]; intros [= _ <- _]; apply frames_refl.
    pose proof (create_frames (th_name th) (th_label th) token (x_nonces x).1 (x_now x) db) as C.
    destruct (session_create _ _ _ _ _ _ _ _ _ _ _) as [[s|e] d]; intros [= _ <- _]; exact C.
  - destruct (refresh_form _ _); intros [= _ <- _]; apply frames_refl.
  - pose proof (store_frames th s reply (x_nonces x).1 (x_nonces x).2 (x_now x) db (Hn s eq_refl)) as C.
    destruct (refresh_store _ _ _ _ _ _ _) as [[u|e] d]; intros [= _ <- _]; exact C.
  - destruct (refresh_read_back _ _ _); intros [= _ <- _]; apply frames_refl.
  - destruct (th_caller th); intros [= _ <- _]; auto using delete_frames, degrade_frames.
Qed.

Lemma session_get_as_read n l db s :
  session_get k n l db = Ok (Some s) -> as_read n l s db.
Proof.
  intros Hg. destruct (session_get_key _ _ _ _ _ Hg) as [En El]. split; [done|]. split; [done|]. right.
  apply session_get_row in Hg as [_ Hr]. done.
Qed.

Context `{!AesGcmLaws}.

(** What a thread then has in hand is what the table says. *)
Lemma step_hand x th db ph db' p s :
  inputs_ok x -> thread_ok th ->
  (forall s, in_hand (th_phase th) = Some s -> as_read (th_name th) (th_label th) s db) ->
  thread_step x th db = Some (ph, db', p) -> in_hand ph = Some s ->
  as_read (th_name th) (th_label th) s db'.
Proof.
  intros (Hn1 & _) Ht Hh. unfold thread_step. destruct (th_phase th) as [| |s0|s0 reply|s0| |r]; try done.
  - destruct (th_caller th) as [|thr|token] eqn:Ec.
    1-2: destruct (session_get _ _ _ _) as [[s1|]|] eqn:Eg; intros [= <- <- _]; repeat case_match; try done;
      intros [= <-]; by apply session_get_as_read.
    destruct (session_create _ _ _ _ _ _ _ _ _ _ _) as [[s1|e] d] eqn:E; intros [= <- <- _]; [|done].
    intros [= <-]. apply session_get_as_read.
    apply (session_create_get _ _ _ _ None _ _ _ _ _ _ _ _ Hn1 Hn1 (Ht token Ec) ltac:(intros ? [=]) E).
  - destruct (refresh_form _ _); intros [= <- <- _]; [|done]. intros [= <-]. by apply Hh.
  - destruct (refresh_store _ _ _ _ _ _ _) as [[u|e] d]; by intros [= <- <- _].
  - destruct (refresh_read_back _ _ _); by intros [= <- <- _].
  - destruct (th_caller th); by intros [= <- <- _].
Qed.

Lemma step_in_section x th db r : thread_step x th db = Some r -> in_section (th_phase th) = true.
Proof. unfold thread_step. by destruct (th_phase th). Qed.

Lemma hand_in_section ph s : in_hand ph = Some s -> in_section ph = true.
Proof. by destruct ph. Qed.

Lemma frames_as_read n l n' l' s db db' :
  frames n l db db' -> (n', l') <> (n, l) -> as_read n' l' s db -> as_read n' l' s db'.
Proof. intros [_ F] Hne. unfold as_read. by rewrite F. Qed.

(** Two threads are never inside the same session's lock. *)
Lemma section_exclusive sys i j th th' :
  guarded sys -> sys_threads sys !! i = Some th -> sys_threads sys !! j = Some th' ->
  in_section (th_phase th) = true -> in_section (th_phase th') = true ->
  th_lock th = th_lock th' -> i = j.
Proof.
  intros G Hi Hj Si Sj E. pose proof (g_holder _ G i th Hi Si) as A.
  pose proof (g_holder _ G j th' Hj Sj) as B. rewrite E in A. congruence.
Qed.

Lemma same_key_lock th th' :
  (th_name th', th_label th') = (th_name th, th_label th) -> th_lock th = th_lock th'.
Proof. unfold th_lock. by intros [= -> ->]. Qed.

Lemma act_guarded sys i th x ph db p :
  guarded sys -> sys_threads sys !! i = Some th -> inputs_ok x ->
  thread_step x th (sys_db sys) = Some (ph, db, p) -> guarded (stepped i x th ph db p sys).
Proof.
  intros G Hi Hx Hs. pose proof (step_in_section _ _ _ _ Hs) as Si.
  assert (F : frames (th_name th) (th_label th) (sys_db sys) db).
  { eapply step_frames; [|done]. intros s Hs'. destruct (g_hand _ G i th s Hi Hs') as (? & ? & _). done. }
  split; simpl.
  - intros j th' [[<- <-]|[Hne Hj]]%lookup_insert_Some Sj; simpl in *.
    + rewrite Sj. by apply (g_holder _ G i th).
    + destruct (in_section ph); [by apply (g_holder _ G)|].
      rewrite lookup_delete_ne; [by apply (g_holder _ G)|]. intros E.
      apply Hne. by apply (section_exclusive sys i j th th').
  - intros j th' s [[<- <-]|[Hne Hj]]%lookup_insert_Some Hh; simpl in *.
    + eapply step_hand; [done|by apply (g_ok _ G i)| |done|done]. intros s'. by apply (g_hand _ G i).
    + eapply frames_as_read; [done| |by apply (g_hand _ G j)]. intros E%same_key_lock.
      apply Hne. apply (section_exclusive sys i j th th'); try done. by eapply hand_in_section.
  - intros j th' [[<- <-]|[Hne Hj]]%lookup_insert_Some; [apply (g_ok _ G i th Hi)|by apply (g_ok _ G j)].
  - rewrite (proj1 F). apply G.
Qed.

Lemma revoke_as_read n l n' l' s db : as_read n l s db -> as_read n l s (session_delete n' l' db).2.
Proof.
  intros (En & El & Hr). split; [done|]. split; [done|].
  unfold session_delete. destruct (negb _); [done|]. cbn [snd]. rewrite row_at_delete.
  case_bool_decide; [by left|done].
Qed.

Lemma step_guarded cancels policy sys sys' : race_step cancels policy sys sys' -> guarded sys -> guarded sys'.
Proof.
  intros [s i th Hi Hw Ht|s i th Hi Hw Hl|s i th x ph db p Hi Hx _ Hs|s n l|s i th _ Hi Hsec] G.
  - split; simpl; [| | |apply G].
    + intros j th' [[<- <-]|[_ Hj]]%lookup_insert_Some; [by rewrite Hw|by apply (g_holder _ G)].
    + intros j th' s' [[<- <-]|[_ Hj]]%lookup_insert_Some; [by rewrite Hw|by apply (g_hand _ G j)].
    + intros j th' [[<- <-]|[_ Hj]]%lookup_insert_Some; [done|by apply (g_ok _ G j)].
  - split; simpl; [| | |apply G].
    + intros j th' [[<- <-]|[Hne Hj]]%lookup_insert_Some Sj; simpl in *; [by rewrite lookup_insert_eq|].
      pose proof (g_holder _ G j th' Hj Sj) as B. rewrite lookup_insert_ne; [done|]. congruence.
    + intros j th' s' [[<- <-]|[_ Hj]]%lookup_insert_Some; [done|by apply (g_hand _ G j)].
    + intros j th' [[<- <-]|[Hne Hj]]%lookup_insert_Some; [apply (g_ok _ G i th Hi)|by apply (g_ok _ G j)].
  - by apply act_guarded.
  - split; simpl; try apply G.
    + intros i th s' Hi Hh. by apply revoke_as_read, (g_hand _ G i).
    + rewrite (proj1 (delete_frames n l (sys_db s))). apply G.
  - split; simpl; [| | |apply G].
    + intros j th' [[<- <-]|[Hne Hj]]%lookup_insert_Some Sj; simpl in *; [done|].
      rewrite lookup_delete_ne; [by apply (g_holder _ G)|]. intros E. apply Hne.
      by apply (section_exclusive s i j th th').
    + intros j th' s' [[<- <-]|[_ Hj]]%lookup_insert_Some; [done|by apply (g_hand _ G j)].
    + intros j th' [[<- <-]|[Hne Hj]]%lookup_insert_Some; [apply (g_ok _ G i th Hi)|by apply (g_ok _ G j)].
Qed.

Lemma reachable_guarded cancels policy sys sys' :
  race_init sys -> rtc (race_step cancels policy) sys sys' -> guarded sys'.
Proof. intros Hi%init_guarded. induction 1; eauto using step_guarded. Qed.

(** In every interleaving, also with requests dropped half-way, a refresh
    token is only presented to the provider while the session's row is the
    one it was read from, or has been revoked in the meantime: no exchange
    works with a token another request has already replaced. *)
Theorem exchange_is_current cancels policy sys sys' i th s :
  race_init sys -> rtc (race_step cancels policy) sys sys' ->
  sys_threads sys' !! i = Some th -> th_phase th = Ready s ->
  session_get k (th_name th) (th_label th) (sys_db sys') = Ok (Some s) \/
  session_get k (th_name th) (th_label th) (sys_db sys') = Ok None.
Proof.
  intros Hi Hr Ht Hp. pose proof (reachable_guarded _ _ _ _ Hi Hr) as G.
  destruct (g_hand _ G i th s Ht ltac:(by rewrite Hp)) as (_ & _ & Hrow).
  unfold session_get. rewrite (g_online _ G). simpl. unfold row_at in Hrow.
  destruct Hrow as [->|(row & -> & E)]; [by right|left]. by rewrite E.
Qed.

(** ** A rotated refresh token is presented once *)

Definition token_of (row : SessionRow) : result OauthSessionError string :=
  unseal_utf8 k (sr_refresh_ct row) (sr_refresh_nonce row) "refresh-token plaintext is not UTF-8".

(** The provider rotates: an exchange that succeeds gives a refresh token
    nobody has seen; operators bootstrap with tokens that are new too. *)
Definition rotating (th : Thread) (x : Inputs) (m : gmap string (string * string)) : Prop :=
  match th_phase th, th_caller th with
  | Holding, Boot token => m !! token = None
  | Ready _, _ => forall st tr, x_reply x = Some (st, Some tr) -> is_success st = true ->
      exists t, tr_refresh_token tr = Some t /\ m !! t = None
  | _, _ => True
  end.

(** The token in the row has been presented and its successor is not stored
    yet. *)
Definition in_flight (ph : RefreshPhase) : bool :=
  match ph with Exchanged _ _ | Failed => true | _ => false end.

Definition used (n l : string) (row : SessionRow) (threads : gmap nat Thread) : Prop :=
  sr_degraded row <> 0 \/
  exists i th, threads !! i = Some th /\ (th_name th, th_label th) = (n, l) /\
    in_flight (th_phase th) = true.

Definition issued_to (th : Thread) (t : string) (sys : Sys) : Prop :=
  sys_issued sys !! t = Some (th_name th, th_label th).

Record once (sys : Sys) : Prop := {
  o_rows : forall n l row, row_at n l (sys_db sys) = Some row ->
    exists t, token_of row = Ok t /\ sys_issued sys !! t = Some (n, l);
  o_hand : forall i th s, sys_threads sys !! i = Some th -> in_hand (th_phase th) = Some s ->
    issued_to th (os_refresh_token s) sys;
  o_reply : forall i th s st tr, sys_threads sys !! i = Some th ->
    th_phase th = Exchanged s (Some (st, Some tr)) -> is_success st = true ->
    exists t, tr_refresh_token tr = Some t /\ is_utf8 t = true /\ issued_to th t sys /\
      t ∉ sys_presented sys;
  o_presented : forall t, t ∈ sys_presented sys -> is_Some (sys_issued sys !! t);
  o_used : forall n l row t, row_at n l (sys_db sys) = Some row -> token_of row = Ok t ->
    t ∈ sys_presented sys -> used n l row (sys_threads sys);
  o_ready : forall i th s, sys_threads sys !! i = Some th -> th_phase th = Ready s ->
    os_refresh_token s ∉ sys_presented sys;
  o_nodup : NoDup (sys_presented sys)
}.

Lemma issue_mono x th m t v : rotating th x m -> m !! t = Some v -> issue x th m !! t = Some v.
Proof.
  unfold rotating, issue. intros Hr Ht.
  destruct (th_phase th) as [| |s|s reply|s| |r], (th_caller th) as [| |token]; try done.
  1: rewrite lookup_insert_ne; [done|congruence].
  all: destruct (x_reply x) as [[st [tr|]]|]; try done;
    destruct (tr_refresh_token tr) as [t'|] eqn:E; [|done];
    (destruct (is_success st) eqn:Es; [|done]); destruct (Hr st tr eq_refl Es) as (t2 & E2 & Hf);
    rewrite lookup_insert_ne; [done|congruence].
Qed.

Lemma row_token row s : row_to_session k row = Ok s -> token_of row = Ok (os_refresh_token s).
Proof.
  unfold row_to_session, token_of. destruct (unseal_utf8 _ _ _ _); [|done].
  destruct (match sr_access_ct row with Some _ => _ | None => _ end); by intros; simplify_eq/=.
Qed.

(** A thread that is not in flight may move without making a token unused. *)
Lemma used_move n l row (threads : gmap nat Thread) i th th' :
  threads !! i = Some th -> in_flight (th_phase th) = false ->
  used n l row threads -> used n l row (<[i := th']> threads).
Proof.
  intros Hi Hf [?|(j & tj & Hj & ? & ?)]; [by left|right]. exists j, tj.
  rewrite lookup_insert_ne; [done|]. intros <-. congruence.
Qed.

Lemma used_other n l row (threads : gmap nat Thread) i th th' :
  threads !! i = Some th -> (th_name th, th_label th) <> (n, l) ->
  used n l row threads -> used n l row (<[i := th']> threads).
Proof.
  intros Hi Hf [?|(j & tj & Hj & ? & ?)]; [by left|right]. exists j, tj.
  rewrite lookup_insert_ne; [done|]. intros <-. congruence.
Qed.

Lemma used_here n l row (threads : gmap nat Thread) i th' :
  (th_name th', th_label th') = (n, l) -> in_flight (th_phase th') = true ->
  used n l row (<[i := th']> threads).
Proof. intros ? ?. right. exists i, th'. by rewrite lookup_insert_eq. Qed.

(** Of its own session a thread inside the lock knows who used the token. *)
Lemma own_used sys i th row t :
  guarded sys -> once sys -> sys_threads sys !! i = Some th -> in_section (th_phase th) = true ->
  row_at (th_name th) (th_label th) (sys_db sys) = Some row -> token_of row = Ok t ->
  t ∈ sys_presented sys -> sr_degraded row <> 0 \/ in_flight (th_phase th) = true.
Proof.
  intros G O Hi Si Hr Ht Hp. destruct (o_used _ O _ _ _ _ Hr Ht Hp) as [?|(j & tj & Hj & E & Hf)]; [by left|].
  right. assert (i = j) as <-; [|congruence].
  apply (section_exclusive sys i j th tj); try done; [by destruct (th_phase tj)|by apply same_key_lock].
Qed.

(** Tokens of other sessions are other tokens. *)
Lemma foreign_token sys i j th tj t t' :
  guarded sys -> sys_threads sys !! i = Some th -> sys_threads sys !! j = Some tj ->
  in_section (th_phase th) = true -> in_section (th_phase tj) = true -> i <> j ->
  issued_to th t sys -> issued_to tj t' sys -> t' <> t.
Proof.
  unfold issued_to. intros G Hi Hj Si Sj Hne E E' ->. rewrite E in E'. apply Hne.
  apply (section_exclusive sys i j th tj); try done. apply same_key_lock. congruence.
Qed.

(** What remains to be shown of a step, all of it about its own session. *)
Lemma once_stepped sys i x th ph db p :
  guarded sys -> once sys -> sys_threads sys !! i = Some th -> rotating th x (sys_issued sys) ->
  thread_step x th (sys_db sys) = Some (ph, db, p) ->
  let sys' := stepped i x th ph db p sys in
  (forall row, row_at (th_name th) (th_label th) db = Some row ->
     exists t, token_of row = Ok t /\ issued_to th t sys' /\
       (t ∈ sys_presented sys' -> sr_degraded row <> 0 \/ in_flight ph = true)) ->
  (forall s, in_hand ph = Some s -> issued_to th (os_refresh_token s) sys') ->
  (forall s st tr, ph = Exchanged s (Some (st, Some tr)) -> is_success st = true ->
     exists t, tr_refresh_token tr = Some t /\ is_utf8 t = true /\ issued_to th t sys' /\
       t ∉ sys_presented sys') ->
  (forall s, ph = Ready s -> os_refresh_token s ∉ sys_presented sys') ->
  (forall t, p = Some t -> issued_to th t sys /\ t ∉ sys_presented sys) ->
  once sys'.
Proof.
  intros G O Hi Hrot Hs sys' Hrow Hhand Hreply Hready Hp.
  pose proof (step_in_section _ _ _ _ Hs) as Si.
  assert (F : frames (th_name th) (th_label th) (sys_db sys) db).
  { eapply step_frames; [|done]. intros s Hs'. destruct (g_hand _ G i th s Hi Hs') as (? & ? & _). done. }
  assert (M : forall t v, sys_issued sys !! t = Some v -> sys_issued sys' !! t = Some v)
    by (intros; by apply issue_mono).
  assert (P : forall t, t ∈ sys_presented sys' <-> p = Some t \/ t ∈ sys_presented sys).
  { intros t. unfold sys', stepped. simpl. destruct p as [t0|]; simpl; [rewrite elem_of_cons|];
      intuition congruence. }
  assert (T : sys_threads sys' = <[i := at_phase ph th]> (sys_threads sys)) by done.
  split; rewrite ?T.
  - intros n l row Hr. destruct (decide ((n, l) = (th_name th, th_label th))) as [[= -> ->]|Hne].
    + destruct (Hrow row Hr) as (t & ? & ? & _). by exists t.
    + rewrite (proj2 F) in Hr by done. destruct (o_rows _ O _ _ _ Hr) as (t & ? & ?). eauto.
  - intros j tj s [[<- <-]|[Hne Hj]]%lookup_insert_Some Hh; [by apply Hhand|]. apply M.
    by apply (o_hand _ O j).
  - intros j tj s st tr [[<- <-]|[Hne Hj]]%lookup_insert_Some Hph Hst; [by eapply Hreply|].
    destruct (o_reply _ O j tj s st tr Hj Hph Hst) as (t & ? & ? & Hiss & Hn). exists t.
    split; [done|]. split; [done|]. split; [by apply M|]. rewrite P. intros [E|?]; [|done].
    destruct (Hp t E) as [Hmine _].
    by apply (foreign_token sys i j th tj t t G Hi Hj Si ltac:(by rewrite Hph) Hne Hmine Hiss).
  - intros t [E|Ht]%P.
    + destruct (Hp t E) as [Hmine _]. eexists. by apply M.
    + destruct (o_presented _ O t Ht). eexists. by apply M.
  - intros n l row t Hr Ht Hin. destruct (decide ((n, l) = (th_name th, th_label th))) as [[= -> ->]|Hne].
    + destruct (Hrow row Hr) as (t' & Et & _ & Hu). assert (t' = t) as -> by congruence.
      destruct (Hu Hin); [by left|]. by apply used_here.
    + rewrite (proj2 F) in Hr by done. apply P in Hin as [E|Hin].
      * destruct (Hp t E) as [Hmine _]. destruct (o_rows _ O _ _ _ Hr) as (t' & Et & Hiss).
        unfold issued_to in Hmine. congruence.
      * eapply used_other; [done|congruence|]. by eapply (o_used _ O).
  - intros j tj s [[<- <-]|[Hne Hj]]%lookup_insert_Some Hph; [by eapply Hready|]. rewrite P.
    intros [E|Hin]; [|by eapply (o_ready _ O)]. destruct (Hp _ E) as [Hmine _].
    assert (Hiss : issued_to tj (os_refresh_token s) sys) by (apply (o_hand _ O j tj); [done|by rewrite Hph]).
    by apply (foreign_token sys i j th tj _ _ G Hi Hj Si ltac:(by rewrite Hph) Hne Hmine Hiss).
  - unfold sys', stepped. simpl. destruct p as [t|]; simpl; [|apply O].
    constructor; [by apply Hp|apply O].
Qed.

(** The obligation on the row, when the step leaves the table alone. *)
Lemma own_row_kept sys i x th ph p row :
  guarded sys -> once sys -> sys_threads sys !! i = Some th -> in_section (th_phase th) = true ->
  rotating th x (sys_issued sys) ->
  (p = None /\ (in_flight (th_phase th) = true -> in_flight ph = true)) \/ in_flight ph = true ->
  row_at (th_name th) (th_label th) (sys_db sys) = Some row ->
  exists t, token_of row = Ok t /\ issued_to th t (stepped i x th ph (sys_db sys) p sys) /\
    (t ∈ sys_presented (stepped i x th ph (sys_db sys) p sys) ->
     sr_degraded row <> 0 \/ in_flight ph = true).
Proof.
  intros G O Hi Si Hrot Hph Hr. destruct (o_rows _ O _ _ _ Hr) as (t & Et & Hiss). exists t.
  split; [done|]. split; [by apply issue_mono|]. intros Hin.
  destruct Hph as [[-> Himp]|?]; [|by right]. simpl in Hin.
  destruct (own_used sys i th row t G O Hi Si Hr Et Hin); [by left|right; auto].
Qed.

Lemma created_token n l token n0 t db s db' :
  nonce_ok n0 -> is_utf8 token = true ->
  session_create k n l token None None "" n0 n0 t db = (Ok s, db') ->
  os_refresh_token s = token /\
  exists row, row_at n l db' = Some row /\ token_of row = Ok token.
Proof.
  intros Hn Hu E.
  destruct (session_create_get _ _ _ _ None _ _ _ _ _ _ _ _ Hn Hn Hu ltac:(intros ? [=]) E)
    as (<- & _ & _ & Hg & _).
  split; [done|]. apply session_get_row in Hg as (_ & row & Hr & Hs). exists row.
  split; [done|by apply row_token].
Qed.

Lemma open_boot_once sys i th x ph db p token :
  guarded sys -> once sys -> sys_threads sys !! i = Some th -> inputs_ok x ->
  rotating th x (sys_issued sys) -> th_phase th = Holding -> th_caller th = Boot token ->
  thread_step x th (sys_db sys) = Some (ph, db, p) -> once (stepped i x th ph db p sys).
Proof.
  intros G O Hi (Hn1 & _) Hrot Hph Hc Hs. pose proof Hrot as Hf. unfold rotating in Hf. rewrite Hph, Hc in Hf.
  pose proof Hs as Hs'. unfold thread_step in Hs'. rewrite Hph, Hc in Hs'.
  assert (I : sys_issued (stepped i x th ph db p sys) !! token = Some (th_name th, th_label th)).
  { simpl. unfold issue. rewrite Hph, Hc. by rewrite lookup_insert_eq. }
  assert (N : token ∉ sys_presented sys) by (intros [? E]%(o_presented _ O); congruence).
  destruct (session_create _ _ _ _ _ _ _ _ _ _ _) as [[s|e] d] eqn:E; injection Hs' as <- <- <-;
    apply once_stepped; try done.
  - destruct (created_token _ _ _ _ _ _ _ _ Hn1 (g_ok _ G i th Hi token Hc) E) as (Es & row & Hr & Ht).
    intros row' Hr'. rewrite Hr in Hr'. injection Hr' as <-. exists token. split; [done|]. split; [done|].
    simpl. intros ?. done.
  - destruct (created_token _ _ _ _ _ _ _ _ Hn1 (g_ok _ G i th Hi token Hc) E) as (Es & _).
    intros s' [= <-]. by rewrite Es.
  - destruct (created_token _ _ _ _ _ _ _ _ Hn1 (g_ok _ G i th Hi token Hc) E) as (Es & _).
    intros s' [= <-]. by rewrite Es.
  - rewrite (session_create_err _ _ _ _ _ _ _ _ _ E) in *. intros row.
    eapply own_row_kept; try done; [by rewrite Hph|]. left. by rewrite Hph.
Qed.

Lemma open_read_once sys i th x ph db p :
  guarded sys -> once sys -> sys_threads sys !! i = Some th ->
  th_phase th = Holding -> (forall token, th_caller th <> Boot token) ->
  thread_step x th (sys_db sys) = Some (ph, db, p) -> once (stepped i x th ph db p sys).
Proof.
  intros G O Hi Hph Hc Hs.
  assert (Hrot : rotating th x (sys_issued sys))
    by (unfold rotating; rewrite Hph; by destruct (th_caller th); [..|by destruct (Hc refresh_token)]).
  assert (R : db = sys_db sys /\ p = None /\ in_flight ph = false /\
    (forall s reply, ph <> Exchanged s reply) /\
    forall s, in_hand ph = Some s -> session_get k (th_name th) (th_label th) (sys_db sys) = Ok (Some s) /\
                                     os_degraded s = false).
  { unfold thread_step in Hs. rewrite Hph in Hs.
    destruct (th_caller th); [..|by destruct (Hc refresh_token)];
      destruct (session_get _ _ _ _) as [[s|]|]; injection Hs as <- <- <-; repeat case_match; 
      split_and!; try done; by intros ? [= <-]. }
  destruct R as (-> & -> & Hf & Hne & Hg).
  assert (Si : in_section (th_phase th) = true) by (by rewrite Hph).
  assert (T : forall s, in_hand ph = Some s -> issued_to th (os_refresh_token s) sys /\
                        os_refresh_token s ∉ sys_presented sys).
  { intros s [Hget Hdeg]%Hg. apply session_get_row in Hget as (_ & row & Hr & Hs').
    pose proof (row_token _ _ Hs') as Et. destruct (o_rows _ O _ _ _ Hr) as (t & Et' & Hiss).
    assert (t = os_refresh_token s) as -> by congruence. split; [done|]. intros Hin.
    apply row_to_session_key in Hs' as (_ & _ & Hd & _).
    destruct (own_used sys i th row _ G O Hi Si Hr Et Hin) as [Hnz|Hfl]; [|by rewrite Hph in Hfl].
    apply Hnz. rewrite Hd in Hdeg. by apply negb_false_iff, Z.eqb_eq in Hdeg. }
  apply once_stepped; try done.
  - intros row. eapply own_row_kept; try done. left. by rewrite Hph.
  - intros s Hh. apply issue_mono; [done|]. by apply T.
  - intros s st tr E. by destruct (Hne _ _ E).
  - intros s ->. by apply T.
Qed.

Lemma ready_once sys i th x ph db p s :
  guarded sys -> once sys -> sys_threads sys !! i = Some th -> inputs_ok x ->
  rotating th x (sys_issued sys) -> th_phase th = Ready s ->
  thread_step x th (sys_db sys) = Some (ph, db, p) -> once (stepped i x th ph db p sys).
Proof.
  intros G O Hi (_ & _ & Hu) Hrot Hph Hs. pose proof Hs as Hs'. unfold thread_step in Hs'. rewrite Hph in Hs'.
  assert (Si : in_section (th_phase th) = true) by (by rewrite Hph).
  assert (Hiss : issued_to th (os_refresh_token s) sys) by (apply (o_hand _ O i); [done|by rewrite Hph]).
  pose proof (o_ready _ O i th s Hi Hph) as Hn.
  destruct (refresh_form _ _) as [u|e]; injection Hs' as <- <- <-; apply once_stepped; try done.
  - intros row. eapply own_row_kept; try done. by right.
  - intros s' [= <-]. by apply issue_mono.
  - intros s' st tr [= <- Er] Hst. unfold rotating in Hrot. rewrite Hph in Hrot.
    assert (Hfr : exists t, tr_refresh_token tr = Some t /\ sys_issued sys !! t = None)
      by (destruct (th_caller th); by apply (Hrot st)).
    destruct Hfr as (t & Et & Hfresh). exists t. split; [done|]. split; [by apply (Hu st tr Er)|]. split.
    + unfold issued_to. simpl. unfold issue. rewrite Hph, Er, Et, Hst.
      destruct (th_caller th); by rewrite lookup_insert_eq.
    + simpl. rewrite elem_of_cons. intros [->|[? E]%(o_presented _ O)]; unfold issued_to in *; congruence.
  - by intros t [= <-].
  - intros row. eapply own_row_kept; try done. by right.
Qed.

Lemma stored_token row act an expires rs acct t n2 token :
  nonce_ok n2 -> is_utf8 token = true -> seal_opt k n2 (Some token) = Ok rs ->
  token_of (with_tokens act an expires rs acct t row) = Ok token.
Proof.
  intros Hn Hu E. simpl in E. destruct (seal k n2 token) as [[c m]|] eqn:Es; [|done]. injection E as <-.
  unfold token_of. simpl. by eapply unseal_sealed.
Qed.

Lemma exchanged_once sys i th x ph db p s reply :
  guarded sys -> once sys -> sys_threads sys !! i = Some th -> inputs_ok x ->
  th_phase th = Exchanged s reply ->
  thread_step x th (sys_db sys) = Some (ph, db, p) -> once (stepped i x th ph db p sys).
Proof.
  intros G O Hi (_ & Hn2 & _) Hph Hs. pose proof Hs as Hs'. unfold thread_step in Hs'. rewrite Hph in Hs'.
  assert (Si : in_section (th_phase th) = true) by (by rewrite Hph).
  assert (Hrot : rotating th x (sys_issued sys)) by (unfold rotating; by rewrite Hph).
  assert (I : issue x th (sys_issued sys) = sys_issued sys) by (unfold issue; by rewrite Hph).
  destruct (g_hand _ G i th s Hi ltac:(by rewrite Hph)) as (En & El & _).
  destruct (refresh_store _ _ _ _ _ _ _) as [[u|e] d] eqn:E; injection Hs' as <- <- <-;
    apply once_stepped; try done.
  - unfold refresh_store in E. destruct reply as [[st [tr|]]|]; [|by branches E|done].
    destruct (is_success st) eqn:Est; [|done]. simpl in E.
    destruct (update_tokens _ _ _ _ _ _ _ _ _ _) as [[[]|] d'] eqn:Eu; [|done]. injection E as _ <-.
    destruct (update_tokens_row _ _ _ _ _ _ _ _ _ _ _ Eu) as (_ & act & an & rs & _ & Ers & Hrow).
    destruct (o_reply _ O i th s st tr Hi Hph Est) as (t & Et & Hut & Hiss & Hnp). rewrite Et in Ers.
    intros row. rewrite Hrow, En, El, bool_decide_eq_true_2 by done. intros (r0 & _ & ->)%fmap_Some.
    exists t. split; [by eapply stored_token|]. split; [unfold issued_to; simpl; by rewrite I|]. done.
  - assert (d = sys_db sys) as ->.
    { unfold refresh_store, update_tokens in E. by branches E. }
    intros row. eapply own_row_kept; try done. by right.
Qed.

Lemma stored_once sys i th x ph db p s :
  guarded sys -> once sys -> sys_threads sys !! i = Some th -> th_phase th = Stored s ->
  thread_step x th (sys_db sys) = Some (ph, db, p) -> once (stepped i x th ph db p sys).
Proof.
  intros G O Hi Hph Hs. pose proof Hs as Hs'. unfold thread_step in Hs'. rewrite Hph in Hs'.
  assert (Hrot : rotating th x (sys_issued sys)) by (unfold rotating; by rewrite Hph).
  destruct (refresh_read_back _ _ _) as [s'|e]; injection Hs' as <- <- <-; apply once_stepped; try done;
    intros row; (eapply own_row_kept; try done; [by rewrite Hph|]; left; by rewrite Hph).
Qed.

Lemma failed_once sys i th x ph db p :
  guarded sys -> once sys -> sys_threads sys !! i = Some th -> th_phase th = Failed ->
  thread_step x th (sys_db sys) = Some (ph, db, p) -> once (stepped i x th ph db p sys).
Proof.
  intros G O Hi Hph Hs. pose proof Hs as Hs'. unfold thread_step in Hs'. rewrite Hph in Hs'.
  assert (Hrot : rotating th x (sys_issued sys)) by (unfold rotating; by rewrite Hph).
  assert (I : issue x th (sys_issued sys) = sys_issued sys) by (unfold issue; by rewrite Hph).
  injection Hs' as <- <- <-. apply once_stepped; try done. intros row Hr.
  assert (D : row_at (th_name th) (th_label th)
                (mark_degraded (th_name th) (th_label th) (x_now x) (sys_db sys)).2 = Some row).
  { destruct (th_caller th); [done..|]. unfold session_delete in Hr. rewrite (g_online _ G) in Hr.
    cbn [negb snd] in Hr. by rewrite row_at_delete, bool_decide_eq_true_2 in Hr. }
  rewrite (proj2 (mark_degraded_row _ _ _ _ _ _)), (g_online _ G), bool_decide_eq_true_2 in D by done.
  simpl in D. apply fmap_Some in D as (r0 & Hr0 & ->).
  destruct (o_rows _ O _ _ _ Hr0) as (t & Et & Hiss). exists t. split; [done|].
  split; [unfold issued_to; simpl; by rewrite I|]. intros _. by left.
Qed.

Lemma act_once sys i th x ph db p :
  guarded sys -> once sys -> sys_threads sys !! i = Some th -> inputs_ok x ->
  rotating th x (sys_issued sys) -> thread_step x th (sys_db sys) = Some (ph, db, p) ->
  once (stepped i x th ph db p sys).
Proof.
  intros G O Hi Hx Hrot Hs. destruct (th_phase th) as [| |s|s reply|s| |r] eqn:Hph.
  1, 7: unfold thread_step in Hs; by rewrite Hph in Hs.
  - destruct (th_caller th) as [|thr|token] eqn:Hc; [..|by eapply open_boot_once];
      eapply open_read_once; try done; congruence.
  - by eapply ready_once.
  - by eapply exchanged_once.
  - by eapply stored_once.
  - by eapply failed_once.
Qed.

Lemma move_once sys i th th' hs :
  once sys -> (sys_threads sys !! i = None \/ sys_threads sys !! i = Some th /\ in_flight (th_phase th) = false) ->
  in_hand (th_phase th') = None -> once (set_holders hs (set_thread i th' sys)).
Proof.
  intros O Hi Hh.
  assert (F : forall j tj, <[i := th']> (sys_threads sys) !! j = Some tj ->
    in_hand (th_phase tj) = None \/ sys_threads sys !! j = Some tj).
  { intros j tj [[<- <-]|[_ ?]]%lookup_insert_Some; auto. }
  split; simpl; try apply O.
  - intros j tj s [E|Hj]%F Hs; [congruence|by apply (o_hand _ O j)].
  - intros j tj s st tr [E|Hj]%F Hs; [by rewrite Hs in E|by apply (o_reply _ O j tj s)].
  - intros n l row t Hr Ht Hp. pose proof (o_used _ O _ _ _ _ Hr Ht Hp) as U.
    destruct Hi as [Hi|[Hi Hf]]; [|by eapply used_move].
    destruct U as [?|(j & tj & Hj & ?)]; [by left|right]. exists j, tj.
    rewrite lookup_insert_ne; [done|congruence].
  - intros j tj s [E|Hj]%F Hs; [by rewrite Hs in E|by apply (o_ready _ O j tj s)].
Qed.

Lemma revoke_once sys n l : once sys -> once (set_db (session_delete n l (sys_db sys)).2 sys).
Proof.
  intros O. assert (R : forall n' l' row, row_at n' l' (session_delete n l (sys_db sys)).2 = Some row ->
    row_at n' l' (sys_db sys) = Some row).
  { intros n' l' row. unfold session_delete. destruct (negb _); [done|]. cbn [snd]. rewrite row_at_delete.
    by case_bool_decide. }
  split; simpl; try apply O.
  - intros n' l' row Hr%R. by apply (o_rows _ O).
  - intros n' l' row t Hr%R. by apply (o_used _ O).
Qed.

Lemma step_once sys sys' :
  race_step false rotating sys sys' -> guarded sys -> once sys -> once sys'.
Proof.
  intros [s i th Hi Hw Ht|s i th Hi Hw Hl|s i th x ph db p Hi Hx Hrot Hs|s n l|s i th [=]] G O.
  - apply (move_once s i th th (sys_holders s)); [done|by left|by rewrite Hw].
  - apply (move_once s i th); [done|right; by rewrite Hw|done].
  - by apply act_once.
  - by apply revoke_once.
Qed.

(** A start with one token for each session and none presented yet. *)
Definition tokens_init (sys : Sys) : Prop :=
  race_init sys /\ sys_presented sys = [] /\
  forall n l row, row_at n l (sys_db sys) = Some row ->
    exists t, token_of row = Ok t /\ sys_issued sys !! t = Some (n, l).

Lemma init_once sys : tokens_init sys -> once sys.
Proof.
  intros ([Hw Hon] & Hp & Hr).
  assert (W : forall i th, sys_threads sys !! i = Some th -> th_phase th = Waiting)
    by (intros i th Hi; by apply (Hw i)).
  split; try done; rewrite ?Hp; try (by constructor).
  - intros i th s Hi. by rewrite (W i th Hi).
  - intros i th s st tr Hi. by rewrite (W i th Hi).
  - intros t Ht. by apply elem_of_nil in Ht.
  - intros n l row t _ _ Ht. by apply elem_of_nil in Ht.
  - intros i th s Hi. by rewrite (W i th Hi).
Qed.

(** C11: With a provider that rotates refresh tokens, and requests that run to
    their end, no refresh token is ever presented twice: whatever proxied
    requests, ticks of the background task, bootstraps and revocations run
    at the same time. *)
Theorem refresh_token_presented_once sys sys' :
  tokens_init sys -> rtc (race_step false rotating) sys sys' -> NoDup (sys_presented sys').
Proof.
  intros Hi Hr. apply o_nodup. assert (G : guarded sys) by (apply init_guarded, Hi).
  assert (O : once sys) by (by apply init_once). clear Hi.
  induction Hr as [|a b c Hs _ IH]; [done|]. apply IH; eauto using step_guarded, step_once.
Qed.

(** ** Undisturbed, a thread does what the sequential code does *)

Definition any_policy (_ : Thread) (_ : Inputs) (_ : gmap string (string * string)) : Prop := True.

Definition runs (sys : Sys) (i : nat) (db : OauthSessionRepository) : Prop :=
  exists sys' th r, rtc (race_step false any_policy) sys sys' /\
    sys_threads sys' !! i = Some th /\ th_phase th = Finished r /\ sys_db sys' = db.

Lemma runs_step sys i th x ph db p db' :
  sys_threads sys !! i = Some th -> inputs_ok x ->
  thread_step x th (sys_db sys) = Some (ph, db, p) ->
  runs (stepped i x th ph db p sys) i db' -> runs sys i db'.
Proof.
  intros Hi Hx Hs (sys' & th' & r & Hr & ?). exists sys', th', r. split; [|done].
  eapply rtc_l; [|exact Hr]. by apply race_act.
Qed.

Lemma runs_done sys i th r db :
  sys_threads sys !! i = Some th -> th_phase th = Finished r -> sys_db sys = db -> runs sys i db.
Proof. intros Hi Hp Hd. by exists sys, th, r. Qed.

(** What a caller leaves behind after [refresh_session]. *)
Definition settled (th : Thread) (now : Z)
    (res : result RefreshError OauthSession * OauthSessionRepository) : OauthSessionRepository :=
  match res with
  | (Ok _, db) => db
  | (Err _, db) =>
      match th_caller th with
      | Boot _ => (session_delete (th_name th) (th_label th) db).2
      | _ => (mark_degraded (th_name th) (th_label th) now db).2
      end
  end.

Lemma failed_runs sys i th th0 x e db :
  sys_threads sys !! i = Some th -> inputs_ok x -> th = at_phase Failed th0 -> sys_db sys = db ->
  runs sys i (settled th0 (x_now x) (Err e, db)).
Proof.
  intros Hi Hx -> <-. eapply runs_step; [done|done|done|].
  eapply runs_done; [apply lookup_insert_eq|done..].
Qed.

Lemma ready_runs post sys i th x s :
  sys_threads sys !! i = Some th -> inputs_ok x -> th_phase th = Ready s ->
  (forall u f, refresh_form (x_catalog x) s = Ok (u, f) -> x_reply x = post u f) ->
  runs sys i (settled th (x_now x) (refresh_session post (x_catalog x) k s (x_nonces x).1
                (x_nonces x).2 (x_now x) (sys_db sys))).
Proof.
  intros Hi Hx Hp Hpost. rewrite refresh_session_split.
  destruct (refresh_form (x_catalog x) s) as [[u f]|e] eqn:Ef.
  - rewrite <- (Hpost u f eq_refl).
    eapply (runs_step _ _ _ x); [done|done|unfold thread_step; by rewrite Hp, Ef|].
    set (sys1 := stepped _ _ _ _ _ _ _). set (th1 := at_phase (Exchanged s (x_reply x)) th).
    assert (H1' : sys_threads sys1 !! i = Some th1) by (apply lookup_insert_eq).
    destruct (refresh_store k s (x_reply x) (x_nonces x).1 (x_nonces x).2 (x_now x) (sys_db sys))
      as [[[]|e] db] eqn:Es.
    + eapply (runs_step _ _ th1 x); [done|done|unfold thread_step; simpl; by rewrite Es|].
      set (sys2 := stepped _ _ _ _ _ _ _). set (th2 := at_phase (Stored s) th1).
      assert (H2' : sys_threads sys2 !! i = Some th2) by (apply lookup_insert_eq).
      destruct (refresh_read_back k s db) as [s'|e] eqn:Eb.
      * eapply (runs_step _ _ th2 x); [done|done|unfold thread_step; simpl; by rewrite Eb|].
        eapply runs_done; [apply lookup_insert_eq|done..].
      * eapply (runs_step _ _ th2 x); [done|done|unfold thread_step; simpl; by rewrite Eb|].
        eapply failed_runs; [apply lookup_insert_eq|done..].
    + eapply (runs_step _ _ th1 x); [done|done|unfold thread_step; simpl; by rewrite Es|].
      eapply failed_runs; [apply lookup_insert_eq|done..].
  - eapply (runs_step _ _ _ x); [done|done|unfold thread_step; by rewrite Hp, Ef|].
    eapply failed_runs; [apply lookup_insert_eq|done..].
Qed.

(** An item of the tick, run alone, leaves what [refresh_item] leaves. *)
Theorem due_alone post sys i th x threshold :
  sys_threads sys !! i = Some th -> th_phase th = Waiting -> th_caller th = Due threshold ->
  sys_holders sys !! th_lock th = None -> inputs_ok x ->
  (forall s u f, session_get k (th_name th) (th_label th) (sys_db sys) = Ok (Some s) ->
     refresh_form (x_catalog x) s = Ok (u, f) -> x_reply x = post u f) ->
  runs sys i (refresh_item post (x_catalog x) k threshold (x_now x) (th_name th, th_label th)
                (x_nonces x) (sys_db sys)).
Proof.
  intros Hi Hw Hc Hl Hx Hpost. set (th0 := at_phase Holding th).
  set (sys0 := set_holders (<[th_lock th := i]> (sys_holders sys)) (set_thread i th0 sys)).
  assert (H0' : sys_threads sys0 !! i = Some th0) by apply lookup_insert_eq.
  enough (R : runs sys0 i (refresh_item post (x_catalog x) k threshold (x_now x)
                (th_name th, th_label th) (x_nonces x) (sys_db sys))).
  { destruct R as (sys' & th' & r & Hr & ?). exists sys', th', r. split; [|done].
    eapply rtc_l; [|exact Hr]. by apply race_lock. }
  unfold refresh_item. simpl.
  destruct (session_get k (th_name th) (th_label th) (sys_db sys)) as [[s|]|] eqn:Eg.
  2-3: (eapply (runs_step _ _ th0 x); [done|done|unfold thread_step; simpl; by rewrite Hc, Eg|];
    eapply runs_done; [apply lookup_insert_eq|done..]).
  eapply (runs_step _ _ th0 x); [done|done|unfold thread_step; simpl; by rewrite Hc, Eg|].
  set (sys1 := stepped _ _ _ _ _ _ _).
  destruct (os_degraded s); [eapply runs_done; [apply lookup_insert_eq|done..]|].
  assert (W : wants_refresh (Due threshold) (x_now x) s =
    negb (match os_expires_at s with Some e => threshold <? e | None => false end))
    by (simpl; by destruct (os_expires_at s)).
  destruct (match os_expires_at s with Some e => threshold <? e | None => false end); simpl in W.
  - eapply runs_done; [apply lookup_insert_eq|simpl in *; by rewrite W|done].
  - pose proof (ready_runs post sys1 i (at_phase (Ready s) th0) x s) as R.
    unfold settled in R. simpl in R. rewrite Hc in R.
    assert (E1 : sys_threads sys1 !! i = Some (at_phase (Ready s) th0)).
    { unfold sys1, stepped. simpl in *. rewrite W. apply lookup_insert_eq. }
    specialize (R E1 Hx eq_refl (fun u f => Hpost s u f eq_refl)).
    by destruct (refresh_session _ _ _ _ _ _ _ _) as [[]].
Qed.
End Race.

(** ** Witnesses *)

Module OauthRaceWitness.
Import ControlsWitness Registrations Base64Model Argon2Model HttpModel OauthWitness.

Definition codex_thread (ph : RefreshPhase) : Thread :=
  {| th_name := "codex"; th_label := "default"; th_caller := OnDemand; th_phase := ph |}.

(** Two requests for the session of [db0], whose access token is running
    out, and a provider that rotates. *)
Definition two : Sys :=
  {| sys_db := db0; sys_threads := {[0%nat := codex_thread Waiting; 1%nat := codex_thread Waiting]};
     sys_holders := ∅; sys_presented := []; sys_issued := {["rt1" := ("codex", "default")]} |}.

Definition rotated : TokenResponse :=
  {| tr_access_token := "at2"; tr_expires_in := Some 3600; tr_refresh_token := Some "rt2" |}.

Definition x0 : Inputs :=
  {| x_now := 90; x_nonces := (nonce, nonce); x_catalog := cat0; x_reply := Some (200, Some rotated) |}.

Lemma x0_ok : inputs_ok x0.
Proof.
  split; [exact nonce_len|]. split; [exact nonce_len|]. intros st tr [= <- <-]. split; [done|].
  by intros t [= <-].
Qed.

Lemma two_init : tokens_init key two.
Proof.
  split; [split|].
  - intros i th Hi. unfold two in Hi. cbn [sys_threads] in Hi.
    apply lookup_insert_Some in Hi as [[_ <-]|[_ Hi]]; [by split|].
    apply lookup_singleton_Some in Hi as [_ <-]. by split.
  - reflexivity.
  - split; [done|]. intros n l row Hr. exists "rt1".
    apply find_session in Hr as (Hin & <- & <-).
    replace (sessions (sys_db two)) with [row0] in Hin by (vm_compute; reflexivity).
    apply list_elem_of_singleton in Hin as ->. by split; vm_compute.
Qed.

(** The run of thread [i] with the lock free, one step at a time. *)
Definition lock_by (i : nat) (sys : Sys) : Sys :=
  set_holders (<[th_lock (codex_thread Waiting) := i]> (sys_holders sys))
    (set_thread i (codex_thread Holding) sys).

Definition act_by (i : nat) (sys : Sys) : Sys :=
  match sys_threads sys !! i with
  | Some th =>
      match thread_step key x0 th (sys_db sys) with
      | Some (ph, db, p) => stepped i x0 th ph db p sys
      | None => sys
      end
  | None => sys
  end.

Definition cancel_by (i : nat) (sys : Sys) : Sys :=
  set_holders (delete (th_lock (codex_thread Waiting)) (sys_holders sys))
    (set_thread i (codex_thread (Finished None)) sys).

Definition in_turn : Sys :=
  act_by 1 (lock_by 1 (act_by 0 (act_by 0 (act_by 0 (act_by 0 (lock_by 0 two)))))).

(** A lock step and an act step of the concrete run. *)
Local Ltac go_lock i :=
  eapply rtc_l; [refine (race_lock key _ _ _ i (codex_thread Waiting) _ _ _); vm_compute; reflexivity|].
Local Ltac go_act i th :=
  eapply rtc_l; [eapply (race_act key _ _ _ i th x0);
    [vm_compute; reflexivity|exact x0_ok|
     first [exact I | intros st tr [= <- <-] _; exists "rt2"; split; vm_compute; reflexivity]
    |vm_compute; reflexivity]|].

Local Ltac go_end :=
  match goal with |- rtc _ ?a ?b => replace a with b by (vm_compute; reflexivity); apply rtc_refl end.

(** The first request refreshes; the second finds the new token. *)
Lemma in_turn_run : rtc (race_step key false rotating) two in_turn.
Proof.
  go_lock 0%nat. go_act 0%nat (codex_thread Holding). go_act 0%nat (codex_thread (Ready sess0)).
  go_act 0%nat (codex_thread (Exchanged sess0 (x_reply x0))). go_act 0%nat (codex_thread (Stored sess0)).
  go_lock 1%nat. go_act 1%nat (codex_thread Holding). go_end.
Qed.

Lemma refresh_token_presented_once_witness : NoDup (sys_presented in_turn).
Proof. apply (refresh_token_presented_once key two in_turn); [apply two_init|apply in_turn_run]. Defined.

Definition at_exchange : Sys := act_by 0 (lock_by 0 two).

Lemma exchange_is_current_witness :
  session_get key "codex" "default" (sys_db at_exchange) = Ok (Some sess0) \/
  session_get key "codex" "default" (sys_db at_exchange) = Ok None.
Proof.
  apply (exchange_is_current key false rotating two at_exchange 0 (codex_thread (Ready sess0)) sess0).
  - apply two_init.
  - go_lock 0%nat. go_act 0%nat (codex_thread Holding). go_end.
  - vm_compute. reflexivity.
  - reflexivity.
Defined.

(** The provider's answer to a spent token. *)
Definition x1 : Inputs :=
  {| x_now := 91; x_nonces := (nonce, nonce); x_catalog := cat0; x_reply := Some (400, None) |}.

Definition presented_again : Sys :=
  stepped 1 x1 (codex_thread (Ready sess0)) (Exchanged sess0 (x_reply x1)) db0 (Some "rt1")
    (act_by 1 (lock_by 1 (cancel_by 0 (act_by 0 (act_by 0 (lock_by 0 two)))))).

(** A request that is dropped between the exchange and [update_tokens] loses
    the rotated refresh token: the next request presents the spent one again,
    which a rotating provider refuses. *)
Theorem cancelled_refresh_reuses_token :
  exists sys sys', tokens_init key sys /\ rtc (race_step key true rotating) sys sys' /\
    sys_presented sys' = ["rt1"; "rt1"].
Proof.
  exists two, presented_again. split; [apply two_init|]. split; [|vm_compute; reflexivity].
  go_lock 0%nat. go_act 0%nat (codex_thread Holding). go_act 0%nat (codex_thread (Ready sess0)).
  eapply rtc_l; [eapply (race_cancel key _ _ _ 0%nat (codex_thread (Exchanged sess0 (x_reply x0))));
    vm_compute; reflexivity|].
  go_lock 1%nat. go_act 1%nat (codex_thread Holding).
  eapply rtc_l; [eapply (race_act key _ _ _ 1%nat (codex_thread (Ready sess0)) x1);
    [vm_compute; reflexivity|split; [exact nonce_len|split; [exact nonce_len|by intros st tr [=]]]
    |by intros st tr [=]|vm_compute; reflexivity]|].
  go_end.
Qed.
End OauthRaceWitness.
