(* ===== verification/Shutdown.v ===== *)
(** * The shutdown coordinator ([src/shutdown.rs])

    The signal is a latch and a [tokio] [Notify].  [shutdown_signal] and
    [trigger] are run as their atomic steps, one thread each, in any
    interleaving.  Of [Notify] the model keeps what its documentation
    promises: a [Notified] future receives every [notify_waiters] made after
    it was created, polled or not; so the future remembers how many such
    calls had been made.  Times are in milliseconds. *)

From S2P Require Import Prelude.

Record ShutdownCoordinator := { triggered : bool; notifies : nat; drain_window : Z }.

Definition new_coordinator (window : Z) : ShutdownCoordinator :=
  {| triggered := false; notifies := 0; drain_window := window |}.

Definition store_triggered (c : ShutdownCoordinator) : ShutdownCoordinator :=
  {| triggered := true; notifies := notifies c; drain_window := drain_window c |}.

Definition notify_waiters (c : ShutdownCoordinator) : ShutdownCoordinator :=
  {| triggered := triggered c; notifies := S (notifies c); drain_window := drain_window c |}.

(** [trigger]: the store, then the notification. *)
Inductive Trigger := TIdle | TStored | TDone.

Definition trigger_step (t : Trigger) (c : ShutdownCoordinator)
  : option (Trigger * ShutdownCoordinator) :=
  match t with
  | TIdle => Some (TStored, store_triggered c)
  | TStored => Some (TDone, notify_waiters c)
  | TDone => None
  end.

(** [shutdown_signal]: before its first load, before it registers, before it
    loads again, waiting, resolved. *)
Inductive Waiter :=
| WStart
| WLoaded
| WRegistered (seen : nat)
| WWaiting (seen : nat)
| WDone.

(** [None]: the future is pending. *)
Definition waiter_step (w : Waiter) (c : ShutdownCoordinator) : option Waiter :=
  match w with
  | WStart => Some (if triggered c then WDone else WLoaded)
  | WLoaded => Some (WRegistered (notifies c))
  | WRegistered n => Some (if triggered c then WDone else WWaiting n)
  | WWaiting n => if (n <? notifies c)%nat then Some WDone else None
  | WDone => None
  end.

Record System := {
  coord : ShutdownCoordinator;
  triggers : list Trigger;
  waiters : list Waiter
}.

(** Any thread makes its next step; new futures and triggers may appear. *)
Inductive sys_step : System -> System -> Prop :=
| StepTrigger c ts ws i t t' c' :
    ts !! i = Some t -> trigger_step t c = Some (t', c') ->
    sys_step {| coord := c; triggers := ts; waiters := ws |}
             {| coord := c'; triggers := <[i := t']> ts; waiters := ws |}
| StepWaiter c ts ws i w w' :
    ws !! i = Some w -> waiter_step w c = Some w' ->
    sys_step {| coord := c; triggers := ts; waiters := ws |}
             {| coord := c; triggers := ts; waiters := <[i := w']> ws |}
| StepSignal c ts ws :
    sys_step {| coord := c; triggers := ts; waiters := ws |}
             {| coord := c; triggers := ts; waiters := ws ++ [WStart] |}
| StepCall c ts ws :
    sys_step {| coord := c; triggers := ts; waiters := ws |}
             {| coord := c; triggers := ts ++ [TIdle]; waiters := ws |}.

Inductive sys_reachable (window : Z) : System -> Prop :=
| Boot : sys_reachable window {| coord := new_coordinator window; triggers := []; waiters := [] |}
| Next s s' : sys_reachable window s -> sys_step s s' -> sys_reachable window s'.

(** A waiter left to itself. *)
Fixpoint waiter_run (n : nat) (w : Waiter) (c : ShutdownCoordinator) : Waiter :=
  match n with
  | O => w
  | S n' => match waiter_step w c with Some w' => waiter_run n' w' c | None => w end
  end.

(** *** The invariant *)

Definition waiter_inv (s : System) (w : Waiter) : Prop :=
  match w with
  | WRegistered n => (n <= notifies (coord s))%nat
  | WWaiting n =>
      (n <= notifies (coord s))%nat /\ (n = notifies (coord s) -> TDone ∉ triggers s)
  | WDone => triggered (coord s) = true
  | _ => True
  end.

Record sys_inv (s : System) : Prop := {
  inv_latch : forall t, t ∈ triggers s -> t <> TIdle -> triggered (coord s) = true;
  inv_notified : (0 < notifies (coord s))%nat -> triggered (coord s) = true;
  inv_waiters : forall w, w ∈ waiters s -> waiter_inv s w
}.

Lemma elem_of_insert {A} (l : list A) i x y :
  y ∈ <[i := x]> l -> y = x \/ y ∈ l.
Proof.
  intros [j Hj]%list_elem_of_lookup.
  apply list_lookup_insert_Some in Hj as [(-> & -> & _)|[_ Hj]]; [by left|].
  right. by eapply list_elem_of_lookup_2.
Qed.

Lemma waiter_inv_keep s s' w :
  coord s' = coord s -> (forall t, t ∈ triggers s' -> t = TIdle \/ t ∈ triggers s) ->
  waiter_inv s w -> waiter_inv s' w.
Proof.
  intros Hc Ht. destruct w; simpl; rewrite ?Hc; try done. intros [H1 H2]. split; [done|].
  intros E Hd. destruct (Ht _ Hd) as [?|?]; [done|by apply H2].
Qed.

Lemma trigger_step_inv c ts ws i t t' c' :
  sys_inv {| coord := c; triggers := ts; waiters := ws |} ->
  ts !! i = Some t -> trigger_step t c = Some (t', c') ->
  sys_inv {| coord := c'; triggers := <[i := t']> ts; waiters := ws |}.
Proof.
  intros [L N W] Hi Hs. simpl in *.
  assert (Ht : t ∈ ts) by (by eapply list_elem_of_lookup_2).
  destruct t; simpl in Hs; simplify_eq; simpl in *.
  - split; simpl; [done|done|]. intros w Hw. specialize (W w Hw). destruct w; simpl in *; try done.
    destruct W as [W1 W2]. split; [done|]. intros E [?|?]%elem_of_insert; [done|by apply W2].
  - assert (triggered c = true) as T by (by eapply L). split; simpl; [done|done|].
    intros w Hw. specialize (W w Hw). destruct w; simpl in *; try done; [lia|].
    destruct W as [W1 W2]. split; [lia|]. lia.
Qed.

Lemma waiter_step_inv c ts ws i w w' :
  sys_inv {| coord := c; triggers := ts; waiters := ws |} ->
  ws !! i = Some w -> waiter_step w c = Some w' ->
  sys_inv {| coord := c; triggers := ts; waiters := <[i := w']> ws |}.
Proof.
  intros [L N W] Hi Hs. simpl in *.
  assert (Hw : waiter_inv {| coord := c; triggers := ts; waiters := ws |} w)
    by (apply W; by eapply list_elem_of_lookup_2).
  split; simpl; [done|done|]. intros x [->|Hx]%elem_of_insert; [|by apply W].
  destruct w; simpl in Hs, Hw; simplify_eq; simpl.
  - by destruct (triggered c) eqn:T.
  - done.
  - destruct (triggered c) eqn:T; simpl; [done|]. split; [done|]. intros _ Hd.
    by specialize (L _ Hd ltac:(done)).
  - destruct (Nat.ltb_spec seen (notifies c)); simplify_eq. simpl. apply N. lia.
Qed.

Lemma sys_step_inv s s' : sys_inv s -> sys_step s s' -> sys_inv s'.
Proof.
  intros I St. destruct St.
  - by eapply trigger_step_inv.
  - by eapply waiter_step_inv.
  - destruct I as [L N W]. split; simpl in *; [done|done|].
    intros w [Hw|Hw]%elem_of_app; [by apply W|]. by apply list_elem_of_singleton in Hw as ->.
  - destruct I as [L N W]. split; simpl in *; [|done|].
    + intros t [Ht|Ht]%elem_of_app; [by apply L|]. by apply list_elem_of_singleton in Ht as ->.
    + intros w Hw. apply (waiter_inv_keep {| coord := c; triggers := ts; waiters := ws |});
        [done| |by apply W]. simpl.
      intros t [Ht|Ht]%elem_of_app; [by right|]. apply list_elem_of_singleton in Ht. by left.
Qed.

Lemma reachable_inv window s : sys_reachable window s -> sys_inv s.
Proof.
  induction 1 as [|s s' _ IH St]; [|by eapply sys_step_inv].
  split; simpl; [|lia|]; intros ? Hx; by apply not_elem_of_nil in Hx.
Qed.

(** C28: No wake-up is lost: in every interleaving, once a trigger has returned,
    each signal future, whenever it was created and wherever it stands,
    resolves within three of its own steps; and none resolves before a
    trigger set the latch. *)
Theorem trigger_wakes_every_waiter window s w :
  sys_reachable window s -> w ∈ waiters s ->
  (TDone ∈ triggers s -> waiter_run 3 w (coord s) = WDone) /\
  (w = WDone -> triggered (coord s) = true).
Proof.
  intros R Hw. destruct (reachable_inv _ _ R) as [L N W]. specialize (W w Hw).
  split; [|by intros ->]. intros Hd. assert (T : triggered (coord s) = true) by (by eapply L).
  destruct w; cbn [waiter_run waiter_step]; rewrite ?T; try done.
  destruct W as [W1 W2]. destruct (Nat.ltb_spec seen (notifies (coord s))); [done|].
  destruct W2; [lia|done].
Qed.

(** ** Draining *)

Inductive Drain := Drained (at_ms : Z) | DrainTimeout (at_ms : Z).

(** [tokio::time::timeout] from [start]: [task t] is when the task completes
    if it is first polled at [t], [None] for never. *)
Definition drain_or_timeout (c : ShutdownCoordinator) (task : Z -> option Z) (start : Z) : Drain :=
  match task start with
  | Some t => if t <=? start + drain_window c then Drained (Z.max start t)
              else DrainTimeout (start + drain_window c)
  | None => DrainTimeout (start + drain_window c)
  end.

(** [signal] is when the shutdown signal resolves; [None]: the call is still
    pending. *)
Definition await_shutdown_then_drain (c : ShutdownCoordinator) (signal : option Z)
    (task : Z -> option Z) : option Drain :=
  drain_or_timeout c task <$> signal.

(** The drain never ends before the signal, ends at most a window after it,
    and times out exactly when the task needs longer. *)
Theorem drain_within_window c signal task :
  0 <= drain_window c ->
  match await_shutdown_then_drain c signal task with
  | None => signal = None
  | Some (Drained t) =>
      exists t0, signal = Some t0 /\ t0 <= t <= t0 + drain_window c /\
        exists d, task t0 = Some d /\ d <= t0 + drain_window c
  | Some (DrainTimeout t) =>
      exists t0, signal = Some t0 /\ t = t0 + drain_window c /\
        forall d, task t0 = Some d -> t < d
  end.
Proof.
  intros Hw. destruct signal as [t0|]; [|done]. cbn. unfold drain_or_timeout.
  destruct (task t0) as [d|] eqn:E.
  - destruct (Z.leb_spec d (t0 + drain_window c)); exists t0.
    + split; [done|]. split; [lia|]. by exists d.
    + split; [done|]. split; [done|]. intros d' Hd'. simplify_eq. lia.
  - exists t0. split; [done|]. split; [done|]. by intros d Hd; simplify_eq.
Qed.

(** ** Operating-system signals *)

Inductive Signal := SigTerm | SigInt.

(** [wait_for_signal]: which handlers could be installed, whether [ctrl_c]
    works, and the signals with their times; the time at which it returns.  A
    [ctrl_c] that fails returns at once, at [from]. *)
Definition wait_for_signal (sigterm_ok sigint_ok ctrl_c_ok : bool) (from : Z)
    (arrivals : list (Z * Signal)) : option Z :=
  if sigterm_ok && sigint_ok then fst <$> find_first (fun _ => true) arrivals
  else if ctrl_c_ok
       then fst <$> find_first (fun a => match a.2 with SigInt => true | SigTerm => false end) arrivals
       else Some from.

(** [install]: the coordinator, and when its task starts the trigger. *)
Definition install (window : Z) (sigterm_ok sigint_ok ctrl_c_ok : bool) (from : Z)
    (arrivals : list (Z * Signal)) : ShutdownCoordinator * option Z :=
  (new_coordinator window, wait_for_signal sigterm_ok sigint_ok ctrl_c_ok from arrivals).

(** With both handlers the first signal of either kind starts the shutdown
    and nothing else does; with neither a handler nor [ctrl_c] the daemon
    shuts down as soon as it is up. *)
Lemma wait_for_signal_spec ctrl_c_ok from arrivals :
  wait_for_signal true true ctrl_c_ok from arrivals = fst <$> head arrivals /\
  wait_for_signal false false false from arrivals = Some from.
Proof. by destruct arrivals. Qed.

(** A daemon without a SIGTERM handler of its own waits for SIGINT only. *)
Lemma sigterm_only_with_handler from arrivals t :
  (forall a, a ∈ arrivals -> a.2 = SigTerm) ->
  wait_for_signal false true true from arrivals <> Some t.
Proof.
  intros Ha. unfold wait_for_signal. simpl.
  destruct (find_first _ arrivals) as [a|] eqn:E; [|done].
  apply find_first_Some in E as [Hin E]. by rewrite (Ha a Hin) in E.
Qed.

Module ShutdownWitness.

(** One future waits, one registers between the two steps of the trigger. *)
Definition racing : System :=
  {| coord := notify_waiters (store_triggered (new_coordinator 30000));
     triggers := [TDone]; waiters := [WWaiting 0; WRegistered 0; WStart] |}.

Lemma racing_reachable : sys_reachable 30000 racing.
Proof.
  eapply Next; [|eapply (StepTrigger _ [TStored] _ 0); reflexivity].
  eapply Next; [|apply (StepSignal _ _ [WWaiting 0; WRegistered 0])].
  eapply Next; [|eapply (StepTrigger _ [TIdle] _ 0); reflexivity].
  eapply Next; [|eapply (StepWaiter _ _ [WWaiting 0; WLoaded] 1); reflexivity].
  eapply Next; [|eapply (StepWaiter _ _ [WWaiting 0; WStart] 1); reflexivity].
  eapply Next; [|apply (StepSignal _ _ [WWaiting 0])].
  eapply Next; [|eapply (StepWaiter _ _ [WRegistered 0] 0); reflexivity].
  eapply Next; [|eapply (StepWaiter _ _ [WLoaded] 0); reflexivity].
  eapply Next; [|eapply (StepWaiter _ _ [WStart] 0); reflexivity].
  eapply Next; [|apply (StepSignal _ _ [])].
  eapply Next; [|apply (StepCall _ [] _)].
  apply Boot.
Qed.

Lemma trigger_wakes_every_waiter_witness :
  (TDone ∈ triggers racing -> waiter_run 3 (WWaiting 0) (coord racing) = WDone) /\
  (WWaiting 0 = WDone -> triggered (coord racing) = true).
Proof. apply (trigger_wakes_every_waiter 30000 racing); [apply racing_reachable|left]. Defined.

Lemma drain_within_window_witness :
  exists t0, Some 100 = Some t0 /\ 130 = t0 + 30 /\ forall d, Some 500 = Some d -> 130 < d.
Proof. apply (drain_within_window (new_coordinator 30) (Some 100) (fun _ => Some 500)). done. Defined.

End ShutdownWitness.
