(* ===== verification/Startup.v ===== *)
(** * Start-up and the retention sweeper ([src/daemon.rs])

    [build_admin_substrate] and [run] up to the point where the listeners are
    served: the checks, the order in which the database, the seed catalog, the
    migration of configured tools, the authenticators, the catalog and the
    OAuth key are set up, what each failure aborts with, and the state handed
    to the admin router and to the proxy.  Files, migrations and error texts
    are parameters.  The listeners themselves are tasks that end with a
    result; [run_end] is what the daemon makes of them. *)

From S2P Require Import AuditSink.
From S2P Require Import Prelude Json Http Token Argon2Helper AgentRepo.
From S2P Require Import BootstrapRepo AuditLog Auth Secret CodexBody ResponseControls.
From S2P Require Import Config Registrations SeedLoader Oauth AgentCreds AdminService.
From S2P Require Import OauthAdmin AdminHttp RouterInvariant Strings Revocation Shutdown.
From S2P Require Import Proxy.

(** ** Configuration *)

Record AuditConfig := {
  retention_days : Z;
  sweep_interval_seconds : Z;
  jsonl_path : option string;
  jsonl_max_bytes : Z;
  jsonl_keep_files : nat
}.

Definition default_audit_config : AuditConfig :=
  {| retention_days := 90; sweep_interval_seconds := 3600; jsonl_path := None;
     jsonl_max_bytes := 100 * 1024 * 1024; jsonl_keep_files := 14 |}.

Record AdminHttpsConfig := {
  https_enabled : bool;
  https_auth_mode : AuthMode;
  https_ca_bundle_path : option string
}.

(** The sections of [AppConfig] that start-up reads. *)
Record DaemonConfig := {
  admin_socket : option string;
  database : option string;
  operator_credentials_path : option string;
  dc_inbound_auth : option InboundAuth;
  listen_auth_mode : AuthMode;
  listen_mtls : option MtlsConfig;
  admin_https : option AdminHttpsConfig;
  dc_audit : option AuditConfig;
  dc_app : AppConfig
}.

Inductive DaemonError :=
| AdminConfig (t : string)
| DatabaseError (t : string)
| OperatorCreds (t : string)
| DaemonIo (t : string)
| ServerError (t : string).

(** ** The tables and what start-up makes of them *)

Record Tables := {
  t_agents : AgentDb;
  t_bootstrap : BootstrapTokenRepository;
  t_registrations : RegistrationRepository;
  t_audit : AuditRepository;
  t_sessions : OauthSessionRepository;
  t_creds : AgentCredentialRepository
}.

Definition with_reg_table (r : RegistrationRepository) (t : Tables) : Tables :=
  {| t_agents := t_agents t; t_bootstrap := t_bootstrap t; t_registrations := r;
     t_audit := t_audit t; t_sessions := t_sessions t; t_creds := t_creds t |}.

Record AdminSetup := {
  setup_uds : UdsState;
  setup_config : UdsConfig;
  setup_oauth : option OauthRuntime
}.

Section Daemon.
Context `{Base64Url} `{Base64Std} `{Argon2Crate} `{X509Crate} `{PemCrate} `{RegexCrate}.
Context (env : string -> option string) (fuel : nat).
Context (open_and_migrate : string -> result string Tables).
Context (create_parent : string -> result string unit).
Context (read_to_string : string -> result string string) (bind_agent : result string unit).
Context (seed_file : string -> option (option string)) (parse_yaml : string -> option SeedCatalog).
Context (parse_operators : string -> result string (list OperatorRecord)).
Context (io : AuditSink.Io) (base_of : string -> BasePath) (disk : Fs) (sink_text : AuditSink.IoError -> string).
Context (sealed_files : string -> result BackendError string) (decoy_salt : string).
Context (seed_text : SeedLoadError -> string) (registration_text : RegistrationError -> string).
Context (hash_text : HashError -> string) (key_text : SealingKeyError -> string).

Definition seed_path_from_env : option string :=
  match env "LOCKSMITH_SEED_PATH" with
  | Some s => if bool_decide (s = "") then None else Some s
  | None => Some "/etc/locksmith/seed/catalog.yaml"
  end.

Definition agent_decoy : string := "decoy-secret-for-constant-time-on-miss-do-not-use-in-production".

Definition operator_decoy : string := "decoy-operator-secret-for-constant-time-on-miss".

(** [OperatorAuthenticator::load_with_audit]. *)
Definition load_operators (path : string) : result AuthError (list OperatorRecord) :=
  let? text := map_err (fun e => Backend ("read operators file " +:+ path +:+ ": " +:+ e))
                 (read_to_string path) in
  let? records := map_err (fun e => Backend ("parse operators yaml: " +:+ e)) (parse_operators text) in
  let? _ := map_err (fun e => Backend (hash_text e)) (Argon2Helper.hash operator_decoy decoy_salt) in
  Ok records.

(** The sealing key decides whether OAuth is there at all. *)
Definition oauth_setup (regs : RegistrationRepository) (cat : Catalog)
    (sessions : OauthSessionRepository)
  : result DaemonError (option (OauthAdminState * OauthRuntime)) :=
  match sealing_key_from_env env with
  | Ok key =>
      Ok (Some ({| oa_registrations := regs; oa_sessions := sessions; oa_sealing_key := key;
                   oa_catalog := cat; oa_locks := ∅ |},
                {| rt_sessions := sessions; rt_sealing_key := key; rt_locks := ∅ |}))
  | Err EnvVarUnset => Ok None
  | Err e => Err (AdminConfig ("oauth sealing key: " +:+ key_text e))
  end.

(** The seed catalog, then the configured tools: what they leave in the
    table, also when they fail. *)
Definition load_registrations (cfg : DaemonConfig) (now : Z) (t : Tables)
  : result DaemonError unit * Tables :=
  let '(seeded, regs) :=
    match seed_path_from_env with
    | None => (Ok tt, t_registrations t)
    | Some p =>
        let '(r, db) := load_or_skip parse_yaml (seed_file p) now (t_registrations t) in
        (map_err (fun e => AdminConfig ("seed catalog load failed (path=" +:+ p +:+ "): "
                                        +:+ seed_text e)) r, db)
    end in
  match seeded with
  | Err e => (Err e, with_reg_table regs t)
  | Ok _ =>
      let '(r, regs) := bootstrap_from_config_tools (dc_app cfg) now regs in
      (match r with
       | Ok _ => Ok tt
       | Err e => Err (AdminConfig ("legacy config.tools bootstrap: " +:+ registration_text e))
       end, with_reg_table regs t)
  end.

(** The optional JSONL mirror, opened before anything is audited. *)
Definition audit_setup (cfg : DaemonConfig) (a : AuditRepository)
  : result DaemonError AuditRepository :=
  match (let* c := dc_audit cfg in (fun p => (c, p)) <$> jsonl_path c) with
  | None => Ok a
  | Some (c, p) =>
      match (new_sink io {| cfg_path := base_of p; max_bytes := jsonl_max_bytes c;
                            keep_files := jsonl_keep_files c |} disk).1 with
      | Ok _ => Ok {| rows := rows a; writable := writable a; sink := Some [] |}
      | Err e => Err (AdminConfig ("audit jsonl sink " +:+ p +:+ ": " +:+ sink_text e))
      end
  end.

Definition build_admin_substrate (cfg : DaemonConfig) (db_path ops_path : string)
    (resolved : ResolvedCreds) (now : Z) : result DaemonError AdminSetup :=
  let? _ := map_err DaemonIo (create_parent db_path) in
  let? t := map_err DatabaseError (open_and_migrate db_path) in
  let '(loaded, t) := load_registrations cfg now t in
  let? _ := loaded in
  let? audit := audit_setup cfg (t_audit t) in
  let? decoy := map_err (fun e => AdminConfig ("agent auth: " +:+ auth_message (Backend (hash_text e))))
                  (Argon2Helper.hash agent_decoy decoy_salt) in
  let? operators := map_err (fun e => OperatorCreds (auth_message e)) (load_operators ops_path) in
  let? cat := map_err (fun e => AdminConfig ("catalog load: " +:+ registration_text e))
                (from_repo (t_registrations t)) in
  let creds := startup_creds env cat resolved in
  let? oauth := oauth_setup (t_registrations t) cat (t_sessions t) in
  Ok {| setup_uds :=
          {| us_admin := {| sv_agents := t_agents t; sv_bootstrap := t_bootstrap t;
                            sv_config := dc_app cfg; sv_audit := Some audit;
                            sv_resolved_creds := Some creds |};
             us_verifies := 0;
             us_registrations := Some {| repo := t_registrations t; catalog := Some cat;
                                         resolved_creds := Some creds |};
             us_oauth := fst <$> oauth; us_agent_creds := Some (t_creds t) |};
        setup_config := {| uc_operators := operators; uc_agent_decoy := decoy;
                           uc_operator_mtls := None |};
        setup_oauth := snd <$> oauth |}.

(** ** [run] *)

(** What is served once start-up is through: the agent listener's state and
    middleware configuration, and the admin listeners with their router
    configuration. *)
Record Serving := {
  sv_app : AppState;
  sv_auth : AuthConfig;
  sv_setup : option AdminSetup;
  sv_https : option UdsConfig;
  sv_sweeps : bool
}.

Definition check_config (cfg : DaemonConfig) : result DaemonError unit :=
  if negb (isSome (admin_socket cfg)) then Ok tt
  else if negb (isSome (database cfg)) then
    Err (AdminConfig "listen.admin_socket is set but `database.path` is missing")
  else if negb (isSome (operator_credentials_path cfg)) then
    Err (AdminConfig "listen.admin_socket is set but `operator_credentials_path` is missing")
  else Ok tt.

(** The agent listener's certificate validator, in the mTLS modes. *)
Definition agent_mtls (cfg : DaemonConfig) : result DaemonError (option MtlsValidator) :=
  match listen_auth_mode cfg with
  | BearerMode => Ok None
  | _ =>
      let? mtls := ok_or (AdminConfig "auth_mode mtls/both requires `listen.mtls` config block")
                     (listen_mtls cfg) in
      let? v := map_err AdminConfig (daemon_validator read_to_string mtls) in
      let? path := ok_or (AdminConfig "auth_mode mtls/both requires `database.path`")
                     (database cfg) in
      let? _ := map_err DatabaseError (open_and_migrate path) in
      Ok (Some v)
  end.

(** The plain listener is bound here; of the mTLS one only the paths are
    checked, its task reads the certificates and binds. *)
Definition agent_listener (cfg : DaemonConfig) : result DaemonError unit :=
  match listen_auth_mode cfg, listen_mtls cfg with
  | BearerMode, _ => map_err DaemonIo bind_agent
  | _, None => Ok tt
  | _, Some mtls =>
      let? _ := ok_or (AdminConfig "auth_mode mtls/both requires `mtls.server_cert_path`")
                  (server_cert_path mtls) in
      let? _ := ok_or (AdminConfig "auth_mode mtls/both requires `mtls.server_key_path`")
                  (server_key_path mtls) in
      let? _ := map_err DaemonIo (read_to_string (ca_bundle_path mtls)) in
      Ok tt
  end.

Definition https_config (mode_text : AuthMode -> string) (cfg : DaemonConfig) (c : UdsConfig)
  : result DaemonError (option UdsConfig) :=
  match admin_https cfg with
  | None => Ok None
  | Some h =>
      if negb (https_enabled h) then Ok None
      else match https_auth_mode h with
           | BearerMode => Ok (Some c)
           | mode =>
               let? ca_path := ok_or (AdminConfig ("admin_https.auth_mode=" +:+ mode_text mode
                   +:+ " requires admin_https.mtls.ca_bundle_path")) (https_ca_bundle_path h) in
               let? ca_pem := map_err DaemonIo (read_to_string ca_path) in
               let? v := map_err (fun e => AdminConfig ("admin_https.mtls.ca_bundle_path: "
                                                        +:+ mtls_message e)) (validator_new ca_pem) in
               Ok (Some {| uc_operators := uc_operators c; uc_agent_decoy := uc_agent_decoy c;
                           uc_operator_mtls := Some (mode, v) |})
           end
  end.

(** The substrate, when an admin socket is configured. *)
Definition admin_setup (cfg : DaemonConfig) (resolved : ResolvedCreds) (now : Z)
  : result DaemonError (option AdminSetup) :=
  match admin_socket cfg, database cfg, operator_credentials_path cfg with
  | Some _, Some db, Some ops =>
      let? s := build_admin_substrate cfg db ops resolved now in Ok (Some s)
  | _, _, _ => Ok None
  end.

(** What the proxy gets: with the substrate its shared tables and caches,
    without it an empty catalog and no audit log. *)
Definition app_state (cfg : DaemonConfig) (resolved : ResolvedCreds) (setup : option AdminSetup)
  : AppState :=
  let base := {| st_config := dc_app cfg; st_catalog := ∅; st_creds := resolved;
                 st_response_controls := compile_response_controls (dc_app cfg);
                 st_agent_creds := None; st_oauth := None; st_audit := None |} in
  match setup with
  | None => base
  | Some s =>
      let u := setup_uds s in
      {| st_config := dc_app cfg; st_catalog := default ∅ (us_registrations u ≫= catalog);
         st_creds := default resolved (us_registrations u ≫= resolved_creds);
         st_response_controls := st_response_controls base;
         st_agent_creds := us_agent_creds u; st_oauth := setup_oauth s;
         st_audit := sv_audit (us_admin u) |}
  end.

(** [run] up to the listeners; the outer option is the fuel of the [${VAR}]
    expansion. *)
Definition start (mode_text : AuthMode -> string) (cfg : DaemonConfig) (now : Z)
  : option (result DaemonError Serving) :=
  match check_config cfg with
  | Err e => Some (Err e)
  | Ok _ =>
      (fun resolved =>
         let? setup := admin_setup cfg resolved now in
         let? mtls := agent_mtls cfg in
         let? _ := agent_listener cfg in
         let? https := match setup with
                       | Some s => https_config mode_text cfg (setup_config s)
                       | None => Ok None
                       end in
         Ok {| sv_app := app_state cfg resolved setup;
               sv_auth := {| auth_mode := listen_auth_mode cfg; mtls_authenticator := mtls;
                             agent_auth := uc_agent_decoy ∘ setup_config <$> setup;
                             inbound_auth := dc_inbound_auth cfg |};
               sv_setup := setup; sv_https := https; sv_sweeps := isSome setup |})
      <$> resolve_tool_creds fuel env {| file_sealed := Some sealed_files |} (dc_app cfg)
  end.

(** ** The state start-up hands over *)

(** The catalog answers as the table, and the OAuth handlers and the admin
    service look at the same table, catalog and credentials. *)
Definition wired (st : UdsState) : Prop :=
  exists r cat m, us_registrations st = Some r /\ coherent r /\ catalog r = Some cat /\
    resolved_creds r = Some m /\ sv_resolved_creds (us_admin st) = Some m /\
    forall o, us_oauth st = Some o -> oa_registrations o = repo r /\ oa_catalog o = cat.

Lemma bootstrap_loop_wf ts now counts db :
  reg_wf db -> reg_online db = true ->
  reg_wf (bootstrap_loop ts now counts db).2 /\
  reg_online (bootstrap_loop ts now counts db).2 = true.
Proof.
  revert counts db. induction ts as [|t ts IH]; intros [[ins ex] un] db W Hon; simpl; [done|].
  rewrite reg_get_entry by done. destruct (entry (tc_name t) db) eqn:Et; [by apply IH|].
  destruct (match tc_auth t with None => _ | Some _ => _ end) as [a|]; [|by apply IH].
  destruct (reg_online_writes db) as (_ & Hcr & _).
  destruct (reg_create (legacy_registration t a now) db) as [[u|e] db'] eqn:E; simpl.
  - replace db' with (reg_create (legacy_registration t a now) db).2 by (by rewrite E).
    apply IH; [auto with locksmith|by rewrite Hcr].
  - replace db' with (reg_create (legacy_registration t a now) db).2 by (by rewrite E).
    split; [auto with locksmith|by rewrite Hcr].
Qed.

Lemma load_registrations_wf cfg now t :
  reg_wf (t_registrations t) -> reg_online (t_registrations t) = true ->
  reg_wf (t_registrations (load_registrations cfg now t).2) /\
  reg_online (t_registrations (load_registrations cfg now t).2) = true.
Proof.
  intros W Hon. unfold load_registrations.
  assert (S : forall f, reg_wf (load_or_skip parse_yaml f now (t_registrations t)).2 /\
              reg_online (load_or_skip parse_yaml f now (t_registrations t)).2 = true).
  { intros [[c|]|]; simpl; try done. unfold apply_catalog.
    destruct (parse_yaml c) as [cc|]; [|done].
    destruct (apply_catalog_loads cc now (t_registrations t)) as (? & ? & _); done. }
  destruct seed_path_from_env as [p|].
  - specialize (S (seed_file p)).
    destruct (load_or_skip _ _ _ _) as [[u|e] db]; simpl in *; [|done].
    destruct S as [S1 S2]. destruct (bootstrap_loop_wf (tools (dc_app cfg)) now (0, 0, 0) db S1 S2).
    unfold bootstrap_from_config_tools. by destruct (bootstrap_loop _ _ _ _) as [[]].
  - destruct (bootstrap_loop_wf (tools (dc_app cfg)) now (0, 0, 0) _ W Hon).
    unfold bootstrap_from_config_tools. simpl. by destruct (bootstrap_loop _ _ _ _) as [[]].
Qed.

Hypothesis tables_ok : forall p t, open_and_migrate p = Ok t ->
  reg_wf (t_registrations t) /\ reg_online (t_registrations t) = true.

Lemma substrate_wired cfg db ops resolved now s :
  build_admin_substrate cfg db ops resolved now = Ok s -> wired (setup_uds s).
Proof.
  unfold build_admin_substrate. destruct (create_parent db); simpl; [|done].
  destruct (open_and_migrate db) as [t|] eqn:Et; simpl; [|done].
  destruct (tables_ok _ _ Et) as [W Hon].
  destruct (load_registrations_wf cfg now t W Hon) as [W' Hon'].
  destruct (load_registrations cfg now t) as [[[]|] t']; simpl in *; [|done].
  destruct (audit_setup cfg (t_audit t')); simpl; [|done].
  destruct (Argon2Helper.hash _ _); simpl; [|done].
  destruct (load_operators ops); simpl; [|done].
  destruct (from_repo (t_registrations t')) as [cat|] eqn:Ec; simpl; [|done].
  destruct (oauth_setup _ _ _) as [oa|] eqn:Eo; simpl; [|done]. intros [= <-]. simpl.
  eexists _, cat, _. split; [reflexivity|]. simpl. split; [|split_and!; [done..|]].
  - split; [done|]. split; [done|]. simpl. intros c [= <-] n.
    pose proof (from_repo_lookup _ _ n W' Ec) as G. rewrite reg_get_entry in G by done. congruence.
  - intros o Ho. unfold oauth_setup in Eo.
    destruct (sealing_key_from_env env) as [key|[]]; simplify_eq/=; done.
Qed.
End Daemon.

(** ** The admin API keeps it *)

Section Keeps.
Context `{Base64Url} `{Base64Std} `{Argon2Crate} `{HttpCrate} `{X509Crate}.
Context `{AesGcm} `{SerdeJson} `{Sha2Crate} `{Extractors}.
Context (env : string -> option string).
Context (post : string -> list (string * string) -> option (Z * option TokenResponse)).
Context (crate_text : RepoError -> string) (registration_text : RegistrationError -> string).
Context (session_text : OauthSessionError -> string) (refresh_text : RefreshError -> string).

(** What the admin service never writes. *)
Definition fixed (s : AdminService) := (sv_resolved_creds s, sv_config s).

Lemma register_inner_fixed c input s :
  fixed (register_agent_inner crate_text c input s).2 = fixed s.
Proof. unfold register_agent_inner. by repeat case_match. Qed.

Lemma admin_exec_fixed c o s : fixed (admin_exec crate_text c o s).2 = fixed s.
Proof.
  destruct o; cbn [admin_exec].
  - unfold register_agent. pose proof (register_inner_fixed c input s) as E.
    destruct (register_agent_inner crate_text c input s) as [[out|e] s']; simpl in *; [done|].
    by destruct (is_reuse _ _ _ _).
  - unfold rotate_agent. by destruct (rotate _ _ _ _).
  - unfold deregister_agent. by destruct (AgentRepo.revoke _ _ _).
  - unfold create_agent_as_operator. by destruct (create _ _ _ _ _ _ _ _ _) as [[[]|]].
  - unfold modify_agent. by destruct (update_policy _ _ _ _ _ _).
  - unfold set_agent_cert_identity. by destruct (set_cert_identity _ _ _).
  - unfold revoke_agent. by destruct (AgentRepo.revoke _ _ _).
  - unfold mint_bootstrap_token. by destruct (mint _ _ _ _ _) as [[[]|]].
  - unfold revoke_bootstrap_token. by destruct (bt_revoke _ _ _).
Qed.

Lemma wired_reg o st r :
  us_registrations st = Some r -> wired st -> wired (with_registrations (reg_exec env o r) st).
Proof.
  intros Hr (r' & cat & m & Hr' & Hco & Hc & Hm & Hs & Ho). rewrite Hr in Hr'. injection Hr' as <-.
  pose proof (reg_exec_coherent env o r Hco) as Hco'.
  destruct (reg_exec_cases env o r Hco) as [E|(db & E & W & Hon & _)].
  - rewrite E in *. exists r, cat, m. simpl. rewrite Hm. split_and!; [done..|].
    intros oa. destruct (us_oauth st) as [o0|]; [|done]. intros [= <-]. simpl. by rewrite Hc.
  - rewrite E in *. unfold refresh_runtime in *. simpl in *. rewrite Hc in *. simpl in *.
    destruct (from_repo_total _ W Hon) as [cat' Ec']. rewrite Ec' in *. rewrite Hm in *. simpl in *.
    eexists _, cat', _. simpl. split_and!; [done..|].
    intros oa. destruct (us_oauth st) as [o0|]; [|done]. intros [= <-]. done.
Qed.

Lemma wired_preserved : preserved env crate_text wired.
Proof.
  split.
  - intros c o st (r & cat & m & Hr & Hw). exists r, cat, m. split; [done|]. simpl.
    by injection (admin_exec_fixed c o (us_admin st)) as -> _.
  - by intros decoy t t_ms hd st (r & cat & m & Hr & Hw); exists r, cat, m.
  - by intros recs t_ms hd st (r & cat & m & Hr & Hw); exists r, cat, m.
  - by intros recs t_ms cert st (r & cat & m & Hr & Hw); exists r, cat, m.
  - by intros c st (r & cat & m & Hr & Hw); exists r, cat, m.
  - intros o r st. apply wired_reg.
  - intros o o' st E Er Ec (r & cat & m & Hr & Hco & Hc & Hm & Hs & Ho).
    exists r, cat, m. simpl. split_and!; [done..|]. intros oa [= <-]. rewrite Er, Ec. by apply Ho.
Qed.

End Keeps.

(** ** The retention sweeper *)

Definition ms_per_day : Z := 24 * 60 * 60 * 1000.

Definition sweep_cutoff (c : AuditConfig) (now_ms : Z) : Z := now_ms - retention_days c * ms_per_day.

Inductive Sweeper := Sweeping (a : AuditRepository) | SweeperExited (a : AuditRepository).

Definition sweeper_log (s : Sweeper) : AuditRepository :=
  match s with Sweeping a | SweeperExited a => a end.

(** A turn of the loop: [select!] takes either branch that is ready; the
    result of the DELETE is only logged. *)
Inductive sweeper_step (c : AuditConfig) (signalled : bool) : Sweeper -> Sweeper -> Prop :=
| SweepExit a : signalled = true -> sweeper_step c signalled (Sweeping a) (SweeperExited a)
| SweepTick a now_ms :
    sweeper_step c signalled (Sweeping a)
      (Sweeping (sweep_older_than (sweep_cutoff c now_ms) a).2).

(** What happens to the log: a request records an event, the sweeper ticks. *)
Inductive LogEvent := Recorded (e : AuditEvent) | Ticked (now_ms : Z).

Definition log_step (c : AuditConfig) (a : AuditRepository) (ev : LogEvent) : AuditRepository :=
  match ev with
  | Recorded e => (record e a).2
  | Ticked now_ms => (sweep_older_than (sweep_cutoff c now_ms) a).2
  end.

Definition log_run (c : AuditConfig) (evs : list LogEvent) (a : AuditRepository) : AuditRepository :=
  fold_left (log_step c) evs a.

(** No tick among [evs] finds the row older than the retention. *)
Definition outlives (c : AuditConfig) (r : AuditRow) (evs : list LogEvent) : Prop :=
  forall n, Ticked n ∈ evs -> n - row_ts r <= retention_days c * ms_per_day.

Lemma outlives_cons c r ev evs :
  outlives c r (ev :: evs) <->
  match ev with
  | Ticked n => n - row_ts r <= retention_days c * ms_per_day
  | Recorded _ => True
  end /\ outlives c r evs.
Proof.
  unfold outlives. split.
  - intros Ho. split; [destruct ev; [done|apply Ho; left]|]. intros n Hn. apply Ho. by right.
  - intros [H1 H2] n [<-|Hn]%elem_of_cons; [done|by apply H2].
Qed.

Lemma log_step_writable c ev a : writable a = true -> writable (log_step c a ev) = true.
Proof. intros W. destruct ev; simpl; unfold record, sweep_older_than; by rewrite W. Qed.

(** C32: A record is in the log exactly when it was there or has been recorded,
    and no later tick of the sweeper found it older than the configured
    retention: nothing is deleted early, and nothing expired is kept. *)
Theorem retention_exact c evs a r :
  writable a = true ->
  r ∈ rows (log_run c evs a) <->
  (r ∈ rows a /\ outlives c r evs) \/
  exists before e after, evs = before ++ Recorded e :: after /\ r = row_of e /\ outlives c r after.
Proof.
  revert a. induction evs as [|ev evs IH]; intros a W; simpl.
  { split; [|by intros [[? _]|([] & ? & ? & [=] & _)]]. intros Hr. left. split; [done|].
    intros n Hn. by apply not_elem_of_nil in Hn. }
  change (fold_left (log_step c) evs) with (log_run c evs).
  rewrite IH by (by apply log_step_writable). rewrite outlives_cons.
  assert (S : r ∈ rows (log_step c a ev) <->
    match ev with
    | Recorded e => r ∈ rows a \/ r = row_of e
    | Ticked n => r ∈ rows a /\ n - row_ts r <= retention_days c * ms_per_day
    end).
  { destruct ev; simpl; unfold record, sweep_older_than, sweep_cutoff; rewrite W; simpl.
    - by rewrite elem_of_app, list_elem_of_singleton.
    - unfold sql_delete. rewrite !list_elem_of_In, filter_In, negb_true_iff, Z.ltb_ge.
      split; intros [? ?]; (split; [done|lia]). }
  rewrite S. split.
  - intros [[H1 H2]|(b & e & af & -> & H2)].
    + destruct ev as [e|n]; [|by left; destruct_and?; auto].
      destruct H1 as [H1|H1]; [by left|]. right. by exists [], e, evs.
    + right. by exists (ev :: b), e, af.
  - intros [(H1 & H2 & H3)|([|ev' b] & e & af & [= -> ->] & -> & H2)].
    + left. split; [|done]. destruct ev; auto.
    + left. auto.
    + right. by exists b, e, af.
Qed.

(** The deadline arithmetic stays in [i64] for every [u32] retention. *)
Lemma sweep_cutoff_i64 c now_ms :
  0 <= retention_days c < 2^32 -> 0 <= now_ms < 2^63 -> - 2^63 <= sweep_cutoff c now_ms < 2^63.
Proof. unfold sweep_cutoff, ms_per_day. lia. Qed.

(** ** The end of [run] *)

(** What joining a listener task gives. *)
Inductive Joined := Returned (r : result string unit) | JoinFailed.

Definition listener_error (label : string) (j : option Joined) : option DaemonError :=
  match j with
  | Some (Returned (Err e)) => Some (ServerError (label +:+ ": " +:+ e))
  | _ => None
  end.

(** The agent, UDS and HTTPS listeners, once drained. *)
Definition joined_result (agent uds https : option Joined) : result DaemonError unit :=
  match listener_error "agent listener" agent with
  | Some e => Err e
  | None =>
      match listener_error "admin listener" uds with
      | Some e => Err e
      | None =>
          match listener_error "admin HTTPS listener" https with
          | Some e => Err e
          | None => Ok tt
          end
      end
  end.

(** [run] after start-up: [finish t] is when all tasks are joined if they are
    waited for from [t]; [None]: [run] has not returned. *)
Definition run_end (c : ShutdownCoordinator) (signal : option Z) (finish : Z -> option Z)
    (agent uds https : option Joined) : option (result DaemonError unit) :=
  (fun d => match d with
            | Drained _ => joined_result agent uds https
            | DrainTimeout _ => Ok tt
            end) <$> await_shutdown_then_drain c signal finish.

(** A listener that could not load its certificate, bind or serve ends [run]
    with an error only after the shutdown signal, and only if everything
    else drains in time: until then [run] does not return, whatever the
    listeners returned. *)
Lemma listener_failure_late c signal finish agent uds https :
  (signal = None -> run_end c signal finish agent uds https = None) /\
  (forall e, run_end c signal finish agent uds https = Some (Err e) ->
     exists t0 d, signal = Some t0 /\ finish t0 = Some d /\ d <= t0 + drain_window c /\
       joined_result agent uds https = Err e).
Proof.
  split; [by intros ->|]. intros e. unfold run_end, await_shutdown_then_drain, drain_or_timeout.
  destruct signal as [t0|]; simpl; [|done]. destruct (finish t0) as [d|] eqn:E; [|done].
  destruct (Z.leb_spec d (t0 + drain_window c)); [|done]. intros [= X]. by exists t0, d.
Qed.

(** The sweeper's [select!] may take the tick after the signal, so a DELETE
    can start after shutdown was signalled. *)
Lemma sweep_after_signal :
  exists c a a', sweeper_step c true (Sweeping a) (Sweeping a') /\
    List.length (rows a') <> List.length (rows a).
Proof.
  set (e := admin_event 0 OperatorClass "agent_revoke" None Allowed None).
  exists default_audit_config, {| rows := [row_of e]; writable := true; sink := None |}, 
    {| rows := []; writable := true; sink := None |}.
  split; [|done].
  exact (SweepTick default_audit_config true {| rows := [row_of e]; writable := true; sink := None |}
           (91 * ms_per_day)).
Qed.

(** ** What start-up guarantees *)

Section Started.
Context `{Base64Url} `{Base64Std} `{Argon2Crate} `{X509Crate} `{PemCrate} `{RegexCrate}.
Context `{HttpCrate} `{AesGcm} `{SerdeJson} `{Sha2Crate} `{Extractors}.
Context (env : string -> option string) (fuel : nat).
Context (open_and_migrate : string -> result string Tables).
Context (create_parent : string -> result string unit).
Context (read_to_string : string -> result string string) (bind_agent : result string unit).
Context (seed_file : string -> option (option string)) (parse_yaml : string -> option SeedCatalog).
Context (parse_operators : string -> result string (list OperatorRecord)).
Context (io : AuditSink.Io) (base_of : string -> BasePath) (disk : Fs) (sink_text : AuditSink.IoError -> string).
Context (sealed_files : string -> result BackendError string) (decoy_salt : string).
Context (seed_text : SeedLoadError -> string) (registration_text : RegistrationError -> string).
Context (hash_text : HashError -> string) (key_text : SealingKeyError -> string).
Context (mode_text : AuthMode -> string).
Context (post : string -> list (string * string) -> option (Z * option TokenResponse)).
Context (crate_text : RepoError -> string) (session_text : OauthSessionError -> string).
Context (refresh_text : RefreshError -> string).

Abbreviation started := (start env fuel open_and_migrate create_parent read_to_string bind_agent
  seed_file parse_yaml parse_operators io base_of disk sink_text sealed_files decoy_salt seed_text
  registration_text hash_text key_text mode_text).

Lemma start_inv cfg t sv :
  started cfg t = Some (Ok sv) ->
  check_config cfg = Ok tt /\
  exists resolved, admin_setup env open_and_migrate create_parent read_to_string seed_file
      parse_yaml parse_operators io base_of disk sink_text decoy_salt seed_text registration_text hash_text key_text
      cfg resolved t = Ok (sv_setup sv) /\
    agent_mtls open_and_migrate read_to_string cfg = Ok (mtls_authenticator (sv_auth sv)) /\
    match sv_setup sv with
    | Some s => https_config read_to_string mode_text cfg (setup_config s)
    | None => Ok None
    end = Ok (sv_https sv) /\
    sv_app sv = app_state cfg resolved (sv_setup sv) /\
    sv_auth sv = {| auth_mode := listen_auth_mode cfg;
                    mtls_authenticator := mtls_authenticator (sv_auth sv);
                    agent_auth := uc_agent_decoy ∘ setup_config <$> sv_setup sv;
                    inbound_auth := dc_inbound_auth cfg |} /\
    sv_sweeps sv = isSome (sv_setup sv).
Proof.
  unfold start. destruct (check_config cfg) as [[]|]; [|done]. simpl.
  destruct (resolve_tool_creds _ _ _ _) as [resolved|]; simpl; [|done]. intros [= E].
  split; [done|]. exists resolved.
  destruct (admin_setup _ _ _ _ _ _ _ _ _ _ _ _ _ _ _ _ _ _ _) as [setup|] eqn:Es; simpl in E; [|done].
  destruct (agent_mtls _ _ _) as [m|] eqn:Em; simpl in E; [|done].
  destruct (agent_listener _ _ _); simpl in E; [|done].
  destruct (match setup with Some _ => _ | None => _ end) as [h|] eqn:Eh; simpl in E; [|done].
  injection E as <-. simpl. split_and!; try done.
Qed.

Lemma substrate_audited cfg db ops resolved t s :
  build_admin_substrate env open_and_migrate create_parent read_to_string seed_file parse_yaml
    parse_operators io base_of disk sink_text decoy_salt seed_text registration_text hash_text key_text cfg db ops resolved t = Ok s ->
  is_Some (sv_audit (us_admin (setup_uds s))).
Proof.
  unfold build_admin_substrate.
  repeat match goal with
    | |- context [let '(_, _) := ?x in _] => destruct x
    | |- (let? _ := ?x in _) = _ -> _ => destruct x; simpl; [|done]
    end.
  intros [= <-]. by eexists.
Qed.

Lemma admin_setup_iff cfg resolved t setup :
  check_config cfg = Ok tt ->
  admin_setup env open_and_migrate create_parent read_to_string seed_file parse_yaml parse_operators io base_of disk sink_text
    decoy_salt seed_text registration_text hash_text key_text cfg resolved t = Ok setup ->
  (is_Some (admin_socket cfg) <-> is_Some setup) /\
  (forall s, setup = Some s -> is_Some (sv_audit (us_admin (setup_uds s)))).
Proof.
  unfold check_config, admin_setup.
  destruct (admin_socket cfg) as [p|], (database cfg), (operator_credentials_path cfg);
    simpl; try done; intros _;
    try (intros [= <-]; split; [split; by intros [? [=]]|by intros ? [=]]).
  destruct (build_admin_substrate _ _ _ _ _ _ _ _ _ _ _ _ _ _ _ _ _ _ _ _ _) as [sub|] eqn:E; simpl; [|done].
  intros [= <-]. split; [split; by eexists|]. intros ? [= <-]. by eapply substrate_audited.
Qed.

Lemma agent_mtls_iff cfg m :
  agent_mtls open_and_migrate read_to_string cfg = Ok m ->
  listen_auth_mode cfg <> BearerMode <-> is_Some m.
Proof.
  unfold agent_mtls. destruct (listen_auth_mode cfg).
  1: intros [= <-]; split; [done|by intros []].
  all: destruct (listen_mtls cfg); simpl; [|done]; destruct (daemon_validator _ _); simpl; [|done];
    destruct (database cfg) as [d|]; simpl; [|done]; destruct (open_and_migrate d); simpl; [|done];
    intros [= <-]; split; [by eexists|done].
Qed.

Lemma https_config_inv cfg c c' :
  https_config read_to_string mode_text cfg c = Ok (Some c') ->
  exists h, admin_https cfg = Some h /\ https_enabled h = true /\
    (https_auth_mode h <> BearerMode -> exists v, uc_operator_mtls c' = Some (https_auth_mode h, v)).
Proof.
  unfold https_config. destruct (admin_https cfg) as [h|]; [|done].
  destruct (https_enabled h) eqn:E; simpl; [|done]. intros X. exists h. split; [done|]. split; [done|].
  destruct (https_auth_mode h); [done|..]; intros _; revert X;
    destruct (https_ca_bundle_path h) as [p|]; simpl; try done; destruct (read_to_string p); simpl;
    try done; destruct (validator_new _) as [v|]; simpl; try done; intros [= <-]; by exists v.
Qed.

(** A daemon that starts is the one its configuration asks for: with an
    admin socket the agent listener authenticates agents against the
    database, requests are audited and the retention sweep runs; in the mTLS
    modes a certificate validator is there; and an HTTPS listener runs only
    when enabled, with a validator for operators in its mTLS modes. *)
Theorem start_guards cfg t sv :
  started cfg t = Some (Ok sv) ->
  auth_mode (sv_auth sv) = listen_auth_mode cfg /\
  (is_Some (admin_socket cfg) <-> is_Some (sv_setup sv)) /\
  (is_Some (admin_socket cfg) <-> is_Some (agent_auth (sv_auth sv))) /\
  (is_Some (admin_socket cfg) <-> is_Some (st_audit (sv_app sv))) /\
  (is_Some (admin_socket cfg) <-> sv_sweeps sv = true) /\
  (listen_auth_mode cfg <> BearerMode <-> is_Some (mtls_authenticator (sv_auth sv))) /\
  (forall c, sv_https sv = Some c ->
     is_Some (admin_socket cfg) /\
     exists h, admin_https cfg = Some h /\ https_enabled h = true /\
       (https_auth_mode h <> BearerMode ->
        exists v, uc_operator_mtls c = Some (https_auth_mode h, v))).
Proof.
  intros (Hc & resolved & Es & Em & Eh & Ea & Eau & Esw)%start_inv.
  destruct (admin_setup_iff _ _ _ _ Hc Es) as [I A]. rewrite Ea, Esw, I.
  split; [by rewrite Eau|]. split; [done|]. split; [|split; [|split; [|split]]].
  - rewrite Eau. simpl. by rewrite fmap_is_Some.
  - destruct (sv_setup sv) as [s|]; simpl; [|done]. specialize (A s eq_refl). split; [done|by eexists].
  - destruct (sv_setup sv); simpl; split; try done; by intros [].
  - by apply agent_mtls_iff.
  - intros c Hs. rewrite Hs in Eh. destruct (sv_setup sv) as [s|] eqn:E; [|done].
    split; [apply I; by eexists|]. by eapply https_config_inv.
Qed.

End Started.

Module StartupWitness.
Import Base64Model Argon2Model HttpModel AgentWitness AuthWitness OauthWitness ControlsWitness.
Import RevocationWitness AdminHttpWitness.

Definition tables : Tables :=
  {| t_agents := dev_db; t_bootstrap := {| tokens := []; bt_next_id := 1; bt_online := true |};
     t_registrations := repo RegWitness.st1;
     t_audit := {| rows := []; writable := true; sink := None |};
     t_sessions := {| sessions := []; sess_online := true |};
     t_creds := {| overrides := []; creds_online := true |} |}.

Definition open_db (p : string) : result string Tables := Ok tables.
Definition any_file (p : string) : result string string := Ok "CA".
Definition key_env (v : string) : option string :=
  if bool_decide (v = SEALING_KEY_ENV) then Some "0123456789abcdef0123456789abcdef" else None.

Definition daemon_cfg (mode : AuthMode) : DaemonConfig :=
  {| admin_socket := Some "/run/locksmith/admin.sock"; database := Some "db.sqlite";
     operator_credentials_path := Some "operators.yaml"; dc_inbound_auth := None;
     listen_auth_mode := mode; 
     listen_mtls := Some {| ca_bundle_path := "ca.pem"; server_cert_path := Some "cert.pem";
       server_key_path := Some "key.pem"; crl_url := None; crl_refresh_interval_seconds := 3600;
       blocklist_path := None; blocklist_reload_interval_seconds := 30 |};
     admin_https := Some {| https_enabled := true; https_auth_mode := MtlsMode;
                            https_ca_bundle_path := Some "ops.pem" |};
     dc_audit := Some default_audit_config; dc_app := {| tools := [] |} |}.

Definition boot (mode : AuthMode) : option (result DaemonError Serving) :=
  start key_env 10 open_db (fun _ => Ok tt) any_file (Ok tt) (fun _ => None) (fun _ => None)
    (fun _ => Ok operators) SinkWitness.os (fun _ => SinkWitness.base) SinkWitness.disk (fun _ => "") (fun p => Err (Missing p)) "salt"
    (fun _ => "") (fun _ => "") (fun _ => "") (fun _ => "") (fun _ => "") (daemon_cfg mode) 10.

Definition serving (mode : AuthMode) : Serving :=
  match boot mode with
  | Some (Ok sv) => sv
  | _ => {| sv_app := app_state (daemon_cfg mode) ∅ None;
            sv_auth := {| auth_mode := mode; mtls_authenticator := None; agent_auth := None;
                          inbound_auth := None |};
            sv_setup := None; sv_https := None; sv_sweeps := false |}
  end.

Example boots : boot BothMode = Some (Ok (serving BothMode)).
Proof. vm_compute. reflexivity. Qed.

Example oauth_wired : (us_oauth ∘ setup_uds <$> sv_setup (serving BothMode)) ≫= id <> None.
Proof. vm_compute. discriminate. Qed.

Lemma start_guards_witness :
  auth_mode (sv_auth (serving BothMode)) = BothMode /\
  is_Some (mtls_authenticator (sv_auth (serving BothMode))) /\
  sv_sweeps (serving BothMode) = true.
Proof.
  pose proof boots as B. unfold boot in B.
  destruct (start_guards key_env 10 open_db (fun _ => Ok tt) any_file (Ok tt) (fun _ => None)
    (fun _ => None) (fun _ => Ok operators) SinkWitness.os (fun _ => SinkWitness.base) SinkWitness.disk (fun _ => "") (fun p => Err (Missing p)) "salt"
    (fun _ => "") (fun _ => "") (fun _ => "") (fun _ => "") (fun _ => "") (daemon_cfg BothMode) 10
    (serving BothMode) B) as (Hm & _ & _ & _ & Hs & Hv & _).
  split; [exact Hm|]. split; [apply Hv; discriminate|]. apply Hs. by eexists.
Defined.

Definition setup0 : AdminSetup :=
  match sv_setup (serving BothMode) with
  | Some s => s
  | None => {| setup_uds := ust0; setup_config := ucfg; setup_oauth := None |}
  end.

Definition old_event : AuditEvent := admin_event 0 OperatorClass "agent_revoke" None Allowed None.
Definition log0 : AuditRepository := {| rows := [row_of old_event]; writable := true; sink := None |}.

Lemma retention_exact_witness :
  row_of old_event ∈ rows (log_run default_audit_config [Ticked (91 * ms_per_day)] log0) <->
  (row_of old_event ∈ rows log0 /\
   outlives default_audit_config (row_of old_event) [Ticked (91 * ms_per_day)]) \/
  exists before e after, [Ticked (91 * ms_per_day)] = before ++ Recorded e :: after /\
    row_of old_event = row_of e /\ outlives default_audit_config (row_of old_event) after.
Proof. apply retention_exact. reflexivity. Defined.

End StartupWitness.
