(* ===== verification/ConfigFile.v ===== *)
(** * The configuration file ([src/config.rs], [src/secret/mod.rs])

    The typed half of loading: every [#[derive(Deserialize)]] struct of the
    configuration with its defaults and [deny_unknown_fields], the hand-written
    visitor of [SecretRef], and [load_config] from the file to the settings
    that start-up, the proxy's clients and the Kamiwaza bridge work from.
    [serde_yaml::Value]'s deserializer (which values it accepts as a string, a
    number, a struct, ...) is the class [YamlValue]; what the derive macro does
    with what it is handed is written out. *)

From S2P Require Import Prelude Json Http Token AgentRepo AuditLog Auth.
From S2P Require Import ResponseControls Secret Config Deprecation ClientPool.
From S2P Require Import SeedLoader Revocation Shutdown Kamiwaza Startup.

(** ** [serde] *)

(** How a value presents itself to the visitor of a struct, and to
    [deserialize_any]. *)
Inductive StructVisit :=
| VisitEntries (m : list (Yaml * Yaml))
| VisitElements (l : list Yaml).

Inductive AnyVisit :=
| VisitStr (s : string)
| VisitMap (m : list (Yaml * Yaml))
| VisitOther.

Class YamlValue : Type := {
  de_str : Yaml -> option string;
  de_bool : Yaml -> option bool;
  de_unsigned : Z -> Yaml -> option Z;
  de_seq : Yaml -> option (list Yaml);
  de_struct : Yaml -> option StructVisit;
  de_variant : Yaml -> option string;
  de_is_none : Yaml -> bool;
  de_any : Yaml -> AnyVisit
}.

(** The documented behaviour the theorems use: values of the right shape are
    handed over as they are, numbers fit the type asked for. *)
Class YamlValueLaws `{YamlValue} : Prop := {
  de_str_string : forall s, de_str (YString s) = Some s;
  de_seq_sequence : forall l, de_seq (YSequence l) = Some l;
  de_struct_mapping : forall m, de_struct (YMapping m) = Some (VisitEntries m);
  de_any_string : forall s, de_any (YString s) = VisitStr s;
  de_any_mapping : forall m, de_any (YMapping m) = VisitMap m;
  de_variant_string : forall s, de_variant (YString s) = Some s;
  de_null : de_is_none YNull = true;
  de_string_some : forall s, de_is_none (YString s) = false;
  de_unsigned_range : forall hi y n, de_unsigned hi y = Some n -> 0 <= n <= hi
}.

Definition u16_max : Z := 65535.
Definition u32_max : Z := 4294967295.
Definition u64_max : Z := 18446744073709551615.

Section Serde.
Context `{YamlValue}.

(** A struct being read: its fields by name, and whether they came as a
    sequence, by position. *)
Record Fields := { field : string -> option Yaml; positional : bool }.

Definition key_is (f : string) (kv : Yaml * Yaml) : bool := bool_decide (de_str kv.1 = Some f).

(** [deny_unknown_fields]; a repeated field is an error too. *)
Definition keys_ok (known : list string) (m : list (Yaml * Yaml)) : bool :=
  forallb (fun kv => match de_str kv.1 with Some k => bool_decide (k ∈ known) | None => false end) m
  && forallb (fun f => (List.length (List.filter (key_is f) m) <=? 1)%nat) known.

Fixpoint nth_field (known : list string) (l : list Yaml) (f : string) : option Yaml :=
  match known, l with
  | k :: known', y :: l' => if bool_decide (k = f) then Some y else nth_field known' l' f
  | _, _ => None
  end.

Definition open_struct (known : list string) (y : Yaml) : option Fields :=
  match de_struct y with
  | Some (VisitEntries m) =>
      if keys_ok known m
      then Some {| field := fun f => snd <$> find_first (key_is f) m; positional := false |}
      else None
  | Some (VisitElements l) =>
      if (List.length l <=? List.length known)%nat
      then Some {| field := nth_field known l; positional := true |}
      else None
  | None => None
  end.

(** A field that must be there; one with [#[serde(default)]]; an [Option]
    without the attribute, which a map may leave out. *)
Definition required {A} (fs : Fields) (f : string) (de : Yaml -> option A) : option A :=
  let* y := field fs f in de y.

Definition defaulted {A} (fs : Fields) (f : string) (d : A) (de : Yaml -> option A) : option A :=
  match field fs f with Some y => de y | None => Some d end.

Definition de_option {A} (de : Yaml -> option A) (y : Yaml) : option (option A) :=
  if de_is_none y then Some None else Some <$> de y.

Definition optional {A} (fs : Fields) (f : string) (de : Yaml -> option A) : option (option A) :=
  match field fs f with
  | Some y => de_option de y
  | None => if positional fs then None else Some None
  end.

Fixpoint all_some {A} (l : list (option A)) : option (list A) :=
  match l with
  | [] => Some []
  | o :: l' => let* a := o in let* r := all_some l' in Some (a :: r)
  end.

Definition de_list {A} (de : Yaml -> option A) (y : Yaml) : option (list A) :=
  let* l := de_seq y in all_some (map de l).

(** ** [SecretRef] *)

Definition FromEnvForm (y : Yaml) : option SecretRef :=
  let* fs := open_struct ["var"; "prefix"] y in
  let* var := required fs "var" de_str in
  let* prefix := defaulted fs "prefix" None (de_option de_str) in
  Some (FromEnv var prefix).

Definition FromFileSealedForm (y : Yaml) : option SecretRef :=
  let* fs := open_struct ["path"] y in
  let* path := required fs "path" de_str in
  Some (FromFileSealed path).

Definition FromVaultForm (y : Yaml) : option SecretRef :=
  let* fs := open_struct ["mount"; "path"; "field"] y in
  let* mount := required fs "mount" de_str in
  let* path := required fs "path" de_str in
  let* fld := required fs "field" de_str in
  Some (FromVault mount path fld).

Definition FromAwsForm (y : Yaml) : option SecretRef :=
  let* fs := open_struct ["secret_id"; "version_stage"; "field"] y in
  let* secret_id := required fs "secret_id" de_str in
  let* version_stage := defaulted fs "version_stage" None (de_option de_str) in
  let* fld := defaulted fs "field" None (de_option de_str) in
  Some (FromAwsSecretsManager secret_id version_stage fld).

(** Why the visitor refuses. *)
Inductive SecretRefError :=
| InvalidType
| EmptyMap
| BadKey
| BadForm
| UnknownTag (tag : string)
| ExtraKey (key : string).

Definition secret_ref_form (tag : string) : result SecretRefError (Yaml -> option SecretRef) :=
  if bool_decide (tag = "from_env") then Ok FromEnvForm
  else if bool_decide (tag = "from_file_sealed") then Ok FromFileSealedForm
  else if bool_decide (tag = "from_vault") then Ok FromVaultForm
  else if bool_decide (tag = "from_aws_secrets_manager") then Ok FromAwsForm
  else Err (UnknownTag tag).

Definition visit_map (m : list (Yaml * Yaml)) : result SecretRefError SecretRef :=
  match m with
  | [] => Err EmptyMap
  | (k, v) :: rest =>
      let? key := ok_or BadKey (de_str k) in
      let? form := secret_ref_form key in
      let? value := ok_or BadForm (form v) in
      match rest with
      | [] => Ok value
      | (k', _) :: _ => let? extra := ok_or BadKey (de_str k') in Err (ExtraKey extra)
      end
  end.

Definition deserialize_secret_ref (y : Yaml) : result SecretRefError SecretRef :=
  match de_any y with
  | VisitStr s => Ok (LegacyString s)
  | VisitMap m => visit_map m
  | VisitOther => Err InvalidType
  end.

Definition de_secret_ref (y : Yaml) : option SecretRef :=
  match deserialize_secret_ref y with Ok r => Some r | Err _ => None end.

End Serde.

(** [impl Display for SecretRef], as it appears in the log. *)
Definition display_secret_ref (r : SecretRef) : string :=
  match r with
  | Inline _ => "<inline>"
  | LegacyString _ => "<legacy_string>"
  | FromEnv var _ => "from_env(" +:+ var +:+ ")"
  | FromFileSealed path => "from_file_sealed(" +:+ path +:+ ")"
  | FromVault mount path fld => "from_vault(" +:+ mount +:+ "/" +:+ path +:+ "#" +:+ fld +:+ ")"
  | FromAwsSecretsManager secret_id _ _ => "from_aws_secrets_manager(" +:+ secret_id +:+ ")"
  end.

(** ** The sections ([config.rs]) *)

Record ShutdownConfig := { drain_window_seconds : Z }.

(** [DEFAULT_DRAIN_WINDOW_SECS]. *)
Definition default_drain_window : Z := 30.
Definition default_shutdown : ShutdownConfig := {| drain_window_seconds := default_drain_window |}.

Record BootstrapOnlyConfig := {
  bo_enabled : bool;
  bo_host : string;
  bo_port : Z;
  bo_cert_path : string;
  bo_key_path : string
}.

Record HttpsConfig := {
  hc_enabled : bool;
  hc_host : string;
  hc_port : Z;
  hc_cert_path : string;
  hc_key_path : string;
  hc_auth_mode : AuthMode;
  hc_mtls : option string
}.

Record ListenConfig := {
  lc_host : string;
  lc_port : Z;
  lc_admin_socket : option string;
  lc_admin_https : option HttpsConfig;
  lc_auth_mode : AuthMode;
  lc_mtls : option MtlsConfig;
  lc_bootstrap_only : option BootstrapOnlyConfig
}.

Record LoggingConfig := { log_level : string; log_file : option string }.

Record ConfigFile := {
  cf_listen : ListenConfig;
  cf_inbound_auth : option InboundAuth;
  cf_egress_proxy : option string;
  cf_kamiwaza : option KamiwazaConfig;
  cf_tls : option (option string);
  cf_logging : option LoggingConfig;
  cf_shutdown : ShutdownConfig;
  cf_tools : list ToolConfig;
  cf_operator_credentials_path : option string;
  cf_database : option string;
  cf_audit : option AuditConfig
}.

Section Sections.
Context `{YamlValue}.

Definition de_AuthMode (y : Yaml) : option AuthMode :=
  let* v := de_variant y in
  if bool_decide (v = "bearer") then Some BearerMode
  else if bool_decide (v = "mtls") then Some MtlsMode
  else if bool_decide (v = "both") then Some BothMode
  else None.

Definition de_EgressMode (y : Yaml) : option EgressMode :=
  let* v := de_variant y in
  if bool_decide (v = "direct") then Some Direct
  else if bool_decide (v = "proxied") then Some Proxied
  else None.

Definition de_DatabaseConfig (y : Yaml) : option string :=
  let* fs := open_struct ["path"] y in required fs "path" de_str.

Definition de_TlsConfig (y : Yaml) : option (option string) :=
  let* fs := open_struct ["upstream_ca_bundle"] y in optional fs "upstream_ca_bundle" de_str.

Definition audit_fields : list string :=
  ["retention_days"; "sweep_interval_seconds"; "jsonl_path"; "jsonl_max_bytes"; "jsonl_keep_files"].

Definition de_AuditConfig (y : Yaml) : option AuditConfig :=
  let* fs := open_struct audit_fields y in
  let* days := defaulted fs "retention_days" 90 (de_unsigned u32_max) in
  let* sweep := defaulted fs "sweep_interval_seconds" 3600 (de_unsigned u64_max) in
  let* path := defaulted fs "jsonl_path" None (de_option de_str) in
  let* bytes := defaulted fs "jsonl_max_bytes" (100 * 1024 * 1024) (de_unsigned u64_max) in
  let* keep := defaulted fs "jsonl_keep_files" 14 (de_unsigned u64_max) in
  Some {| retention_days := days; sweep_interval_seconds := sweep; jsonl_path := path;
          jsonl_max_bytes := bytes; jsonl_keep_files := Z.to_nat keep |}.

Definition de_ShutdownConfig (y : Yaml) : option ShutdownConfig :=
  let* fs := open_struct ["drain_window_seconds"] y in
  let* w := defaulted fs "drain_window_seconds" default_drain_window (de_unsigned u64_max) in
  Some {| drain_window_seconds := w |}.

Definition bootstrap_only_fields : list string :=
  ["enabled"; "host"; "port"; "cert_path"; "key_path"].

Definition de_BootstrapOnlyConfig (y : Yaml) : option BootstrapOnlyConfig :=
  let* fs := open_struct bootstrap_only_fields y in
  let* enabled := defaulted fs "enabled" false de_bool in
  let* host := defaulted fs "host" "127.0.0.1" de_str in
  let* port := defaulted fs "port" 9202 (de_unsigned u16_max) in
  let* cert := required fs "cert_path" de_str in
  let* key := required fs "key_path" de_str in
  Some {| bo_enabled := enabled; bo_host := host; bo_port := port; bo_cert_path := cert;
          bo_key_path := key |}.

Definition mtls_fields : list string :=
  ["ca_bundle_path"; "server_cert_path"; "server_key_path"; "crl_url";
   "crl_refresh_interval_seconds"; "blocklist_path"; "blocklist_reload_interval_seconds"].

Definition de_MtlsConfig (y : Yaml) : option MtlsConfig :=
  let* fs := open_struct mtls_fields y in
  let* ca := required fs "ca_bundle_path" de_str in
  let* cert := defaulted fs "server_cert_path" None (de_option de_str) in
  let* key := defaulted fs "server_key_path" None (de_option de_str) in
  let* url := defaulted fs "crl_url" None (de_option de_str) in
  let* crl_every := defaulted fs "crl_refresh_interval_seconds" 3600 (de_unsigned u64_max) in
  let* block := defaulted fs "blocklist_path" None (de_option de_str) in
  let* block_every := defaulted fs "blocklist_reload_interval_seconds" 30 (de_unsigned u64_max) in
  Some {| ca_bundle_path := ca; server_cert_path := cert; server_key_path := key; crl_url := url;
          crl_refresh_interval_seconds := crl_every; blocklist_path := block;
          blocklist_reload_interval_seconds := block_every |}.

Definition de_AdminSocketConfig (y : Yaml) : option string :=
  let* fs := open_struct ["path"] y in required fs "path" de_str.

Definition de_AdminHttpsMtlsConfig (y : Yaml) : option string :=
  let* fs := open_struct ["ca_bundle_path"] y in required fs "ca_bundle_path" de_str.

Definition admin_https_fields : list string :=
  ["enabled"; "host"; "port"; "cert_path"; "key_path"; "auth_mode"; "mtls"].

Definition de_AdminHttpsConfig (y : Yaml) : option HttpsConfig :=
  let* fs := open_struct admin_https_fields y in
  let* enabled := defaulted fs "enabled" false de_bool in
  let* host := defaulted fs "host" "127.0.0.1" de_str in
  let* port := defaulted fs "port" 9201 (de_unsigned u16_max) in
  let* cert := required fs "cert_path" de_str in
  let* key := required fs "key_path" de_str in
  let* mode := defaulted fs "auth_mode" BearerMode de_AuthMode in
  let* mtls := optional fs "mtls" de_AdminHttpsMtlsConfig in
  Some {| hc_enabled := enabled; hc_host := host; hc_port := port; hc_cert_path := cert;
          hc_key_path := key; hc_auth_mode := mode; hc_mtls := mtls |}.

Definition listen_fields : list string :=
  ["host"; "port"; "admin_socket"; "admin_https"; "auth_mode"; "mtls"; "bootstrap_only"].

Definition de_ListenConfig (y : Yaml) : option ListenConfig :=
  let* fs := open_struct listen_fields y in
  let* host := defaulted fs "host" "127.0.0.1" de_str in
  let* port := defaulted fs "port" 9200 (de_unsigned u16_max) in
  let* socket := optional fs "admin_socket" de_AdminSocketConfig in
  let* https := optional fs "admin_https" de_AdminHttpsConfig in
  let* mode := defaulted fs "auth_mode" BearerMode de_AuthMode in
  let* mtls := optional fs "mtls" de_MtlsConfig in
  let* bootstrap := optional fs "bootstrap_only" de_BootstrapOnlyConfig in
  Some {| lc_host := host; lc_port := port; lc_admin_socket := socket; lc_admin_https := https;
          lc_auth_mode := mode; lc_mtls := mtls; lc_bootstrap_only := bootstrap |}.

Definition de_InboundAuthConfig (y : Yaml) : option InboundAuth :=
  let* fs := open_struct ["mode"; "token"] y in
  let* mode := required fs "mode" de_str in
  let* token := optional fs "token" de_str in
  Some {| ia_mode := mode; ia_token := token |}.

Definition de_LoggingConfig (y : Yaml) : option LoggingConfig :=
  let* fs := open_struct ["level"; "file"] y in
  let* level := defaulted fs "level" "info" de_str in
  let* file := optional fs "file" de_str in
  Some {| log_level := level; log_file := file |}.

Definition de_ToolRequestRule (y : Yaml) : option ToolRequestRule :=
  let* fs := open_struct ["method"; "path"] y in
  let* method := required fs "method" de_str in
  let* path := required fs "path" de_str in
  Some {| rule_method := method; rule_path := path |}.

Definition de_RedactionPatternConfig (y : Yaml) : option RedactionPatternConfig :=
  let* fs := open_struct ["id"; "regex"; "replacement"] y in
  let* id := required fs "id" de_str in
  let* regex := required fs "regex" de_str in
  let* replacement := defaulted fs "replacement" None (de_option de_str) in
  Some {| rp_id := id; rp_regex := regex; rp_replacement := replacement |}.

Definition de_ResponseControlsConfig (y : Yaml) : option ResponseControlsConfig :=
  let* fs := open_struct ["max_size_bytes"; "content_type_allowlist"; "redaction_patterns"] y in
  let* size := defaulted fs "max_size_bytes" None (de_option (de_unsigned u64_max)) in
  let* types := defaulted fs "content_type_allowlist" None (de_option (de_list de_str)) in
  let* patterns := defaulted fs "redaction_patterns" [] (de_list de_RedactionPatternConfig) in
  Some {| cfg_max_size_bytes := size; cfg_content_type_allowlist := types;
          cfg_redaction_patterns := patterns |}.

Definition de_ToolTimeouts (y : Yaml) : option ToolTimeouts :=
  let* fs := open_struct ["request_seconds"; "idle_seconds"] y in
  let* request := defaulted fs "request_seconds" 30 (de_unsigned u64_max) in
  let* idle := defaulted fs "idle_seconds" 60 (de_unsigned u64_max) in
  Some {| request_seconds := request; idle_seconds := idle |}.

Definition de_ToolAuthConfig (y : Yaml) : option ToolAuthConfig :=
  let* fs := open_struct ["header"; "force_replace"; "value"] y in
  let* header := required fs "header" de_str in
  let* force := defaulted fs "force_replace" false de_bool in
  let* value := required fs "value" de_secret_ref in
  Some {| ta_header := header; ta_force_replace := force; ta_value := value |}.

Definition tool_fields : list string :=
  ["name"; "description"; "upstream"; "egress"; "credential_handles"; "request_allowlist"; "auth";
   "timeouts"; "body_limit_bytes"; "response"].

Definition de_ToolConfig (y : Yaml) : option ToolConfig :=
  let* fs := open_struct tool_fields y in
  let* name := required fs "name" de_str in
  let* description := required fs "description" de_str in
  let* upstream := required fs "upstream" de_str in
  let* egress := defaulted fs "egress" default_egress de_EgressMode in
  let* handles := defaulted fs "credential_handles" [] (de_list de_str) in
  let* rules := defaulted fs "request_allowlist" None (de_option (de_list de_ToolRequestRule)) in
  let* auth := optional fs "auth" de_ToolAuthConfig in
  let* timeouts := defaulted fs "timeouts" default_timeouts de_ToolTimeouts in
  let* limit := defaulted fs "body_limit_bytes" default_body_limit (de_unsigned u64_max) in
  let* response := defaulted fs "response" None (de_option de_ResponseControlsConfig) in
  Some {| tc_name := name; tc_description := description; tc_upstream := upstream;
          tc_egress := egress; tc_credential_handles := handles; tc_request_allowlist := rules;
          tc_auth := auth; tc_timeouts := timeouts; tc_body_limit_bytes := limit;
          tc_response := response |}.

Definition delegation_fields : list string :=
  ["enabled"; "required"; "signing_secret"; "header"; "issuer"; "audience"; "ttl_seconds"].

Definition de_KamiwazaDelegationConfig (y : Yaml) : option KamiwazaDelegationConfig :=
  let* fs := open_struct delegation_fields y in
  let* enabled := defaulted fs "enabled" false de_bool in
  let* must := defaulted fs "required" false de_bool in
  let* secret := defaulted fs "signing_secret" None (de_option de_str) in
  let* header := defaulted fs "header" "x-kamiwaza-agent-delegation" de_str in
  let* issuer := defaulted fs "issuer" "agent-locksmith" de_str in
  let* audience := defaulted fs "audience" "kamiwaza-tools" de_str in
  let* ttl := defaulted fs "ttl_seconds" 60 (de_unsigned u64_max) in
  Some {| d_enabled := enabled; d_required := must; d_signing_secret := secret;
          d_header := header; d_issuer := issuer; d_audience := audience; d_ttl_seconds := ttl |}.

Definition kamiwaza_fields : list string :=
  ["enabled"; "api_url"; "api_url_candidates"; "api_token"; "tool_prefix"; "include_types";
   "extension_names"; "verify_tls"; "cloud"; "timeout_seconds"; "catalog_ttl_seconds";
   "discovery_concurrency"; "delegation"].

Definition de_KamiwazaConfig (y : Yaml) : option KamiwazaConfig :=
  let* fs := open_struct kamiwaza_fields y in
  let* enabled := defaulted fs "enabled" false de_bool in
  let* url := optional fs "api_url" de_str in
  let* urls := defaulted fs "api_url_candidates" [] (de_list de_str) in
  let* token := optional fs "api_token" de_str in
  let* prefix := defaulted fs "tool_prefix" "kamiwaza" de_str in
  let* types := defaulted fs "include_types" ["tool"] (de_list de_str) in
  let* names := defaulted fs "extension_names" [] (de_list de_str) in
  let* verify := defaulted fs "verify_tls" true de_bool in
  let* cloud := defaulted fs "cloud" false de_bool in
  let* timeout := defaulted fs "timeout_seconds" 30 (de_unsigned u64_max) in
  let* ttl := defaulted fs "catalog_ttl_seconds" 600 (de_unsigned u64_max) in
  let* fan := defaulted fs "discovery_concurrency" 8 (de_unsigned u64_max) in
  let* delegation := defaulted fs "delegation" default_delegation de_KamiwazaDelegationConfig in
  Some {| k_enabled := enabled; k_api_url := url; k_api_url_candidates := urls;
          k_api_token := token; k_tool_prefix := prefix; k_include_types := types;
          k_extension_names := names; k_verify_tls := verify; k_cloud := cloud;
          k_timeout_seconds := timeout; k_catalog_ttl_seconds := ttl;
          k_discovery_concurrency := Z.to_nat fan; k_delegation := delegation |}.

Definition config_fields : list string :=
  ["listen"; "inbound_auth"; "egress_proxy"; "kamiwaza"; "tls"; "logging"; "shutdown"; "tools";
   "operator_credentials_path"; "database"; "audit"].

(** [serde_yaml::from_value::<AppConfig>]. *)
Definition de_AppConfig (y : Yaml) : option ConfigFile :=
  let* fs := open_struct config_fields y in
  let* listen := required fs "listen" de_ListenConfig in
  let* inbound := optional fs "inbound_auth" de_InboundAuthConfig in
  let* proxy := optional fs "egress_proxy" de_str in
  let* kamiwaza := optional fs "kamiwaza" de_KamiwazaConfig in
  let* tls := optional fs "tls" de_TlsConfig in
  let* logging := optional fs "logging" de_LoggingConfig in
  let* shutdown := defaulted fs "shutdown" default_shutdown de_ShutdownConfig in
  let* tools := defaulted fs "tools" [] (de_list de_ToolConfig) in
  let* operators := optional fs "operator_credentials_path" de_str in
  let* database := optional fs "database" de_DatabaseConfig in
  let* audit := optional fs "audit" de_AuditConfig in
  Some {| cf_listen := listen; cf_inbound_auth := inbound; cf_egress_proxy := proxy;
          cf_kamiwaza := kamiwaza; cf_tls := tls; cf_logging := logging; cf_shutdown := shutdown;
          cf_tools := tools; cf_operator_credentials_path := operators; cf_database := database;
          cf_audit := audit |}.

(** What the components take from it. *)
Definition app_config (c : ConfigFile) : AppConfig := {| tools := cf_tools c |}.

Definition daemon_https (h : HttpsConfig) : AdminHttpsConfig :=
  {| https_enabled := hc_enabled h; https_auth_mode := hc_auth_mode h;
     https_ca_bundle_path := hc_mtls h |}.

Definition daemon_config (c : ConfigFile) : DaemonConfig :=
  {| admin_socket := lc_admin_socket (cf_listen c); database := cf_database c;
     operator_credentials_path := cf_operator_credentials_path c;
     dc_inbound_auth := cf_inbound_auth c; listen_auth_mode := lc_auth_mode (cf_listen c);
     listen_mtls := lc_mtls (cf_listen c);
     admin_https := daemon_https <$> lc_admin_https (cf_listen c); dc_audit := cf_audit c;
     dc_app := app_config c |}.

Definition pool_config (c : ConfigFile) : PoolConfig :=
  {| pc_tools := cf_tools c; pc_egress_proxy := cf_egress_proxy c;
     pc_upstream_ca_bundle := let* t := cf_tls c in t |}.

Definition bridge_config (c : ConfigFile) : BridgeConfig :=
  {| bc_kamiwaza := cf_kamiwaza c; bc_egress_proxy := cf_egress_proxy c |}.

(** ** [load_config] *)

Inductive LoadError := ReadFailed (e : string) | NotParsed (e : ParseError).

Context `{RegexCrate}.
Context (method_ok : string -> bool) (yaml_from_str : string -> option Yaml).

Definition load_from_value (yaml : string) (reg : DeprecationRegistry)
  : result ParseError ConfigFile * list Warning :=
  match yaml_from_str yaml with
  | None => (Err YamlSyntax, [])
  | Some value =>
      let '(value, _, w) := apply_deprecations value reg in
      (let? config := ok_or Typed (de_AppConfig value) in
       let? _ := map_err InvalidTool (validate_response_controls (app_config config)) in
       let? _ := map_err InvalidTool (validate_request_allowlists method_ok (app_config config)) in
       Ok config, w)
  end.

(** [None] when the fuel of the environment expansion runs out. *)
Definition load_config (fuel : nat) (env : string -> option string)
    (read_to_string : string -> result string string) (path : string)
  : option (result LoadError ConfigFile * list Warning) :=
  match read_to_string path with
  | Err e => Some (Err (ReadFailed e), [])
  | Ok raw =>
      let* expanded := expand_legacy fuel env raw in
      let '(r, w) := load_from_value expanded default_registry in
      Some (map_err NotParsed r, w)
  end.
End Sections.

(** ** What the deserializer guarantees *)

Ltac read_fields :=
  repeat match goal with
  | E : match ?c with Some _ => _ | None => None end = Some _ |- _ =>
      let F := fresh "F" in destruct c eqn:F; [|discriminate E]
  end; simplify_eq.

Section Guarantees.
Context `{YamlValueLaws}.

Lemma keys_ok_known known m :
  keys_ok known m = true -> forall k v, (k, v) ∈ m -> exists f, de_str k = Some f /\ f ∈ known.
Proof.
  intros [Hk _]%andb_true_iff k v Hin. rewrite forallb_forall in Hk.
  specialize (Hk (k, v) (proj1 (list_elem_of_In _ _) Hin)). simpl in Hk.
  destruct (de_str k) as [f|]; [|done]. exists f. by apply bool_decide_eq_true in Hk.
Qed.

(** A field given under its plain name is the one that is read. *)
Lemma open_struct_field known m fs f v :
  open_struct known (YMapping m) = Some fs -> f ∈ known -> yget f m = Some v ->
  field fs f = Some v.
Proof.
  unfold open_struct. rewrite de_struct_mapping. destruct (keys_ok known m) eqn:K; [|done].
  intros [= <-] Hf Hv. simpl. apply andb_true_iff in K as [_ K]. rewrite forallb_forall in K.
  specialize (K f (proj1 (list_elem_of_In _ _) Hf)). apply Nat.leb_le in K. revert Hv K. unfold yget.
  induction m as [|[k w] m IH]; [done|]. simpl. destruct (is_key f k) eqn:E; simpl.
  - intros [= ->] _. assert (key_is f (k, v) = true) as ->; [|done].
    destruct k; try done. simpl in E. apply bool_decide_eq_true in E as ->.
    unfold key_is. apply bool_decide_eq_true, de_str_string.
  - intros Hv K. destruct (key_is f (k, w)) eqn:Ek; [exfalso|by apply IH].
    simpl in K. assert (List.filter (key_is f) m = []) as Hn
      by (destruct (List.filter _ m); [done|simpl in K; lia]).
    destruct (find_first (fun kv => is_key f kv.1) m) as [kv|] eqn:Ff; [|done].
    apply find_first_Some in Ff as [Hin Hk]. destruct kv as [k' v']. simpl in Hk.
    destruct k'; try done. simpl in Hk. apply bool_decide_eq_true in Hk as ->.
    assert ((YString f, v') ∈ List.filter (key_is f) m) as Hin'.
    { apply list_elem_of_In, filter_In. split; [by apply list_elem_of_In|].
      unfold key_is. apply bool_decide_eq_true, de_str_string. }
    rewrite Hn in Hin'. by apply not_elem_of_nil in Hin'.
Qed.

(** [SecretRef] as an operator writes it. *)
Definition ymap (l : list (string * Yaml)) : Yaml :=
  YMapping (map (fun kv => (YString kv.1, kv.2)) l).

Definition opt_entry (k : string) (o : option string) : list (string * Yaml) :=
  match o with Some s => [(k, YString s)] | None => [] end.

Definition written (r : SecretRef) : option Yaml :=
  match r with
  | Inline _ => None
  | LegacyString s => Some (YString s)
  | FromEnv var prefix =>
      Some (ymap [("from_env", ymap (("var", YString var) :: opt_entry "prefix" prefix))])
  | FromFileSealed path => Some (ymap [("from_file_sealed", ymap [("path", YString path)])])
  | FromVault mount path fld =>
      Some (ymap [("from_vault",
        ymap [("mount", YString mount); ("path", YString path); ("field", YString fld)])])
  | FromAwsSecretsManager id stage fld =>
      Some (ymap [("from_aws_secrets_manager",
        ymap (("secret_id", YString id) :: opt_entry "version_stage" stage ++ opt_entry "field" fld))])
  end.

(** A mapping with plain, distinct, known keys is read as it stands. *)
Lemma open_struct_ymap known l :
  forallb (fun kv => bool_decide (kv.1 ∈ known)) l
  && forallb (fun f => (List.length (List.filter (fun kv => bool_decide (kv.1 = f)) l) <=? 1)%nat) known
  = true ->
  exists fs, open_struct known (ymap l) = Some fs /\ positional fs = false /\
    forall f, field fs f = snd <$> find_first (fun kv => bool_decide (kv.1 = f)) l.
Proof.
  intros [Hk Hd]%andb_true_iff. unfold open_struct, ymap. rewrite de_struct_mapping.
  assert (E : forall f, List.filter (key_is f) (map (fun kv => (YString kv.1, kv.2)) l) =
              map (fun kv => (YString kv.1, kv.2)) (List.filter (fun kv => bool_decide (kv.1 = f)) l)).
  { intros f. clear Hk Hd. induction l as [|[k v] l IH]; [done|]. simpl. unfold key_is at 1. simpl.
    rewrite de_str_string, (bool_decide_ext (Some k = Some f) (k = f)) by naive_solver.
    case_bool_decide; simpl; by rewrite IH. }
  assert (keys_ok known (map (fun kv => (YString kv.1, kv.2)) l) = true) as ->.
  { apply andb_true_iff. split.
    - rewrite forallb_forall in *. intros kv ([k v] & <- & Hin)%in_map_iff. simpl.
      rewrite de_str_string. by apply (Hk (k, v)).
    - rewrite forallb_forall in *. intros f Hf. rewrite E, length_map. by apply Hd. }
  eexists. split; [done|]. split; [done|]. intros f. simpl. clear Hk Hd E.
  induction l as [|[k v] l IH]; [done|]. simpl. unfold key_is at 1. simpl.
  rewrite de_str_string, (bool_decide_ext (Some k = Some f) (k = f)) by naive_solver.
  by case_bool_decide.
Qed.

Ltac read_struct :=
  match goal with
  | |- context [open_struct ?known (ymap ?l)] =>
      let fs := fresh "fs" in
      destruct (open_struct_ymap known l) as (fs & -> & _ & E); [reflexivity|];
      unfold required, defaulted, de_option; rewrite !E; clear E; simpl
  end.

Lemma de_any_ymap l : de_any (ymap l) = VisitMap (map (fun kv => (YString kv.1, kv.2)) l).
Proof. apply de_any_mapping. Qed.

(** Every reference except a resolved one can be written in the file, and is
    read back as it was. *)
Theorem secret_ref_roundtrip r y :
  written r = Some y -> deserialize_secret_ref y = Ok r.
Proof.
  destruct r as [|s|var prefix|path|mount path fld|id stage fld]; [done| | | | |];
    intros [= <-]; unfold deserialize_secret_ref; simpl.
  { by rewrite de_any_string. }
  all: rewrite de_any_ymap; simpl; rewrite de_str_string; simpl.
  - unfold FromEnvForm. destruct prefix; simpl; read_struct; by rewrite ?de_string_some, ?de_str_string.
  - unfold FromFileSealedForm. read_struct. by rewrite de_str_string.
  - unfold FromVaultForm. read_struct. by rewrite !de_str_string.
  - unfold FromAwsForm. destruct stage, fld; simpl; read_struct;
      by rewrite ?de_string_some, ?de_str_string.
Qed.
(** A reference read from a file is never a resolved one.  It is a string
    taken as it stands, or a map of exactly one entry whose key is one of the
    four tags. *)
Theorem secret_ref_shape y r :
  deserialize_secret_ref y = Ok r ->
  (forall v, r <> Inline v) /\
  ((exists s, de_any y = VisitStr s /\ r = LegacyString s) \/
   exists k v tag form, de_any y = VisitMap [(k, v)] /\ de_str k = Some tag /\
     tag ∈ ["from_env"; "from_file_sealed"; "from_vault"; "from_aws_secrets_manager"] /\
     secret_ref_form tag = Ok form /\ form v = Some r).
Proof.
  unfold deserialize_secret_ref. destruct (de_any y) as [s|[|[k v] rest]|]; try done.
  { intros [= <-]. split; [done|left; eauto]. }
  simpl. destruct (de_str k) as [tag|] eqn:Ek; [|done]. simpl.
  destruct (secret_ref_form tag) as [form|] eqn:Ef; [|done]. simpl.
  destruct (form v) as [r'|] eqn:Ev; [|done]. simpl.
  destruct rest as [|[k' v'] rest]; [|by destruct (de_str k')]. intros [= <-].
  assert (tag ∈ ["from_env"; "from_file_sealed"; "from_vault"; "from_aws_secrets_manager"] /\
          forall x, r' <> Inline x) as [Ht Hr].
  { unfold secret_ref_form in Ef. repeat case_bool_decide; simplify_eq; (split; [set_solver|]); intros x ->;
      unfold FromEnvForm, FromFileSealedForm, FromVaultForm, FromAwsForm in Ev; read_fields. }
  split; [done|]. right. by exists k, v, tag, form.
Qed.

(** Fields in range, as the machine integers they are. *)
Definition tool_in_range (t : ToolConfig) : Prop :=
  0 <= request_seconds (tc_timeouts t) <= u64_max /\
  0 <= idle_seconds (tc_timeouts t) <= u64_max /\ 0 <= tc_body_limit_bytes t <= u64_max.

Lemma defaulted_range fs f d hi n :
  0 <= d <= hi -> defaulted fs f d (de_unsigned hi) = Some n -> 0 <= n <= hi.
Proof.
  intros Hd. unfold defaulted. destruct (field fs f) as [y|]; [apply de_unsigned_range|].
  by intros [= <-].
Qed.

Lemma de_list_forall {A} (de : Yaml -> option A) (P : A -> Prop) y l :
  (forall y a, de y = Some a -> P a) -> de_list de y = Some l -> Forall P l.
Proof.
  intros Hd. unfold de_list. destruct (de_seq y) as [ys|]; [|done]. revert l.
  induction ys as [|y' ys IH]; intros l; simpl; [by intros [= <-]|].
  destruct (de y') as [a|] eqn:Ea; [|done]. destruct (all_some (map de ys)) as [r|]; [|done].
  intros [= <-]. constructor; eauto.
Qed.

Lemma de_ToolTimeouts_range fs t :
  defaulted fs "timeouts" default_timeouts de_ToolTimeouts = Some t ->
  0 <= request_seconds t <= u64_max /\ 0 <= idle_seconds t <= u64_max.
Proof.
  unfold defaulted at 1. destruct (field fs "timeouts") as [y|]; [|by intros [= <-]].
  unfold de_ToolTimeouts. intros E. read_fields. simpl.
  split; (eapply defaulted_range; [|eassumption]; done).
Qed.

Lemma de_ToolConfig_range y t : de_ToolConfig y = Some t -> tool_in_range t.
Proof.
  unfold de_ToolConfig. intros E. read_fields. unfold tool_in_range. simpl.
  edestruct de_ToolTimeouts_range as [? ?]; [eassumption|].
  split; [done|]. split; [done|]. by eapply defaulted_range; [|eassumption].
Qed.

Definition default_listen : ListenConfig :=
  {| lc_host := "127.0.0.1"; lc_port := 9200; lc_admin_socket := None; lc_admin_https := None;
     lc_auth_mode := BearerMode; lc_mtls := None; lc_bootstrap_only := None |}.
Definition listen_in_range (l : ListenConfig) : Prop :=
  0 <= lc_port l <= u16_max /\
  (forall h, lc_admin_https l = Some h -> 0 <= hc_port h <= u16_max) /\
  (forall b, lc_bootstrap_only l = Some b -> 0 <= bo_port b <= u16_max).

Lemma optional_some {A} fs f (de : Yaml -> option A) a :
  optional fs f de = Some (Some a) -> exists y, de y = Some a.
Proof.
  unfold optional, de_option. destruct (field fs f) as [y|]; [|by destruct (positional fs)].
  destruct (de_is_none y); [done|]. destruct (de y) eqn:E; [|done]. intros [= <-]. eauto.
Qed.

Lemma de_ListenConfig_range y l : de_ListenConfig y = Some l -> listen_in_range l.
Proof.
  unfold de_ListenConfig. intros E. read_fields. unfold listen_in_range. simpl.
  split; [by eapply defaulted_range; [|eassumption]|split].
  - intros h ->. match goal with E : optional _ "admin_https" _ = _ |- _ =>
      apply optional_some in E as [y' E] end.
    unfold de_AdminHttpsConfig in *. read_fields. by eapply defaulted_range; [|eassumption].
  - intros b ->. match goal with E : optional _ "bootstrap_only" _ = _ |- _ =>
      apply optional_some in E as [y' E] end.
    unfold de_BootstrapOnlyConfig in *. read_fields. by eapply defaulted_range; [|eassumption].
Qed.

(** No tool of a file carries a resolved secret. *)
Definition unresolved (t : ToolConfig) : Prop :=
  forall a, tc_auth t = Some a -> forall v, ta_value a <> Inline v.

Lemma de_secret_ref_unresolved y r v : de_secret_ref y = Some r -> r <> Inline v.
Proof.
  unfold de_secret_ref. destruct (deserialize_secret_ref y) eqn:D; [|done]. intros [= <-].
  apply secret_ref_shape in D as [D _]. apply D.
Qed.

Lemma de_ToolAuthConfig_unresolved y a v : de_ToolAuthConfig y = Some a -> ta_value a <> Inline v.
Proof.
  unfold de_ToolAuthConfig, required. intros E. read_fields. by eapply de_secret_ref_unresolved.
Qed.

Lemma de_ToolConfig_unresolved y t : de_ToolConfig y = Some t -> unresolved t.
Proof.
  unfold de_ToolConfig. intros E. read_fields. intros a. simpl. intros -> v.
  match goal with E : optional _ "auth" _ = _ |- _ => apply optional_some in E as [y' E] end.
  by eapply de_ToolAuthConfig_unresolved.
Qed.

(** A struct refuses a map with a key it does not know. *)
Definition strict {A} (known : list string) (de : Yaml -> option A) : Prop :=
  forall m k v, (k, v) ∈ m -> (forall f, de_str k = Some f -> f ∉ known) -> de (YMapping m) = None.

Lemma open_struct_strict {A} known (k : Fields -> option A) :
  strict known (fun y => match open_struct known y with Some fs => k fs | None => None end).
Proof.
  intros m key v Hin Hk. unfold open_struct. rewrite de_struct_mapping.
  destruct (keys_ok known m) eqn:E; [|done].
  destruct (keys_ok_known _ _ E _ _ Hin) as (f & Hf & Hin'). by destruct (Hk f).
Qed.

(** Every section of the file refuses unknown keys. *)
Theorem unknown_keys_refused :
  strict config_fields de_AppConfig /\ strict listen_fields de_ListenConfig /\
  strict admin_https_fields de_AdminHttpsConfig /\ strict mtls_fields de_MtlsConfig /\
  strict bootstrap_only_fields de_BootstrapOnlyConfig /\ strict tool_fields de_ToolConfig /\
  strict kamiwaza_fields de_KamiwazaConfig /\
  strict delegation_fields de_KamiwazaDelegationConfig /\ strict audit_fields de_AuditConfig /\
  strict ["header"; "force_replace"; "value"] de_ToolAuthConfig /\
  strict ["request_seconds"; "idle_seconds"] de_ToolTimeouts /\
  strict ["max_size_bytes"; "content_type_allowlist"; "redaction_patterns"]
    de_ResponseControlsConfig.
Proof. split_and!; apply open_struct_strict. Qed.

(** A file with an empty [listen] section takes every default: the agent
    listener on the loopback interface, bearer tokens, no admin surface. *)
Lemma minimal_config :
  de_AppConfig (ymap [("listen", ymap [])]) =
  Some {| cf_listen := default_listen; cf_inbound_auth := None; cf_egress_proxy := None;
          cf_kamiwaza := None; cf_tls := None; cf_logging := None; cf_shutdown := default_shutdown;
          cf_tools := []; cf_operator_credentials_path := None; cf_database := None;
          cf_audit := None |}.
Proof.
  unfold de_AppConfig.
  destruct (open_struct_ymap config_fields [("listen", ymap [])]) as (fs & -> & Hp & E); [done|].
  unfold required, defaulted, optional. rewrite !E, Hp. simpl. unfold de_ListenConfig.
  destruct (open_struct_ymap listen_fields []) as (fs' & -> & Hp' & E'); [done|].
  unfold defaulted, optional. by rewrite !E', Hp'.
Qed.
Lemma de_ToolConfig_fields m t :
  de_ToolConfig (YMapping m) = Some t ->
  exists fs, (forall f v, f ∈ tool_fields -> yget f m = Some v -> field fs f = Some v) /\
    defaulted fs "egress" default_egress de_EgressMode = Some (tc_egress t) /\
    defaulted fs "timeouts" default_timeouts de_ToolTimeouts = Some (tc_timeouts t).
Proof.
  unfold de_ToolConfig. intros E. destruct (open_struct tool_fields _) as [fs|] eqn:Ho; [|done].
  exists fs. split; [intros f v; by apply open_struct_field|]. by read_fields.
Qed.

Lemma request_timeout_read v t :
  de_ToolTimeouts (YMapping [(YString "request_seconds", v)]) = Some t ->
  de_unsigned u64_max v = Some (request_seconds t) /\ idle_seconds t = 60.
Proof.
  unfold de_ToolTimeouts.
  destruct (open_struct_ymap ["request_seconds"; "idle_seconds"] [("request_seconds", v)])
    as (fs & Eo & _ & E); [reflexivity|].
  change (ymap [("request_seconds", v)]) with (YMapping [(YString "request_seconds", v)]) in Eo.
  rewrite Eo. unfold defaulted. rewrite !E. simpl. intros E'. by read_fields.
Qed.

(** A tool written with the legacy fields is read as its modern form:
    [cloud] chooses the egress where [egress] does not, and
    [timeout_seconds] is the request timeout where no [timeouts] are given. *)
Theorem legacy_tool_read m reg t :
  de_ToolConfig (translate_tool (YMapping m) reg).1.1 = Some t ->
  (forall c, yget "cloud" m = Some c -> yget "egress" m = None ->
     tc_egress t = match c with YBool true => Proxied | _ => Direct end) /\
  (forall e, yget "egress" m = Some e -> de_EgressMode e = Some (tc_egress t)) /\
  (forall v, yget "timeout_seconds" m = Some v -> yget "timeouts" m = None ->
     de_unsigned u64_max v = Some (request_seconds (tc_timeouts t)) /\
     idle_seconds (tc_timeouts t) = 60).
Proof.
  destruct (translate_tool_spec m reg) as (m' & -> & _ & _ & He & Ht & _).
  intros (fs & Hget & Eg & Et)%de_ToolConfig_fields. unfold defaulted in Eg, Et. split_and!.
  - intros c Hc Hn. rewrite Hc, Hn in He. rewrite (Hget "egress" _ ltac:(set_solver) He) in Eg.
    unfold de_EgressMode, egress_of_cloud in Eg. rewrite de_variant_string in Eg.
    destruct c as [|[]| | | | |]; by injection Eg.
  - intros e Hn. rewrite Hn in He. by rewrite (Hget "egress" _ ltac:(set_solver) He) in Eg.
  - intros v Hv Hn. rewrite Hv, Hn in Ht. rewrite (Hget "timeouts" _ ltac:(set_solver) Ht) in Et.
    by apply request_timeout_read.
Qed.
(** Loading is the pipeline of [parse_config_str] with this deserializer for
    its parameter. *)
Lemma load_parses `{RegexCrate} method_ok yaml_from_str fuel env read_to_string path raw c w :
  read_to_string path = Ok raw ->
  load_config method_ok yaml_from_str fuel env read_to_string path = Some (Ok c, w) ->
  parse_config_str method_ok yaml_from_str (fun y => app_config <$> de_AppConfig y) fuel env raw
    = Some (Ok (app_config c), w) /\
  exists v, de_AppConfig v = Some c.
Proof.
  unfold load_config, load_from_value, parse_config_str, parse_with_registry. intros ->.
  destruct (expand_legacy fuel env raw) as [x|]; [|done].
  destruct (yaml_from_str x) as [y|]; [|done].
  destruct (apply_deprecations y default_registry) as [[v reg] w'].
  destruct (de_AppConfig v) as [c'|] eqn:Ec; [|done]. simpl.
  destruct (validate_response_controls (app_config c')) as [[]|]; [|done]. simpl.
  destruct (validate_request_allowlists method_ok (app_config c')) as [[]|]; [|done]. simpl.
  intros [= <- <-]. eauto.
Qed.

(** Every number the file can set, in the range of its type. *)
Definition mtls_in_range (m : MtlsConfig) : Prop :=
  0 <= crl_refresh_interval_seconds m <= u64_max /\
  0 <= blocklist_reload_interval_seconds m <= u64_max.

Definition audit_in_range (a : AuditConfig) : Prop :=
  0 <= retention_days a <= u32_max /\ 0 <= sweep_interval_seconds a <= u64_max /\
  0 <= jsonl_max_bytes a <= u64_max /\ Z.of_nat (jsonl_keep_files a) <= u64_max.

Definition kamiwaza_in_range (k : KamiwazaConfig) : Prop :=
  0 <= k_timeout_seconds k <= u64_max /\ 0 <= k_catalog_ttl_seconds k <= u64_max /\
  Z.of_nat (k_discovery_concurrency k) <= u64_max /\
  0 <= d_ttl_seconds (k_delegation k) <= u64_max.

Record config_in_range (c : ConfigFile) : Prop := {
  cr_listen : listen_in_range (cf_listen c);
  cr_mtls : forall m, lc_mtls (cf_listen c) = Some m -> mtls_in_range m;
  cr_shutdown : 0 <= drain_window_seconds (cf_shutdown c) <= u64_max;
  cr_audit : forall a, cf_audit c = Some a -> audit_in_range a;
  cr_kamiwaza : forall k, cf_kamiwaza c = Some k -> kamiwaza_in_range k;
  cr_tools : forall t, t ∈ cf_tools c -> tool_in_range t /\
    forall rc n, tc_response t = Some rc -> cfg_max_size_bytes rc = Some n -> 0 <= n <= u64_max
}.

Ltac in_range := by eapply defaulted_range; [|eassumption].

Lemma de_MtlsConfig_range y m : de_MtlsConfig y = Some m -> mtls_in_range m.
Proof. unfold de_MtlsConfig. intros E. read_fields. split; simpl; in_range. Qed.

Lemma de_AuditConfig_range y a : de_AuditConfig y = Some a -> audit_in_range a.
Proof.
  unfold de_AuditConfig. intros E. read_fields. unfold audit_in_range. simpl.
  do 3 (split; [in_range|]).
  match goal with F : defaulted _ "jsonl_keep_files" _ _ = Some ?n |- _ =>
    assert (0 <= n <= u64_max) by in_range end. lia.
Qed.

Lemma de_delegation_range y d : de_KamiwazaDelegationConfig y = Some d -> 0 <= d_ttl_seconds d <= u64_max.
Proof. unfold de_KamiwazaDelegationConfig. intros E. read_fields. simpl. in_range. Qed.

Lemma de_KamiwazaConfig_range y k : de_KamiwazaConfig y = Some k -> kamiwaza_in_range k.
Proof.
  unfold de_KamiwazaConfig. intros E. read_fields. unfold kamiwaza_in_range. simpl.
  do 2 (split; [in_range|]). split.
  - match goal with F : defaulted _ "discovery_concurrency" _ _ = Some ?n |- _ =>
      assert (0 <= n <= u64_max) by in_range end. lia.
  - match goal with F : defaulted _ "delegation" _ _ = Some ?d |- _ => unfold defaulted in F;
      destruct (field _ "delegation"); [by eapply de_delegation_range|by injection F as <-] end.
Qed.

Lemma defaulted_option_some {A} fs f (de : Yaml -> option A) a :
  defaulted fs f None (de_option de) = Some (Some a) -> exists y, de y = Some a.
Proof.
  unfold defaulted, de_option. destruct (field fs f) as [y|]; [|done].
  destruct (de_is_none y); [done|]. destruct (de y) eqn:E; [|done]. intros [= <-]. eauto.
Qed.

Lemma de_ToolConfig_response y t rc n :
  de_ToolConfig y = Some t -> tc_response t = Some rc -> cfg_max_size_bytes rc = Some n ->
  0 <= n <= u64_max.
Proof.
  unfold de_ToolConfig. intros E. read_fields. simpl. intros -> En.
  match goal with F : defaulted _ "response" _ _ = _ |- _ =>
    apply defaulted_option_some in F as [yr F]; unfold de_ResponseControlsConfig in F end.
  read_fields. simpl in En. subst.
  match goal with F : defaulted _ "max_size_bytes" _ _ = _ |- _ =>
    apply defaulted_option_some in F as [yn Hn] end.
  by apply de_unsigned_range in Hn.
Qed.

Lemma de_AppConfig_range v c : de_AppConfig v = Some c -> config_in_range c.
Proof.
  unfold de_AppConfig. intros D. read_fields.
  match goal with L : required _ "listen" _ = Some ?l |- _ =>
    unfold required in L; destruct (field _ "listen") as [yl|]; [|done] end.
  split; simpl.
  - by eapply de_ListenConfig_range.
  - intros m Hm. match goal with L : de_ListenConfig _ = Some _ |- _ => unfold de_ListenConfig in L end.
    read_fields. simpl in Hm. subst.
    match goal with F : optional _ "mtls" _ = _ |- _ => apply optional_some in F as [ym F] end.
    by eapply de_MtlsConfig_range.
  - match goal with F : defaulted _ "shutdown" _ _ = Some _ |- _ => unfold defaulted in F end.
    destruct (field _ "shutdown") as [ys|]; [|by simplify_eq].
    match goal with F : de_ShutdownConfig _ = Some _ |- _ => unfold de_ShutdownConfig in F end.
    read_fields. simpl. in_range.
  - intros a ->. match goal with F : optional _ "audit" _ = _ |- _ => apply optional_some in F as [ya F] end.
    by eapply de_AuditConfig_range.
  - intros k ->. match goal with F : optional _ "kamiwaza" _ = _ |- _ => apply optional_some in F as [yk F] end.
    by eapply de_KamiwazaConfig_range.
  - match goal with T : defaulted _ "tools" _ _ = Some ?ts |- _ =>
      assert (Forall (fun t => tool_in_range t /\ forall rc n, tc_response t = Some rc ->
        cfg_max_size_bytes rc = Some n -> 0 <= n <= u64_max) ts) as HF end.
    { unfold defaulted in *. case_match; [|by simplify_eq]. eapply de_list_forall; [|eassumption].
      intros yt a E. split; [by eapply de_ToolConfig_range|intros rc n; by apply de_ToolConfig_response with yt]. }
    by apply Forall_forall.
Qed.

Lemma de_AppConfig_unresolved v c : de_AppConfig v = Some c -> forall t, t ∈ cf_tools c -> unresolved t.
Proof.
  unfold de_AppConfig. intros D. read_fields. simpl. apply Forall_forall.
  match goal with T : defaulted _ "tools" _ _ = Some ?ts |- _ => unfold defaulted in T end.
  case_match; [|by simplify_eq]. eapply de_list_forall; [|eassumption].
  intros yt a E. by eapply de_ToolConfig_unresolved.
Qed.

(** What loaded was read from the expanded text, rewritten and validated. *)
Lemma load_config_inv `{RegexCrate} method_ok yaml_from_str fuel env read_to_string path c w :
  load_config method_ok yaml_from_str fuel env read_to_string path = Some (Ok c, w) ->
  exists raw text doc, read_to_string path = Ok raw /\ expand_legacy fuel env raw = Some text /\
    yaml_from_str text = Some doc /\
    let '(v, _, w') := apply_deprecations doc default_registry in
    w = w' /\ de_AppConfig v = Some c /\ validate_response_controls (app_config c) = Ok tt /\
    validate_request_allowlists method_ok (app_config c) = Ok tt.
Proof.
  unfold load_config, load_from_value. destruct (read_to_string path) as [raw|]; [|done].
  destruct (expand_legacy fuel env raw) as [text|] eqn:Ex; [|done].
  destruct (yaml_from_str text) as [doc|] eqn:Ey; [|done].
  intros E. exists raw, text, doc. split_and!; [done..|].
  destruct (apply_deprecations doc default_registry) as [[v reg] w'].
  destruct (de_AppConfig v) as [c'|]; [|done]. simpl in E.
  destruct (validate_response_controls (app_config c')) as [[]|] eqn:V1; [|done]. simpl in E.
  destruct (validate_request_allowlists method_ok (app_config c')) as [[]|] eqn:V2; [|done].
  simpl in E. by simplify_eq.
Qed.

(** C37: a configuration that loads is usable: every port, duration, size and
    count it sets is in the range of its type, no tool carries a resolved
    secret, every response control compiles and every allowlist rule is an
    upper-case method with a literal path; and the load logged a warning for
    each legacy field the document mentions, exactly one, and for nothing
    else. *)
Theorem load_config_sound `{RegexCrate} method_ok yaml_from_str fuel env read_to_string path c w :
  load_config method_ok yaml_from_str fuel env read_to_string path = Some (Ok c, w) ->
  config_in_range c /\
  (exists raw text doc, read_to_string path = Ok raw /\ expand_legacy fuel env raw = Some text /\
     yaml_from_str text = Some doc /\
     NoDup (w_field <$> w) /\ forall f, f ∈ (w_field <$> w) <-> f ∈ legacy_fields doc) /\
  forall t, t ∈ cf_tools c ->
    unresolved t /\
    (forall rc, tc_response t = Some rc -> isSome (compile rc) = true) /\
    (forall rules r, tc_request_allowlist t = Some rules -> r ∈ rules ->
       rule_method r = to_ascii_uppercase (rule_method r) /\
       is_literal_request_path (rule_path r) = true).
Proof.
  intros (raw & text & doc & Hr & Hx & Hy & L)%load_config_inv.
  pose proof (apply_deprecations_warned doc default_registry) as W.
  pose proof (apply_deprecations_logs doc default_registry eq_refl) as G.
  destruct (apply_deprecations doc default_registry) as [[v reg] w'].
  destruct L as (-> & D & V1 & V2). split; [by eapply de_AppConfig_range|]. split.
  - exists raw, text, doc. split_and!; [done..|apply W|]. intros f. rewrite (logs_fields _ _ _ _ G).
    split; [by intros [? _]|]. intros Hf. split; [done|]. apply not_elem_of_empty.
  - intros t Ht. split; [by eapply de_AppConfig_unresolved|]. by eapply (validated_config_usable method_ok).
Qed.
End Guarantees.

(** ** Witnesses *)

Module ConfigFileWitness.
Import ControlsWitness.

Definition yaml_nat (hi : Z) (y : Yaml) : option Z :=
  match y with
  | YNumber repr => let* n := parse_u64 repr in if n <=? hi then Some n else None
  | _ => None
  end.

#[export] Instance plain_yaml : YamlValue := {
  de_str y := match y with YString s => Some s | _ => None end;
  de_bool y := match y with YBool b => Some b | _ => None end;
  de_unsigned := yaml_nat;
  de_seq y := match y with YSequence l => Some l | _ => None end;
  de_struct y := match y with
                 | YMapping m => Some (VisitEntries m)
                 | YSequence l => Some (VisitElements l)
                 | _ => None
                 end;
  de_variant y := match y with YString s => Some s | _ => None end;
  de_is_none y := match y with YNull => true | _ => false end;
  de_any y := match y with YString s => VisitStr s | YMapping m => VisitMap m | _ => VisitOther end
}.

Lemma digits_value_nonneg s acc n : 0 <= acc -> digits_value acc s = Some n -> 0 <= n.
Proof.
  revert acc. induction s as [|c s IH]; intros acc Ha; simpl; [by intros [= <-]|].
  destruct (_ && _) eqn:E; [|done]. apply andb_true_iff in E as [E%Z.leb_le _].
  destruct (_ <? _); [|done]. apply IH. lia.
Qed.

Lemma parse_u64_nonneg s n : parse_u64 s = Some n -> 0 <= n.
Proof.
  unfold parse_u64. destruct s as [|c s]; [done|]. destruct (is_char "+" c).
  - destruct s; [done|]. by apply digits_value_nonneg.
  - by apply digits_value_nonneg.
Qed.

#[export] Instance plain_yaml_laws : YamlValueLaws.
Proof.
  split; try done. intros hi y n. destruct y; try done. simpl.
  destruct (parse_u64 repr) as [k|] eqn:E; [|done]. destruct (Z.leb_spec k hi); [|done].
  intros [= <-]. apply parse_u64_nonneg in E. lia.
Qed.

Definition tool_doc : list (string * Yaml) :=
  [("name", YString "gh"); ("description", YString "GitHub");
   ("upstream", YString "https://api.github.com"); ("cloud", YBool true);
   ("timeout_seconds", YNumber "5");
   ("auth", ymap [("header", YString "Authorization");
                  ("value", ymap [("from_env", ymap [("var", YString "TOKEN");
                                                     ("prefix", YString "Bearer ")])])]);
   ("request_allowlist", YSequence [ymap [("method", YString "GET"); ("path", YString "/user")]])].

Definition file_doc : Yaml :=
  ymap [("listen", ymap [("port", YNumber "9000");
                         ("admin_socket", ymap [("path", YString "/run/locksmith.sock")])]);
        ("telemetry", YNull); ("tools", YSequence [ymap tool_doc])].

Definition parse0 (s : string) : option Yaml := if bool_decide (s = "doc") then Some file_doc else None.
Definition disk0 (p : string) : result string string :=
  if bool_decide (p = "/etc/locksmith.yaml") then Ok "doc" else Err "not found".

Definition load0 : option (result LoadError ConfigFile * list Warning) :=
  load_config (fun _ => true) parse0 10 (fun _ => None) disk0 "/etc/locksmith.yaml".

Definition loaded : ConfigFile :=
  match load0 with
  | Some (Ok c, _) => c
  | _ => {| cf_listen := default_listen; cf_inbound_auth := None; cf_egress_proxy := None;
            cf_kamiwaza := None; cf_tls := None; cf_logging := None;
            cf_shutdown := default_shutdown; cf_tools := []; cf_operator_credentials_path := None;
            cf_database := None; cf_audit := None |}
  end.

Definition warned0 : list Warning := match load0 with Some (_, w) => w | None => [] end.

Example loaded_tool :
  (fun t => (tc_name t, tc_egress t, tc_timeouts t, ta_value <$> tc_auth t)) <$> cf_tools loaded =
  [("gh", Proxied, {| request_seconds := 5; idle_seconds := 60 |},
    Some (FromEnv "TOKEN" (Some "Bearer ")))].
Proof. vm_compute. reflexivity. Qed.

Lemma load_config_sound_witness :
  load0 = Some (Ok loaded, warned0) /\ List.length (cf_tools loaded) = 1%nat /\
  config_in_range loaded /\
  w_field <$> warned0 = ["telemetry"; "tools[].cloud"; "tools[].timeout_seconds"] /\
  NoDup (w_field <$> warned0).
Proof.
  assert (E : load0 = Some (Ok loaded, warned0)) by (vm_compute; reflexivity).
  destruct (load_config_sound _ _ _ _ _ _ _ _ E) as (L & (? & ? & ? & _ & _ & _ & N & _) & _).
  split; [exact E|]. split; [vm_compute; reflexivity|]. split; [exact L|].
  split; [vm_compute; reflexivity|exact N].
Defined.

Lemma secret_ref_roundtrip_witness :
  deserialize_secret_ref (ymap [("from_env", ymap [("var", YString "TOKEN")])]) =
  Ok (FromEnv "TOKEN" None).
Proof. apply secret_ref_roundtrip. reflexivity. Defined.

Definition legacy_tool : option ToolConfig :=
  de_ToolConfig (translate_tool (ymap tool_doc) default_registry).1.1.

Lemma legacy_tool_read_witness :
  exists t, legacy_tool = Some t /\ tc_egress t = Proxied /\ idle_seconds (tc_timeouts t) = 60.
Proof.
  destruct legacy_tool as [t|] eqn:E; [|discriminate].
  destruct (legacy_tool_read _ _ _ E) as (C & _ & T). exists t. split; [done|].
  split; [by apply (C (YBool true))|]. by apply (T (YNumber "5")).
Defined.
End ConfigFileWitness.
