(* ===== verification/AppBuild.v ===== *)
(** * Building the agent router's state ([src/app.rs], [src/main.rs])

    The chain of [build_app] constructors, each of which fills in what the
    next one adds, and the program from its configuration file to the state
    that is served.  Routing itself is [Gateway] and [Discovery]. *)

From S2P Require Import AuditSink.
From S2P Require Import Prelude Json Http Token Argon2Helper AgentRepo.
From S2P Require Import BootstrapRepo AuditLog Auth Secret CodexBody ResponseControls.
From S2P Require Import Config Registrations SeedLoader Oauth AgentCreds AdminService.
From S2P Require Import OauthAdmin AdminHttp RouterInvariant Strings Revocation Shutdown.
From S2P Require Import Proxy Deprecation Startup ConfigFile.

Section Build.
Context `{RegexCrate}.

(** What the router is built around: the proxy's state, what the middleware
    consults and the table behind the listings. *)
Record Built := {
  b_state : AppState;
  b_auth : AuthConfig;
  b_registrations : option RegistrationRepository
}.

Definition build_app_full_with_phase_g (config : ConfigFile) (audit : option AuditRepository)
    (creds : gmap string string) (mtls : option MtlsValidator) (agent_auth : option string)
    (registrations : option RegistrationRepository) (catalog : Catalog)
    (oauth : option OauthRuntime) (agent_creds : option AgentCredentialRepository) : Built :=
  {| b_state := {| st_config := app_config config; st_catalog := catalog; st_creds := creds;
                   st_response_controls := compile_response_controls (app_config config);
                   st_agent_creds := agent_creds; st_oauth := oauth; st_audit := audit |};
     b_auth := {| auth_mode := lc_auth_mode (cf_listen config); mtls_authenticator := mtls;
                  agent_auth := agent_auth; inbound_auth := cf_inbound_auth config |};
     b_registrations := registrations |}.

Definition build_app_full_with_oauth config audit creds mtls agent_auth registrations catalog oauth :=
  build_app_full_with_phase_g config audit creds mtls agent_auth registrations catalog oauth None.

Definition build_app_full_with_catalog config audit creds mtls agent_auth registrations catalog :=
  build_app_full_with_oauth config audit creds mtls agent_auth registrations catalog None.

Definition build_app_full_with_registrations config audit creds mtls agent_auth registrations :=
  build_app_full_with_catalog config audit creds mtls agent_auth registrations ∅.

Definition build_app_full config audit creds mtls agent_auth :=
  build_app_full_with_registrations config audit creds mtls agent_auth None.

Definition build_app_with_audit_and_creds config audit creds :=
  build_app_full config audit creds None None.

(** The synchronous resolution of the credentials; [None] when the fuel of
    an expansion runs out. *)
Definition build_app_with_audit (fuel : nat) (env : string -> option string) (config : ConfigFile)
    (audit : option AuditRepository) : option Built :=
  build_app_with_audit_and_creds config audit
    <$> resolve_tool_creds_sync_env_only fuel env (app_config config).

Definition build_app_with_shared_config fuel env config := build_app_with_audit fuel env config None.
Definition build_app fuel env config := build_app_with_shared_config fuel env config.
End Build.

(** [main] of the daemon: its exit code. *)
Definition locksmithd_main (loaded : result LoadError ConfigFile)
    (run : ConfigFile -> ShutdownCoordinator -> result DaemonError unit) : Z :=
  match loaded with
  | Err _ => 1
  | Ok c =>
      match run c (new_coordinator (1000 * drain_window_seconds (cf_shutdown c))) with
      | Err _ => 1
      | Ok _ => 0
      end
  end.

(** What the daemon passes from the substrate. *)
Definition setup_audit (s : option AdminSetup) : option AuditRepository :=
  s ≫= fun x => sv_audit (us_admin (setup_uds x)).
Definition setup_registrations (s : option AdminSetup) : option AdminRegistrationsState :=
  s ≫= fun x => us_registrations (setup_uds x).

Section Daemon.
Context `{Base64Url} `{Base64Std} `{Argon2Crate} `{X509Crate} `{PemCrate} `{RegexCrate}.

(** The state start-up serves is built by the last constructor from the
    parts of the substrate. *)
Lemma app_state_built cfg resolved setup mtls :
  let regs := setup_registrations setup in
  let b := build_app_full_with_phase_g cfg (setup_audit setup)
    (default resolved (regs ≫= resolved_creds)) mtls (uc_agent_decoy ∘ setup_config <$> setup)
    (repo <$> regs) (default ∅ (regs ≫= catalog)) (setup ≫= setup_oauth)
    (setup ≫= fun s => us_agent_creds (setup_uds s)) in
  app_state (daemon_config cfg) resolved setup = b_state b /\
  b_auth b = {| auth_mode := listen_auth_mode (daemon_config cfg); mtls_authenticator := mtls;
                agent_auth := uc_agent_decoy ∘ setup_config <$> setup;
                inbound_auth := dc_inbound_auth (daemon_config cfg) |}.
Proof. by destruct setup as [s|]. Qed.

Context `{HttpCrate}.
Context (env : string -> option string) (fuel : nat).
Context (open_and_migrate : string -> result string Tables).
Context (create_parent : string -> result string unit).
Context (read_to_string : string -> result string string) (bind_agent : result string unit).
Context (seed_file : string -> option (option string)) (parse_yaml : string -> option SeedCatalog).
Context (parse_operators : string -> result string (list OperatorRecord)).
Context (io : AuditSink.Io) (base_of : string -> BasePath) (disk : Fs) (sink_text : AuditSink.IoError -> string).
Context (sealed_files : string -> result BackendError string) (decoy_salt : string).
Context (seed_text : SeedLoadError -> string) (registration_text : RegistrationError -> string).
Context (hash_text : HashError -> string) (key_text : SealingKeyError -> string).
Context (mode_text : AuthMode -> string).

Abbreviation start_daemon :=
  (start env fuel open_and_migrate create_parent read_to_string bind_agent seed_file parse_yaml
     parse_operators io base_of disk sink_text sealed_files decoy_salt seed_text registration_text
     hash_text key_text mode_text).

Lemma app_start_inv cfg now sv :
  start_daemon cfg now = Some (Ok sv) ->
  sv_auth sv = {| auth_mode := listen_auth_mode cfg; mtls_authenticator := mtls_authenticator (sv_auth sv);
                  agent_auth := uc_agent_decoy ∘ setup_config <$> sv_setup sv;
                  inbound_auth := dc_inbound_auth cfg |} /\
  isSome (sv_setup sv) = isSome (admin_socket cfg).
Proof.
  unfold start, check_config, admin_setup. destruct (resolve_tool_creds _ _ _ _) as [m|].
  2: { repeat case_match; done. }
  destruct (admin_socket cfg) as [sock|]; simpl.
  - destruct (database cfg) as [db|]; simpl; [|done].
    destruct (operator_credentials_path cfg) as [ops|]; simpl; [|done].
    destruct (build_admin_substrate _ _ _ _ _ _ _ _ _ _ _ _ _ _ _ _ _ _ _ _ _) as [su|]; [|done].
    simpl. repeat (case_match; try done). by intros [= <-].
  - repeat (case_match; try done); by intros [= <-].
Qed.

(** Whatever the configuration file says: with an admin socket the daemon
    that starts lets no request past the middleware without an authenticated
    agent, apart from the exempt routes. *)
Theorem admin_socket_enforces_agents cfg now sv now_s now_ms req s req' s' :
  start_daemon (daemon_config cfg) now = Some (Ok sv) ->
  isSome (lc_admin_socket (cf_listen cfg)) = true ->
  auth_middleware (sv_auth sv) now_s now_ms req s = (Auth.Next req', s') -> exempt req = false ->
  exists id, identity (req_ext req') = Some id.
Proof.
  intros Hs Ha Hm He. destruct (app_start_inv _ _ _ Hs) as [E1 E2].
  change (admin_socket (daemon_config cfg)) with (lc_admin_socket (cf_listen cfg)) in E2.
  rewrite Ha in E2. destruct (sv_setup sv) as [su|]; [|done].
  destruct (middleware_next (sv_auth sv) now_s now_ms req s req' s' (uc_agent_decoy (setup_config su)))
    as (id & Hid & _); [by rewrite E1|done|done|]. by exists id.
Qed.
End Daemon.
