(* ===== verification/Listeners.v ===== *)
(** * TLS listeners and the bootstrap-only router

    [agent_listener.rs]: the TLS server configuration for the mTLS modes, the
    accept loop and the certificate stamped on every request of a connection.
    [admin/bootstrap_listener.rs]: the router that only registers agents, and
    its equivalence with the registration route of the admin router.
    [rustls], [rustls-pemfile] and [webpki] are the class [RustlsCrate]. *)

From S2P Require Import Prelude Json Http Token Argon2Helper AgentRepo.
From S2P Require Import BootstrapRepo AuditLog Auth Registrations Oauth OauthAdmin.
From S2P Require Import ResponseControls AdminService AdminHttp Revocation Strings.

(** ** The TLS configuration *)

(** The certificate chain and key the server shows, the roots clients must
    chain to, and whether a client must present a certificate at all. *)
Record ServerConfig := {
  sc_chain : list string;
  sc_key : string;
  sc_roots : list string;
  sc_mandatory : bool
}.

Class RustlsCrate : Type := {
  pem_certs : string -> result string (list string);
  pem_private_key : string -> result string (option string);
  root_usable : string -> bool;
  build_verifier : list string -> bool -> result string unit;
  with_single_cert : list string -> string -> result string unit;
  connection : Type;
  chains_to : list string -> string -> bool;
  tls_accept : ServerConfig -> connection -> option (option (list string))
}.

(** [WebPkiClientVerifier]: a completed handshake either showed a verified
    leaf first, or showed nothing where that is allowed. *)
Class RustlsLaws `{RustlsCrate} : Prop := {
  accept_verified : forall sc c certs, tls_accept sc c = Some certs ->
    match certs with
    | None => sc_mandatory sc = false
    | Some [] => False
    | Some (leaf :: _) => chains_to (sc_roots sc) leaf = true
    end
}.

Section Listener.
Context `{RustlsCrate} `{PemCrate}.
Context (read_file : string -> result string string).

Inductive IoError := OsError (t : string) | InvalidData (t : string).

(** The usable CERTIFICATE blocks of the bundle. *)
Definition client_roots (ca_bundle_pem : string) : result IoError (list string) :=
  let? blocks := map_err (fun e => InvalidData ("ca bundle parse: " +:+ e)) (parse_many ca_bundle_pem) in
  match List.filter root_usable
          (map snd (List.filter (fun b => bool_decide (b.1 = "CERTIFICATE")) blocks)) with
  | [] => Err (InvalidData "ca bundle: no usable trust anchors")
  | roots => Ok roots
  end.

(** [None] is the [unreachable!] of bearer mode. *)
Definition build_server_config (cert_path key_path ca_bundle_pem : string) (mode : AuthMode)
  : option (result IoError ServerConfig) :=
  let prepared :=
    let? cert_pem := map_err OsError (read_file cert_path) in
    let? key_pem := map_err OsError (read_file key_path) in
    let? chain := map_err (fun e => InvalidData ("server cert parse: " +:+ e)) (pem_certs cert_pem) in
    let? _ := match chain with
              | [] => Err (InvalidData (cert_path +:+ ": no CERTIFICATE PEM blocks"))
              | _ => Ok tt
              end in
    let? key := map_err (fun e => InvalidData ("server key parse: " +:+ e)) (pem_private_key key_pem) in
    let? key := ok_or (InvalidData (key_path +:+ ": no PRIVATE KEY block")) key in
    let? roots := client_roots ca_bundle_pem in
    Ok (chain, key, roots) in
  match prepared with
  | Err e => Some (Err e)
  | Ok (chain, key, roots) =>
      (fun mandatory =>
         let? _ := map_err (fun e => InvalidData ("client cert verifier: " +:+ e))
                     (build_verifier roots mandatory) in
         let? _ := map_err (fun e => InvalidData ("server config: " +:+ e))
                     (with_single_cert chain key) in
         Ok {| sc_chain := chain; sc_key := key; sc_roots := roots; sc_mandatory := mandatory |})
      <$> match mode with MtlsMode => Some true | BothMode => Some false | BearerMode => None end
  end.

(** ** The accept loop *)

(** What [select!] finds: the shutdown future is looked at first
    ([biased]), then the next connection or accept error. *)
Record Poll := { shutdown_ready : bool; accepted : result string connection }.

(** The connections a task is spawned for, and whether the loop has ended. *)
Fixpoint accept_loop (polls : list Poll) : list connection * bool :=
  match polls with
  | [] => ([], false)
  | p :: ps =>
      if shutdown_ready p then ([], true)
      else match accepted p with
           | Err _ => accept_loop ps
           | Ok c => let '(cs, ended) := accept_loop ps in (c :: cs, ended)
           end
  end.

(** [req.extensions_mut().insert(peer_cert)]. *)
Definition stamp_peer (cert : option string) (req : Request) : Request :=
  {| req_method := req_method req; req_path := req_path req; req_query := req_query req;
     req_headers := req_headers req; req_body := req_body req;
     req_ext := {| peer_cert := Some cert; authenticated_as := authenticated_as (req_ext req);
                   identity := identity (req_ext req) |} |}.

(** The router on the requests of one connection, in order. *)
Fixpoint serve_all {St} (app : Request -> St -> Response * St) (reqs : list Request) (st : St)
  : list Response * St :=
  match reqs with
  | [] => ([], st)
  | req :: reqs =>
      let '(resp, st) := app req st in
      let '(resps, st) := serve_all app reqs st in (resp :: resps, st)
  end.

(** [handle_conn]: nothing is served when the handshake fails; otherwise every
    request carries the leaf certificate of the handshake. *)
Definition handle_conn {St} (app : Request -> St -> Response * St) (sc : ServerConfig)
    (c : connection) (reqs : list Request) (st : St) : list Response * St :=
  match tls_accept sc c with
  | None => ([], st)
  | Some certs => serve_all app (map (stamp_peer (certs ≫= head)) reqs) st
  end.

(** Once the shutdown future is ready no further connection is served, and
    before that an accept error only skips its turn. *)
Lemma accept_loop_spec before p after :
  (forall q, q ∈ before -> shutdown_ready q = false) -> shutdown_ready p = true ->
  accept_loop (before ++ p :: after) =
  (omap (fun q => match accepted q with Ok c => Some c | Err _ => None end) before, true).
Proof.
  intros Hb Hp. induction before as [|q before IH]; simpl; [by rewrite Hp|].
  rewrite Hb by left. rewrite IH by (intros; apply Hb; by right). by destruct (accepted q).
Qed.
End Listener.

(** ** Who reaches the router *)

Section Stamped.
Context `{RustlsLaws} `{PemCrate}.
Context (read_file : string -> result string string).

Lemma client_roots_inv pem roots :
  client_roots pem = Ok roots ->
  exists blocks, parse_many pem = Ok blocks /\ roots <> [] /\
    forall r, r ∈ roots -> ("CERTIFICATE", r) ∈ blocks /\ root_usable r = true.
Proof.
  unfold client_roots. destruct (parse_many pem) as [blocks|]; simpl; [|done].
  destruct (List.filter root_usable _) as [|x l] eqn:E; [done|]. intros [= <-].
  exists blocks. split; [done|]. split; [done|]. intros r Hr. rewrite <- E in Hr.
  apply list_elem_of_In, filter_In in Hr as [Hr Hu]. split; [|done].
  apply in_map_iff in Hr as ([tag d] & <- & Hf). apply filter_In in Hf as [Hf Ht].
  apply bool_decide_eq_true in Ht. simpl in *. subst. by apply list_elem_of_In.
Qed.

Lemma server_config_inv cert key pem mode sc :
  build_server_config read_file cert key pem mode = Some (Ok sc) ->
  client_roots pem = Ok (sc_roots sc) /\ sc_chain sc <> [] /\
  (sc_mandatory sc = true <-> mode = MtlsMode) /\ mode <> BearerMode.
Proof.
  unfold build_server_config.
  destruct (read_file cert) as [cp|]; [simpl|by destruct mode].
  destruct (read_file key) as [kp|]; [simpl|by destruct mode].
  destruct (pem_certs cp) as [[|c cs]|]; simpl; try (by destruct mode).
  destruct (pem_private_key kp) as [[k|]|]; simpl; try (by destruct mode).
  destruct (client_roots pem) as [roots|]; simpl; [|by destruct mode].
  destruct mode; simpl; try done;
    (destruct (build_verifier roots _); simpl; [|done]);
    (destruct (with_single_cert _ k); simpl; [|done]); intros [= <-]; done.
Qed.

(** C34: What the router behind an mTLS listener is called with, on any
    connection and whatever the requests carried: a certificate that chains
    to roots taken from the CERTIFICATE blocks of the configured bundle or, in
    the mode [both] only, no certificate; the same one for every request of
    the connection. *)
Theorem peer_cert_verified {St} (app : Request -> St -> Response * St)
    cert key pem mode sc c reqs st :
  build_server_config read_file cert key pem mode = Some (Ok sc) ->
  handle_conn app sc c reqs st = ([], st) \/
  exists leaf, handle_conn app sc c reqs st = serve_all app (map (stamp_peer leaf) reqs) st /\
    match leaf with
    | Some der =>
        chains_to (sc_roots sc) der = true /\ sc_roots sc <> [] /\
        exists blocks, parse_many pem = Ok blocks /\
          forall r, r ∈ sc_roots sc -> ("CERTIFICATE", r) ∈ blocks
    | None => mode = BothMode
    end.
Proof.
  intros (Hr & _ & Hm & Hb)%server_config_inv. unfold handle_conn.
  destruct (tls_accept sc c) as [certs|] eqn:E; [|by left]. right. eexists. split; [reflexivity|].
  apply accept_verified in E. destruct certs as [[|leaf l]|]; simpl; [done| |].
  - apply client_roots_inv in Hr as (blocks & Hp & Hne & Hr). split; [done|]. split; [done|].
    exists blocks. split; [done|]. intros r Hi. by apply Hr.
  - destruct mode; try done. destruct Hm as [_ Hm]. by rewrite Hm in E.
Qed.
End Stamped.

(** ** The bootstrap-only listener *)

Section Bootstrap.
Context `{Base64Url} `{Base64Std} `{Argon2Crate} `{HttpCrate} `{Extractors}.
Context (crate_text : RepoError -> string).

Definition bootstrap_err_response (e : AdminError) : Response :=
  let '(status, code) :=
    match e with
    | InvalidBootstrap => (401, "invalid_credential")
    | AdminNameConflict => (409, "agent_name_conflict")
    | AdminAgentNotFound => (404, "agent_not_found")
    | _ => (500, "backend_error")
    end in
  json_response status
    (error_envelope [("code", JString code); ("message", JString (admin_error_display e))]).

Definition bootstrap_handle_register (c : Call) (input : RegisterInput) (s : AdminService)
  : Response * AdminService :=
  let '(r, s) := register_agent crate_text c input s in
  (match r with
   | Ok out => json_response 200 (register_json out)
   | Err e => bootstrap_err_response e
   end, s).

(** [build_router], applied to a request. *)
Definition bootstrap_router (c : Call) (req : Request) (s : AdminService)
  : Response * AdminService :=
  if negb (bool_decide (req_path req = "/admin/agent/register")) then (no_route req, s)
  else if negb (bool_decide (req_method req = "POST")) then (method_not_allowed req, s)
  else match dec_register req with
       | None => (rejection req, s)
       | Some input => bootstrap_handle_register c input s
       end.
End Bootstrap.

Section BootstrapFacts.
Context `{Base64Url} `{Base64Std} `{Argon2Crate} `{HttpCrate} `{X509Crate}.
Context `{AesGcm} `{SerdeJson} `{Sha2Crate} `{Extractors}.
Context (crate_text : RepoError -> string).

(** The errors registration can end with. *)
Definition register_error (e : AdminError) : Prop :=
  e <> AdminRotationInProgress /\ e <> NotAuthorized.

Lemma query_err {A} (db : AgentDb) (r : result RepoError A * AgentDb) e :
  (query db r).1 = Err e -> r.1 = Err e \/ e = Sqlx.
Proof. unfold query. destruct (online db); simpl; [by left|]. intros [= <-]. by right. Qed.

Lemma create_error_cases name desc al dl md ex rng t db e :
  (create name desc al dl md ex rng t db).1 = Err e ->
  (exists h, e = Hash h) \/ (exists n, e = AgentNameConflict n) \/ e = Sqlx.
Proof.
  unfold create. destruct (hash _ _) as [h|h]; simpl; [|intros [= <-]; by eauto].
  intros [E|E]%query_err; [|by auto]. destruct (sql_exists _ _); simpl in E; [|done].
  injection E as <-. eauto.
Qed.

Lemma consume_error_cases ex pid sec aid t db e :
  (consume ex pid sec aid t db).1 = Err e ->
  e = AgentRepo.InvalidCredential \/ e = Sqlx \/ exists h, e = Hash h.
Proof.
  unfold consume, consume_read, consume_mark. repeat case_match; simpl; intros; simplify_eq; eauto.
Qed.

Lemma preview_err pid t db e :
  preview_scope pid t db = Err e -> e = AgentRepo.InvalidCredential \/ e = Sqlx.
Proof. unfold preview_scope. repeat case_match; intros; simplify_eq; auto. Qed.

Lemma register_errors c input s e :
  (register_agent crate_text c input s).1 = Err e -> register_error e.
Proof.
  assert (I : forall e0, (register_agent_inner crate_text c input s).1 = Err e0 -> register_error e0).
  { intros e0. unfold register_agent_inner. destruct (parse _) as [[[ns pid] sec]|]; simpl; [|by intros [= <-]].
    destruct (negb _); [by intros [= <-]|].
    destruct (preview_scope _ _ _) as [sc|] eqn:Ep; simpl.
    2: { intros [= <-]. by destruct (preview_err _ _ _ _ Ep) as [->| ->]. }
    destruct (create _ _ _ _ _ _ _ _ _) as [[[apid asec]|err] db] eqn:Ec; simpl.
    2: { intros [= <-]. by destruct (create_error_cases _ _ _ _ _ _ _ _ _ err (f_equal fst Ec))
           as [[h ->]|[[n ->]| ->]]. }
    unfold get_active_by_public_id. destruct (online db); simpl; [|by intros [= <-]].
    destruct (find_first _ _) as [agent|]; simpl; [|by intros [= <-]].
    destruct (consume _ _ _ _ _ _) as [[sc'|err] bt] eqn:Eu; simpl; [done|]. intros [= <-].
    by destruct (consume_error_cases _ _ _ _ _ _ err (f_equal fst Eu)) as [->|[->|[h ->]]]. }
  unfold register_agent. destruct (register_agent_inner _ _ _ _) as [[out|e0] s']; simpl in *; [done|].
  destruct (is_reuse _ _ _ _); simpl; intros [= <-]; by apply I.
Qed.

Context (cfg : UdsConfig) (env : string -> option string).
Context (post : string -> list (string * string) -> option (Z * option TokenResponse)).
Context (registration_text : RegistrationError -> string).
Context (session_text : OauthSessionError -> string) (refresh_text : RefreshError -> string).

(** C7: The bootstrap-only router does what the admin router does with a POST to
    the registration route, response and effect, although it maps errors by
    a table of its own; and no other request to it changes anything. *)
Theorem bootstrap_router_equiv ef req st :
  if bool_decide (req_path req = "/admin/agent/register") && bool_decide (req_method req = "POST")
  then admin_router cfg env post crate_text registration_text session_text refresh_text ef req st =
       (let '(resp, s) := bootstrap_router crate_text (ef_call ef) req (us_admin st) in
        (resp, with_admin s st))
  else (bootstrap_router crate_text (ef_call ef) req (us_admin st)).2 = us_admin st.
Proof.
  unfold bootstrap_router. case_bool_decide as Hp; [|done]. case_bool_decide as Hm; [|done].
  unfold admin_router. rewrite Hp. simpl.
  replace (split_path "/admin/agent/register") with [""; "admin"; "agent"; "register"]
    by (vm_compute; reflexivity). simpl.
  unfold agent_nest. simpl. unfold handle_register, extract.
  destruct (dec_register req) as [input|]; [|by destruct st]. unfold reply_with, bootstrap_handle_register.
  pose proof (register_errors (ef_call ef) input (us_admin st)) as R.
  destruct (register_agent _ _ _ _) as [[out|e] s']; simpl; [done|].
  destruct (R e eq_refl) as [R1 R2]. by destruct e.
Qed.
End BootstrapFacts.

Module ListenersWitness.
Import Base64Model Argon2Model HttpModel.

(** A server with one trusted root; connection 1 shows a certificate of that
    root, connection 0 shows none, connection 2 an untrusted one. *)
#[export] Instance rustls : RustlsCrate := {|
  pem_certs p := if bool_decide (p = "") then Err "empty" else Ok [p];
  pem_private_key p := Ok (if bool_decide (p = "") then None else Some p);
  root_usable r := bool_decide (r = "root");
  build_verifier roots _ := if bool_decide (roots = []) then Err "no roots" else Ok tt;
  with_single_cert _ _ := Ok tt;
  connection := nat;
  chains_to roots leaf := existsb (fun r => bool_decide (leaf = r +:+ "/leaf")) roots;
  tls_accept sc c :=
    match c with
    | 0%nat => if sc_mandatory sc then None else Some None
    | 1%nat => if existsb (fun r => bool_decide ("root/leaf" = r +:+ "/leaf")) (sc_roots sc)
               then Some (Some ["root/leaf"]) else None
    | _ => None
    end
|}.

#[export] Instance rustls_laws : RustlsLaws.
Proof.
  split. intros sc [|[|c]] certs; simpl; [| |done].
  - destruct (sc_mandatory sc) eqn:E; [done|]. by intros [= <-].
  - destruct (existsb _ _) eqn:E; [|done]. by intros [= <-].
Qed.

#[export] Instance pem : PemCrate := {|
  parse_many p := Ok [("CERTIFICATE", p); ("COMMENT", "x")];
  crl_from_der _ := Err "none"
|}.

Definition files (p : string) : result string string := Ok p.

Definition config : ServerConfig :=
  {| sc_chain := ["cert"]; sc_key := "key"; sc_roots := ["root"]; sc_mandatory := true |}.

(** An application that only keeps what it was called with. *)
Definition tracing (req : Request) (log : list (option (option string)))
  : Response * list (option (option string)) :=
  (status_response 200, log ++ [peer_cert (req_ext req)]).

Definition plain : Request :=
  {| req_method := "GET"; req_path := "/skill"; req_query := None; req_headers := [];
     req_body := ""; req_ext := {| peer_cert := None; authenticated_as := None; identity := None |} |}.

Example stamped : (handle_conn tracing config 1%nat [plain; plain] []).2 =
  [Some (Some "root/leaf"); Some (Some "root/leaf")].
Proof. reflexivity. Qed.

Example refused : handle_conn tracing config 0%nat [plain] [] = ([], []).
Proof. reflexivity. Qed.

Lemma peer_cert_verified_witness :
  handle_conn tracing config 1%nat [plain] [] = ([], []) \/
  exists leaf, handle_conn tracing config 1%nat [plain] [] =
      serve_all tracing (map (stamp_peer leaf) [plain]) [] /\
    match leaf with
    | Some der =>
        chains_to (sc_roots config) der = true /\ sc_roots config <> [] /\
        exists blocks, parse_many "root" = Ok blocks /\
          forall r, r ∈ sc_roots config -> ("CERTIFICATE", r) ∈ blocks
    | None => MtlsMode = BothMode
    end.
Proof. apply (peer_cert_verified files tracing "cert" "key" "root"). reflexivity. Defined.

End ListenersWitness.
