(* ===== verification/Cli.v ===== *)
(** * The [locksmith] command line ([src/cli])

    [cli/client.rs] (transport choice, token sources, statuses and exit
    codes), the requests of every operator and agent command
    ([cli/commands/*.rs]) and [bootstrap-operator].  A command is planned
    from its arguments and the environment, then performed: [exchange] sends
    the wire message to the daemon and gives its status and body.  Argument
    parsing is [clap]'s; printing is left out, [perform] returns the value to
    print.  The file-based [mtls] commands are in [Revocation]. *)

From S2P Require Import Prelude Json Http Token Argon2Helper AgentRepo.
From S2P Require Import BootstrapRepo AuditLog Auth Secret ResponseControls Config.
From S2P Require Import Registrations Oauth AgentCreds AdminService OauthAdmin AdminHttp.
From S2P Require Import Strings KamiwazaNames.

(** ** Errors *)

Inductive CliError :=
| MissingOpToken
| MissingAgentToken
| MalformedAgentToken
| CliTransport (t : string)
| HttpsTransport (t : string)
| InvalidAdminUrl (t : string)
| CliServer (status : Z) (body : string)
| CliDecode
| CliIo (t : string)
| Usage (t : string).

Definition exit_code (e : CliError) : Z :=
  match e with
  | MissingOpToken | MissingAgentToken | MalformedAgentToken => 3
  | CliServer 401 _ | CliServer 403 _ => 3
  | CliServer 404 _ => 4
  | CliServer 409 _ => 5
  | InvalidAdminUrl _ | Usage _ => 2
  | _ => 1
  end.

(** ** The client *)

Inductive Transport := Uds (socket : string) | Https (base_url : string).

Record Wire := {
  w_method : string;
  w_target : string;
  w_headers : HeaderMap;
  w_body : option string
}.

(** [read_file] and what [reqwest] makes of the CA bundle. *)
Definition from_options (read_file : string -> result string string)
    (client_builds : option string -> result string unit)
    (socket : string) (admin_url ca_bundle : option string) : result CliError Transport :=
  match admin_url with
  | None => Ok (Uds socket)
  | Some url =>
      if negb (starts_with "https://" url || starts_with "http://" url)
      then Err (InvalidAdminUrl ("must start with https:// (got " +:+ url +:+ ")"))
      else
        let? pem := match ca_bundle with
                    | None => Ok None
                    | Some ca => let? p := map_err CliIo (read_file ca) in Ok (Some p)
                    end in
        let? _ := map_err HttpsTransport (client_builds pem) in
        Ok (Https (trim_end_matches "/" url))
  end.

Definition op_token (env : string -> option string) : result CliError string :=
  ok_or MissingOpToken (env "LOCKSMITH_OP_TOKEN").

Definition agent_token (env : string -> option string) : result CliError string :=
  ok_or MissingAgentToken (env "LOCKSMITH_AGENT_TOKEN").

(** How a command treats the reply: [client.json] and the part of the value
    it prints, [client.json] with nothing printed, or [client.unit] and a
    value of its own to print. *)
Inductive Reply :=
| PrintJson (pick : Json -> Json)
| DiscardJson
| NoBody (printed : option Json).

(** One request: method, path with query, bearer token, body, reply. *)
Record Plan := {
  pl_method : string;
  pl_target : string;
  pl_token : string;
  pl_body : option Json;
  pl_reply : Reply
}.

Definition request_plan (m t token : string) (b : option Json) (r : Reply) : Plan :=
  {| pl_method := m; pl_target := t; pl_token := token; pl_body := b; pl_reply := r |}.

Section Client.
Context `{SerdeJson}.

(** [raw]'s message; [UdsClient::request] adds the [host] header. *)
Definition wire (tr : Transport) (p : Plan) : Wire :=
  let headers := ("authorization", "Bearer " +:+ pl_token p)
                 :: (if isSome (pl_body p) then [("content-type", "application/json")] else []) in
  match tr with
  | Uds _ => {| w_method := pl_method p; w_target := pl_target p;
                w_headers := ("host", "locksmith.local") :: headers;
                w_body := to_vec <$> pl_body p |}
  | Https base => {| w_method := pl_method p; w_target := base +:+ pl_target p;
                     w_headers := headers; w_body := to_vec <$> pl_body p |}
  end.

(** [json] and [unit] on the reply. *)
Definition read_reply (p : Plan) (status : Z) (bytes : string) : result CliError (option Json) :=
  if negb ((200 <=? status) && (status <? 300)) then Err (CliServer status bytes)
  else match pl_reply p with
       | PrintJson pick => let? v := ok_or CliDecode (from_slice bytes) in Ok (Some (pick v))
       | DiscardJson => let? _ := ok_or CliDecode (from_slice bytes) in Ok None
       | NoBody printed => Ok printed
       end.

Section Perform.
Context {St : Type} (exchange : Transport -> Wire -> St -> result CliError (Z * string) * St).

Definition perform (tr : Transport) (plan : result CliError Plan) (st : St)
  : result CliError (option Json) * St :=
  match plan with
  | Err e => (Err e, st)
  | Ok p =>
      match exchange tr (wire tr p) st with
      | (Err e, st) => (Err e, st)
      | (Ok (status, bytes), st) => (read_reply p status bytes, st)
      end
  end.
End Perform.
End Client.

(** [main]'s exit code. *)
Definition exit_of {A} (r : result CliError A) : Z :=
  match r with Ok _ => 0 | Err e => exit_code e end.

(** [v[key]]: [null] when there is no such entry. *)
Definition index_or_null (k : string) (v : Json) : Json := default JNull (json_get k v).

(** ** Agent commands *)

Record SetCredentialArgs := {
  sca_id : string;
  sca_registration : string;
  sca_auth : option string;
  sca_no_auth : bool;
  sca_oauth_session : option string
}.

Inductive AgentCmd :=
| AgentList (include_revoked : bool)
| AgentGet (id : string)
| AgentRegister (name : string) (description : option string) (allowlist denylist : option (list string))
| AgentModify (id : string) (allowlist denylist : option (list string))
| AgentRevoke (id : string) (reason : option string)
| AgentSetCertIdentity (id : string) (cert_identity : option string) (clear : bool)
| AgentSetCredential (args : SetCredentialArgs)
| AgentUnsetCredential (id registration : string)
| AgentCredentialsList (id : string).

(** [c.is_ascii_alphanumeric() || c == '-' || c == '_'] on every char. *)
Definition label_char (c : N) : bool :=
  is_ascii_alphanumeric c || (c =? 45)%N || (c =? 95)%N.
Definition valid_label (l : string) : bool := forallb label_char (chars l).

Definition option_replace (input : option (list string)) : option (option (list string)) :=
  match input with
  | None => None
  | Some v => if bool_decide (v = ["-"]) then Some None else Some (Some v)
  end.

(** [debug] is [{:?}] of a string. *)
Section Commands.
Context (env : string -> option string) (debug : string -> string).

Definition bad_label (l : string) : CliError :=
  Usage ("session label must be ascii alphanumeric / '-' / '_'; got: " +:+ debug l).

Definition build_auth_spec (args : SetCredentialArgs) : result CliError Json :=
  if sca_no_auth args then Ok (json_obj [("kind", JString "none")])
  else match sca_oauth_session args with
  | Some label =>
      if negb (valid_label label) then Err (bad_label label)
      else Ok (json_obj [("kind", JString "oauth_device_code"); ("client_id", JString "");
                         ("scopes", JArray []); ("device_url", JString ""); ("token_url", JString "");
                         ("session_label", JString label)])
  | None =>
      let? auth := ok_or (Usage "must provide one of: --auth bearer=ENV, --auth header=H:ENV, --no-auth, --oauth-session LABEL")
                     (sca_auth args) in
      match strip_prefix "bearer=" auth with
      | Some env_var =>
          if bool_decide (env_var = "") then Err (Usage "--auth bearer= requires an env var name")
          else Ok (json_obj [("kind", JString "bearer"); ("env_var", JString env_var)])
      | None =>
          match strip_prefix "header=" auth with
          | Some rest =>
              let? (header, env_var) := ok_or (Usage "--auth header= requires <Header-Name>:<ENV_VAR>")
                                          (split_once ":" rest) in
              if bool_decide (header = "") || bool_decide (env_var = "")
              then Err (Usage "--auth header= requires non-empty header and env var")
              else Ok (json_obj [("kind", JString "header"); ("header", JString header);
                                 ("env_var", JString env_var)])
          | None => Err (Usage ("--auth must start with 'bearer=' or 'header='; got: " +:+ debug auth))
          end
      end
  end.

Definition agent_path (id : string) : string := "/admin/operator/agents/" +:+ id.
Definition credentials_path (id : string) : string := agent_path id +:+ "/credentials".

Definition agent_plan (cmd : AgentCmd) : result CliError Plan :=
  let? token := op_token env in
  match cmd with
  | AgentList include_revoked =>
      Ok (request_plan "GET" (if include_revoked then "/admin/operator/agents?include_revoked=true"
                              else "/admin/operator/agents") token None
            (PrintJson (index_or_null "agents")))
  | AgentGet id => Ok (request_plan "GET" (agent_path id) token None (PrintJson (fun v => v)))
  | AgentRegister name description allowlist denylist =>
      Ok (request_plan "POST" "/admin/operator/agents" token
            (Some (json_obj [("name", JString name); ("description", json_opt JString description);
                             ("allowlist", strings_json allowlist);
                             ("denylist", strings_json denylist)])) (PrintJson (fun v => v)))
  | AgentModify id allowlist denylist =>
      Ok (request_plan "PATCH" (agent_path id) token
            (Some (json_obj [("allowlist", json_opt strings_json (option_replace allowlist));
                             ("denylist", json_opt strings_json (option_replace denylist))]))
            (NoBody None))
  | AgentRevoke id _ =>
      Ok (request_plan "POST" (agent_path id +:+ "/revoke") token None (NoBody None))
  | AgentSetCertIdentity id cert_identity clear =>
      let cleared := clear || bool_decide (cert_identity = Some "-") in
      Ok (request_plan "PATCH" (agent_path id +:+ "/cert_identity") token
            (Some (json_obj [("cert_identity",
                              if cleared then JNull else json_opt JString cert_identity)]))
            (NoBody None))
  | AgentSetCredential args =>
      let? spec := build_auth_spec args in
      Ok (request_plan "PUT" (credentials_path (sca_id args) +:+ "/" +:+ sca_registration args) token
            (Some (json_obj [("auth_spec", spec)])) (PrintJson (fun v => v)))
  | AgentUnsetCredential id registration =>
      Ok (request_plan "DELETE" (credentials_path id +:+ "/" +:+ registration) token None
            (NoBody (Some (json_obj [("agent", JString id); ("registration", JString registration);
                                     ("removed", JBool true)]))))
  | AgentCredentialsList id =>
      Ok (request_plan "GET" (credentials_path id) token None (PrintJson (index_or_null "overrides")))
  end.

(** ** Bootstrap tokens, audit, export *)

Inductive BootstrapCmd :=
| BtMint (allowlist : option (list string)) (reusable : bool) (expires_at : option Z)
| BtList
| BtRevoke (id : string).

Definition bootstrap_plan (cmd : BootstrapCmd) : result CliError Plan :=
  let? token := op_token env in
  match cmd with
  | BtMint allowlist reusable expires_at =>
      Ok (request_plan "POST" "/admin/operator/bootstrap_tokens" token
            (Some (json_obj [("tool_allowlist", strings_json allowlist);
                             ("single_use", JBool (negb reusable));
                             ("expires_at", json_opt JInt expires_at)])) (PrintJson (fun v => v)))
  | BtList =>
      Ok (request_plan "GET" "/admin/operator/bootstrap_tokens" token None
            (PrintJson (index_or_null "tokens")))
  | BtRevoke id =>
      Ok (request_plan "POST" ("/admin/operator/bootstrap_tokens/" +:+ id +:+ "/revoke") token None
            (NoBody None))
  end.

Record AuditQueryArgs := {
  aq_agent : option string; aq_tool : option string;
  aq_event_class : option string; aq_decision : option string;
  aq_since_ms : option Z; aq_until_ms : option Z;
  aq_limit : option Z; aq_offset : option Z
}.

Definition audit_query (q : AuditQueryArgs) : list string :=
  let str k o := match o with Some v => [k +:+ "=" +:+ v] | None => [] end in
  let num k o := str k (pretty.pretty <$> o) in
  str "agent" (aq_agent q) ++ str "tool" (aq_tool q) ++ str "event_class" (aq_event_class q)
  ++ str "decision" (aq_decision q) ++ num "since_ms" (aq_since_ms q)
  ++ num "until_ms" (aq_until_ms q) ++ num "limit" (aq_limit q) ++ num "offset" (aq_offset q).

Definition audit_plan (q : AuditQueryArgs) : result CliError Plan :=
  let? token := op_token env in
  let qs := audit_query q in
  Ok (request_plan "GET" (match qs with
                          | [] => "/admin/operator/audit"
                          | _ => "/admin/operator/audit?" +:+ join "&" qs
                          end) token None (PrintJson (index_or_null "events"))).

Definition export_plan : result CliError Plan :=
  let? token := op_token env in
  Ok (request_plan "GET" "/admin/operator/agents?include_revoked=true" token None
        (PrintJson (index_or_null "agents"))).

(** ** Registrations *)

(** [CliKind] mirrors [Kind]. *)
Definition cli_url_segment (k : Kind) : string :=
  match k with Tool => "tools" | Model => "models" | Infra => "infra" end.

Record PutOpts := {
  po_upstream : string;
  po_auth : option string;
  po_egress : option string;
  po_timeout_request : option Z;
  po_timeout_idle : option Z;
  po_body_limit : option Z;
  po_metadata : list (string * string);
  po_description : option string
}.

Definition parse_metadata_kv (s : string) : result string (string * string) :=
  let? (k, v) := ok_or ("metadata must be key=value, got: " +:+ s) (split_once "=" s) in
  if bool_decide (k = "") then Err ("metadata key empty in: " +:+ s) else Ok (k, v).

Definition parse_auth_spec (spec : option string) : result CliError (option Json) :=
  match spec with
  | None => Ok None
  | Some s =>
      let s := trim s in
      if bool_decide (s = "none") then Ok (Some (json_obj [("kind", JString "none")]))
      else match strip_prefix "bearer=" s with
      | Some rest =>
          if bool_decide (rest = "")
          then Err (Usage ("--auth bearer=<ENV_VAR>: missing env var name in: " +:+ s))
          else Ok (Some (json_obj [("kind", JString "bearer"); ("env_var", JString rest)]))
      | None =>
          match strip_prefix "header:" s with
          | Some rest =>
              let? (header, env_var) :=
                ok_or (Usage ("--auth header:<NAME>=<ENV_VAR>: missing '=' in: " +:+ s))
                  (split_once "=" rest) in
              if bool_decide (header = "") || bool_decide (env_var = "")
              then Err (Usage ("--auth header:<NAME>=<ENV_VAR>: name and env-var must be non-empty in: "
                               +:+ s))
              else Ok (Some (json_obj [("kind", JString "header"); ("header", JString header);
                                       ("env_var", JString env_var)]))
          | None => Err (Usage ("--auth must be one of: none | bearer=<ENV_VAR> | header:<NAME>=<ENV_VAR>; got: "
                                +:+ s))
          end
      end
  end.

(** The body of [do_put]: only what the operator set. *)
Definition put_body (opts : PutOpts) (auth : option Json) : Json :=
  let field {A} k (f : A -> Json) o := match o with Some v => [(k, f v)] | None => [] end in
  let timeouts := field "request_seconds" JInt (po_timeout_request opts)
                  ++ field "idle_seconds" JInt (po_timeout_idle opts) in
  json_obj ([("upstream", JString (po_upstream opts))]
            ++ field "description" JString (po_description opts)
            ++ field "auth" (fun v => v) auth
            ++ field "egress" JString (po_egress opts)
            ++ (match timeouts with [] => [] | _ => [("timeouts", json_obj timeouts)] end)
            ++ field "body_limit_bytes" JInt (po_body_limit opts)
            ++ (match po_metadata opts with
                | [] => []
                | md => [("metadata", json_obj (map (fun kv => (kv.1, JString kv.2)) md))]
                end)).

Inductive RegCmd :=
| RList
| RGet (name : string)
| RPut (name : string) (opts : PutOpts)
| RDelete (name : string)
| REnable (name : string).

Definition kind_path (k : Kind) (name : string) : string :=
  "/admin/operator/" +:+ cli_url_segment k +:+ "/" +:+ name.

Definition registration_plan (k : Kind) (cmd : RegCmd) : result CliError Plan :=
  let? token := op_token env in
  match cmd with
  | RList =>
      Ok (request_plan "GET" ("/admin/operator/" +:+ cli_url_segment k) token None
            (PrintJson (index_or_null (trim_end_matches "s" (cli_url_segment k) +:+ "s"))))
  | RGet name => Ok (request_plan "GET" (kind_path k name) token None (PrintJson (fun v => v)))
  | RPut name opts =>
      let? auth := parse_auth_spec (po_auth opts) in
      Ok (request_plan "PUT" (kind_path k name) token (Some (put_body opts auth)) (PrintJson (fun v => v)))
  | RDelete name => Ok (request_plan "DELETE" (kind_path k name) token None DiscardJson)
  | REnable name => Ok (request_plan "POST" (kind_path k name +:+ "/enable") token None DiscardJson)
  end.

(** ** OAuth sessions *)

Record OauthBootstrapArgs := {
  ob_name : string;
  ob_label : option string;
  ob_refresh_token : option string;
  ob_refresh_token_stdin : bool
}.

Inductive OauthCmd :=
| OauthBootstrap (args : OauthBootstrapArgs)
| OauthStatus (name : string) (label : option string)
| OauthRevoke (name : string) (label : option string)
| OauthList.

Definition with_label_query (path : string) (label : option string) : result CliError string :=
  match label with
  | None => Ok path
  | Some l =>
      if bool_decide (l = "default") then Ok path
      else if negb (valid_label l) then Err (bad_label l)
      else Ok (path +:+ (if contains_char (is_char "?") path then "&" else "?") +:+ "label=" +:+ l)
  end.

Definition oauth_path (name : string) : string := "/admin/operator/oauth/" +:+ name.

(** [stdin] is what reading standard input gives; [clap] rejects the two
    token options together. *)
Definition oauth_plan (stdin : result string string) (cmd : OauthCmd) : result CliError Plan :=
  match cmd with
  | OauthBootstrap args =>
      let? token := match ob_refresh_token args, ob_refresh_token_stdin args with
                    | Some t, _ => Ok t
                    | None, true => map_err (fun e => Usage ("read stdin: " +:+ e)) stdin
                    | None, false => Err (Usage "must provide either --refresh-token <TOKEN> or --refresh-token-stdin")
                    end in
      if bool_decide (trim token = "") then Err (Usage "refresh token is empty")
      else
        let? op := op_token env in
        let? path := with_label_query (oauth_path (ob_name args) +:+ "/bootstrap") (ob_label args) in
        Ok (request_plan "POST" path op (Some (json_obj [("refresh_token", JString (trim token))]))
              (PrintJson (fun v => v)))
  | OauthStatus name label =>
      let? op := op_token env in
      let? path := with_label_query (oauth_path name) label in
      Ok (request_plan "GET" path op None (PrintJson (fun v => v)))
  | OauthRevoke name label =>
      let? op := op_token env in
      let? path := with_label_query (oauth_path name) label in
      Ok (request_plan "DELETE" path op None
            (NoBody (Some (json_obj [("name", JString name); ("label", JString (default "default" label));
                                     ("revoked", JBool true)]))))
  | OauthList =>
      let? op := op_token env in
      Ok (request_plan "GET" "/admin/operator/oauth" op None (PrintJson (index_or_null "sessions")))
  end.

(** ** Self-service *)

Definition status_plan : result CliError Plan :=
  let? token := agent_token env in
  Ok (request_plan "GET" "/admin/agent/status" token None (PrintJson (fun v => v))).

Definition rotate_plan (current_secret : option string) : result CliError Plan :=
  let? token := agent_token env in
  let? sec := match current_secret with
              | Some s => Ok s
              | None => ok_or MalformedAgentToken (snd <$> split_once "." token)
              end in
  Ok (request_plan "POST" "/admin/agent/rotate" token
        (Some (json_obj [("current_secret", JString sec)])) (PrintJson (fun v => v))).

(** Every command that talks to the daemon. *)
Inductive Cmd :=
| CAgent (c : AgentCmd)
| CBootstrap (c : BootstrapCmd)
| CRegistration (k : Kind) (c : RegCmd)
| COauth (c : OauthCmd)
| CAudit (q : AuditQueryArgs)
| CExportAgents
| CStatus
| CRotate (current_secret : option string).

Definition cli_plan (stdin : result string string) (c : Cmd) : result CliError Plan :=
  match c with
  | CAgent c => agent_plan c
  | CBootstrap c => bootstrap_plan c
  | CRegistration k c => registration_plan k c
  | COauth c => oauth_plan stdin c
  | CAudit q => audit_plan q
  | CExportAgents => export_plan
  | CStatus => status_plan
  | CRotate sec => rotate_plan sec
  end.
End Commands.

(** ** The requests the daemon sees *)

(** [Request::builder().uri(path)]: the URI type drops a fragment before
    anything is sent. *)
Definition without_fragment (t : string) : string :=
  match split_once "#" t with Some (t, _) => t | None => t end.

(** The message as the server's router sees it: the target, which has lost its
    fragment, is split at the query; a fresh connection has no extensions. *)
Definition request_of_wire (w : Wire) : Request :=
  let t := without_fragment (w_target w) in
  let '(p, q) := match split_once "?" t with
                 | Some (p, q) => (p, Some q)
                 | None => (t, None)
                 end in
  {| req_method := w_method w; req_path := p; req_query := q; req_headers := w_headers w;
     req_body := default "" (w_body w);
     req_ext := {| peer_cert := None; authenticated_as := None; identity := None |} |}.

Inductive Target := OperatorTarget (h : OperatorHandler) (params : list string) | AgentTarget (h : AgentHandler).

(** The handler each command is written for. *)
Definition intended (c : Cmd) : Target :=
  match c with
  | CAgent (AgentList _) | CExportAgents => OperatorTarget OListAgents []
  | CAgent (AgentGet id) => OperatorTarget OGetAgent [id]
  | CAgent (AgentRegister _ _ _ _) => OperatorTarget OCreateAgent []
  | CAgent (AgentModify id _ _) => OperatorTarget OModifyAgent [id]
  | CAgent (AgentRevoke id _) => OperatorTarget ORevokeAgent [id]
  | CAgent (AgentSetCertIdentity id _ _) => OperatorTarget OSetCertIdentity [id]
  | CAgent (AgentSetCredential a) => OperatorTarget OSetCredential [sca_id a; sca_registration a]
  | CAgent (AgentUnsetCredential id reg) => OperatorTarget OUnsetCredential [id; reg]
  | CAgent (AgentCredentialsList id) => OperatorTarget OListCredentials [id]
  | CBootstrap (BtMint _ _ _) => OperatorTarget OMintBootstrap []
  | CBootstrap BtList => OperatorTarget OListBootstrap []
  | CBootstrap (BtRevoke id) => OperatorTarget ORevokeBootstrap [id]
  | CRegistration k RList => OperatorTarget (ORegList k) []
  | CRegistration k (RGet n) => OperatorTarget (ORegGet k) [n]
  | CRegistration k (RPut n _) => OperatorTarget (ORegPut k) [n]
  | CRegistration k (RDelete n) => OperatorTarget (ORegDelete k) [n]
  | CRegistration k (REnable n) => OperatorTarget (ORegEnable k) [n]
  | COauth (OauthBootstrap a) => OperatorTarget OOauthBootstrap [ob_name a]
  | COauth (OauthStatus n _) => OperatorTarget OOauthStatus [n]
  | COauth (OauthRevoke n _) => OperatorTarget OOauthRevoke [n]
  | COauth OauthList => OperatorTarget OOauthList []
  | CAudit _ => OperatorTarget OQueryAudit []
  | CStatus => AgentTarget HStatus
  | CRotate _ => AgentTarget HRotate
  end.

Definition path_args (c : Cmd) : list string :=
  match intended c with OperatorTarget _ ps => ps | AgentTarget _ => [] end.

(** An id or name that does not end the path it is put into. *)
Definition plain (s : string) : Prop :=
  s <> "" /\
  str_forall (fun c => negb (is_char "/" c) && negb (is_char "?" c) && negb (is_char "#" c)) s = true.

Definition segment (s : string) : Prop :=
  str_forall (fun c => negb (is_char "/" c)) s = true /\
  str_forall (fun c => negb (is_char "?" c)) s = true /\
  str_forall (fun c => negb (is_char "#" c)) s = true.

Lemma plain_segment s : plain s -> segment s.
Proof.
  intros [_ Hs]. split_and!; revert Hs; apply str_forall_impl; intros c [[H1 H2]%andb_prop H3]%andb_prop; done.
Qed.

(** An id or name that stands for itself in a URI: the unreserved characters
    of RFC 3986. *)
Definition unreserved_char (c : ascii) : bool := is_b64url c || is_char "." c || is_char "~" c.

Definition unreserved (s : string) : Prop := s <> "" /\ str_forall unreserved_char s = true.

Lemma unreserved_inv c :
  unreserved_char c = true ->
  (N_of_ascii c <? 128)%N = true /\ c <> "/"%char /\ c <> "?"%char /\ c <> "#"%char /\ c <> "%"%char.
Proof. by destruct c as [[] [] [] [] [] [] [] []]; vm_compute. Qed.

Lemma unreserved_plain s : unreserved s -> plain s.
Proof.
  intros [Hne Hs]. split; [done|]. revert Hs. apply str_forall_impl.
  intros c (_ & H1 & H2 & H3 & _)%unreserved_inv. unfold is_char.
  by rewrite !bool_decide_eq_false_2 by congruence.
Qed.

Lemma unreserved_decoded s : unreserved s -> percent_decode s = s.
Proof.
  intros [_ Hs]. apply percent_decode_id. revert Hs. apply str_forall_impl.
  intros c (_ & _ & _ & _ & H4)%unreserved_inv. unfold is_char. by rewrite bool_decide_eq_false_2.
Qed.

Lemma ascii_utf8 s : str_forall (fun c => (N_of_ascii c <? 128)%N) s = true -> is_utf8 s = true.
Proof.
  unfold is_utf8, utf8_chars.
  assert (G : forall fuel s, (String.length s <= fuel)%nat ->
    str_forall (fun c => (N_of_ascii c <? 128)%N) s = true -> isSome (utf8_fuel fuel s) = true);
    [|by apply G]. clear s.
  induction fuel as [|fuel IH]; intros [|c s] Hf Hs; [done|simpl in Hf; lia|done|].
  cbn [str_forall] in Hs. apply andb_prop in Hs as [Hc Hs]. cbn [utf8_fuel next_char]. rewrite Hc.
  specialize (IH s ltac:(simpl in Hf; lia) Hs). by destruct (utf8_fuel fuel s).
Qed.

Lemma unreserved_utf8 s : unreserved s -> is_utf8 s = true.
Proof.
  intros [_ Hs]. apply ascii_utf8. revert Hs. apply str_forall_impl. by intros c [H _]%unreserved_inv.
Qed.

(** The names the registrations API accepts and the ids the daemon generates
    are of this kind. *)
Lemma validated_unreserved n : validate_name n = Ok tt -> unreserved n.
Proof.
  unfold validate_name. case_bool_decide; [done|]. destruct (_ <? _)%nat; [done|].
  destruct (str_forall name_char n) eqn:E; [|done]. intros _. split; [done|]. revert E.
  apply str_forall_impl. intros c. by destruct c as [[] [] [] [] [] [] [] []]; vm_compute.
Qed.

Lemma generated_unreserved `{Base64UrlLaws} ns idb sb :
  idb <> "" -> unreserved (public_id (generate ns idb sb)).
Proof.
  intros Hne. simpl. split.
  - intros E. pose proof (b64_decode_encode idb) as D. rewrite E in D.
    pose proof (b64_decode_encode "") as D0. pose proof (b64_encode_length "") as L.
    destruct (b64_encode "") eqn:E0; [|done]. congruence.
  - eapply str_forall_impl; [|apply b64_encode_alphabet]. intros c Hc. unfold unreserved_char. by rewrite Hc.
Qed.

Fixpoint path_of (segs : list string) : string :=
  match segs with [] => "" | s :: segs => "/" +:+ s +:+ path_of segs end.

Lemma split_path_of segs :
  segs <> [] -> Forall segment segs -> split_path (path_of segs) = "" :: segs.
Proof.
  intros Hne Hs. change (split_path (path_of segs)) with (split (is_char "/") (path_of segs)).
  destruct segs as [|s segs]; [done|]. clear Hne.
  change (path_of (s :: segs)) with ("" +:+ String "/" (s +:+ path_of segs)).
  rewrite split_cons by done. f_equal. revert s Hs.
  induction segs as [|s' segs IH]; intros s [(H1 & H2 & H3) Hs]%Forall_cons.
  - simpl. by rewrite str_app_nil_r, split_free.
  - change (path_of (s' :: segs)) with (String "/" (s' +:+ path_of segs)).
    rewrite split_cons by done. f_equal. by apply IH.
Qed.

Lemma path_of_free segs :
  Forall segment segs -> str_forall (fun c => negb (is_char "?" c)) (path_of segs) = true.
Proof.
  induction 1 as [|s segs (H1 & H2 & H3) Hs IH]; [done|]. cbn [path_of].
  by rewrite !str_forall_app, H2, IH.
Qed.

Lemma path_of_no_fragment segs :
  Forall segment segs -> str_forall (fun c => negb (is_char "#" c)) (path_of segs) = true.
Proof.
  induction 1 as [|s segs (H1 & H2 & H3) Hs IH]; [done|]. cbn [path_of].
  by rewrite !str_forall_app, H3, IH.
Qed.

(** A fragment can only begin behind text free of its mark. *)
Lemma without_fragment_app a b :
  str_forall (fun c => negb (is_char "#" c)) a = true ->
  without_fragment (a +:+ b) = a +:+ without_fragment b.
Proof.
  unfold without_fragment. induction a as [|d a IH]; [done|]. cbn [str_forall].
  intros [Hd%negb_true_iff Ha]%andb_prop. unfold is_char in Hd. rewrite bool_decide_eq_false in Hd.
  change (String d a +:+ b) with (String d (a +:+ b)). cbn [split_once].
  rewrite bool_decide_eq_false_2 by congruence. specialize (IH Ha).
  destruct (split_once "#" (a +:+ b)) as [[x y]|]; by rewrite IH.
Qed.

Lemma split_once_free c s : str_forall (fun d => negb (is_char c d)) s = true -> split_once c s = None.
Proof.
  induction s as [|d s IH]; [done|]. cbn [str_forall split_once]. unfold is_char at 1.
  intros [H1%negb_true_iff H2]%andb_prop. rewrite bool_decide_eq_false in H1.
  rewrite bool_decide_eq_false_2 by congruence. by rewrite IH.
Qed.

Section Routing.
Context `{SerdeJson}.
Context (env : string -> option string) (debug : string -> string).

(** A planned request for the path of [segs], with or without a query. *)
Definition goes_to (segs : list string) (p : Plan) : Prop :=
  pl_target p = path_of segs \/ exists q, pl_target p = path_of segs +:+ "?" +:+ q.

Lemma goes_to_path segs p sock :
  segs <> [] -> Forall segment segs -> goes_to segs p ->
  split_path (req_path (request_of_wire (wire (Uds sock) p))) = "" :: segs.
Proof.
  intros Hne Hs Hg. rewrite <- split_path_of by done. f_equal.
  unfold request_of_wire, wire. cbn [w_target w_method w_headers w_body].
  pose proof (path_of_free segs Hs) as Hf. pose proof (path_of_no_fragment segs Hs) as Hn.
  destruct Hg as [->|[q ->]].
  - assert (without_fragment (path_of segs) = path_of segs) as ->.
    { pose proof (without_fragment_app (path_of segs) "" Hn) as E. by rewrite !str_app_nil_r in E. }
    by rewrite split_once_free.
  - rewrite (str_app_assoc (path_of segs)), without_fragment_app, <- str_app_assoc
      by (by rewrite str_forall_app, Hn).
    change ("?" +:+ without_fragment q) with (String "?" (without_fragment q)). by rewrite split_once_intro.
Qed.

Lemma label_query_goes segs path label t m tok b r :
  path = path_of segs -> with_label_query debug path label = Ok t ->
  Forall segment segs -> goes_to segs (request_plan m t tok b r).
Proof.
  intros -> Hl Hs. unfold with_label_query in Hl. destruct label as [l|]; [|left; by injection Hl as <-].
  destruct (bool_decide (l = "default")); [left; by injection Hl as <-|].
  destruct (valid_label l); simpl in Hl; [|done]. injection Hl as <-. right. exists ("label=" +:+ l).
  unfold contains_char. rewrite path_of_free by done. done.
Qed.

(** The path segments behind [/admin/operator] or [/admin/agent]. *)
Definition segments (c : Cmd) : list string :=
  match c with
  | CAgent (AgentList _) | CAgent (AgentRegister _ _ _ _) | CExportAgents => ["agents"]
  | CAgent (AgentGet id) | CAgent (AgentModify id _ _) => ["agents"; id]
  | CAgent (AgentRevoke id _) => ["agents"; id; "revoke"]
  | CAgent (AgentSetCertIdentity id _ _) => ["agents"; id; "cert_identity"]
  | CAgent (AgentSetCredential a) => ["agents"; sca_id a; "credentials"; sca_registration a]
  | CAgent (AgentUnsetCredential id reg) => ["agents"; id; "credentials"; reg]
  | CAgent (AgentCredentialsList id) => ["agents"; id; "credentials"]
  | CBootstrap (BtMint _ _ _) | CBootstrap BtList => ["bootstrap_tokens"]
  | CBootstrap (BtRevoke id) => ["bootstrap_tokens"; id; "revoke"]
  | CRegistration k RList => [cli_url_segment k]
  | CRegistration k (RGet n) | CRegistration k (RPut n _) | CRegistration k (RDelete n) =>
      [cli_url_segment k; n]
  | CRegistration k (REnable n) => [cli_url_segment k; n; "enable"]
  | COauth (OauthBootstrap a) => ["oauth"; ob_name a; "bootstrap"]
  | COauth (OauthStatus n _) | COauth (OauthRevoke n _) => ["oauth"; n]
  | COauth OauthList => ["oauth"]
  | CAudit _ => ["audit"]
  | CStatus => ["status"]
  | CRotate _ => ["rotate"]
  end.

Definition side (c : Cmd) : string :=
  match intended c with OperatorTarget _ _ => "operator" | AgentTarget _ => "agent" end.

Lemma segments_ok c :
  Forall plain (path_args c) -> Forall segment ("admin" :: side c :: segments c).
Proof.
  intros Ha. assert (P : forall s, s ∈ path_args c -> segment s).
  { intros s Hs. apply plain_segment. by eapply Forall_forall in Ha. }
  clear Ha. unfold path_args in P.
  destruct c as [[]|[]|[] []|[]| | | |]; simpl in *;
    repeat apply Forall_cons_2; try apply Forall_nil_2; try (by repeat split);
    apply P; by repeat constructor.
Qed.

(** The planned target is literally the path of the segments. *)
Local Ltac at_path :=
  left; unfold agent_path, credentials_path, kind_path, oauth_path; simpl;
  rewrite ?str_app_nil_r, <- ?str_app_assoc; reflexivity.

Lemma agent_plan_goes c p :
  agent_plan env debug c = Ok p -> goes_to ("admin" :: "operator" :: segments (CAgent c)) p.
Proof.
  unfold agent_plan. destruct (op_token env); simpl; [|done]. destruct c; try (intros [= <-]; at_path).
  - intros [= <-]. destruct include_revoked; [right; by exists "include_revoked=true"|at_path].
  - destruct (build_auth_spec _ _); simpl; [|done]. intros [= <-]. at_path.
Qed.

Lemma registration_plan_goes k c p :
  registration_plan env k c = Ok p ->
  goes_to ("admin" :: "operator" :: segments (CRegistration k c)) p.
Proof.
  unfold registration_plan. destruct (op_token env); simpl; [|done].
  destruct c, k; try (intros [= <-]; at_path);
    (destruct (parse_auth_spec _); simpl; [|done]; intros [= <-]; at_path).
Qed.

Lemma oauth_plan_goes stdin c p :
  Forall segment ("admin" :: "operator" :: segments (COauth c)) ->
  oauth_plan env debug stdin c = Ok p -> goes_to ("admin" :: "operator" :: segments (COauth c)) p.
Proof.
  intros Hs. destruct c as [a|n l|n l|]; unfold oauth_plan.
  - destruct (match ob_refresh_token a with Some _ => _ | None => _ end); simpl; [|done].
    destruct (bool_decide _); [done|]. destruct (op_token env); simpl; [|done].
    destruct (with_label_query _ _ _) eqn:E; simpl; [|done]. intros [= <-].
    eapply label_query_goes; [|exact E|done]. reflexivity.
  - destruct (op_token env); simpl; [|done]. destruct (with_label_query _ _ _) eqn:E; simpl; [|done].
    intros [= <-]. eapply label_query_goes; [|exact E|done]. simpl. by rewrite str_app_nil_r.
  - destruct (op_token env); simpl; [|done]. destruct (with_label_query _ _ _) eqn:E; simpl; [|done].
    intros [= <-]. eapply label_query_goes; [|exact E|done]. simpl. by rewrite str_app_nil_r.
  - destruct (op_token env); simpl; [|done]. intros [= <-]. at_path.
Qed.

Lemma plan_goes stdin c p :
  Forall plain (path_args c) -> cli_plan env debug stdin c = Ok p ->
  goes_to ("admin" :: side c :: segments c) p.
Proof.
  intros Ha Hp. pose proof (segments_ok c Ha) as Hs.
  destruct c as [c|c|k c|c|q| | |sec]; simpl in Hp.
  - replace (side (CAgent c)) with "operator" by (by destruct c). by apply agent_plan_goes.
  - unfold bootstrap_plan in Hp. destruct (op_token env); simpl in Hp; [|done].
    destruct c; injection Hp as <-; at_path.
  - replace (side (CRegistration k c)) with "operator" by (by destruct c).
    by apply registration_plan_goes.
  - replace (side (COauth c)) with "operator" in * by (by destruct c). by eapply oauth_plan_goes.
  - unfold audit_plan in Hp. destruct (op_token env); simpl in Hp; [|done]. injection Hp as <-.
    destruct (audit_query q) as [|x l]; [at_path|]. right. by exists (join "&" (x :: l)).
  - unfold export_plan in Hp. destruct (op_token env); simpl in Hp; [|done]. injection Hp as <-.
    right. by exists "include_revoked=true".
  - unfold status_plan in Hp. destruct (agent_token env); simpl in Hp; [|done]. injection Hp as <-. at_path.
  - unfold rotate_plan in Hp. destruct (agent_token env); simpl in Hp; [|done].
    destruct (match sec with Some _ => _ | None => _ end); simpl in Hp; [|done]. injection Hp as <-. at_path.
Qed.

(** The token comes from the variable of the command's side, and the method
    is the one of the command. *)
Definition method_of (c : Cmd) : string :=
  match intended c with
  | OperatorTarget (OCreateAgent | ORevokeAgent | OMintBootstrap | ORevokeBootstrap
                    | ORegEnable _ | OOauthBootstrap) _ => "POST"
  | OperatorTarget (OModifyAgent | OSetCertIdentity) _ => "PATCH"
  | OperatorTarget (OSetCredential | ORegPut _) _ => "PUT"
  | OperatorTarget (OUnsetCredential | ORegDelete _ | OOauthRevoke) _ => "DELETE"
  | OperatorTarget _ _ => "GET"
  | AgentTarget HRotate => "POST"
  | AgentTarget _ => "GET"
  end.

Definition token_var (c : Cmd) : string :=
  match intended c with
  | OperatorTarget _ _ => "LOCKSMITH_OP_TOKEN"
  | AgentTarget _ => "LOCKSMITH_AGENT_TOKEN"
  end.

Lemma plan_sends stdin c p :
  cli_plan env debug stdin c = Ok p ->
  pl_method p = method_of c /\ env (token_var c) = Some (pl_token p).
Proof.
  destruct c as [c|c|k c|c|q| | |sec]; simpl;
    unfold agent_plan, bootstrap_plan, registration_plan, audit_plan, export_plan,
      status_plan, rotate_plan, op_token, agent_token.
  - destruct (env _) as [t|] eqn:E; simpl; [|done].
    destruct c; try (by intros [= <-]). destruct (build_auth_spec _ _); simpl; [by intros [= <-]|done].
  - destruct (env _) as [t|] eqn:E; simpl; [|done]. destruct c; by intros [= <-].
  - destruct (env _) as [t|] eqn:E; simpl; [|done].
    destruct c; try (by intros [= <-]). destruct (parse_auth_spec _); simpl; [by intros [= <-]|done].
  - unfold oauth_plan, op_token. destruct c as [a|n l|n l|].
    + destruct (match ob_refresh_token a with Some _ => _ | None => _ end); simpl; [|done].
      destruct (bool_decide _); [done|]. destruct (env _) as [t|] eqn:E; simpl; [|done].
      destruct (with_label_query _ _ _); simpl; [by intros [= <-]|done].
    + destruct (env _) as [t|] eqn:E; simpl; [|done].
      destruct (with_label_query _ _ _); simpl; [by intros [= <-]|done].
    + destruct (env _) as [t|] eqn:E; simpl; [|done].
      destruct (with_label_query _ _ _); simpl; [by intros [= <-]|done].
    + destruct (env _) as [t|] eqn:E; simpl; [by intros [= <-]|done].
  - destruct (env _) as [t|] eqn:E; simpl; [by intros [= <-]|done].
  - destruct (env _) as [t|] eqn:E; simpl; [by intros [= <-]|done].
  - destruct (env _) as [t|] eqn:E; simpl; [by intros [= <-]|done].
  - destruct (env _) as [t|] eqn:E; simpl; [|done].
    destruct (match sec with Some _ => _ | None => _ end); simpl; [by intros [= <-]|done].
Qed.

(** The route a request of [c] finds in the router's tables. *)
Definition found {T} (table : list (string * list Segment * T)) (c : Cmd)
  : option (string * T * list string) :=
  find_first (fun r => serves r.1.1 (method_of c)) (routes_at table (segments c)).

Lemma command_found st c :
  is_Some (us_registrations st) -> is_Some (us_oauth st) -> Forall plain (path_args c) ->
  match intended c with
  | OperatorTarget h ps => found (operator_routes st) c = Some (method_of c, h, ps)
  | AgentTarget h => found agent_authed_routes c = Some (method_of c, h, [])
  end.
Proof.
  intros [r Hr] [o Ho] Ha. unfold operator_routes. rewrite Hr, Ho. cbn [isSome].
  assert (P : forall s, s ∈ path_args c -> exists d s', s = String d s').
  { intros [|d s'] Hs; [|by eauto]. by eapply Forall_forall in Ha as [? _]. }
  clear Ha Hr Ho. unfold path_args in P.
  destruct c as [[b|id|n de al dl|id al dl|id rs|id ci cl|[id reg au na os]|id reg|id]
                |[al re ex| |id]|k [|n|n po|n|n]|[[n l rt rs]|n l|n l|]|q| | |sec]; cbn in P;
    try (destruct (P id ltac:(by repeat constructor)) as (d & s' & ->));
    try (destruct (P reg ltac:(by repeat constructor)) as (d' & s'' & ->));
    try (destruct (P n ltac:(by repeat constructor)) as (d & s' & ->));
    try destruct k; vm_compute; reflexivity.
Qed.

(** The bytes the client's URI type takes in a query, and in a path all of
    those that [unreserved] allows; a target with others is refused before
    anything is sent. *)
Definition uri_char (c : ascii) : bool :=
  let n := N_of_ascii c in
  ((n =? 33) || (36 <=? n) && (n <=? 59) || (n =? 61) || (63 <=? n) && (n <=? 126))%N.
End Routing.

Section Reaches.
Context `{Base64Url} `{Base64Std} `{Argon2Crate} `{HttpCrate} `{X509Crate}.
Context `{AesGcm} `{SerdeJson} `{Sha2Crate} `{Extractors}.
Context (shell : string -> option string) (debug : string -> string).
Context (cfg : UdsConfig) (env : string -> option string).
Context (post : string -> list (string * string) -> option (Z * option TokenResponse)).
Context (crate_text : RepoError -> string) (registration_text : RegistrationError -> string).
Context (session_text : OauthSessionError -> string) (refresh_text : RefreshError -> string).

(** The router hands out percent-decoded path parameters. *)
Hypothesis percent_decoding : forall ps,
  Forall (fun p => is_utf8 (percent_decode p) = true) ps -> path_params ps = Some (map percent_decode ps).

Lemma unreserved_params ps : Forall unreserved ps -> path_params ps = Some ps.
Proof.
  intros Hp. rewrite percent_decoding.
  - f_equal. induction Hp as [|s ps Hs _ IH]; [done|]. simpl. by rewrite unreserved_decoded, IH.
  - eapply Forall_impl; [exact Hp|]. intros s Hs. rewrite unreserved_decoded by done.
    by apply unreserved_utf8.
Qed.

Lemma dispatch_to {T} routes req run st m (h : T) ps :
  find_first (fun r => serves r.1.1 (req_method req)) routes = Some (m, h, ps) ->
  path_params ps = Some ps -> req_method req <> "HEAD" ->
  dispatch routes req run st = run h ps st.
Proof.
  intros Hf Hp Hm. unfold dispatch. rewrite Hf, Hp. cbn [extract].
  rewrite bool_decide_eq_false_2 by done. by destruct (run h ps st).
Qed.

Lemma method_of_not_head c : method_of c <> "HEAD".
Proof. unfold method_of. by repeat case_match. Qed.

(** C26: The client and the server agree on the API: every command whose names
    and ids consist of unreserved characters, and whose target (an audit query
    is free text) is one the URI type takes, sends, with the token of its
    side, a request that the admin router answers by authenticating that side
    and then running the handler the command is written for, with exactly the
    command's arguments as path parameters. *)
Theorem cli_reaches_handler stdin c p sock ef st :
  cli_plan shell debug stdin c = Ok p -> Forall unreserved (path_args c) ->
  str_forall uri_char (pl_target p) = true ->
  is_Some (us_registrations st) -> is_Some (us_oauth st) ->
  let req := request_of_wire (wire (Uds sock) p) in
  header_get "authorization" (req_headers req) = Some ("Bearer " +:+ pl_token p) /\
  shell (token_var c) = Some (pl_token p) /\
  admin_router cfg env post crate_text registration_text session_text refresh_text ef req st =
  match intended c with
  | OperatorTarget h ps =>
      match operator_auth_middleware cfg ef req st with
      | (Err resp, st') => (resp, st')
      | (Ok op, st') =>
          operator_handler env post crate_text registration_text session_text refresh_text
            h ef op ps req st'
      end
  | AgentTarget h =>
      match agent_auth_middleware cfg ef req st with
      | (Err resp, st') => (resp, st')
      | (Ok agent, st') => agent_handler crate_text h ef agent req st'
      end
  end.
Proof.
  intros Hp Ha _ Hr Ho req. destruct (plan_sends _ _ _ _ _ Hp) as [Hm Ht].
  assert (req_method req = method_of c) as Hq.
  { unfold req, request_of_wire. rewrite <- Hm. by destruct (split_once _ _) as [[]|]. }
  assert (Hpl : Forall plain (path_args c)) by (eapply Forall_impl; [exact Ha|apply unreserved_plain]).
  assert (Hs : split_path (req_path req) = "" :: "admin" :: side c :: segments c)
    by (apply goes_to_path; [done|by apply segments_ok|by eapply plan_goes]).
  split; [|split; [done|]].
  { unfold req, request_of_wire. by destruct (split_once _ _) as [[]|]. }
  pose proof (command_found st c Hr Ho Hpl) as F. unfold found in F. rewrite <- Hq in F.
  pose proof (method_of_not_head c) as Hh. rewrite <- Hq in Hh.
  unfold admin_router. rewrite Hs. rewrite !(bool_decide_eq_true_2 (_ = _) eq_refl). cbn [negb andb].
  unfold side, path_args in *. destruct (intended c) as [h ps|h] eqn:Ei; cbn [negb].
  - rewrite (bool_decide_eq_false_2 ("operator" = "agent")) by done.
    rewrite (bool_decide_eq_true_2 ("operator" = "operator")) by done.
    unfold operator_nest. destruct (routes_at (operator_routes st) (segments c)) as [|x l]; [done|].
    destruct (operator_auth_middleware _ _ _ _) as [[op|resp] st']; [|done].
    by rewrite (dispatch_to _ _ _ _ _ _ _ F (unreserved_params _ Ha) Hh).
  - rewrite (bool_decide_eq_true_2 ("agent" = "agent")) by done. unfold agent_nest.
    replace (routes_at [("ANY", [Lit "register"], tt)] (segments c)) with (@nil (string * unit * list string))
      by (destruct c as [[]|[]|[] []|[]| | | |]; done).
    destruct (routes_at agent_authed_routes (segments c)) as [|x l]; [done|].
    destruct (agent_auth_middleware _ _ _ _) as [[ag|resp] st']; [|done].
    by rewrite (dispatch_to _ _ _ _ _ _ _ F (unreserved_params [] ltac:(constructor)) Hh).
Qed.
End Reaches.

(** ** Self-service rotation *)

Section Rotate.
Context `{Base64Url}.
Context (env : string -> option string).

(** Without [--current-secret] the agent's own token supplies it: the body
    carries exactly the secret part of the bearer token. *)
Lemma rotate_sends_own_secret t :
  well_formed t -> namespace t = Agent -> env "LOCKSMITH_AGENT_TOKEN" = Some (wire_format t) ->
  exists p, rotate_plan env None = Ok p /\ pl_token p = wire_format t /\
    pl_body p = Some (json_obj [("current_secret", JString (secret t))]).
Proof.
  intros (_ & _ & _ & _ & Hd) Hn He. unfold rotate_plan, agent_token. rewrite He. simpl.
  replace (wire_format t) with (("lk_" +:+ public_id t) +:+ String "." (secret t))
    by (unfold wire_format; by rewrite Hn).
  rewrite split_once_intro; [simpl; by eauto|]. by rewrite str_forall_app, Hd.
Qed.
End Rotate.

(** ** [bootstrap-operator] *)

Section BootstrapOperator.
Context `{Base64Url} `{Argon2Crate}.

Definition quoted (s : string) : string := String (ascii_of_N 34) (s +:+ String (ascii_of_N 34) "").

Definition operators_yaml (name pid token_hash : string) : list string :=
  ["operators:"; "  - name: " +:+ name; "    public_id: " +:+ quoted pid;
   "    token_hash: " +:+ quoted token_hash].

Definition operators_header (name : string) : list string :=
  ["# Locksmith operator credentials.";
   "# Generated by `locksmith bootstrap-operator --name " +:+ name +:+ "` — see";
   "# agent-locksmith/docs/user/concepts/agent-identity-and-acl.md";
   "# for the full credential lifecycle."; "#";
   "# Re-running bootstrap-operator OVERWRITES the cleartext wire";
   "# token (only the argon2 hash is stored here). Save the wire";
   "# token from stderr to LOCKSMITH_OP_TOKEN at install time."].

(** The lines on stdout and the wire token shown on stderr. *)
Definition bootstrap_operator (hash_text : HashError -> string) (name : string) (header : bool)
    (rng : Entropy) : result CliError (list string * string) :=
  let token := generate Operator (id_bytes rng) (secret_bytes rng) in
  let? token_hash := map_err (fun e => Usage ("argon2 hash failed: " +:+ hash_text e))
                       (Argon2Helper.hash (secret token) (salt rng)) in
  Ok ((if header then operators_header name else [])
      ++ operators_yaml name (public_id token) token_hash, wire_format token).
End BootstrapOperator.

(** ** Replies the commands misread *)

Section Misread.
Context `{SerdeJson}.

(** The registration handlers answer a successful delete or enable with 204
    and no body, which the commands decode as JSON: exit code 1. *)
Lemma no_content_reported_as_failure env k cmd p :
  from_slice "" = None ->
  (exists n, cmd = RDelete n \/ cmd = REnable n) -> registration_plan env k cmd = Ok p ->
  read_reply p 204 "" = Err CliDecode /\ exit_code CliDecode = 1.
Proof.
  intros He [n Hc] Hp. unfold registration_plan in Hp. destruct (op_token env); simpl in Hp; [|done].
  destruct Hc as [-> | ->]; injection Hp as <-; cbn; by rewrite He.
Qed.
End Misread.

Section Modify.
Context `{Base64Url} `{Base64Std} `{Argon2Crate} `{HttpCrate} `{SerdeJson} `{Extractors}.
Context (crate_text : RepoError -> string).

(** [serde]: an [Option] field that is absent or [null] is [None]. *)
Definition null_is_absent : Prop :=
  forall req m, from_slice (req_body req) = Some (JObject m) ->
    (forall k, k ∈ ["allowlist"; "denylist"; "metadata"; "expires_at"] ->
       default JNull (obj_get k m) = JNull) ->
    dec_modify_agent req = Some {| mi_allowlist := None; mi_denylist := None; mi_metadata := None;
                                   mi_expires_at := None |}.

(** [agent modify --allowlist -] and [--denylist -] do nothing: clearing a
    list and leaving it alone are both sent as [null], which the daemon takes
    for an absent field, and the command reports success. *)
Theorem modify_clear_is_noop env debug sock ef op id allow deny p st :
  null_is_absent -> (forall j, pl_body p = Some j -> from_slice (to_vec j) = Some j) ->
  (allow = None \/ allow = Some ["-"]) -> (deny = None \/ deny = Some ["-"]) ->
  agent_plan env debug (AgentModify id allow deny) = Ok p ->
  let r := op_modify_agent crate_text ef op id (request_of_wire (wire (Uds sock) p)) st in
  r.1 = status_response 204 /\ sv_agents (us_admin r.2) = sv_agents (us_admin st).
Proof.
  intros Hd Hj Ha Hn Hp. unfold agent_plan in Hp. destruct (op_token env) as [tok|]; simpl in Hp; [|done].
  injection Hp as <-. specialize (Hj _ eq_refl). set (req := request_of_wire _). cbv zeta. unfold op_modify_agent.
  assert (Hb : from_slice (req_body req) =
    Some (json_obj [("allowlist", JNull); ("denylist", JNull)])).
  { unfold req, request_of_wire. simpl. destruct (split_once _ _) as [[]|]; simpl; rewrite Hj;
      destruct Ha as [-> | ->], Hn as [-> | ->]; reflexivity. }
  rewrite (Hd _ _ Hb); [done|]. intros k Hk. set_unfold in Hk.
  by destruct Hk as [->|[->|[->|[->|[]]]]].
Qed.
End Modify.

Module CliWitness.
Import Base64Model Argon2Model HttpModel AgentWitness AuthWitness OauthWitness ControlsWitness.

Definition shell (v : string) : option string :=
  if bool_decide (v = "LOCKSMITH_OP_TOKEN") then Some "lkop_x.y" else None.

Definition pin : Cmd :=
  CAgent (AgentSetCredential {| sca_id := "dev"; sca_registration := "tavily";
    sca_auth := Some "bearer=DEV_KEY"; sca_no_auth := false; sca_oauth_session := None |}).

Definition planned (c : Cmd) : Plan :=
  match cli_plan shell (fun s => s) (Err "closed") c with
  | Ok p => p
  | Err _ => request_plan "" "" "" None DiscardJson
  end.

Example pin_target : pl_target (planned pin) = "/admin/operator/agents/dev/credentials/tavily".
Proof. reflexivity. Qed.

Example no_token : exit_of (cli_plan (fun _ => None) (fun s => s) (Err "closed") pin) = 3.
Proof. reflexivity. Qed.

Example bad_auth : exit_of (parse_auth_spec (Some " header:X= ")) = 2.
Proof. vm_compute. reflexivity. Qed.

#[local] Existing Instance AdminHttpWitness.extractors.

Lemma decoding0 ps :
  Forall (fun p => is_utf8 (percent_decode p) = true) ps -> path_params ps = Some (map percent_decode ps).
Proof. done. Qed.

Lemma cli_reaches_handler_witness :
  header_get "authorization" (req_headers (request_of_wire (wire (Uds "s") (planned pin)))) =
    Some "Bearer lkop_x.y" /\
  shell "LOCKSMITH_OP_TOKEN" = Some "lkop_x.y" /\
  let req := request_of_wire (wire (Uds "s") (planned pin)) in
  admin_router AdminHttpWitness.ucfg RegWitness.env0 provider AdminWitness.text0
    OauthAdminWitness.text1 OauthAdminWitness.text1 OauthAdminWitness.text1 AdminHttpWitness.ef0 req
    AdminHttpWitness.ust0 =
  match operator_auth_middleware AdminHttpWitness.ucfg AdminHttpWitness.ef0 req AdminHttpWitness.ust0 with
  | (Err resp, st') => (resp, st')
  | (Ok op, st') =>
      operator_handler RegWitness.env0 provider AdminWitness.text0 OauthAdminWitness.text1
        OauthAdminWitness.text1 OauthAdminWitness.text1 OSetCredential AdminHttpWitness.ef0 op
        ["dev"; "tavily"] req st'
  end.
Proof.
  apply (cli_reaches_handler shell (fun s => s) AdminHttpWitness.ucfg RegWitness.env0 provider
           AdminWitness.text0 OauthAdminWitness.text1 OauthAdminWitness.text1 OauthAdminWitness.text1
           decoding0 (Err "closed") pin (planned pin) "s" AdminHttpWitness.ef0
           AdminHttpWitness.ust0).
  - vm_compute. reflexivity.
  - repeat constructor; discriminate.
  - vm_compute. reflexivity.
  - by eexists.
  - by eexists.
Defined.

(** The command against the router itself: [tool delete] removes the
    registration and fails, [tool get] then says not found. *)
Module EndToEnd.
Import AdminHttpWitness.

Definition text_json : SerdeJson :=
  {| from_slice s := if bool_decide (s = "") then None else Some (JString s);
     to_vec _ := "document" |}.

Definition daemon (tr : Transport) (w : Wire) (st : UdsState)
  : result CliError (Z * string) * UdsState :=
  let '(resp, st) := admin_router ucfg RegWitness.env0 provider AdminWitness.text0
    OauthAdminWitness.text1 OauthAdminWitness.text1 OauthAdminWitness.text1 ef0
    (request_of_wire w) st in
  (Ok (resp_status resp, match resp_body resp with JsonBody j => @to_vec text_json j | _ => "" end), st).

Definition op_shell (v : string) : option string :=
  if bool_decide (v = "LOCKSMITH_OP_TOKEN") then strip_prefix "Bearer " op_header else None.

Definition tool (c : RegCmd) (st : UdsState) : result CliError (option Json) * UdsState :=
  @perform text_json UdsState daemon (Uds "s") (registration_plan op_shell Tool c) st.

Example delete_succeeds_and_fails :
  (tool (RDelete "tavily") ust0).1 = Err CliDecode /\
  exit_of (tool (RGet "tavily") ust0).1 = 0 /\
  exit_of (tool (RGet "tavily") (tool (RDelete "tavily") ust0).2).1 = 4.
Proof. vm_compute. auto. Qed.

(** A name is put into the path as it is: what follows a [#] never leaves the
    client, and the DELETE removes another tool than the one named. *)
Example fragment_deletes_another :
  pl_target (planned (CRegistration Tool (RDelete "tavily#x"))) = "/admin/operator/tools/tavily#x" /\
  entry "tavily#x" (repo (default RegWitness.st0 (us_registrations ust0))) = None /\
  exit_of (tool (RGet "tavily") ust0).1 = 0 /\
  exit_of (tool (RGet "tavily") (tool (RDelete "tavily#x") ust0).2).1 = 4.
Proof. vm_compute. auto. Qed.

End EndToEnd.

(** A codec that knows the document of [modify --allowlist -]. *)
Definition cleared_doc : Json := json_obj [("allowlist", JNull); ("denylist", JNull)].
#[local] Instance clear_json : SerdeJson :=
  {| from_slice s := if bool_decide (s = "cleared") then Some cleared_doc else None;
     to_vec _ := "cleared" |}.

#[local] Instance null_extractors : Extractors := {|
  path_params l := Some l; dec_register _ := None; dec_rotate _ := None;
  dec_create_agent _ := None;
  dec_modify_agent _ := Some {| mi_allowlist := None; mi_denylist := None; mi_metadata := None;
                                mi_expires_at := None |};
  dec_cert_identity _ := None; dec_mint _ := None; dec_auth_spec _ := None; dec_put _ := None;
  dec_oauth_bootstrap _ := None; dec_include_revoked _ := None; dec_audit_query _ := None;
  dec_label _ := None; rejection _ := status_response 422; no_route _ := status_response 404;
  method_not_allowed _ := status_response 405; head_reply r := r
|}.

Definition clear_cmd : Cmd := CAgent (AgentModify dev_pid (Some ["-"]) None).

Lemma modify_clear_is_noop_witness :
  (op_modify_agent AdminWitness.text0 AdminHttpWitness.ef0 alice dev_pid
     (request_of_wire (wire (Uds "s") (planned clear_cmd))) AdminHttpWitness.ust0).1 =
    status_response 204 /\
  sv_agents (us_admin (op_modify_agent AdminWitness.text0 AdminHttpWitness.ef0 alice dev_pid
     (request_of_wire (wire (Uds "s") (planned clear_cmd))) AdminHttpWitness.ust0).2) =
  sv_agents (us_admin AdminHttpWitness.ust0).
Proof.
  apply (modify_clear_is_noop AdminWitness.text0 shell (fun s => s) "s" AdminHttpWitness.ef0 alice
    dev_pid (Some ["-"]) None).
  - done.
  - intros j [= <-]. reflexivity.
  - by right.
  - by left.
  - vm_compute. reflexivity.
Defined.

End CliWitness.
