(* ===== verification/Output.v ===== *)
(** * What the command line prints ([src/cli/output.rs])

    The three formats, the table renderer, and what a command leaves on its
    standard output.  Printing is the list of the lines printed.
    [serde_json]'s and [serde_yaml]'s printers are parameters. *)

From S2P Require Import Prelude Json Http Token AgentRepo AuditLog Auth.
From S2P Require Import Registrations Oauth OauthAdmin AdminHttp Strings Cli.

Inductive Format := Table | FormatJson | FormatYaml.

(** ** Cells *)

(** [str::len] counts bytes, [{:width$}] pads with blanks up to [width]
    characters. *)
Definition char_count (s : string) : nat := List.length (chars s).

Fixpoint repeated (c : ascii) (n : nat) : string :=
  match n with O => "" | S n => String c (repeated c n) end.

Definition pad (width : nat) (s : string) : string :=
  s +:+ repeated " " (width - char_count s).

(** [Vec<String>::sort]. *)
Definition key_le (a b : string) : Prop := String.leb a b = true.
#[export] Instance key_le_dec : RelDecision key_le.
Proof. intros a b. unfold key_le. apply _. Defined.

Definition sorted_keys (m : list (string * Json)) : list string := merge_sort key_le (map fst m).

Section Render.
Context `{SerdeJson}.
Context (to_string_pretty yaml_to_string : Json -> string).

Definition render_scalar (v : Json) : string :=
  match v with
  | JNull => "-"
  | JBool b => if b then "true" else "false"
  | JInt z => pretty.pretty z
  | JFloat repr => repr
  | JString s => s
  | JArray _ | JObject _ => to_vec v
  end.

(** [item.get(c)]. *)
Definition cell (item : Json) (c : string) : string :=
  match json_get c item with Some v => render_scalar v | None => "-" end.

Definition columns (items : list Json) : list string :=
  match items with JObject m :: _ => sorted_keys m | _ => [] end.

(** The [for row in &rows] loop over the widths. *)
Definition widen (widths : list nat) (row : list string) : list nat :=
  zip_with (fun w c => Nat.max w (String.length c)) widths row.

Definition table_row (cols : list string) (item : Json) : list string := map (cell item) cols.

Definition column_widths (cols : list string) (rows : list (list string)) : list nat :=
  fold_left widen rows (map String.length cols).

Definition padded (widths : list nat) (row : list string) : list string := zip_with pad widths row.

Definition print_array_table (items : list Json) : list string :=
  match items with
  | [] => ["(no rows)"]
  | _ =>
      match columns items with
      | [] => map render_scalar items
      | cols =>
          let rows := map (table_row cols) items in
          let widths := column_widths cols rows in
          let header := padded widths cols in
          join "  " header
          :: join "  " (map (fun h => repeated "-" (String.length h)) header)
          :: map (fun row => join "  " (padded widths row)) rows
      end
  end.

(** Keys of an object are distinct, so [map[k]] finds the entry. *)
Definition print_table (value : Json) : list string :=
  match value with
  | JObject m =>
      map (fun k => k +:+ ": " +:+ render_scalar (default JNull (obj_get k m))) (sorted_keys m)
  | JArray items => print_array_table items
  | other => [render_scalar other]
  end.

Definition print (value : Json) (f : Format) : list string :=
  match f with
  | FormatJson => [to_string_pretty value]
  | FormatYaml => [yaml_to_string value]
  | Table => print_table value
  end.

(** [export] prints YAML also where a table is asked for. *)
Definition print_export (value : Json) (f : Format) : list string :=
  match f with
  | FormatJson => [to_string_pretty value]
  | FormatYaml | Table => [yaml_to_string value]
  end.

(** The standard output of a command; errors go to the other stream. *)
Definition stdout_of (c : Cmd) (f : Format) (r : result CliError (option Json)) : list string :=
  match r with
  | Ok (Some v) => match c with CExportAgents => print_export v f | _ => print v f end
  | Ok None | Err _ => []
  end.
End Render.

(** ** Counting characters *)

Inductive Utf8 : string -> list N -> Prop :=
| Utf8_nil : Utf8 "" []
| Utf8_cons s c s' cs : next_char s = Some (c, s') -> Utf8 s' cs -> Utf8 s (c :: cs).

Lemma next_char_shorter s c s' : next_char s = Some (c, s') -> (String.length s' < String.length s)%nat.
Proof.
  unfold next_char. destruct s as [|a s1]; [done|]. intros E.
  repeat case_match; simplify_eq; simpl; lia.
Qed.

Lemma next_char_app s c s' t : next_char s = Some (c, s') -> next_char (s +:+ t) = Some (c, s' +:+ t).
Proof.
  unfold next_char. destruct s as [|a s1]; [done|]. cbn [append].
  destruct (_ <? 128)%N; [by intros [= <- <-]|].
  destruct (_ && _); [destruct s1 as [|c1 s2]; [done|]; cbn [append]; case_match; [|done]; by intros [= <- <-]|].
  destruct (_ && _).
  { destruct s1 as [|c1 [|c2 s3]]; [done|done|]. cbn [append]. case_match; [|done]. by intros [= <- <-]. }
  destruct (_ && _); [|done]. destruct s1 as [|c1 [|c2 [|c3 s4]]]; [done|done|done|]. cbn [append].
  case_match; [|done]. by intros [= <- <-].
Qed.

Lemma Utf8_fuel fuel s cs : (String.length s <= fuel)%nat -> utf8_fuel fuel s = Some cs <-> Utf8 s cs.
Proof.
  revert s cs. induction fuel as [|fuel IH]; intros s cs Hf.
  { destruct s; [|simpl in Hf; lia]. simpl. split; [intros [= <-]; constructor|].
    inversion 1 as [|? ? ? ? E]; [done|]. done. }
  destruct s as [|a s].
  { simpl. split; [intros [= <-]; constructor|]. inversion 1 as [|? ? ? ? E]; [done|]. done. }
  cbn [utf8_fuel]. destruct (next_char (String a s)) as [[c s']|] eqn:E.
  - pose proof (next_char_shorter _ _ _ E) as Hs.
    assert (Hl : (String.length s' <= fuel)%nat) by lia. split.
    + destruct (utf8_fuel fuel s') as [r|] eqn:R; [|done]. intros [= <-].
      econstructor; [done|]. by apply IH.
    + inversion 1 as [|? ? ? ? E' R]; subst. rewrite E in E'. injection E' as <- <-.
      apply IH in R; [|done]. by rewrite R.
  - split; [done|]. inversion 1 as [|? ? ? ? E' R]; subst. congruence.
Qed.

Lemma Utf8_chars s cs : Utf8 s cs -> chars s = cs.
Proof. intros U%(Utf8_fuel (String.length s)); [|done]. unfold chars, utf8_chars. by rewrite U. Qed.

Lemma is_utf8_Utf8 s : is_utf8 s = true -> Utf8 s (chars s).
Proof.
  unfold is_utf8, chars, utf8_chars. destruct (utf8_fuel _ s) eqn:E; [|done]. intros _.
  by apply (Utf8_fuel (String.length s)).
Qed.

Lemma Utf8_app s cs t ts : Utf8 s cs -> Utf8 t ts -> Utf8 (s +:+ t) (cs ++ ts).
Proof.
  intros U V. induction U as [|s c s' cs E U IH]; [done|]. simpl.
  econstructor; [by apply next_char_app|done].
Qed.

Lemma Utf8_le s cs : Utf8 s cs -> (List.length cs <= String.length s)%nat.
Proof. induction 1 as [|s c s' cs E U IH]; [done|]. simpl. apply next_char_shorter in E. lia. Qed.

Lemma repeat_Utf8 c n :
  (N_of_ascii c < 128)%N -> Utf8 (repeated c n) (List.repeat (N_of_ascii c) n).
Proof.
  intros Hc. induction n as [|n IH]; [constructor|]. cbn [repeated List.repeat].
  econstructor; [|exact IH]. unfold next_char. by rewrite (proj2 (N.ltb_lt _ _) Hc).
Qed.

Definition utf8_count (s : string) (n : nat) : Prop := exists cs, Utf8 s cs /\ List.length cs = n.

Lemma utf8_count_char_count s n : utf8_count s n -> char_count s = n.
Proof. intros (cs & U & <-). unfold char_count. by rewrite (Utf8_chars _ _ U). Qed.

Lemma utf8_count_app s n t m : utf8_count s n -> utf8_count t m -> utf8_count (s +:+ t) (n + m).
Proof.
  intros (cs & U & <-) (ts & V & <-). exists (cs ++ ts).
  split; [by apply Utf8_app|apply length_app].
Qed.

Lemma pad_count w s :
  is_utf8 s = true -> (String.length s <= w)%nat -> utf8_count (pad w s) w.
Proof.
  intros U%is_utf8_Utf8 Hw. unfold pad.
  assert (Hle : (char_count s <= String.length s)%nat) by apply (Utf8_le _ _ U).
  replace w with (char_count s + (w - char_count s))%nat at 2 by lia.
  apply utf8_count_app; [by eexists|]. eexists. split; [by apply repeat_Utf8|apply repeat_length].
Qed.

(** ** The table is aligned *)

(** The characters of a line: the columns and the gaps of two. *)
Definition table_width (widths : list nat) : nat :=
  (sum_list widths + 2 * pred (List.length widths))%nat.

Lemma join_count l ws :
  Forall2 utf8_count l ws -> l <> [] -> utf8_count (join "  " l) (table_width ws).
Proof.
  induction 1 as [|s w l ws Hs Hl IH]; [done|]. intros _. destruct Hl as [|s' w' l ws Hs' Hl].
  - unfold table_width. simpl. by rewrite !Nat.add_0_r.
  - assert (E : table_width (w :: w' :: ws) = (w + (2 + table_width (w' :: ws)))%nat)
      by (unfold table_width; simpl; lia).
    rewrite E. change (join "  " (s :: s' :: l)) with (s +:+ "  " +:+ join "  " (s' :: l)).
    apply utf8_count_app; [done|]. apply utf8_count_app; [|by apply IH].
    eexists. split; [by apply (repeat_Utf8 " " 2)|done].
Qed.

Lemma zip_max_ge ws row :
  List.length row = List.length ws ->
  Forall2 le ws (widen ws row) /\ Forall2 (fun c w => String.length c <= w)%nat row (widen ws row).
Proof.
  revert row. induction ws as [|w ws IH]; intros [|c row] Hl; try done.
  destruct (IH row ltac:(simpl in Hl; lia)). split; constructor; try done; lia.
Qed.

Lemma column_widths_ge rows ws :
  Forall (fun r : list string => List.length r = List.length ws) rows ->
  Forall2 le ws (fold_left widen rows ws) /\
  Forall (fun r => Forall2 (fun c w => String.length c <= w)%nat r (fold_left widen rows ws)) rows.
Proof.
  revert ws. induction rows as [|r rows IH]; intros ws Hl; simpl.
  { split; [|constructor]. induction ws; constructor; auto. }
  apply Forall_cons in Hl as [Hr Hl]. destruct (zip_max_ge ws r Hr) as [H1 H2].
  assert (Hlen : List.length (widen ws r) = List.length ws) by (by apply Forall2_length in H1).
  destruct (IH (widen ws r)) as [H3 H4]; [by rewrite Hlen|]. split.
  - eapply Forall2_trans; [|exact H1|exact H3]. intros x y z; lia.
  - constructor; [|done]. eapply Forall2_trans; [|exact H2|exact H3]. intros x y z; cbv beta; lia.
Qed.

Lemma padded_count row ws :
  Forall (fun c => is_utf8 c = true) row ->
  Forall2 (fun c w => String.length c <= w)%nat row ws -> Forall2 utf8_count (padded ws row) ws.
Proof.
  intros Hu H. induction H as [|c w row ws Hc H IH]; [constructor|].
  apply Forall_cons in Hu as [Hu1 Hu2]. constructor; [by apply pad_count|by apply IH].
Qed.

Lemma string_length_app a b : String.length (a +:+ b) = (String.length a + String.length b)%nat.
Proof. induction a; simpl; congruence. Qed.

Lemma padded_length row ws :
  Forall (fun c => is_utf8 c = true /\ char_count c = String.length c) row ->
  Forall2 (fun c w => String.length c <= w)%nat row ws ->
  map String.length (padded ws row) = ws.
Proof.
  intros Hu H. induction H as [|c w row ws Hc H IH]; [done|].
  apply Forall_cons in Hu as [[_ Hu1] Hu2]. simpl. f_equal; [|by apply IH].
  unfold pad. rewrite string_length_app, Hu1. clear -Hc.
  assert (E : forall n, String.length (repeated " " n) = n) by (intros n; induction n; simpl; congruence).
  rewrite E. lia.
Qed.

Lemma dashes_count ns :
  Forall2 utf8_count (map (repeated "-") ns) ns.
Proof.
  induction ns as [|n ns IH]; constructor; [|done].
  eexists. split; [by apply repeat_Utf8|apply repeat_length].
Qed.

Section Aligned.
Context `{SerdeJson}.

(** A table has a header, a rule and a line for every item; header and lines
    have the same number of characters whatever the cells contain, no cell is
    cut, and the rule is as long where the column names are ASCII. *)
Theorem table_aligned items :
  columns items <> [] ->
  (forall c, c ∈ columns items -> is_utf8 c = true) ->
  (forall item c, item ∈ items -> c ∈ columns items -> is_utf8 (cell item c) = true) ->
  exists widths header rule,
    print_array_table items =
      header :: rule :: map (fun it => join "  " (padded widths (table_row (columns items) it))) items /\
    char_count header = table_width widths /\
    (forall item, item ∈ items ->
       char_count (join "  " (padded widths (table_row (columns items) item))) = table_width widths) /\
    ((forall c, c ∈ columns items -> char_count c = String.length c) ->
     char_count rule = table_width widths).
Proof.
  intros Hne Hc Hi. unfold print_array_table.
  destruct items as [|i0 items0] eqn:Eit; [done|]. rewrite <- Eit in *. clear Eit i0 items0.
  destruct (columns items) as [|c0 cols0] eqn:Ec; [done|]. rewrite <- Ec in *. clear c0 cols0 Ec.
  set (cols := columns items) in *. set (rows := map (table_row cols) items).
  assert (Hl : Forall (fun r : list string => List.length r = List.length (map String.length cols)) rows).
  { apply Forall_forall. intros r Hr. unfold rows in Hr. apply list_elem_of_In, in_map_iff in Hr
      as (it & <- & _). unfold table_row. by rewrite !length_map. }
  destruct (column_widths_ge rows _ Hl) as [Hh Hr].
  change (fold_left widen rows (map String.length cols)) with (column_widths cols rows) in Hh, Hr.
  set (ws := column_widths cols rows) in *.
  assert (Hh' : Forall2 (fun c w => String.length c <= w)%nat cols ws)
    by exact (proj1 (Forall2_fmap_l _ _ _ _) Hh).
  assert (Hu : Forall (fun c => is_utf8 c = true) cols) by (by apply Forall_forall).
  exists ws, (join "  " (padded ws cols)),
    (join "  " (map (fun h => repeated "-" (String.length h)) (padded ws cols))).
  assert (Hnn : forall row, row <> [] -> List.length row = List.length ws -> padded ws row <> []).
  { intros [|c row]; [done|]. by destruct ws. }
  pose proof (Forall2_length _ _ _ Hh') as Hlen.
  split; [unfold rows; by rewrite map_map|]. split; [|split].
  - apply utf8_count_char_count, join_count; [by apply padded_count|by apply Hnn].
  - intros it Hit. rewrite Forall_forall in Hr.
    assert (Hin : table_row cols it ∈ rows)
      by (apply list_elem_of_In, in_map, list_elem_of_In, Hit).
    specialize (Hr _ Hin). apply utf8_count_char_count, join_count.
    + apply padded_count; [|done]. apply Forall_forall. intros x Hx. unfold table_row in Hx.
      apply list_elem_of_In, in_map_iff in Hx as (c & <- & Hcc). apply Hi; [done|].
      by apply list_elem_of_In.
    + apply Hnn; [|by apply Forall2_length in Hr]. unfold table_row. by destruct cols.
  - intros Ha. rewrite <- (map_map String.length (repeated "-")).
    rewrite padded_length; [|apply Forall_forall; auto|done].
    apply utf8_count_char_count, join_count; [apply dashes_count|].
    destruct ws; [|done]. by destruct cols.
Qed.

(** A document with one list in it is not shown as a table: the list is
    printed as JSON on the line of its key. *)
Lemma wrapped_list_printed_raw k items :
  print_table (JObject [(k, JArray items)]) = [k +:+ ": " +:+ to_vec (JArray items)].
Proof. unfold print_table, sorted_keys. simpl. by rewrite bool_decide_eq_true_2. Qed.
End Aligned.

(** ** Witnesses *)

Module OutputWitness.

#[export] Instance no_nesting : SerdeJson := {| from_slice _ := None; to_vec _ := "{}" |}.

(** Two agents, one with a name of three characters and five bytes. *)
Definition agents : list Json :=
  [JObject [("id", JString "a1"); ("name", JString (String "195" (String "169" ("t" +:+ String "195" (String "169" "")))))];
   JObject [("id", JString "a2"); ("revoked", JBool true)]].

Example agents_table :
  print_array_table agents =
  ["id  name ";
   "--  -----";
   "a1  " +:+ String "195" (String "169" ("t" +:+ String "195" (String "169" "  ")));
   "a2  -    "].
Proof. vm_compute. reflexivity. Qed.

Lemma table_aligned_witness :
  exists widths header rule,
    print_array_table agents =
      header :: rule :: map (fun it => join "  " (padded widths (table_row (columns agents) it))) agents /\
    char_count header = table_width widths.
Proof.
  destruct (table_aligned agents) as (ws & h & r & E & Hh & _).
  - vm_compute. discriminate.
  - intros c Hc. assert (F : Forall (fun c => is_utf8 c = true) (columns agents))
      by (repeat constructor).
    by eapply Forall_forall in F.
  - intros it c Hi Hc. assert (F : Forall (fun c => is_utf8 c = true)
        (flat_map (fun it => map (cell it) (columns agents)) agents)) by (vm_compute; repeat constructor).
    eapply Forall_forall in F; [exact F|]. apply list_elem_of_In, in_flat_map. exists it.
    split; [by apply list_elem_of_In|]. apply in_map. by apply list_elem_of_In.
  - exists ws, h, r. done.
Defined.
End OutputWitness.
