(* ===== verification/Operators.v ===== *)
(** * The operators file ([src/auth_v2/operator.rs], [src/cli/commands/bootstrap_operator.rs])

    [bootstrap-operator] prints an [operators.yaml] and, on the other stream,
    the token; the daemon reads that file when it starts.  The two derived
    deserializers are written out over [ConfigFile]'s [serde] primitives; the
    YAML text parser is a parameter, of which [block_yaml] says what the YAML
    specification says of one small family of documents: comment lines, then
    one key with a block sequence of one block mapping of plain and
    double-quoted scalars. *)

From S2P Require Import Prelude Json Http Token Argon2Helper AgentRepo AuditLog Auth.
From S2P Require Import Secret ResponseControls Config Registrations AgentCreds AdminService.
From S2P Require Import AdminHttp Deprecation Strings ConfigFile Startup Cli Output.

(** ** Reading *)

Definition operator_fields : list string :=
  ["name"; "public_id"; "token_hash"; "scope"; "cert_identity"].

Section Reading.
Context `{YamlValue} (de_json : Yaml -> option Json).

Definition de_OperatorRecord (y : Yaml) : option OperatorRecord :=
  let* fs := open_struct operator_fields y in
  let* name := required fs "name" de_str in
  let* public_id := required fs "public_id" de_str in
  let* token_hash := required fs "token_hash" de_str in
  let* scope := defaulted fs "scope" None (de_option de_json) in
  let* cert_identity := defaulted fs "cert_identity" None (de_option de_str) in
  Some {| rec_name := name; rec_public_id := public_id; rec_token_hash := token_hash;
          rec_scope := scope; rec_cert_identity := cert_identity |}.

Definition de_OperatorsFile (y : Yaml) : option (list OperatorRecord) :=
  let* fs := open_struct ["operators"] y in
  required fs "operators" (de_list de_OperatorRecord).

(** [serde_yaml::from_str::<OperatorsFile>]; [yaml_error] is the error's text. *)
Context (yaml_from_str : string -> option Yaml) (yaml_error : string -> string).

Definition parse_operators (text : string) : result string (list OperatorRecord) :=
  ok_or (yaml_error text) (yaml_from_str text ≫= de_OperatorsFile).
End Reading.

(** ** Printing *)

(** What [println!] writes for each line. *)
Definition newline : ascii := ascii_of_N 10.

Fixpoint printed (lines : list string) : string :=
  match lines with [] => "" | l :: ls => l +:+ String newline (printed ls) end.

(** ** A family of YAML documents *)

Definition is_letter (c : ascii) : bool :=
  let n := N_of_ascii c in ((65 <=? n) && (n <=? 90) || (97 <=? n) && (n <=? 122))%N.

(** Words that some schema gives another meaning than a string. *)
Definition yaml_words : list string :=
  ["null"; "true"; "false"; "yes"; "no"; "on"; "off"; "y"; "n"; "nan"; "inf"; "infinity"].

(** A scalar that needs no quotes: a letter, then letters, digits, [-], [_]. *)
Definition safe_scalar (s : string) : bool :=
  match s with String c _ => is_letter c | "" => false end
  && str_forall is_b64url s && negb (list_has yaml_words (to_ascii_lowercase s)).

(** Bytes that stand for themselves between double quotes. *)
Definition quotable (c : ascii) : bool :=
  let n := N_of_ascii c in ((32 <=? n) && (n <=? 126) && negb (n =? 34) && negb (n =? 92))%N.

Inductive Scalar := Plain (s : string) | DoubleQuoted (s : string).

Definition scalar_value (v : Scalar) : string := match v with Plain s | DoubleQuoted s => s end.
Definition scalar_text (v : Scalar) : string := match v with Plain s => s | DoubleQuoted s => quoted s end.
Definition scalar_ok (v : Scalar) : bool :=
  match v with Plain s => safe_scalar s | DoubleQuoted s => str_forall quotable s end.

Definition control_free (s : string) : bool :=
  str_forall (fun c => (32 <=? N_of_ascii c)%N && negb (N_of_ascii c =? 127)%N) s.

Record BlockDoc := {
  bd_comments : list string;
  bd_key : string;
  bd_first : string * Scalar;
  bd_rest : list (string * Scalar)
}.

Definition bd_entries (d : BlockDoc) : list (string * Scalar) := bd_first d :: bd_rest d.

Definition entry_text (e : string * Scalar) : string := e.1 +:+ ": " +:+ scalar_text e.2.

Definition bd_lines (d : BlockDoc) : list string :=
  map (fun c => "#" +:+ c) (bd_comments d)
  ++ [bd_key d +:+ ":"; "  - " +:+ entry_text (bd_first d)]
  ++ map (fun e => "    " +:+ entry_text e) (bd_rest d).

Definition bd_ok (d : BlockDoc) : bool :=
  forallb (fun c => is_utf8 c && control_free c) (bd_comments d) && safe_scalar (bd_key d)
  && forallb (fun e => safe_scalar e.1 && scalar_ok e.2) (bd_entries d)
  && bool_decide (NoDup (map fst (bd_entries d))).

Definition bd_value (d : BlockDoc) : Yaml :=
  ymap [(bd_key d, YSequence [ymap (map (fun e => (e.1, YString (scalar_value e.2))) (bd_entries d))])].

(** The parser reads each of them as the specification says. *)
Definition block_yaml (yaml_from_str : string -> option Yaml) : Prop :=
  forall d, bd_ok d = true -> yaml_from_str (printed (bd_lines d)) = Some (bd_value d).

(** The characters of a PHC string. *)
Definition phc_char (c : ascii) : bool :=
  is_b64url c || is_char "$" c || is_char "=" c || is_char "," c || is_char "+" c || is_char "/" c
  || is_char "." c.

(** ** A minted credential *)

Definition header_comments (name : string) : list string :=
  [" Locksmith operator credentials.";
   " Generated by `locksmith bootstrap-operator --name " +:+ name +:+ "` — see";
   " agent-locksmith/docs/user/concepts/agent-identity-and-acl.md";
   " for the full credential lifecycle."; "";
   " Re-running bootstrap-operator OVERWRITES the cleartext wire";
   " token (only the argon2 hash is stored here). Save the wire";
   " token from stderr to LOCKSMITH_OP_TOKEN at install time."].

Definition operators_doc (name pid phc : string) (header : bool) : BlockDoc :=
  {| bd_comments := if header then header_comments name else [];
     bd_key := "operators"; bd_first := ("name", Plain name);
     bd_rest := [("public_id", DoubleQuoted pid); ("token_hash", DoubleQuoted phc)] |}.

(** The printed file is of the family. *)
Lemma operators_doc_lines name pid phc header :
  bd_lines (operators_doc name pid phc header) =
  (if header then operators_header name else []) ++ operators_yaml name pid phc.
Proof. by destruct header. Qed.

Lemma utf8_app a b : is_utf8 a = true -> is_utf8 b = true -> is_utf8 (a +:+ b) = true.
Proof.
  intros Ua%is_utf8_Utf8 Ub%is_utf8_Utf8. pose proof (Utf8_app _ _ _ _ Ua Ub) as U.
  apply (Utf8_fuel (String.length (a +:+ b))) in U; [|done]. unfold is_utf8, utf8_chars. by rewrite U.
Qed.

Lemma b64url_char c :
  is_b64url c = true ->
  quotable c = true /\ (N_of_ascii c <? 128)%N = true /\
  (32 <=? N_of_ascii c)%N && negb (N_of_ascii c =? 127)%N = true.
Proof. by destruct c as [[] [] [] [] [] [] [] []]; vm_compute. Qed.

Lemma phc_quotable c : phc_char c = true -> quotable c = true.
Proof. by destruct c as [[] [] [] [] [] [] [] []]; vm_compute. Qed.

Lemma operators_doc_ok name pid phc header :
  safe_scalar name = true -> str_forall is_b64url pid = true -> str_forall phc_char phc = true ->
  bd_ok (operators_doc name pid phc header) = true.
Proof.
  intros Hn Hp Hh. pose proof Hn as [[_ Hb]%andb_prop _]%andb_prop.
  assert (Hu : is_utf8 name = true).
  { apply ascii_utf8. revert Hb. apply str_forall_impl. by intros c (_ & ? & _)%b64url_char. }
  assert (Hc : control_free name = true).
  { revert Hb. apply str_forall_impl. by intros c (_ & _ & ?)%b64url_char. }
  assert (Hq : str_forall quotable pid = true).
  { revert Hp. apply str_forall_impl. by intros c [? _]%b64url_char. }
  assert (Hq' : str_forall quotable phc = true).
  { revert Hh. apply str_forall_impl. intros c. apply phc_quotable. }
  unfold bd_ok. cbn [bd_entries bd_first bd_rest bd_comments bd_key operators_doc forallb map fst snd scalar_ok].
  rewrite Hn, Hq, Hq'. rewrite andb_true_iff. split; [|done].
  rewrite !andb_true_iff. split_and!; try done.
  destruct header; [|done]. unfold header_comments. cbn [forallb]. rewrite !andb_true_iff.
  split_and!; try done.
  - apply utf8_app; [done|]. by apply utf8_app.
  - unfold control_free in *. by rewrite !str_forall_app, Hc.
Qed.

Section Minted.
Context `{Base64UrlLaws} `{Argon2Laws} `{YamlValueLaws}.
Context (hash_text : HashError -> string) (de_json : Yaml -> option Json).
Context (yaml_from_str : string -> option Yaml) (yaml_error : string -> string).
Context (read_to_string : string -> result string string) (decoy_salt : string).

Hypothesis yaml : block_yaml yaml_from_str.
Hypothesis phc_alphabet : forall s salt phc,
  hash_password s salt = Some phc -> str_forall phc_char phc = true.

Local Ltac read_struct :=
  match goal with
  | |- context [open_struct ?known (ymap ?l)] =>
      let fs := fresh "fs" in let E := fresh "E" in
      destruct (open_struct_ymap known l) as (fs & -> & _ & E); [reflexivity|];
      unfold required, defaulted, de_option; rewrite !E; clear E; simpl
  end.

(** The printed file holds the one operator. *)
Lemma operators_read name pid phc (header : bool) :
  safe_scalar name = true -> str_forall is_b64url pid = true -> str_forall phc_char phc = true ->
  parse_operators de_json yaml_from_str yaml_error
    (printed ((if header then operators_header name else []) ++ operators_yaml name pid phc)) =
  Ok [{| rec_name := name; rec_public_id := pid; rec_token_hash := phc; rec_scope := None;
         rec_cert_identity := None |}].
Proof.
  intros Hn Hp Hh. unfold parse_operators. rewrite <- operators_doc_lines, yaml by by apply operators_doc_ok.
  unfold mbind, option_bind, bd_value, de_OperatorsFile. cbn [bd_key operators_doc]. simpl.
  read_struct. unfold de_list. rewrite de_seq_sequence. simpl. unfold de_OperatorRecord, operator_fields.
  read_struct. by rewrite !de_str_string.
Qed.

End Minted.

(** ** Witnesses *)

Module OperatorsWitness.
Import Base64Model AuthWitness ConfigFileWitness.

(** A reader of the family: line by line, comments dropped. *)
Definition read_scalar (v : string) : string :=
  match v with
  | String c rest => if is_char (ascii_of_N 34) c then str_take (String.length rest - 1) rest else v
  | "" => ""
  end.

Definition read_entry (line : string) : option (string * Yaml) :=
  match split_once ":" (str_drop 4 line) with
  | Some (k, v) => Some (k, YString (read_scalar (str_drop 1 v)))
  | None => None
  end.

Definition read_block (text : string) : option Yaml :=
  match List.filter (fun l => negb (starts_with "#" l) && negb (bool_decide (l = "")))
          (split (is_char newline) text) with
  | k :: lines =>
      match split_once ":" k, all_some (map read_entry lines) with
      | Some (key, _), Some es => Some (ymap [(key, YSequence [ymap es])])
      | _, _ => None
      end
  | [] => None
  end.

Lemma safe_char c : is_b64url c = true ->
  is_char ":" c = false /\ is_char newline c = false /\ is_char "#" c = false /\
  is_char (ascii_of_N 34) c = false.
Proof. by destruct c as [[] [] [] [] [] [] [] []]; vm_compute. Qed.

Lemma control_line c : (32 <=? N_of_ascii c)%N && negb (N_of_ascii c =? 127)%N = true ->
  is_char newline c = false.
Proof. by destruct c as [[] [] [] [] [] [] [] []]; vm_compute. Qed.

Lemma quotable_line c : quotable c = true -> is_char newline c = false.
Proof. by destruct c as [[] [] [] [] [] [] [] []]; vm_compute. Qed.

Definition one_line (s : string) : Prop := str_forall (fun d => negb (is_char newline d)) s = true.

Lemma safe_line s : safe_scalar s = true -> one_line s.
Proof.
  intros [[_ Hs]%andb_prop _]%andb_prop. revert Hs. apply str_forall_impl.
  by intros c (_ & -> & _)%safe_char.
Qed.

Lemma scalar_line v : scalar_ok v = true -> one_line (scalar_text v).
Proof.
  destruct v as [s|s]; [apply safe_line|]. simpl. intros Hs. unfold one_line, quoted. cbn [str_forall].
  rewrite str_forall_app. apply andb_true_iff. split; [done|]. apply andb_true_iff. split; [|done].
  revert Hs. apply str_forall_impl. by intros c ->%quotable_line.
Qed.

Lemma split_printed lines :
  Forall one_line lines -> split (is_char newline) (printed lines) = lines ++ [""].
Proof.
  induction 1 as [|l ls Hl _ IH]; [done|]. cbn [printed]. rewrite split_cons by done. by rewrite IH.
Qed.

Lemma str_take_app a b : str_take (String.length a) (a +:+ b) = a.
Proof. induction a as [|c a IH]; simpl; [by destruct b|by rewrite IH]. Qed.

Lemma read_scalar_text v : scalar_ok v = true -> read_scalar (scalar_text v) = scalar_value v.
Proof.
  destruct v as [s|s]; cbn [scalar_ok scalar_text scalar_value].
  - intros [[_ Hs]%andb_prop _]%andb_prop. destruct s as [|c s]; [done|]. cbn [str_forall] in Hs.
    apply andb_prop in Hs as [(_ & _ & _ & Hc)%safe_char _]. cbn [read_scalar]. by rewrite Hc.
  - intros _. simpl. rewrite str_app_length. simpl.
    replace (String.length s + 1 - 1)%nat with (String.length s) by lia. apply str_take_app.
Qed.

Lemma read_entry_text pre e :
  String.length pre = 4%nat -> safe_scalar e.1 = true -> scalar_ok e.2 = true ->
  read_entry (pre +:+ entry_text e) = Some (e.1, YString (scalar_value e.2)).
Proof.
  intros Hp Hk Hv. unfold read_entry. destruct pre as [|p0 [|p1 [|p2 [|p3 [|]]]]]; try done. simpl str_drop.
  unfold entry_text. change (": " +:+ scalar_text e.2) with (String ":" (" " +:+ scalar_text e.2)).
  rewrite split_once_intro.
  - simpl. by rewrite read_scalar_text.
  - destruct (andb_prop _ _ Hk) as [[_ Hs]%andb_prop _]. revert Hs. apply str_forall_impl.
    by intros c (-> & _)%safe_char.
Qed.

Lemma entry_line e : safe_scalar e.1 = true -> scalar_ok e.2 = true -> one_line (entry_text e).
Proof.
  intros Hk Hv. unfold entry_text, one_line. rewrite !str_forall_app, (safe_line _ Hk), (scalar_line _ Hv).
  done.
Qed.

Lemma bd_lines_ok d : bd_ok d = true -> Forall one_line (bd_lines d).
Proof.
  intros [[[Hc Hk]%andb_prop He]%andb_prop _]%andb_prop. unfold bd_lines. rewrite !Forall_app.
  unfold bd_entries in He. cbn [forallb] in He. apply andb_prop in He as [[H1 H2]%andb_prop He].
  split_and!.
  - apply Forall_map. rewrite Forall_forall. intros c Hin. rewrite forallb_forall in Hc.
    destruct (andb_prop _ _ (Hc c (proj1 (list_elem_of_In _ _) Hin))) as [_ Hf].
    unfold one_line. cbn [append str_forall]. apply andb_true_iff. split; [done|]. revert Hf.
    apply str_forall_impl. by intros x ->%control_line.
  - repeat constructor; unfold one_line; rewrite str_forall_app; [by rewrite (safe_line _ Hk)|].
    by rewrite (entry_line _ H1 H2).
  - apply Forall_map. rewrite Forall_forall. intros e Hin. rewrite forallb_forall in He.
    destruct (andb_prop _ _ (He e (proj1 (list_elem_of_In _ _) Hin))) as [Ha Hb].
    unfold one_line. rewrite str_forall_app. by rewrite (entry_line _ Ha Hb).
Qed.

Lemma all_entries pre es :
  String.length pre = 4%nat -> forallb (fun e => safe_scalar e.1 && scalar_ok e.2) es = true ->
  all_some (map read_entry (map (fun e => pre +:+ entry_text e) es)) =
  Some (map (fun e => (e.1, YString (scalar_value e.2))) es).
Proof.
  intros Hp. induction es as [|e es IH]; [done|]. cbn [forallb map all_some].
  intros [[H1 H2]%andb_prop H3]%andb_prop. by rewrite read_entry_text, IH.
Qed.

Lemma read_block_reads : block_yaml read_block.
Proof.
  intros d Hd. unfold read_block. rewrite split_printed by by apply bd_lines_ok.
  pose proof Hd as [[[Hc Hk]%andb_prop He]%andb_prop _]%andb_prop.
  unfold bd_entries in He. cbn [forallb] in He. apply andb_prop in He as [[H1 H2]%andb_prop He].
  assert (Hkey : exists c s, bd_key d = String c s /\ is_char "#" c = false).
  { destruct (andb_prop _ _ Hk) as [[_ Hs]%andb_prop _]. destruct (bd_key d) as [|c s]; [done|].
    exists c, s. split; [done|]. cbn [str_forall] in Hs. by apply andb_prop in Hs as [(_ & _ & ? & _)%safe_char _]. }
  unfold bd_lines. rewrite <- !app_assoc, !List.filter_app.
  assert (List.filter (fun l => negb (starts_with "#" l) && negb (bool_decide (l = "")))
            (map (fun c => "#" +:+ c) (bd_comments d)) = []) as ->.
  { clear. by induction (bd_comments d) as [|c l IH]. }
  assert (forall ls, List.filter (fun l => negb (starts_with "#" l) && negb (bool_decide (l = "")))
            (map (fun e => "    " +:+ entry_text e) ls) = map (fun e => "    " +:+ entry_text e) ls) as ->.
  { induction ls as [|e ls IH]; [done|]. cbn [map List.filter]. by rewrite IH. }
  destruct Hkey as (c & s & Ek & Hh).
  assert (Hsplit : split_once ":" (bd_key d +:+ ":") = Some (bd_key d, "")).
  { apply split_once_intro. destruct (andb_prop _ _ Hk) as [[_ Hs]%andb_prop _]. revert Hs.
    apply str_forall_impl. by intros x (-> & _)%safe_char. }
  assert (Hkeep : negb (starts_with "#" (bd_key d +:+ ":")) && negb (bool_decide (bd_key d +:+ ":" = "")) = true).
  { rewrite Ek. unfold starts_with. cbn [append strip_prefix]. unfold is_char in Hh.
    rewrite bool_decide_eq_false in Hh. rewrite (bool_decide_eq_false_2 ("#"%char = c)) by congruence.
    rewrite bool_decide_eq_false_2 by done. done. }
  assert (Hkeep' : negb (starts_with "#" ("  - " +:+ entry_text (bd_first d)))
                   && negb (bool_decide ("  - " +:+ entry_text (bd_first d) = "")) = true) by done.
  cbn [app List.filter]. rewrite Hkeep, Hkeep'. cbn [app]. rewrite Hsplit.
  cbn [map all_some]. change (List.filter _ [""]) with (@nil string). rewrite app_nil_r.
  cbn [map all_some]. rewrite (read_entry_text "  - "), (all_entries "    ") by done. done.
Qed.

(** A hash whose text is in the PHC alphabet. *)
#[local] Instance phc64 : Argon2Crate := {|
  params_new _ _ _ _ := true;
  phc_parses phc := starts_with "$argon2id$" phc;
  hash_password s _ := Some ("$argon2id$" +:+ b64_encode s);
  verify_password s phc :=
    if bool_decide (phc = "$argon2id$" +:+ b64_encode s) then VerifyOk else VerifyPassword
|}.

Lemma phc64_inj s s' : "$argon2id$" +:+ b64_encode s = "$argon2id$" +:+ b64_encode s' -> s = s'.
Proof.
  intros E. assert (b64_encode s = b64_encode s') as E' by (by simplify_eq/=).
  pose proof (b64_decode_encode s) as D. rewrite E', b64_decode_encode in D. congruence.
Qed.

#[local] Instance phc64_laws : Argon2Laws.
Proof.
  split; [done|..]; intros s; cbn [hash_password phc_parses verify_password phc64].
  - intros salt phc E. assert (phc = "$argon2id$" +:+ b64_encode s) as -> by congruence.
    unfold starts_with. by rewrite strip_prefix_app.
  - intros salt phc E. by rewrite bool_decide_eq_true_2 by congruence.
  - intros s' salt phc E Hne. assert (phc = "$argon2id$" +:+ b64_encode s) as -> by congruence. rewrite bool_decide_eq_false_2; [done|]. intros E'%phc64_inj. congruence.
Qed.

Lemma phc64_alphabet s salt phc : hash_password s salt = Some phc -> str_forall phc_char phc = true.
Proof.
  intros E. assert (phc = "$argon2id$" +:+ b64_encode s) as -> by (cbn [hash_password phc64] in E; congruence).
  rewrite str_forall_app. apply andb_true_iff. split; [done|].
  eapply str_forall_impl; [|apply b64_encode_alphabet]. intros c Hc. unfold phc_char. by rewrite Hc.
Qed.

Definition rng1 : Entropy :=
  {| id_bytes := "0123456789abcdef"; secret_bytes := "0123456789abcdef0123456789abcdef"; salt := "s" |}.

Definition minted_file : list string * string :=
  match bootstrap_operator (fun _ => "") "alice" true rng1 with Ok m => m | Err _ => ([], "") end.


(** The name is printed as it is.  For one that needs quotes, here with a colon
    and a space, nothing above applies: YAML has no mapping inside a plain
    scalar, and the daemon refuses the file. *)
Example unquoted_name :
  operators_yaml "ops: eu" "id" "hash" = ["operators:"; "  - name: ops: eu";
    "    public_id: " +:+ quoted "id"; "    token_hash: " +:+ quoted "hash"] /\
  safe_scalar "ops: eu" = false.
Proof. split; reflexivity. Qed.
End OperatorsWitness.
