(* ===== verification/AdminListeners.v ===== *)
(** * Binding the admin listeners, and the socket client

    [admin/uds.rs] [bind_and_serve] as the system calls it makes on the file
    system; [admin/https.rs] and the bootstrap-only listener as how long they
    serve and what ends them; [admin/uds_client.rs] as the stages of one
    request.  Each system call may fail; what it does when it succeeds is
    written out.  [axum_server] and [hyper] are parameters. *)

From S2P Require Import Prelude Json Http Token Argon2Helper AgentRepo.
From S2P Require Import BootstrapRepo AuditLog Auth Registrations Oauth OauthAdmin.
From S2P Require Import ResponseControls AdminService AdminHttp Revocation Strings.
From S2P Require Import Listeners Cli.

(** ** The admin socket *)

(** A socket has a mode and, while its process is there, an owner. *)
Inductive Node :=
| SocketNode (owner : option nat) (mode : Z)
| FileNode (mode : Z)
| DirNode.

Abbreviation FileTree := (gmap string Node) (only parsing).

Inductive Syscall := Stat | RemoveFile | CreateDirAll | BindSocket | SetPermissions.

#[export] Instance Syscall_eq_dec : EqDecision Syscall.
Proof. solve_decision. Defined.

Section Bind.
(** [fails]: the calls the system refuses, with its error; [parent]: the
    directory of the path, as the list of its ancestors and itself. *)
Context (fails : Syscall -> option string) (umask : Z) (me : nat).
Context (path : string) (parent : option (list string)).

Definition call (k : Syscall) (act : FileTree -> result string FileTree) (fs : FileTree)
  : result string FileTree :=
  match fails k with Some e => Err e | None => act fs end.

(** [bind(2)] creates the file with the mode the umask leaves, and refuses a
    path that is taken. *)
Definition bind_call (fs : FileTree) : result string FileTree :=
  match fs !! path with
  | Some _ => Err "address in use"
  | None => Ok (<[path := SocketNode (Some me) (Z.ldiff 511 umask)]> fs)
  end.

Definition chmod_call (mode : Z) (fs : FileTree) : result string FileTree :=
  match fs !! path with
  | Some (SocketNode o _) => Ok (<[path := SocketNode o mode]> fs)
  | Some (FileNode _) => Ok (<[path := FileNode mode]> fs)
  | Some DirNode => Ok fs
  | None => Err "not found"
  end.

Definition mkdir_call (dir : string) (fs : FileTree) : result string FileTree :=
  match fs !! dir with
  | None => Ok (<[dir := DirNode]> fs)
  | Some DirNode => Ok fs
  | Some _ => Err "file exists"
  end.

(** The checks before binding: a socket that is in the way is removed. *)
Definition clear_path (fs : FileTree) : result string FileTree :=
  match fs !! path with
  | None => Ok fs
  | Some node =>
      let? fs := call Stat Ok fs in
      match node with
      | SocketNode _ _ => call RemoveFile (fun fs => Ok (delete path fs)) fs
      | _ => Ok fs
      end
  end.

Fixpoint mkdirs (dirs : list string) (fs : FileTree) : result string FileTree :=
  match dirs with
  | [] => Ok fs
  | dir :: dirs => let? fs := mkdir_call dir fs in mkdirs dirs fs
  end.

Definition ensure_parent (fs : FileTree) : result string FileTree :=
  match parent with
  | Some dirs => call CreateDirAll (mkdirs dirs) fs
  | None => Ok fs
  end.

(** [bind_and_serve] up to serving: the file system after each of its parts,
    and how it ended. *)
Definition bind_admin_socket (fs : FileTree) : list FileTree * result string unit :=
  match clear_path fs with
  | Err e => ([], Err e)
  | Ok fs1 =>
      match ensure_parent fs1 with
      | Err e => ([fs1], Err e)
      | Ok fs2 =>
          match call BindSocket bind_call fs2 with
          | Err e => ([fs1; fs2], Err e)
          | Ok fs3 =>
              match call SetPermissions (chmod_call 432) fs3 with
              | Err e => ([fs1; fs2; fs3], Err e)
              | Ok fs4 => ([fs1; fs2; fs3; fs4], Ok tt)
              end
          end
      end
  end.

(** The path of the socket is not one of the directories it is in. *)
Hypothesis parent_ne : path ∉ default [] parent.

(** Nothing changed away from the socket and its directories. *)
Definition undisturbed (fs fs' : FileTree) : Prop :=
  forall p, p <> path -> p ∉ default [] parent -> fs' !! p = fs !! p.

Lemma quiet_trans a b c : undisturbed a b -> undisturbed b c -> undisturbed a c.
Proof. intros H1 H2 p Hp Hd. by rewrite H2, H1. Qed.

Lemma clear_path_spec fs fs' :
  clear_path fs = Ok fs' ->
  undisturbed fs fs' /\
  ((exists o m, fs !! path = Some (SocketNode o m)) /\ fs' !! path = None \/
   (forall o m, fs !! path <> Some (SocketNode o m)) /\ fs' !! path = fs !! path).
Proof.
  unfold clear_path, call. destruct (fs !! path) as [node|] eqn:E.
  - destruct (fails Stat); [done|]. simpl. destruct node as [o m|m|];
      [destruct (fails RemoveFile); [done|]| |]; intros [= <-].
    + split; [intros p Hp _; by apply lookup_delete_ne|]. left. rewrite lookup_delete_eq. eauto.
    + split; [done|]. right. by rewrite E.
    + split; [done|]. right. by rewrite E.
  - intros [= <-]. split; [done|]. right. by rewrite E.
Qed.

Lemma mkdirs_lookup dirs fs fs' p : mkdirs dirs fs = Ok fs' -> p ∉ dirs -> fs' !! p = fs !! p.
Proof.
  revert fs. induction dirs as [|d dirs IH]; intros fs; simpl; [by intros [= <-]|].
  rewrite not_elem_of_cons. intros E [Hd Hp]. unfold mkdir_call in E.
  destruct (fs !! d) as [[]|]; try done; rewrite (IH _ E Hp); [done|]. by apply lookup_insert_ne.
Qed.

Lemma ensure_parent_spec fs fs' :
  ensure_parent fs = Ok fs' -> undisturbed fs fs' /\ fs' !! path = fs !! path.
Proof.
  unfold ensure_parent, call, undisturbed. destruct parent as [dirs|]; [|by intros [= <-]].
  destruct (fails CreateDirAll); [done|]. simpl in *. intros E.
  split; [intros p _ Hp|]; by eapply mkdirs_lookup.
Qed.

Lemma bind_call_spec fs fs' :
  call BindSocket bind_call fs = Ok fs' ->
  fs !! path = None /\ fs' = <[path := SocketNode (Some me) (Z.ldiff 511 umask)]> fs.
Proof.
  unfold call, bind_call. destruct (fails BindSocket); [done|].
  destruct (fs !! path); [done|]. by intros [= <-].
Qed.

(** Binding succeeds only by leaving our socket at the path, open to owner
    and group; it needs the path to be free or a socket; a file or directory
    there is never touched; and nothing else changes, except that the
    directory of the socket is made. *)
Theorem bind_socket_spec fs states r :
  bind_admin_socket fs = (states, r) ->
  (r = Ok tt -> exists fs', last states = Some fs' /\ fs' !! path = Some (SocketNode (Some me) 432)) /\
  (forall fs', fs' ∈ states -> undisturbed fs fs') /\
  (forall node, fs !! path = Some node -> (forall o m, node <> SocketNode o m) ->
     r <> Ok tt /\ forall fs', fs' ∈ states -> fs' !! path = Some node).
Proof.
  unfold bind_admin_socket. intros E.
  destruct (clear_path fs) as [fs1|] eqn:E1;
    [|injection E as <- <-; split; [done|]; split; [by intros ? []%not_elem_of_nil|];
      intros; split; [done|by intros ? []%not_elem_of_nil]].
  apply clear_path_spec in E1 as [Q1 C1].
  destruct (ensure_parent fs1) as [fs2|] eqn:E2.
  2: { injection E as <- <-. split; [done|]. split; [by intros ? ->%list_elem_of_singleton|].
       intros node Hn Hs. split; [done|]. intros ? ->%list_elem_of_singleton.
       destruct C1 as [[(o & m & C) _]|[_ ->]]; [congruence|done]. }
  apply ensure_parent_spec in E2 as [Q2 P2]. pose proof (quiet_trans _ _ _ Q1 Q2) as Q12.
  assert (K : forall node, fs !! path = Some node -> (forall o m, node <> SocketNode o m) ->
    fs1 !! path = Some node /\ fs2 !! path = Some node).
  { intros node Hn Hs. destruct C1 as [[(o & m & C) _]|[_ C]]; [congruence|].
    rewrite P2, C. done. }
  destruct (call BindSocket bind_call fs2) as [fs3|] eqn:E3.
  2: { injection E as <- <-. split; [done|]. split.
       - intros fs'. rewrite elem_of_cons, list_elem_of_singleton. by intros [->| ->].
       - intros node Hn Hs. split; [done|]. destruct (K node Hn Hs). intros fs'.
         rewrite elem_of_cons, list_elem_of_singleton. by intros [->| ->]. }
  apply bind_call_spec in E3 as [Hf ->]. set (fs3 := <[path := _]> fs2) in *.
  assert (Q3 : undisturbed fs fs3) by (intros p Hp Hd; unfold fs3; rewrite lookup_insert_ne; auto).
  assert (Kno : forall node, fs !! path = Some node -> (forall o m, node <> SocketNode o m) -> False)
    by (intros node Hn Hs; destruct (K node Hn Hs); congruence).
  assert (L3 : fs3 !! path = Some (SocketNode (Some me) (Z.ldiff 511 umask)))
    by apply lookup_insert_eq.
  unfold call, chmod_call in E. rewrite L3 in E.
  destruct (fails SetPermissions); injection E as <- <-.
  - split; [done|]. split; [|intros; exfalso; eauto]. intros fs'.
    rewrite !elem_of_cons, elem_of_nil. by intros [->|[->|[->|[]]]].
  - split; [|split; [|intros; exfalso; eauto]].
    + intros _. eexists. split; [done|]. by rewrite lookup_insert_eq.
    + intros fs'. rewrite !elem_of_cons, elem_of_nil. intros [->|[->|[->|[->|[]]]]]; auto.
      intros p Hp Hd. rewrite lookup_insert_ne by done. by apply Q3.
Qed.
End Bind.

(** ** What the comments promise of it *)

Section BindLimits.
Context (umask : Z) (me other : nat) (path : string) (fs : FileTree) (mode : Z).
Hypothesis taken : fs !! path = Some (SocketNode (Some other) mode).

(** The socket of a daemon that is still running is removed like a stale one:
    the second daemon takes over the path. *)
Theorem live_socket_taken :
  exists before fs', bind_admin_socket (fun _ => None) umask me path None fs = (before ++ [fs'], Ok tt) /\
    fs' !! path = Some (SocketNode (Some me) 432).
Proof.
  unfold bind_admin_socket, clear_path, ensure_parent, call. rewrite taken.
  unfold bind_call. rewrite lookup_delete_eq. unfold chmod_call. rewrite lookup_insert_eq.
  eexists [_; _; _], _. split; [reflexivity|]. apply lookup_insert_eq.
Qed.
End BindLimits.

(** Between [bind] and [set_permissions] the socket has the mode the umask
    leaves: with a umask of zero anyone may connect. *)
Theorem socket_open_until_chmod me path (fs : FileTree) :
  fs !! path = None ->
  exists fs3 fs4, bind_admin_socket (fun _ => None) 0 me path None fs = ([fs; fs; fs3; fs4], Ok tt) /\
    fs3 !! path = Some (SocketNode (Some me) 511).
Proof.
  intros E. unfold bind_admin_socket, clear_path, ensure_parent, call, bind_call. rewrite !E.
  unfold chmod_call. rewrite lookup_insert_eq. eexists _, _. split; [reflexivity|].
  apply lookup_insert_eq.
Qed.

(** ** Serving until shutdown *)

(** The latest of some ends; [None] is never. *)
Fixpoint all_done (from : Z) (ends : list (option Z)) : option Z :=
  match ends with
  | [] => Some from
  | e :: ends => let* t := e in let* r := all_done from ends in Some (Z.max t r)
  end.

(** When a server that heard the signal at [signal] returns: without a limit
    when its connections have ended, with one at the latest then. *)
Definition graceful_end (drain : option Z) (signal : Z) (busy : list (option Z)) : option Z :=
  match drain, all_done signal busy with
  | None, t => t
  | Some d, Some t => Some (Z.min t (signal + d))
  | Some d, None => Some (signal + d)
  end.

(** A request that would be answered at [t] is. *)
Definition answered (drain : option Z) (signal t : Z) : bool :=
  match drain with None => true | Some d => t <=? signal + d end.

(** In milliseconds. *)
Definition HTTPS_GRACEFUL_DRAIN : Z := 5000.
Definition BOOTSTRAP_GRACEFUL_DRAIN : Z := 5000.

Section Tls.
Context {Tls : Type} (from_pem_file : string -> string -> result string Tls).
Context (bind_rustls : string -> Tls -> result string unit).

Definition load_tls_config (cert_path key_path : string) : result IoError Tls :=
  map_err (fun e => InvalidData ("TLS PEM load failed (cert=" +:+ cert_path +:+ ", key="
                                 +:+ key_path +:+ "): " +:+ e))
    (from_pem_file cert_path key_path).

(** How a TLS listener ends, [None] when it goes on for ever: a certificate
    that does not load, an address that cannot be bound, or the drain. *)
Definition tls_serve (drain : Z) (addr cert_path key_path : string) (signal : option Z)
    (busy : list (option Z)) : option (result IoError Z) :=
  match load_tls_config cert_path key_path with
  | Err e => Some (Err e)
  | Ok tls =>
      match bind_rustls addr tls with
      | Err e => Some (Err (OsError e))
      | Ok _ => let* t0 := signal in Ok <$> graceful_end (Some drain) t0 busy
      end
  end.

Definition https_bind_and_serve := tls_serve HTTPS_GRACEFUL_DRAIN.
Definition bootstrap_bind_and_serve := tls_serve BOOTSTRAP_GRACEFUL_DRAIN.

Lemma all_done_ge from ends t : all_done from ends = Some t -> from <= t.
Proof.
  revert t. induction ends as [|e ends IH]; intros t; simpl; [intros [= <-]; lia|].
  destruct e as [u|]; [|done]. destruct (all_done from ends) as [r|]; [|done].
  intros [= <-]. specialize (IH r eq_refl). lia.
Qed.

(** Once the shutdown is signalled a TLS listener is gone within its drain,
    whatever its connections do. *)
Lemma tls_serve_bounded drain addr cert key t0 busy :
  0 <= drain ->
  exists r, tls_serve drain addr cert key (Some t0) busy = Some r /\
    forall t, r = Ok t -> t0 <= t <= t0 + drain.
Proof.
  intros Hd. unfold tls_serve. destruct (load_tls_config cert key) as [tls|]; [|by eexists].
  destruct (bind_rustls addr tls); [|by eexists]. unfold graceful_end.
  destruct (all_done t0 busy) as [u|] eqn:E; eexists; (split; [done|]); intros t [= <-]; [|lia].
  apply all_done_ge in E. lia.
Qed.
End Tls.

(** The socket waits for its requests, the HTTPS listener cuts one that takes
    longer than five seconds, however long the configured window is. *)
Lemma https_cuts_what_socket_answers signal t :
  signal + HTTPS_GRACEFUL_DRAIN < t ->
  answered None signal t = true /\ graceful_end None signal [Some t] = Some t /\
  answered (Some HTTPS_GRACEFUL_DRAIN) signal t = false.
Proof.
  unfold HTTPS_GRACEFUL_DRAIN. intros Ht. simpl. split; [done|]. split; [f_equal; lia|].
  apply Z.leb_gt. lia.
Qed.

(** ** The socket client *)

Inductive UdsClientError :=
| ConnectError (path source : string)
| HandshakeError (e : string)
| RequestError (e : string)
| BodyError (e : string)
| HeaderError (e : string)
| BuildRequestError (e : string).

Definition uds_error_text (e : UdsClientError) : string :=
  match e with
  | ConnectError path source => "connect " +:+ path +:+ ": " +:+ source
  | HandshakeError e => "handshake: " +:+ e
  | RequestError e => "request: " +:+ e
  | BodyError e => "body: " +:+ e
  | HeaderError e => "invalid header value: " +:+ e
  | BuildRequestError e => "invalid method/uri: " +:+ e
  end.

Section Client.
Context {St Conn : Type}.
(** [unix_connect], [handshake] and [build] as [tokio], [hyper] and [http]
    have them; [send] is the daemon's side of one request, with its status and
    what comes of collecting the body. *)
Context (unix_connect : string -> result string Conn) (handshake : Conn -> result string unit).
Context (build : Wire -> result string unit).
Context (send : Wire -> St -> result string (Z * result string string) * St).

(** The request as it is built: [host] comes first, no body is an empty one. *)
Definition uds_wire (method path : string) (headers : HeaderMap) (body : option string) : Wire :=
  {| w_method := method; w_target := path; w_headers := ("host", "locksmith.local") :: headers;
     w_body := Some (default "" body) |}.

Definition uds_request (socket method path : string) (headers : HeaderMap) (body : option string)
    (st : St) : result UdsClientError (Z * string) * St :=
  let prepared :=
    let? conn := map_err (ConnectError socket) (unix_connect socket) in
    let? _ := map_err HandshakeError (handshake conn) in
    map_err BuildRequestError (build (uds_wire method path headers body)) in
  match prepared with
  | Err e => (Err e, st)
  | Ok _ =>
      match send (uds_wire method path headers body) st with
      | (Err e, st) => (Err (RequestError e), st)
      | (Ok (status, Err e), st) => (Err (BodyError e), st)
      | (Ok (status, Ok bytes), st) => (Ok (status, bytes), st)
      end
  end.

(** An answer means the daemon handled exactly this request; an error before
    it was sent means the daemon saw nothing. *)
Theorem uds_request_spec socket method path headers body st :
  match uds_request socket method path headers body st with
  | (Ok (status, bytes), st') =>
      send (uds_wire method path headers body) st = (Ok (status, Ok bytes), st')
  | (Err (ConnectError _ _), st') | (Err (HandshakeError _), st') | (Err (BuildRequestError _), st') =>
      st' = st
  | (Err (RequestError e), st') => send (uds_wire method path headers body) st = (Err e, st')
  | (Err (BodyError e), st') =>
      exists status, send (uds_wire method path headers body) st = (Ok (status, Err e), st')
  | (Err (HeaderError _), _) => False
  end.
Proof.
  unfold uds_request. destruct (unix_connect socket) as [c|]; simpl; [|done].
  destruct (handshake c) as [[]|]; simpl; [|done].
  destruct (build _) as [[]|]; simpl; [|done].
  destruct (send _ st) as [[[status [bytes|e]]|e] st']; [done| |done]. by exists status.
Qed.

(** The command line's exchange over the socket. *)
Definition uds_exchange (socket : string) (w : Wire) (st : St) : result CliError (Z * string) * St :=
  let '(r, st) := uds_request socket (w_method w) (w_target w) (tail (w_headers w)) (w_body w) st in
  (map_err (fun e => CliTransport (uds_error_text e)) r, st).
End Client.

(** What the daemon then sees is the request the command planned. *)
Lemma uds_exchange_request `{SerdeJson} socket p :
  let w := wire (Uds socket) p in
  request_of_wire (uds_wire (w_method w) (w_target w) (tail (w_headers w)) (w_body w)) =
  request_of_wire w.
Proof. done. Qed.

(** ** Witnesses *)

Module AdminListenersWitness.

Definition tree : gmap string Node :=
  <["/run" := DirNode]> (<["/run/admin.sock" := FileNode 420]> ∅).

Lemma bind_socket_spec_witness :
  let '(states, r) := bind_admin_socket (fun _ => None) 18 7 "/run/admin.sock" (Some ["/run"]) tree in
  r <> Ok tt /\ List.length states = 2%nat /\
  forall fs', fs' ∈ states -> fs' !! "/run/admin.sock" = Some (FileNode 420).
Proof.
  destruct (bind_admin_socket _ _ _ _ _ _) as [states r] eqn:E.
  assert (Hp : "/run/admin.sock" ∉ default [] (Some ["/run"]))
    by (simpl; rewrite list_elem_of_singleton; discriminate).
  destruct (bind_socket_spec _ _ _ _ _ Hp _ _ _ E) as (_ & _ & K).
  destruct (K (FileNode 420)) as [K1 K2]; [reflexivity|discriminate|].
  split; [exact K1|]. split; [|exact K2]. apply (f_equal fst) in E. vm_compute in E.
  rewrite <- E. reflexivity.
Defined.

Lemma live_socket_taken_witness :
  exists before fs', bind_admin_socket (fun _ => None) 18 7 "/run/admin.sock" None
      {["/run/admin.sock" := SocketNode (Some 3%nat) 432]} = (before ++ [fs'], Ok tt) /\
    fs' !! "/run/admin.sock" = Some (SocketNode (Some 7%nat) 432).
Proof. apply (live_socket_taken 18 7 3 "/run/admin.sock" _ 432). reflexivity. Defined.
End AdminListenersWitness.
