(* ===== verification/Gateway.v ===== *)
(** * The gateway ([src/app.rs], routes of [build_app_full_with_phase_g])

    The middleware in front of the proxy routes: the path through
    [auth_middleware], axum's router and the handlers of [proxy.rs].  Path
    matching is axum's (class [Router]): which route a path has and what its
    captures decode to.  The two components share one audit log.  The other
    routes only answer. *)

From S2P Require Import Prelude Json Http Token Argon2Helper AgentRepo.
From S2P Require Import AuditLog Auth Secret CodexBody ResponseControls Config.
From S2P Require Import Registrations Oauth AgentCreds Proxy.

Inductive Route :=
| ApiRoute (tool path : string)
| TransportRoute (tool path : string)
| OtherRoute.

Class Router : Type := { route : string -> Route }.

(** A path only matches a route whose literal segments it has. *)
Class RouterLaws `{Router} : Prop := {
  route_api : forall p t q, route p = ApiRoute t q -> starts_with "/api/" p = true;
  route_transport : forall p t q, route p = TransportRoute t q -> starts_with "/transport/" p = true
}.

Section Gateway.
Context `{RegexCrate} `{Sha2Crate} `{HttpCrate} `{AesGcm} `{Base64Std} `{Base64Url} `{SerdeJson}
  `{Argon2Crate} `{X509Crate} `{Router}.
Context (env : string -> option string) (post : TokenEndpoint)
  (url_parse : string -> option Url) (send : OutReq -> UpstreamReply)
  (kamiwaza : AppConfig -> string -> Request -> option Response)
  (other : Request -> Response) (cfg : AuthConfig).

(** The agents table, the argon2 runs so far and the application state,
    whose audit log both components write. *)
Record GatewayState := { gw_agents : AgentDb; gw_verifies : nat; gw_app : AppState }.

Definition set_audit (a : option AuditRepository) (s : AppState) : AppState :=
  {| st_config := st_config s; st_catalog := st_catalog s; st_creds := st_creds s;
     st_response_controls := st_response_controls s; st_agent_creds := st_agent_creds s;
     st_oauth := st_oauth s; st_audit := a |}.

Definition auth_view (g : GatewayState) : AuthSt :=
  {| as_agents := gw_agents g; as_audit := st_audit (gw_app g); as_verifies := gw_verifies g |}.

(** One request: the response, the new state and what was sent upstream. *)
Definition gateway (m : Moment) (req : Request) (g : GatewayState)
  : Response * GatewayState * option OutReq :=
  let '(o, a) := auth_middleware cfg (m_now m) (m_now_ms m) req (auth_view g) in
  let s := set_audit (as_audit a) (gw_app g) in
  let back s := {| gw_agents := as_agents a; gw_verifies := as_verifies a; gw_app := s |} in
  match o with
  | Respond r => (r, back s, None)
  | Next req =>
      match route (req_path req) with
      | ApiRoute tool path =>
          let r := proxy_tool_request env post url_parse send kamiwaza m tool path req s in
          (px_response r, back (px_state r), px_sent r)
      | TransportRoute tool path =>
          let r := credential_transport_request env post url_parse send kamiwaza m tool path req s in
          (px_response r, back (px_state r), px_sent r)
      | OtherRoute => (other req, back s, None)
      end
  end.

Context `{!RouterLaws}.

Lemma api_not_exempt req t q : route (req_path req) = ApiRoute t q -> exempt req = false.
Proof.
  intros Hr%route_api. unfold starts_with in Hr.
  destruct (strip_prefix "/api/" (req_path req)) as [rest|] eqn:E; [|done].
  apply strip_prefix_Some in E. unfold exempt, is_probe, is_transport, list_has. rewrite E. simpl.
  by repeat (rewrite bool_decide_eq_false_2 by discriminate).
Qed.

(** The middleware stamps the request and changes nothing else a handler
    reads. *)
Lemma middleware_same now now_ms req s req' s' :
  auth_middleware cfg now now_ms req s = (Next req', s') ->
  req_path req' = req_path req /\ req_headers req' = req_headers req.
Proof.
  unfold auth_middleware, bearer_path, mtls_path, run_bearer_branch, shared_bearer.
  intros Hm. repeat case_match; by simplify_eq/=.
Qed.

(** The caller proved who it is to the authenticator in use. *)
Definition authenticated (m : Moment) (req : Request) (g : GatewayState) (id : AgentIdentity)
    (decoy : string) : Prop :=
  (auth_mode cfg <> MtlsMode /\
   fst (authenticate_bearer decoy (m_now m) (m_now_ms m)
          (default "" (header_str "authorization" req)) (auth_view g)) = Ok id) \/
  (auth_mode cfg <> BearerMode /\
   exists v cert, mtls_authenticator cfg = Some v /\ peer_cert (req_ext req) = Some (Some cert) /\
     fst (authenticate_cert v (m_now m) (m_now_ms m) cert (auth_view g)) = Ok id).

Lemma transport_sent m tool path req s o :
  px_sent (credential_transport_request env post url_parse send kamiwaza m tool path req s) = Some o ->
  credential_handle_matches (st_config s) tool (req_headers req) = true.
Proof. unfold credential_transport_request. by destruct (credential_handle_matches _ _ _). Qed.

(** C1: nothing goes upstream for a stranger: with per-agent authentication
    wired, a request is only sent for a call under [/api/] by an agent that
    authenticated by bearer token or client certificate (only by certificate
    when the mode is mTLS) and whose ACL permits the tool, or for a call under
    [/transport/] that presents one of the tool's configured credential
    handles. *)
Theorem gateway_sound m req g decoy o :
  agent_auth cfg = Some decoy ->
  snd (gateway m req g) = Some o ->
  (exists id tool path, route (req_path req) = ApiRoute tool path /\
     authenticated m req g id decoy /\ allows_tool id tool = Ok tt) \/
  (exists tool path, route (req_path req) = TransportRoute tool path /\
     credential_handle_matches (st_config (gw_app g)) tool (req_headers req) = true).
Proof.
  intros Hd Hs. unfold gateway in Hs.
  destruct (auth_middleware cfg (m_now m) (m_now_ms m) req (auth_view g)) as [[req'|r] a] eqn:Em; [|done].
  destruct (middleware_same _ _ _ _ _ _ Em) as [Hp Hh]. rewrite Hp in Hs.
  destruct (route (req_path req)) as [tool path|tool path|] eqn:Er; [left|right|done]; simpl in Hs.
  - destruct (middleware_next _ _ _ _ _ _ _ _ Hd Em (api_not_exempt _ _ _ Er)) as (id & Hid & Hau).
    exists id, tool, path. split; [done|]. split.
    + destruct Hau as [(_ & ? & ?)|(_ & ? & v & cert & ? & ? & ?)]; [by left|right].
      split; [done|]. by exists v, cert.
    + apply sent_inv in Hs as [Hacl _]. by apply Hacl.
  - exists tool, path. split; [done|]. apply transport_sent in Hs. by rewrite Hh in Hs.
Qed.

(** A token of an agent that is not active authenticates nobody. *)
Lemma bearer_inactive decoy now now_ms pid sec s :
  online (as_agents s) = true ->
  well_formed {| namespace := Agent; public_id := pid; secret := sec |} ->
  find_first (active_by_public_id pid) (agents (as_agents s)) = None ->
  fst (authenticate_bearer decoy now now_ms
    ("Bearer " +:+ wire_format {| namespace := Agent; public_id := pid; secret := sec |}) s)
  = Err InvalidCredential.
Proof.
  intros Hon Hwf F. unfold authenticate_bearer. rewrite strip_prefix_app, (parse_wire_format _ Hwf).
  simpl. unfold resolve, get_active_by_public_id. by rewrite Hon, F.
Qed.

(** Such a token under [/api/], without a client certificate, is answered 401
    and nothing is sent upstream. *)
Lemma inactive_locked_out m req g decoy pid sec tool path :
  agent_auth cfg = Some decoy -> online (gw_agents g) = true ->
  find_first (active_by_public_id pid) (agents (gw_agents g)) = None ->
  well_formed {| namespace := Agent; public_id := pid; secret := sec |} ->
  header_str "authorization" req =
    Some ("Bearer " +:+ wire_format {| namespace := Agent; public_id := pid; secret := sec |}) ->
  (auth_mode cfg = BearerMode \/ forall c, peer_cert (req_ext req) <> Some (Some c)) ->
  route (req_path req) = ApiRoute tool path ->
  snd (gateway m req g) = None /\ resp_status (fst (fst (gateway m req g))) = 401.
Proof.
  intros Hd Hon F Hwf Hh Hmode Hr.
  assert (Hb : exists s', bearer_path cfg (m_now m) (m_now_ms m) req (auth_view g)
             = (Respond (auth_error_response InvalidCredential), s')).
  { unfold bearer_path, run_bearer_branch. rewrite Hd, Hh. simpl default.
    pose proof (bearer_inactive decoy (m_now m) (m_now_ms m) pid sec (auth_view g) Hon Hwf F) as E.
    destruct (authenticate_bearer _ _ _ _ _) as [res s']. simpl in E. subst res. by exists s'. }
  assert (Hm : exists e s', auth_status e = 401 /\
             auth_middleware cfg (m_now m) (m_now_ms m) req (auth_view g)
             = (Respond (auth_error_response e), s')).
  { destruct Hb as [s' Hb]. pose proof (api_not_exempt _ _ _ Hr) as He. unfold exempt in He.
    apply orb_false_iff in He as [[He1 He2]%orb_false_iff He3].
    unfold auth_middleware. rewrite He1, He2, He3, Hb.
    destruct (auth_mode cfg), (peer_cert (req_ext req)) as [[c|]|];
      try (by exists InvalidCredential, s'); try (by eexists MissingCredential, _);
      exfalso; (destruct Hmode as [Hmode|Hmode]; [done|by apply (Hmode c)]). }
  destruct Hm as (e & s' & He & Hm). unfold gateway. rewrite Hm. simpl. split; [done|].
  by destruct e.
Qed.

(** Nobody is authenticated as an agent that is not active, by token or by
    certificate. *)
Lemma authenticated_active m req g id decoy :
  authenticated m req g id decoy ->
  exists r, r ∈ agents (gw_agents g) /\ is_active r = true /\ ag_public_id r = id_public_id id.
Proof.
  intros [[_ Hb]|(_ & v & cert & _ & _ & Hc)].
  - revert Hb. unfold authenticate_bearer, resolve, get_active_by_public_id.
    cbn [as_agents auth_view].
    destruct (strip_prefix "Bearer " (default "" (header_str "authorization" req))) as [raw|]; [|done]. destruct (parse raw) as [[[ns pid] sec]|]; [|done].
    destruct (negb _); [done|]. destruct (online (gw_agents g)); [|done].
    destruct (find_first _ _) as [r|] eqn:F; [|done]. destruct (expired_at _ r); [done|].
    destruct (verify _ _) as [[]|]; try done. intros [= <-].
    apply find_first_Some in F as [Hr Ha]. unfold active_by_public_id in Ha. split_ands. by exists r.
  - revert Hc. unfold authenticate_cert, get_by_cert_identity. simpl.
    destruct (validate _ _ _) as [i|]; [|done]. destruct (online (gw_agents g)); [|done].
    destruct (find_first _ _) as [r|] eqn:F; [|done]. intros [= <-].
    apply find_first_Some in F as [Hr Ha]. split_ands. by exists r.
Qed.

(** The middleware reads the agents table and at most touches one row. *)
Lemma bearer_agents decoy now now_ms header s :
  db_step (as_agents s) (as_agents (authenticate_bearer decoy now now_ms header s).2).
Proof.
  unfold authenticate_bearer, resolve.
  destruct (strip_prefix "Bearer " header) as [raw|]; [|constructor].
  destruct (parse raw) as [[[ns pid] sec]|]; [|constructor]. destruct (negb _); [constructor|].
  destruct (get_active_by_public_id _ _) as [[r|]|]; [|constructor..].
  destruct (expired_at _ r); [constructor|]. destruct (verify _ _) as [[]|]; try constructor.
  apply (exec_step (OpTouch (ag_public_id r) now)).
Qed.

Lemma middleware_agents now now_ms req s :
  db_step (as_agents s) (as_agents (auth_middleware cfg now now_ms req s).2).
Proof.
  assert (B : db_step (as_agents s) (as_agents (bearer_path cfg now now_ms req s).2)).
  { unfold bearer_path, run_bearer_branch. destruct (agent_auth cfg) as [decoy|]; [|constructor].
    pose proof (bearer_agents decoy now now_ms (default "" (header_str "authorization" req)) s) as B.
    by destruct (authenticate_bearer _ _ _ _ _) as [[]]. }
  assert (C : forall cert, as_agents (mtls_path cfg now now_ms cert req s).2 = as_agents s).
  { intros cert. unfold mtls_path, authenticate_cert. by repeat case_match; simplify_eq/=. }
  unfold auth_middleware. repeat case_match; try done; try constructor; rewrite C; constructor.
Qed.

(** A request for a name nothing answers to is not sent anywhere. *)
Lemma unresolved_not_sent m req g n path :
  resolve_target (st_catalog (gw_app g)) (st_config (gw_app g)) n = None ->
  route (req_path req) = ApiRoute n path \/ route (req_path req) = TransportRoute n path ->
  (gateway m req g).2 = None.
Proof.
  intros T Hr. unfold gateway. destruct (auth_middleware _ _ _ _ _) as [[req1|resp] a] eqn:Em; [|done].
  destruct (middleware_same _ _ _ _ _ _ Em) as [-> _].
  assert (N : forall s, st_catalog s = st_catalog (gw_app g) -> st_config s = st_config (gw_app g) ->
                px_sent (proxy_tool_request env post url_parse send kamiwaza m n path req1 s) = None).
  { intros s E1 E2. destruct (px_sent _) as [o|] eqn:Eo; [|done].
    apply sent_inv in Eo as (_ & t & (t0 & Ht & _) & _). congruence. }
  destruct Hr as [-> | ->]; [by apply N|]. unfold credential_transport_request.
  destruct (negb _); [done|]. by apply N.
Qed.

(** What a request leaves alone, of what the admin API manages. *)
Definition managed_view (s : AppState) :=
  (st_config s, st_catalog s, st_creds s, st_response_controls s, st_agent_creds s).

Lemma gateway_frame m req g :
  let g' := (gateway m req g).1.2 in
  db_step (gw_agents g) (gw_agents g') /\
  managed_view (gw_app g') = managed_view (gw_app g) /\
  rt_sealing_key <$> st_oauth (gw_app g') = rt_sealing_key <$> st_oauth (gw_app g).
Proof.
  unfold gateway. pose proof (middleware_agents (m_now m) (m_now_ms m) req (auth_view g)) as A.
  destruct (auth_middleware _ _ _ _ _) as [[req'|r] a]; [|done]. simpl in A.
  destruct (route _) as [tool path|tool path|]; simpl; split_and!; try done.
  - by rewrite proxy_frame.
  - by rewrite proxy_oauth_key.
  - unfold credential_transport_request. destruct (negb _); [done|]. by rewrite proxy_frame.
  - unfold credential_transport_request. destruct (negb _); [done|]. by rewrite proxy_oauth_key.
Qed.
End Gateway.

(** ** Witnesses *)

Module GatewayWitness.
Import ControlsWitness Registrations Base64Model Argon2Model HttpModel OauthWitness AgentWitness.
Import AuthWitness ProxyWitness.

(** Splits after the mount point at the next slash. *)
Definition split_route (mk : string -> string -> Route) (rest : string) : Route :=
  match split_once "/" rest with Some (t, q) => mk t q | None => mk rest "" end.

#[export] Instance router0 : Router :=
  {| route p :=
       match strip_prefix "/api/" p with
       | Some rest => split_route ApiRoute rest
       | None => match strip_prefix "/transport/" p with
                 | Some rest => split_route TransportRoute rest
                 | None => OtherRoute
                 end
       end |}.

#[export] Instance router0_laws : RouterLaws.
Proof.
  split; cbn [route router0]; intros p t q; unfold split_route, starts_with;
    destruct (strip_prefix "/api/" p) as [r|]; try done;
    destruct (strip_prefix "/transport/" p) as [r'|]; try done.
  - by destruct (split_once "/" r') as [[]|].
  - by destruct (split_once "/" r) as [[]|].
Qed.

Definition other0 (req : Request) : Response := status_response 404.

Definition gw0 : GatewayState := {| gw_agents := dev_db; gw_verifies := 0; gw_app := s0 |}.

(** [dev] may call [anthropic] only; give it a registration of that name. *)
Definition anthropic_reg : Registration :=
  {| name := "anthropic"; kind := Model; description := ""; upstream := "https://api.anthropic.com";
     auth := SpecHeader "x-api-key" "ANTHROPIC" true; egress := Direct; timeouts := default_timeouts;
     body_limit_bytes := 100; metadata := JObject []; seed := false; disabled := false;
     created_at := 0; updated_at := 0 |}.

Definition app1 : AppState :=
  {| st_config := {| tools := [] |}; st_catalog := {["anthropic" := anthropic_reg]};
     st_creds := {["anthropic" := "sk-ant"]}; st_response_controls := ∅; st_agent_creds := None;
     st_oauth := None; st_audit := st_audit s0 |}.

Definition gw1 : GatewayState := {| gw_agents := dev_db; gw_verifies := 0; gw_app := app1 |}.

Definition api_req : Request :=
  {| req_method := "GET"; req_path := "/api/anthropic/v1/models"; req_query := None;
     req_headers := [("authorization", dev_header)]; req_body := "";
     req_ext := {| peer_cert := Some None; authenticated_as := None; identity := None |} |}.

Definition gate (g : GatewayState) : Response * GatewayState * option OutReq :=
  gateway no_env provider url_parse0 send0 no_kamiwaza other0 cfg_both m0 api_req g.

Definition gate_out : OutReq :=
  {| out_method := "GET"; out_url := "https://api.anthropic.com/v1/models";
     out_headers := [("x-api-key", "sk-ant")]; out_body := None |}.

Lemma gateway_sound_witness :
  (exists id tool path, route "/api/anthropic/v1/models" = ApiRoute tool path /\
     authenticated cfg_both m0 api_req gw1 id "decoy" /\ allows_tool id tool = Ok tt) \/
  (exists tool path, route "/api/anthropic/v1/models" = TransportRoute tool path /\
     credential_handle_matches (st_config app1) tool (req_headers api_req) = true).
Proof.
  apply (gateway_sound no_env provider url_parse0 send0 no_kamiwaza other0 cfg_both m0 api_req gw1
           "decoy" gate_out); [reflexivity|vm_compute; reflexivity].
Defined.

End GatewayWitness.
