(* ===== verification/World.v ===== *)
(** * The running daemon: both listeners over one state

    The admin router, the agent gateway, the OAuth refresher and the retention
    sweeper of [src/daemon.rs] share the database, the catalog, the resolved
    credentials and the audit log ([build_admin_substrate] clones handles, not
    data).  [proxy_view] is the agent listener's part of the admin state and
    [proxy_commit] its writes; a history is a sequence of whole requests and
    ticks, from any listener and in any order, each finished before the next
    begins.  What overlapping requests can do between two database round trips
    is the subject of [Overlap] (agents), [RegisterRace] (registrations of
    agents), [CatalogRace] and [Withdrawal] (the catalog) and [OauthRace]
    (OAuth sessions). *)

From S2P Require Import AuditSink.
From S2P Require Import Prelude Json Http Token Argon2Helper AgentRepo.
From S2P Require Import BootstrapRepo AuditLog Auth Secret CodexBody ResponseControls.
From S2P Require Import Config Registrations SeedLoader Oauth AgentCreds AdminService.
From S2P Require Import OauthAdmin AdminHttp RouterInvariant Strings Revocation Shutdown.
From S2P Require Import Proxy Startup Cli Gateway.

Definition runtime_of (o : OauthAdminState) : OauthRuntime :=
  {| rt_sessions := oa_sessions o; rt_sealing_key := oa_sealing_key o; rt_locks := oa_locks o |}.

Definition commit_runtime (rt : OauthRuntime) (o : OauthAdminState) : OauthAdminState :=
  with_locks (rt_locks rt) (with_sessions (rt_sessions rt) o).

Section World.
Context `{Base64Url} `{Base64Std} `{Argon2Crate} `{HttpCrate} `{X509Crate} `{RegexCrate}.
Context `{AesGcm} `{SerdeJson} `{Sha2Crate} `{Extractors} `{Router}.
Context (env : string -> option string).
Context (post : string -> list (string * string) -> option (Z * option TokenResponse)).
Context (crate_text : RepoError -> string) (registration_text : RegistrationError -> string).
Context (session_text : OauthSessionError -> string) (refresh_text : RefreshError -> string).
Context (url_parse : string -> option Url) (send : OutReq -> UpstreamReply)
  (kamiwaza : AppConfig -> string -> Request -> option Response) (other : Request -> Response).
Context (auth_cfg : AuthConfig) (audit_cfg : AuditConfig).

(** ** The shared state *)

Definition proxy_view (u : UdsState) : GatewayState :=
  let a := us_admin u in
  {| gw_agents := sv_agents a; gw_verifies := us_verifies u;
     gw_app :=
       {| st_config := sv_config a; st_catalog := default ∅ (us_registrations u ≫= catalog);
          st_creds := default ∅ (us_registrations u ≫= resolved_creds);
          st_response_controls := compile_response_controls (sv_config a);
          st_agent_creds := us_agent_creds u; st_oauth := runtime_of <$> us_oauth u;
          st_audit := sv_audit a |} |}.

(** The agent listener writes the agents table, the audit log and the OAuth
    sessions. *)
Definition proxy_commit (g : GatewayState) (u : UdsState) : UdsState :=
  {| us_admin := {| sv_agents := gw_agents g; sv_bootstrap := sv_bootstrap (us_admin u);
                    sv_config := sv_config (us_admin u); sv_audit := st_audit (gw_app g);
                    sv_resolved_creds := sv_resolved_creds (us_admin u) |};
     us_verifies := gw_verifies g; us_registrations := us_registrations u;
     us_oauth := match us_oauth u, st_oauth (gw_app g) with
                 | Some o, Some rt => Some (commit_runtime rt o)
                 | o, _ => o
                 end;
     us_agent_creds := us_agent_creds u |}.

(** ** Histories *)

Inductive Event :=
| AdminCall (c : UdsConfig) (ef : Effects) (req : Request)
| ProxyCall (m : Moment) (req : Request)
| RefreshTick (now : Z) (nonces : string * string -> option string * option string)
| Sweep (now_ms : Z).

Definition proxied (m : Moment) (req : Request) (u : UdsState)
  : Response * GatewayState * option OutReq :=
  gateway env post url_parse send kamiwaza other auth_cfg m req (proxy_view u).

(** A tick takes the lock of every session it looks at. *)
Definition tick_locks (now : Z) (o : OauthAdminState) : gmap string nat :=
  match list_pending_refresh (now + DEFAULT_REFRESH_SAFETY_MARGIN_SECS) (oa_sessions o) with
  | Err _ => oa_locks o
  | Ok items => fold_left (fun m it => (lock_get it.1 it.2 m).2) items (oa_locks o)
  end.

Definition refresh_all (now : Z) (nonces : string * string -> option string * option string)
    (u : UdsState) : UdsState :=
  match us_oauth u with
  | None => u
  | Some o => with_oauth (with_locks (tick_locks now o) (with_sessions
      (tick post (oa_catalog o) (oa_sealing_key o) now nonces (oa_sessions o)) o)) u
  end.

Definition with_log (a : option AuditRepository) (u : UdsState) : UdsState :=
  with_auth {| as_agents := sv_agents (us_admin u); as_audit := a; as_verifies := us_verifies u |} u.

Definition swept (now_ms : Z) (u : UdsState) : UdsState :=
  with_log ((fun a => (sweep_older_than (sweep_cutoff audit_cfg now_ms) a).2)
            <$> sv_audit (us_admin u)) u.

(** One whole request or tick. *)
Definition world_step (u : UdsState) (e : Event) : UdsState :=
  match e with
  | AdminCall c ef req =>
      (admin_router c env post crate_text registration_text session_text refresh_text ef req u).2
  | ProxyCall m req => proxy_commit (proxied m req u).1.2 u
  | RefreshTick now nonces => refresh_all now nonces u
  | Sweep now_ms => swept now_ms u
  end.

Definition world (evs : list Event) (u : UdsState) : UdsState := fold_left world_step evs u.

(** Nothing the agent listener writes is lost in the shared state. *)
Lemma commit_view m req u :
  proxy_view (proxy_commit (proxied m req u).1.2 u) = (proxied m req u).1.2.
Proof.
  destruct (gateway_frame env post url_parse send kamiwaza other auth_cfg m req (proxy_view u))
    as (_ & F & K). unfold proxied.
  destruct (gateway _ _ _ _ _ _ _ _ _ _) as [[resp [ag v s]] out]. simpl in *.
  unfold managed_view in F. destruct s as [c cat cr rc ac oa au]. simpl in *.
  injection F as -> -> -> -> ->. unfold proxy_view, proxy_commit. simpl. repeat f_equal.
  destruct (us_oauth u) as [o|], oa as [rt|]; simplify_eq/=; [|done].
  unfold runtime_of. simpl. rewrite <- K. by destruct rt.
Qed.

(** ** What survives any history *)

(** [R] survives the writes of requests and ticks. *)
Record survives (R : UdsState -> Prop) : Prop := {
  survives_router : preserved env crate_text R;
  survives_proxy : forall g u, db_step (sv_agents (us_admin u)) (gw_agents g) -> R u ->
    R (proxy_commit g u);
  survives_sweep : forall a u, R u -> R (with_log a u)
}.

Lemma world_keeps R : survives R -> forall evs u, R u -> R (world evs u).
Proof.
  intros [K P S] evs. induction evs as [|e evs IH]; intros u Hu; [done|]. apply IH. destruct e; simpl.
  - by apply router_keeps.
  - apply P; [|done].
    apply (gateway_frame env post url_parse send kamiwaza other auth_cfg m req (proxy_view u)).
  - unfold refresh_all. destruct (us_oauth u) as [o|] eqn:E; [|done].
    by apply (keeps_oauth _ _ _ K o).
  - by apply S.
Qed.

Lemma wired_survives : survives wired.
Proof.
  split; [apply wired_preserved|..].
  - intros g u _ (r & cat & m & Hr & Hco & Hc & Hm & Hs & Ho). exists r, cat, m. simpl.
    split_and!; [done..|]. intros o. destruct (us_oauth u) as [o'|], (Proxy.st_oauth (gw_app g)); simpl;
      intros [= <-]; by apply (Ho o').
  - by intros a u (r & cat & m & Hr & Hw); exists r, cat, m.
Qed.

Lemma config_survives cf : survives (fun u => sv_config (us_admin u) = cf).
Proof.
  split; [split|..]; simpl; try done. intros c o st <-.
  by injection (admin_exec_fixed crate_text c o (us_admin st)) as _ ->.
Qed.

(** *** The agents table *)

Lemma db_steps_wf db db' : rtc db_step db db' -> agents_wf db -> agents_wf db'.
Proof. induction 1; eauto using db_step_wf. Qed.

Lemma db_steps_revoked pid db db' :
  rtc db_step db db' -> revoked_in pid db -> revoked_in pid db'.
Proof. induction 1; eauto using db_step_revoked. Qed.

Lemma db_steps_online db db' : rtc db_step db db' -> online db' = online db.
Proof. induction 1 as [|x y z Hs _ ->]; [done|]. by destruct Hs. Qed.

Lemma register_inner_agents c input s :
  rtc db_step (sv_agents s) (sv_agents (register_agent_inner crate_text c input s).2).
Proof.
  unfold register_agent_inner. destruct (parse _) as [[[ns pid] sec]|]; [|done].
  destruct (negb _); [done|]. destruct (preview_scope _ _ _) as [sc|]; [|done].
  pose proof (create_step (in_name input) (in_description input) (sc_tool_allowlist sc) None
                (in_metadata input) None (entropy c) (now c) (sv_agents s)) as Hc.
  destruct (create _ _ _ _ _ _ _ _ _) as [[[ap asec]|e] db]; simpl in Hc; [|by apply rtc_once].
  destruct (get_active_by_public_id _ _) as [[a|]|]; try by apply rtc_once.
  destruct (consume _ _ _ _ _ _) as [[u|e] bt]; simpl; [by apply rtc_once|].
  eapply rtc_l; [exact Hc|]. apply rtc_once, (exec_step (OpRevoke ap (now c))).
Qed.

Lemma admin_exec_agents c o s :
  rtc db_step (sv_agents s) (sv_agents (admin_exec crate_text c o s).2).
Proof.
  destruct o; cbn [admin_exec].
  - unfold register_agent. pose proof (register_inner_agents c input s) as E.
    destruct (register_agent_inner crate_text c input s) as [[out|e] s']; simpl in *; [done|].
    by destruct (is_reuse _ _ _ _).
  - unfold rotate_agent. apply rtc_once. 
    pose proof (exec_step (OpRotate (id_public_id agent) current_secret (entropy c)) (sv_agents s)) as E.
    simpl in E. by destruct (rotate _ _ _ _).
  - unfold deregister_agent. apply rtc_once.
    pose proof (exec_step (OpRevoke (id_public_id agent) (now c)) (sv_agents s)) as E.
    simpl in E. by destruct (AgentRepo.revoke _ _ _).
  - unfold create_agent_as_operator. apply rtc_once.
    match goal with |- context [create ?a ?b ?d ?e ?f ?g ?h ?i ?j] =>
      pose proof (create_step a b d e f g h i j) as E end.
    by destruct (create _ _ _ _ _ _ _ _ _) as [[[]|]].
  - unfold modify_agent. apply rtc_once.
    match goal with |- context [update_policy ?a ?b ?d ?e ?f ?g] =>
      pose proof (exec_step (OpPolicy a b d e f) g) as E end.
    simpl in E. by destruct (update_policy _ _ _ _ _ _).
  - unfold set_agent_cert_identity. apply rtc_once.
    pose proof (exec_step (OpSetCert pid cert) (sv_agents s)) as E.
    simpl in E. by destruct (set_cert_identity _ _ _).
  - unfold revoke_agent. apply rtc_once.
    pose proof (exec_step (OpRevoke pid (now c)) (sv_agents s)) as E.
    simpl in E. by destruct (AgentRepo.revoke _ _ _).
  - unfold mint_bootstrap_token. by destruct (mint _ _ _ _ _) as [[[]|]].
  - unfold revoke_bootstrap_token. by destruct (bt_revoke _ _ _).
Qed.

(** Every history moves the agents table by the repository's own steps. *)
Lemma agents_survive db : survives (fun u => rtc db_step db (sv_agents (us_admin u))).
Proof.
  split.
  - split; simpl; try done; intros.
    + etransitivity; [done|]. apply admin_exec_agents.
    + eapply rtc_r; [done|]. apply (bearer_agents decoy t t_ms header (AdminHttp.auth_view st)).
    + by rewrite op_bearer_agents.
    + by rewrite op_cert_agents.
  - intros g u Hs Hu. simpl. by eapply rtc_r.
  - done.
Qed.

Lemma world_agents evs u :
  rtc db_step (sv_agents (us_admin u)) (sv_agents (us_admin (world evs u))).
Proof. by apply (world_keeps _ (agents_survive _)). Qed.

(** ** Revocation, from the operator's terminal to the agent's next request *)

(** The command line over the admin socket; [bytes] is the body a response is
    read as. *)
Definition over_socket (c : UdsConfig) (ef : Effects) (bytes : Response -> string)
    (_ : Transport) (w : Wire) (u : UdsState) : result CliError (Z * string) * UdsState :=
  let '(resp, u) := admin_router c env post crate_text registration_text session_text refresh_text
                      ef (request_of_wire w) u in
  (Ok (resp_status resp, bytes resp), u).

Definition run_command (shell : string -> option string) (debug : string -> string)
    (stdin : result string string) (sock : string) (c : UdsConfig) (ef : Effects)
    (bytes : Response -> string) (cmd : Cmd) (u : UdsState)
  : result CliError (option Json) * UdsState :=
  perform (over_socket c ef bytes) (Uds sock) (cli_plan shell debug stdin cmd) u.

Lemma uds_error_not_2xx e :
  ~ (200 <= resp_status (uds_error_response e) < 300).
Proof. destruct e; simpl; lia. Qed.

Lemma admin_error_not_2xx e : ~ (200 <= resp_status (admin_err_response e) < 300).
Proof. destruct e; simpl; lia. Qed.

(** An operator request answered with success is one whose handler ran, on
    the state the authentication left. *)
Lemma operator_2xx c ef req u m h segs raw :
  req_method req = m -> m <> "HEAD" ->
  split_path (req_path req) = "" :: "admin" :: "operator" :: segs ->
  find_first (fun r => serves r.1.1 m) (routes_at (operator_routes u) segs) = Some (m, h, raw) ->
  path_params raw = Some raw ->
  let r := admin_router c env post crate_text registration_text session_text refresh_text ef req u in
  200 <= resp_status r.1 < 300 ->
  exists op u1, u1 = (operator_auth_middleware c ef req u).2 /\
    r = operator_handler env post crate_text registration_text session_text refresh_text
          h ef op raw req u1.
Proof.
  intros Hm Hh Hp Hr Hpp. cbv zeta. unfold admin_router. rewrite Hp.
  rewrite !(bool_decide_eq_true_2 (_ = _) eq_refl).
  rewrite (bool_decide_eq_false_2 ("operator" = "agent")) by done.
  cbn [negb andb]. unfold operator_nest. destruct (routes_at _ _) as [|x l]; [done|].
  destruct (operator_middleware_spec c ef req u) as [_ M].
  destruct (operator_auth_middleware _ _ _ _) as [[op|resp] u1]; cbn [fst snd] in M |- *.
  2: { destruct M as [e ->]. by intros ?%uds_error_not_2xx. }
  unfold dispatch. rewrite Hm, Hr, Hpp. cbn [extract]. rewrite (bool_decide_eq_false_2 (m = "HEAD")) by done.
  intros _. exists op, u1. split; [done|]. by destruct (operator_handler _ _ _ _ _ _ _ _ _ _ _ _).
Qed.

Lemma registration_error_not_2xx e :
  ~ (200 <= resp_status (registration_error_response e) < 300).
Proof. destruct e; simpl; lia. Qed.

Lemma revoke_route u pid :
  pid <> "" ->
  find_first (fun r => serves r.1.1 "POST") (routes_at (operator_routes u) ["agents"; pid; "revoke"])
  = Some ("POST", ORevokeAgent, [pid]).
Proof.
  intros Hp. destruct pid as [|d pid]; [done|]. unfold operator_routes.
  destruct (isSome (us_registrations u)), (isSome (us_oauth u)); vm_compute; reflexivity.
Qed.

Lemma revoke_request c ef req u pid :
  req_method req = "POST" ->
  split_path (req_path req) = [""; "admin"; "operator"; "agents"; pid; "revoke"] ->
  pid <> "" -> path_params [pid] = Some [pid] ->
  let r := admin_router c env post crate_text registration_text session_text refresh_text ef req u in
  200 <= resp_status r.1 < 300 -> revoked_in pid (sv_agents (us_admin r.2)).
Proof.
  intros Hm Hp Hne Hpp r Hs.
  destruct (operator_2xx c ef req u "POST" ORevokeAgent _ [pid] Hm ltac:(done) Hp
              (revoke_route u pid Hne) Hpp Hs) as (op & u1 & _ & E).
  fold r in E. rewrite E in Hs |- *. revert Hs. unfold operator_handler.
  destruct (ef_nonces ef) as [[n0 n1] n2]. unfold op_revoke_agent, reply_with, revoke_agent.
  pose proof (revoke_revokes pid (now (ef_call ef)) (sv_agents (us_admin u1))) as V.
  destruct (AgentRepo.revoke _ _ _) as [[[]|e] db]; [intros _; by apply V|].
  cbn [fst snd map_err admin_reply]. by intros ?%admin_error_not_2xx.
Qed.

Lemma failure_exits_nonzero {A} e : exit_of (A := A) (Err e) <> 0.
Proof. unfold exit_of, exit_code. by repeat case_match. Qed.

Lemma cli_revokes shell debug stdin sock c ef bytes pid reason u :
  plain pid -> path_params [pid] = Some [pid] ->
  let r := run_command shell debug stdin sock c ef bytes (CAgent (AgentRevoke pid reason)) u in
  exit_of r.1 = 0 -> revoked_in pid (sv_agents (us_admin r.2)).
Proof.
  intros Hpl Hpp. cbv zeta. unfold run_command, perform.
  destruct (cli_plan _ _ _ _) as [p|e] eqn:Ep; [|by intros ?%failure_exits_nonzero].
  assert (Ha : Forall plain (path_args (CAgent (AgentRevoke pid reason)))) by (constructor; [done|constructor]).
  pose proof (plan_goes _ _ _ _ _ Ha Ep) as Hg. destruct (plan_sends _ _ _ _ _ Ep) as [Hm _].
  unfold over_socket. set (req := request_of_wire (wire (Uds sock) p)).
  assert (Hq : req_method req = "POST").
  { unfold req, request_of_wire.
    rewrite <- (eq_refl : method_of (CAgent (AgentRevoke pid reason)) = "POST"), <- Hm.
    by destruct (split_once _ _) as [[]|]. }
  assert (Hs : split_path (req_path req) = [""; "admin"; "operator"; "agents"; pid; "revoke"]).
  { apply (goes_to_path ["admin"; "operator"; "agents"; pid; "revoke"]); [done| |done].
    by apply (segments_ok (CAgent (AgentRevoke pid reason))). }
  pose proof (revoke_request c ef req u pid Hq Hs (proj1 Hpl) Hpp) as R. cbv zeta in R.
  destruct (admin_router _ _ _ _ _ _ _ _ _ _) as [resp u']. cbn [fst snd] in *.
  unfold read_reply. destruct (_ && _) eqn:E2; cbn [negb]; [intros _|by intros ?%failure_exits_nonzero]. apply R.
  apply andb_true_iff in E2 as [?%Z.leb_le ?%Z.ltb_lt]. lia.
Qed.

(** C4: Revocation from the operator's terminal to the agent's next request:
    once [locksmith agent revoke <id>] has exited with success, then whatever
    requests either listener has served since and however the background
    tasks ran, nobody is authenticated as that agent, by token or by
    certificate, and a request under [/api/] with its token (and no client
    certificate) is answered 401 and nothing is sent upstream. *)
Theorem cli_revocation_locks_out `{!RouterLaws} shell debug stdin sock c ef bytes pid reason u decoy evs :
  agent_auth auth_cfg = Some decoy ->
  agents_wf (sv_agents (us_admin u)) -> online (sv_agents (us_admin u)) = true ->
  plain pid -> path_params [pid] = Some [pid] ->
  let r := run_command shell debug stdin sock c ef bytes (CAgent (AgentRevoke pid reason)) u in
  exit_of r.1 = 0 ->
  (forall m req id,
     authenticated auth_cfg m req (proxy_view (world evs r.2)) id decoy -> id_public_id id <> pid) /\
  (forall m req sec tool path,
     well_formed {| namespace := Agent; public_id := pid; secret := sec |} ->
     header_str "authorization" req =
       Some ("Bearer " +:+ wire_format {| namespace := Agent; public_id := pid; secret := sec |}) ->
     (auth_mode auth_cfg = BearerMode \/ forall cert, peer_cert (req_ext req) <> Some (Some cert)) ->
     route (req_path req) = ApiRoute tool path ->
     (proxied m req (world evs r.2)).2 = None /\
     resp_status (proxied m req (world evs r.2)).1.1 = 401).
Proof.
  intros Hd W Hon Hpl Hpp r He.
  pose proof (cli_revokes shell debug stdin sock c ef bytes pid reason u Hpl Hpp He) as V.
  fold r in V. assert (S1 : rtc db_step (sv_agents (us_admin u)) (sv_agents (us_admin r.2))).
  { unfold r, run_command, perform. destruct (cli_plan _ _ _ _) as [p|]; [|done].
    unfold over_socket. pose proof (router_keeps env post crate_text registration_text session_text
      refresh_text _ (survives_router _ (agents_survive (sv_agents (us_admin u)))) c ef
      (request_of_wire (wire (Uds sock) p)) u (rtc_refl _ _)) as K.
    by destruct (admin_router _ _ _ _ _ _ _ _ _ _). }
  assert (S2 := transitivity S1 (world_agents evs r.2)).
  assert (F : find_first (active_by_public_id pid) (agents (sv_agents (us_admin (world evs r.2)))) = None).
  { apply revoked_not_active; [by eapply db_steps_wf|]. eapply db_steps_revoked, V. apply world_agents. }
  split.
  - intros m req id (x & Hx & Ha & E)%authenticated_active Hid. rewrite Hid in E.
    pose proof (proj1 (find_first_None _ _) F x Hx) as N. unfold active_by_public_id, by_public_id in N.
    rewrite Ha, bool_decide_eq_true_2 in N by done. done.
  - intros m req sec tool path Hw Hh Hmode Hr. unfold proxied.
    eapply inactive_locked_out; try done. exact (eq_trans (db_steps_online _ _ S2) Hon).
Qed.

(** ** Removing a registration *)

Lemma delete_route u k n :
  n <> "" -> is_Some (us_registrations u) ->
  find_first (fun r => serves r.1.1 "DELETE") (routes_at (operator_routes u) [cli_url_segment k; n])
  = Some ("DELETE", ORegDelete k, [n]).
Proof.
  intros Hp [r Hr]. destruct n as [|d n]; [done|]. unfold operator_routes. rewrite Hr.
  destruct k, (isSome (us_oauth u)); vm_compute; reflexivity.
Qed.

Lemma delete_removes k n t st cat :
  coherent st -> 200 <= resp_status (op_delete env k n t st).1 < 300 ->
  catalog (op_delete env k n t st).2 = Some cat -> lookup_active n cat = None.
Proof.
  intros Hco Hs Hc. pose proof (reg_exec_coherent env (Delete k n t) st Hco) as Hco'.
  pose proof Hco as (W & Hon & _).
  unfold lookup_active. rewrite (proj2 (proj2 Hco') cat Hc n). cbn [reg_exec]. revert Hs.
  unfold op_delete. rewrite reg_get_entry by done.
  destruct (entry n (repo st)) as [r|] eqn:E; [|simpl; lia].
  destruct (negb _); [intros []%registration_error_not_2xx|]. destruct (seed r).
  - pose proof (set_disabled_entry n true t (repo st) n W Hon) as D.
    rewrite bool_decide_eq_true_2, E in D by done.
    destruct (set_disabled _ _ _ _) as [[]]; [|intros []%registration_error_not_2xx].
    intros _. cbn [snd]. rewrite refresh_runtime_repo. simpl in *. by rewrite D.
  - pose proof (delete_entry n (repo st) n Hon) as D. rewrite bool_decide_eq_true_2 in D by done.
    destruct (reg_delete _ _) as [[]]; [|intros []%registration_error_not_2xx].
    intros _. cbn [snd]. rewrite refresh_runtime_repo. simpl in *. by rewrite D.
Qed.

(** After a successful DELETE no registration of the name is active. *)
Lemma delete_request c ef req u k n :
  wired u -> req_method req = "DELETE" ->
  split_path (req_path req) = [""; "admin"; "operator"; cli_url_segment k; n] ->
  n <> "" -> path_params [n] = Some [n] ->
  let r := admin_router c env post crate_text registration_text session_text refresh_text ef req u in
  200 <= resp_status r.1 < 300 ->
  lookup_active n (default ∅ (us_registrations r.2 ≫= catalog)) = None.
Proof.
  intros W Hm Hp Hn Hpp r Hs. pose proof W as (r0 & cat0 & m0 & Hr0 & _).
  destruct (operator_2xx c ef req u "DELETE" (ORegDelete k) _ [n] Hm ltac:(done) Hp
              (delete_route u k n Hn ltac:(by eexists)) Hpp Hs) as (op & u1 & Hu1 & E). fold r in E.
  assert (W1 : wired u1).
  { rewrite Hu1. by apply (operator_auth_keeps env crate_text _ (wired_preserved env crate_text)). }
  rewrite E in Hs |- *. revert Hs. unfold operator_handler.
  destruct (ef_nonces ef) as [[n0 n1] n2]. unfold on_registrations.
  destruct W1 as (r1 & cat1 & m1 & -> & Hco & Hc & _).
  pose proof (delete_removes k n (now (ef_call ef)) r1) as D.
  destruct (op_delete _ _ _ _ _) as [resp r2]. simpl in *. intros Hs.
  destruct (catalog r2) as [cat2|]; [by apply (D cat2)|done].
Qed.

Definition quiet (e : Event) : Prop :=
  match e with AdminCall _ _ _ => False | _ => True end.

Lemma quiet_registrations evs u :
  Forall quiet evs -> us_registrations (world evs u) = us_registrations u.
Proof.
  revert u. induction evs as [|e evs IH]; intros u Hq; [done|]. apply Forall_cons in Hq as [He Hq].
  change (us_registrations (world evs (world_step u e)) = us_registrations u). rewrite IH by done.
  destruct e; try done. simpl. unfold refresh_all. by destruct (us_oauth u).
Qed.

(** With the admin requests served one after another, a deleted (or, for a
    seeded one, disabled) registration is out of the agents' reach from the
    answer to the DELETE to the next admin request; [Withdrawal] has the
    overlapping ones. *)
Lemma deleted_until_next_admin_request c ef req u k n evs :
  wired u -> req_method req = "DELETE" ->
  split_path (req_path req) = [""; "admin"; "operator"; cli_url_segment k; n] ->
  n <> "" -> path_params [n] = Some [n] ->
  find_first (fun t => bool_decide (tc_name t = n)) (active_tools (sv_config (us_admin u))) = None ->
  let r := admin_router c env post crate_text registration_text session_text refresh_text ef req u in
  200 <= resp_status r.1 < 300 -> Forall quiet evs ->
  forall m req' path,
    route (req_path req') = ApiRoute n path \/ route (req_path req') = TransportRoute n path ->
    (proxied m req' (world evs r.2)).2 = None.
Proof.
  intros W Hm Hp Hn Hpp Hcfg r Hs Hq m req' path Hr. unfold proxied. eapply unresolved_not_sent; [|done].
  pose proof (router_keeps env post crate_text registration_text session_text refresh_text _
    (survives_router _ (config_survives _)) c ef req u eq_refl) as C. fold r in C.
  cbv beta in C. pose proof (world_keeps _ (config_survives _) evs r.2 C) as C'. cbv beta in C'.
  unfold resolve_target. cbn [gw_app proxy_view st_catalog st_config].
  rewrite quiet_registrations, C', Hcfg by done.
  unfold r. by erewrite delete_request.
Qed.
End World.

(** ** From start-up on *)

Section Running.
Context `{Base64Url} `{Base64Std} `{Argon2Crate} `{X509Crate} `{PemCrate} `{RegexCrate}.
Context `{HttpCrate} `{AesGcm} `{SerdeJson} `{Sha2Crate} `{Extractors} `{Router}.
Context (env : string -> option string) (fuel : nat).
Context (open_and_migrate : string -> result string Tables).
Context (create_parent : string -> result string unit).
Context (read_to_string : string -> result string string) (bind_agent : result string unit).
Context (seed_file : string -> option (option string)) (parse_yaml : string -> option SeedCatalog).
Context (parse_operators : string -> result string (list OperatorRecord)).
Context (io : AuditSink.Io) (base_of : string -> BasePath) (disk : Fs) (sink_text : AuditSink.IoError -> string).
Context (sealed_files : string -> result BackendError string) (decoy_salt : string).
Context (seed_text : SeedLoadError -> string) (registration_text : RegistrationError -> string).
Context (hash_text : HashError -> string) (key_text : SealingKeyError -> string).
Context (mode_text : AuthMode -> string).
Context (post : string -> list (string * string) -> option (Z * option TokenResponse)).
Context (crate_text : RepoError -> string) (session_text : OauthSessionError -> string).
Context (refresh_text : RefreshError -> string).
Context (url_parse : string -> option Url) (send : OutReq -> UpstreamReply)
  (kamiwaza : AppConfig -> string -> Request -> option Response) (other : Request -> Response).

(** The proxy starts with the view of the admin state that it keeps. *)
Lemma substrate_view cfg db ops resolved t s :
  build_admin_substrate env open_and_migrate create_parent read_to_string seed_file parse_yaml
    parse_operators io base_of disk sink_text decoy_salt seed_text registration_text hash_text
    key_text cfg db ops resolved t = Ok s ->
  app_state cfg resolved (Some s) = gw_app (proxy_view (setup_uds s)).
Proof.
  unfold build_admin_substrate.
  destruct (create_parent db); simpl; [|done]. destruct (open_and_migrate db) as [tb|]; simpl; [|done].
  destruct (load_registrations _ _ _ _ _ _ _ _) as [[[]|] t']; simpl; [|done].
  destruct (audit_setup _ _ _ _ _ _); simpl; [|done]. destruct (Argon2Helper.hash _ _); simpl; [|done].
  destruct (load_operators _ _ _ _ _); simpl; [|done].
  destruct (from_repo (t_registrations t')) as [cat|]; simpl; [|done].
  destruct (oauth_setup _ _ _ _ _) as [oa|] eqn:Eo; simpl; [|done]. intros [= <-].
  unfold app_state, proxy_view. simpl. f_equal. unfold oauth_setup in Eo.
  by destruct (sealing_key_from_env env) as [key|[]]; simplify_eq/=.
Qed.

Lemma substrate_agents cfg db ops resolved t s :
  build_admin_substrate env open_and_migrate create_parent read_to_string seed_file parse_yaml
    parse_operators io base_of disk sink_text decoy_salt seed_text registration_text hash_text
    key_text cfg db ops resolved t = Ok s ->
  exists tb, open_and_migrate db = Ok tb /\ sv_agents (us_admin (setup_uds s)) = t_agents tb.
Proof.
  unfold build_admin_substrate.
  destruct (create_parent db); simpl; [|done]. destruct (open_and_migrate db) as [tb|]; simpl; [|done].
  assert (A : t_agents (load_registrations env seed_file parse_yaml seed_text registration_text
                          cfg t tb).2 = t_agents tb).
  { unfold load_registrations. by repeat case_match. }
  destruct (load_registrations _ _ _ _ _ _ _ _) as [[[]|] t']; simpl in *; [|done].
  destruct (audit_setup _ _ _ _ _ _); simpl; [|done]. destruct (Argon2Helper.hash _ _); simpl; [|done].
  destruct (load_operators _ _ _ _ _); simpl; [|done].
  destruct (from_repo (t_registrations t')) as [cat|]; simpl; [|done].
  destruct (oauth_setup _ _ _ _ _) as [oa|]; simpl; [|done]. intros [= <-]. by exists tb.
Qed.

Hypothesis tables_ok : forall p t, open_and_migrate p = Ok t ->
  (reg_wf (t_registrations t) /\ reg_online (t_registrations t) = true) /\ agents_wf (t_agents t).

(** The world of a started daemon. *)
Definition running (cfg : DaemonConfig) (sv : Serving) (evs : list Event) (u : UdsState) : UdsState :=
  world env post crate_text registration_text session_text refresh_text url_parse send kamiwaza other
    (sv_auth sv) (default default_audit_config (dc_audit cfg)) evs u.

(** C23: Whatever the seed file, the configuration and the database held, the
    proxy starts with its view of the admin state; and after any sequence of
    requests to either listener, refreshes of the OAuth refresher and sweeps,
    each finished before the next begins (overlapping admin writes are
    [CatalogRace]'s, where a late refresh can leave the catalog behind the
    table): the catalog the proxy routes by answers every name
    as the registrations table does, the registrations API, the OAuth handlers
    and the admin service work on the same table, catalog and credentials, and
    no two agents share a public id, a name or a row id. *)
Theorem running_stays_consistent cfg t sv s evs :
  start env fuel open_and_migrate create_parent read_to_string bind_agent seed_file parse_yaml
    parse_operators io base_of disk sink_text sealed_files decoy_salt seed_text registration_text
    hash_text key_text mode_text cfg t = Some (Ok sv) ->
  sv_setup sv = Some s ->
  let u := running cfg sv evs (setup_uds s) in
  sv_app sv = gw_app (proxy_view (setup_uds s)) /\
  (exists r, us_registrations u = Some r /\
     forall n, st_catalog (gw_app (proxy_view u)) !! n = entry n (repo r)) /\
  wired u /\ agents_wf (sv_agents (us_admin u)).
Proof.
  intros (_ & resolved & Es & _ & _ & Ea & _)%start_inv Hs u. rewrite Hs in *.
  unfold admin_setup in Es.
  destruct (admin_socket cfg), (database cfg) as [db|], (operator_credentials_path cfg) as [ops|];
    try done.
  destruct (build_admin_substrate _ _ _ _ _ _ _ _ _ _ _ _ _ _ _ _ _ _ _ _ _) as [s'|] eqn:E; [|done].
  injection Es as ->.
  assert (W : wired u).
  { unfold u, running. apply world_keeps; [apply wired_survives|].
    eapply substrate_wired; [|exact E]. intros p tb Ht. by apply (tables_ok p). }
  split; [by rewrite Ea; eapply substrate_view|]. split; [|split; [done|]].
  - destruct W as (r & cat & m & Hr & Hco & Hc & _). exists r. split; [done|]. intros n.
    simpl. rewrite Hr. simpl. rewrite Hc. by apply Hco.
  - eapply db_steps_wf; [unfold u, running; apply world_agents|]. destruct (substrate_agents _ _ _ _ _ _ E) as (tb & Ht & ->).
    by apply (tables_ok db).
Qed.
End Running.

(** ** Witnesses *)

Module WorldWitness.
Import ControlsWitness Registrations Base64Model Argon2Model HttpModel OauthWitness AgentWitness.
Import AuthWitness ProxyWitness GatewayWitness AdminHttpWitness StartupWitness RevocationWitness.

(** The listeners' configurations and the background tasks take turns. *)
Definition events : list Event :=
  [AdminCall ucfg ef0 (request "DELETE" "/admin/operator/tools/tavily" op_header "");
   ProxyCall m0 api_req;
   AdminCall ucfg_mtls ef0 (request "POST" revoke_path op_header "");
   RefreshTick 10 (fun _ => (nonce, nonce));
   AdminCall ucfg ef0 (request "GET" "/admin/operator/agents" op_header "");
   Sweep (91 * ms_per_day)].

Lemma running_stays_consistent_witness :
  wired (running key_env (fun _ => "") provider AdminWitness.text0 OauthAdminWitness.text1
           OauthAdminWitness.text1 url_parse0 send0 no_kamiwaza other0 (daemon_cfg BothMode)
           (serving BothMode) events (setup_uds setup0)).
Proof.
  eapply (running_stays_consistent key_env 10 open_db (fun _ => Ok tt) any_file (Ok tt)
    (fun _ => None) (fun _ => None) (fun _ => Ok operators) SinkWitness.os (fun _ => SinkWitness.base)
    SinkWitness.disk (fun _ => "") (fun p => Err (Missing p)) "salt"
    (fun _ => "") (fun _ => "") (fun _ => "") (fun _ => "") (fun _ => "") provider
    AdminWitness.text0 OauthAdminWitness.text1 OauthAdminWitness.text1 url_parse0 send0 no_kamiwaza
    other0) with (cfg := daemon_cfg BothMode) (t := 10) (sv := serving BothMode).
  - intros p t [= <-]. split; [|apply dev_wf]. split; [apply RegWitness.st1_coherent|reflexivity].
  - pose proof boots as B. unfold boot in B. exact B.
  - vm_compute. reflexivity.
Defined.

Definition revoking : result CliError (option Json) * UdsState :=
  run_command key_env provider AdminWitness.text0 (fun _ => "") OauthAdminWitness.text1
    OauthAdminWitness.text1 CliWitness.EndToEnd.op_shell (fun s => s) (Err "closed") "s" ucfg ef0
    (fun _ => "") (CAgent (AgentRevoke dev_pid None)) (setup_uds setup0).

Definition after : UdsState :=
  world key_env provider AdminWitness.text0 (fun _ => "") OauthAdminWitness.text1
    OauthAdminWitness.text1 url_parse0 send0 no_kamiwaza other0 cfg_both default_audit_config events
    revoking.2.

(** The token was good before. *)
Example before_revocation :
  resp_status (proxied key_env provider url_parse0 send0 no_kamiwaza other0 cfg_both m0 api_req
                 (setup_uds setup0)).1.1 = 404.
Proof. vm_compute. reflexivity. Qed.

Lemma cli_revocation_locks_out_witness :
  (proxied key_env provider url_parse0 send0 no_kamiwaza other0 cfg_both m0 api_req after).2 = None /\
  resp_status (proxied key_env provider url_parse0 send0 no_kamiwaza other0 cfg_both m0 api_req
                 after).1.1 = 401.
Proof.
  apply (cli_revocation_locks_out key_env provider AdminWitness.text0 (fun _ => "")
    OauthAdminWitness.text1 OauthAdminWitness.text1 url_parse0 send0 no_kamiwaza other0 cfg_both
    default_audit_config CliWitness.EndToEnd.op_shell (fun s => s) (Err "closed") "s" ucfg ef0
    (fun _ => "") dev_pid None (setup_uds setup0) "decoy" events) with
    (sec := dev_secret) (tool := "anthropic") (path := "v1/models");
  [reflexivity | vm_compute setup0; apply dev_wf | vm_compute; reflexivity
  | split; [discriminate|vm_compute; reflexivity] | reflexivity | vm_compute; reflexivity
  | repeat split; vm_compute; reflexivity | vm_compute; reflexivity | right; discriminate
  | vm_compute; reflexivity].
Defined.

End WorldWitness.
