(* ===== verification/Overlap.v ===== *)
(** * Revocation while requests overlap ([src/auth_v2/agent.rs], [src/repo/agent.rs])

    In [World] a request is one step.  Here the tasks that read and write the
    agents table are cut at their database round trips: a bearer login looks
    the agent up, then verifies the secret and touches the row; a certificate
    login is one lookup; a rotation reads the stored hash, then swaps it; every
    other repository operation is the one statement [AgentRepo.exec] runs.  Any
    number of such tasks run over one table, and their statements interleave in
    any order; a task may also be dropped where it stands. *)

From S2P Require Import Prelude Json Token Argon2Helper AgentRepo AuditLog Auth.

(** Every repository operation but [rotate] is one statement. *)
Definition one_statement `{Base64Url} `{Argon2Crate} (o : AgentOp) : bool :=
  match o with OpRotate _ _ _ => false | _ => true end.

Section Overlap.
Context `{Base64Url} `{Argon2Crate} `{X509Crate}.

(** Where a task stands between two statements. *)
Inductive AuthThread :=
| BearerArrived (header : string)
| LookedUp (r : AgentRecord) (sec : string)
| CertArrived (v : MtlsValidator) (der : string)
| LetIn (id : AgentIdentity)
| RotateArrived (pid current_secret : string) (rng : Entropy)
| RotateChecked (pid current_hash : string) (rng : Entropy)
| Rotated (pid new_secret : string)
| Writing (o : AgentOp)
| Finished.

(** The first half of [authenticate_bearer]: up to the answer of the SELECT. *)
Definition bearer_lookup (header : string) (db : AgentDb) : AuthThread :=
  match strip_prefix "Bearer " header with
  | None => Finished
  | Some raw =>
      match parse raw with
      | Err _ => Finished
      | Ok (ns, pid, sec) =>
          if negb (bool_decide (ns = Agent)) then Finished
          else match get_active_by_public_id pid db with
               | Ok (Some r) => LookedUp r sec
               | Ok None | Err _ => Finished
               end
      end
  end.

(** The second half: expiry, the secret, and the [last_used_at] UPDATE. *)
Definition bearer_finish (now : Z) (r : AgentRecord) (sec : string) (db : AgentDb)
  : AuthThread * AgentDb :=
  if expired_at now r then (Finished, db)
  else match verify (ag_secret_hash r) sec with
       | Ok true => (LetIn (identity_of r), (touch_last_used (ag_public_id r) now db).2)
       | Ok false | Err _ => (Finished, db)
       end.

(** One round trip of a task. *)
Definition act (now : Z) (th : AuthThread) (db : AgentDb) : AuthThread * AgentDb :=
  match th with
  | BearerArrived header => (bearer_lookup header db, db)
  | LookedUp r sec => bearer_finish now r sec db
  | CertArrived v der =>
      (match validate v now der with
       | Err _ => Finished
       | Ok i => match get_by_cert_identity (mi_value i) db with
                 | Ok (Some r) => LetIn (identity_of r)
                 | Ok None | Err _ => Finished
                 end
       end, db)
  | RotateArrived pid current_secret rng =>
      (match rotate_read pid current_secret db with
       | Err _ => Finished
       | Ok current_hash => RotateChecked pid current_hash rng
       end, db)
  | RotateChecked pid current_hash rng =>
      let new_token := generate Agent (id_bytes rng) (secret_bytes rng) in
      match hash (secret new_token) (salt rng) with
      | Err _ => (Finished, db)
      | Ok new_hash =>
          match rotate_cas pid current_hash new_hash (secret new_token) db with
          | (Ok new_secret, db') => (Rotated pid new_secret, db')
          | (Err _, db') => (Finished, db')
          end
      end
  | Writing o => (Finished, exec o db)
  | LetIn _ | Rotated _ _ | Finished => (th, db)
  end.

(** A login that nothing interrupts is the authenticator's: same verdict, same
    table. *)
Lemma bearer_alone decoy now now_ms header s :
  let '(th1, db1) := act now (BearerArrived header) (as_agents s) in
  let '(th2, db2) := act now th1 db1 in
  let '(res, s') := authenticate_bearer decoy now now_ms header s in
  db2 = as_agents s' /\ (forall id, th2 = LetIn id <-> res = Ok id).
Proof.
  unfold act at 1, bearer_lookup, authenticate_bearer, resolve.
  destruct (strip_prefix _ header) as [raw|]; [|done].
  destruct (parse raw) as [[[ns pid] sec]|]; [|done]. destruct (negb _); [done|].
  destruct (get_active_by_public_id pid (as_agents s)) as [[r|]|]; [|done..]. simpl. unfold bearer_finish.
  destruct (expired_at now r); [done|]. destruct (verify _ sec) as [[]|]; try done.
  split; [done|]. intros id. split; by intros [= ->].
Qed.

Lemma cert_alone v now now_ms der s id :
  (act now (CertArrived v der) (as_agents s)).1 = LetIn id <->
  (authenticate_cert v now now_ms der s).1 = Ok id.
Proof.
  unfold act, authenticate_cert. destruct (validate v now der) as [i|]; [|done]. simpl.
  destruct (get_by_cert_identity _ _) as [[r|]|]; [|done..]. simpl. split; by intros [= ->].
Qed.

Lemma rotate_alone now pid cur rng db :
  let '(th1, db1) := act now (RotateArrived pid cur rng) db in
  let '(th2, db2) := act now th1 db1 in
  let '(res, db') := rotate pid cur rng db in
  db2 = db' /\ (forall sec, th2 = Rotated pid sec <-> res = Ok sec).
Proof.
  unfold act at 1, rotate. destruct (rotate_read pid cur db) as [h|]; [|done]. unfold act.
  destruct (hash _ _) as [nh|]; [|done].
  destruct (rotate_cas _ _ _ _ _) as [[s|e] db']; [|done]. split; [done|].
  intros sec. split; by intros [= ->].
Qed.

(** ** The system *)

Record Sys := { sys_agents : AgentDb; sys_threads : list AuthThread }.

(** A request, an admin call or a background write begins. *)
Definition begins (th : AuthThread) : Prop :=
  match th with
  | BearerArrived _ | CertArrived _ _ | RotateArrived _ _ _ => True
  | Writing o => one_statement o = true
  | _ => False
  end.

Inductive overlap_step : Sys -> Sys -> Prop :=
| sys_begin th s : begins th ->
    overlap_step s {| sys_agents := sys_agents s; sys_threads := sys_threads s ++ [th] |}
| sys_act now i th s : sys_threads s !! i = Some th ->
    overlap_step s {| sys_agents := (act now th (sys_agents s)).2;
                  sys_threads := <[i := (act now th (sys_agents s)).1]> (sys_threads s) |}
| sys_drop i s :
    overlap_step s {| sys_agents := sys_agents s; sys_threads := <[i := Finished]> (sys_threads s) |}.

(** ** What a revocation fixes *)

(** The table holds [pid], every row of it is revoked and stores [h]. *)
Definition sealed_off (pid h : string) (db : AgentDb) : Prop :=
  (exists r, r ∈ agents db /\ ag_public_id r = pid) /\
  forall r, r ∈ agents db -> ag_public_id r = pid ->
    isSome (ag_revoked_at r) = true /\ ag_secret_hash r = h.

Lemma sealed_off_update pid h p f db :
  (forall r, p r = true -> ag_public_id (f r) = ag_public_id r) ->
  (forall r, p r = true -> ag_public_id r = pid -> isSome (ag_revoked_at r) = true ->
     isSome (ag_revoked_at (f r)) = true /\ ag_secret_hash (f r) = ag_secret_hash r) ->
  sealed_off pid h db -> sealed_off pid h (set_agents (sql_update p f (agents db)) db).
Proof.
  intros Hk Hf [(r & Hr & Hp) Hall]. split.
  - exists (if p r then f r else r). split; [apply elem_of_sql_update; eauto|].
    destruct (p r) eqn:E; [by rewrite Hk|done].
  - intros r' (r0 & Hr0 & ->)%elem_of_sql_update.
    destruct (p r0) eqn:E; [|by apply Hall]. rewrite Hk by done. intros Hp0.
    destruct (Hall r0 Hr0 Hp0) as [Hv Hh]. destruct (Hf r0 E Hp0 Hv) as [-> ->]. done.
Qed.

Lemma sealed_off_checked pid h p f db :
  (forall r, ag_public_id (f r) = ag_public_id r) ->
  (forall r, isSome (ag_revoked_at r) = true -> isSome (ag_revoked_at (f r)) = true) ->
  (forall r, ag_secret_hash (f r) = ag_secret_hash r) ->
  sealed_off pid h db -> sealed_off pid h (update_or_not_found p f db).2.
Proof.
  intros Hk Hv Hh S. unfold update_or_not_found, query. destruct (online db); [|done].
  destruct (sql_exists _ _); [|done]. apply sealed_off_update; auto.
Qed.

(** No statement undoes it: a new agent cannot take the id, and every UPDATE
    leaves [revoked_at] set and the hash alone. *)
Lemma exec_sealed_off pid h o db :
  one_statement o = true -> sealed_off pid h db -> sealed_off pid h (exec o db).
Proof.
  intros Ho S. destruct o as [n d a dl m e rng t|p c|p t|p cur rng|p t|p a d m e]; simpl; [|..].
  - unfold create. destruct (hash _ _) as [nh|]; [|done]. unfold query. destruct (online db); [|done].
    destruct (sql_exists _ _) eqn:E; [done|]. destruct S as [(r & Hr & Hp) Hall]. cbn [snd]. split.
    + exists r. cbn [agents]. split; [apply elem_of_app; by left|done].
    + cbn [agents]. intros r' [Hr'| ->%list_elem_of_singleton]%elem_of_app Hp'; [by apply Hall|]. exfalso.
      cbn [ag_public_id] in Hp'. pose proof (proj1 (sql_exists_false _ _) E r Hr) as [E1 _]%orb_false_iff.
      apply bool_decide_eq_false in E1. by rewrite Hp, Hp' in E1.
  - by apply sealed_off_checked.
  - by apply sealed_off_checked.
  - done.
  - unfold touch_last_used, query. destruct (online db); [|done]. by apply sealed_off_update.
  - unfold update_policy. destruct (_ && _); [done|]. by apply sealed_off_checked.
Qed.

Lemma rotate_cas_sealed_off pid h p ch nh ns db :
  sealed_off pid h db ->
  sealed_off pid h (rotate_cas p ch nh ns db).2 /\ (p = pid -> is_ok (rotate_cas p ch nh ns db).1 = false).
Proof.
  intros S. unfold rotate_cas, query. destruct (online db); [|done].
  assert (Hno : forall r, r ∈ agents db -> ag_public_id r = pid -> is_active r = false).
  { intros r Hr Hp. destruct (proj2 S r Hr Hp) as [Hv _]. unfold is_active. by rewrite Hv. }
  destruct (sql_exists _ _) eqn:E; [|done]. split.
  - apply sealed_off_update; [done| |done]. intros r Hr _ Hv.
    unfold active_by_public_id, is_active in Hr. by rewrite Hv, andb_false_r in Hr.
  - intros ->. unfold sql_exists in E. apply existsb_exists in E as (r & Hr%list_elem_of_In & E).
    unfold active_by_public_id, by_public_id in E. apply andb_true_iff in E as [[Ep Ea]%andb_true_iff _].
    apply bool_decide_eq_true in Ep. by rewrite (Hno r) in Ea.
Qed.

(** The task is let in as [pid], or already holds [pid]'s row. *)
Definition holds (pid : string) (th : AuthThread) : Prop :=
  match th with
  | LookedUp r _ => ag_public_id r = pid
  | LetIn id => id_public_id id = pid
  | _ => False
  end.

(** The task has given [pid] a new secret. *)
Definition rotated (pid : string) (th : AuthThread) : Prop :=
  match th with Rotated p _ => p = pid | _ => False end.

Definition writes_one (th : AuthThread) : Prop :=
  match th with Writing o => one_statement o = true | _ => True end.

Lemma lookup_sealed_off pid h db (p : AgentRecord -> bool) r :
  sealed_off pid h db -> (forall r, p r = true -> is_active r = true) ->
  find_first p (agents db) = Some r -> ag_public_id r <> pid.
Proof.
  intros [_ Hall] Hp [Hin Hr]%find_first_Some E. destruct (Hall r Hin E) as [Hv _].
  apply Hp in Hr. unfold is_active in Hr. by rewrite Hv in Hr.
Qed.

(** One round trip over such a table: the table stays so, and a task holds or
    has rotated [pid] only if it did before. *)
Lemma act_sealed_off pid h now th db :
  writes_one th -> sealed_off pid h db ->
  let r := act now th db in
  sealed_off pid h r.2 /\ writes_one r.1 /\
  (holds pid r.1 -> holds pid th) /\ (rotated pid r.1 -> rotated pid th).
Proof.
  intros Hw S. cbv zeta. destruct th as [header|r sec|v der|id|p cur rng|p ch rng|p ns|o|]; simpl; try done.
  - unfold bearer_lookup. destruct (strip_prefix _ header); [|done].
    destruct (parse _) as [[[ns p] sec]|]; [|done]. destruct (negb _); [done|].
    unfold get_active_by_public_id. destruct (online db); [|done].
    destruct (find_first _ _) as [r|] eqn:F; [|done]. split_and!; try done. simpl. intros E. exfalso.
    eapply (lookup_sealed_off pid h db); [done| |done|done]. intros x [_ Hx]%andb_true_iff. done.
  - unfold bearer_finish. destruct (expired_at now r); [done|]. destruct (verify _ _) as [[]|]; try done.
    split_and!; try done. by apply (exec_sealed_off pid h (OpTouch (ag_public_id r) now)).
  - destruct (validate v now der) as [i|]; [|done]. unfold get_by_cert_identity.
    destruct (online db); [|done]. destruct (find_first _ _) as [r|] eqn:F; [|done].
    split_and!; try done. simpl. intros E.
    eapply (lookup_sealed_off pid h db); [done| |done|done]. intros x [_ Hx]%andb_true_iff. done.
  - by destruct (rotate_read p cur db).
  - destruct (hash _ _) as [nh|]; [|done].
    destruct (rotate_cas_sealed_off pid h p ch nh (secret (generate Agent (id_bytes rng) (secret_bytes rng)))
                db S) as [S' Hf].
    destruct (rotate_cas _ _ _ _ _) as [[s|e] db']; simpl in *; [|done]. split_and!; try done.
    intros E. by specialize (Hf E).
  - split_and!; try done. by apply exec_sealed_off.
Qed.

(** ** Reachable systems *)

Definition sys0 (db : AgentDb) : Sys := {| sys_agents := db; sys_threads := [] |}.

Lemma sys_step_writes s s' :
  overlap_step s s' -> Forall writes_one (sys_threads s) -> Forall writes_one (sys_threads s').
Proof.
  intros [th s1 Hb|now i th s1 Hi|i s1] F; simpl.
  - apply Forall_app. split; [done|]. constructor; [|constructor]. by destruct th.
  - apply Forall_insert; [done|]. rewrite Forall_lookup in F. specialize (F _ _ Hi).
    destruct th; simpl; unfold bearer_lookup, bearer_finish; by repeat case_match.
  - by apply Forall_insert.
Qed.

Lemma overlap_steps_writes s s' :
  rtc overlap_step s s' -> Forall writes_one (sys_threads s) -> Forall writes_one (sys_threads s').
Proof. induction 1; eauto using sys_step_writes. Qed.

(** Table and tasks after any steps from a table in which [pid] is sealed off. *)
Lemma overlap_steps_sealed_off pid h s s' :
  rtc overlap_step s s' -> sealed_off pid h (sys_agents s) -> Forall writes_one (sys_threads s) ->
  sealed_off pid h (sys_agents s') /\
  forall j th, sys_threads s' !! j = Some th ->
    (holds pid th -> exists th0, sys_threads s !! j = Some th0 /\ holds pid th0) /\
    (rotated pid th -> exists th0, sys_threads s !! j = Some th0 /\ rotated pid th0).
Proof.
  induction 1 as [s|s m s' Hs _ IH]; intros S F.
  - split; [done|]. intros j th Hj. split; intros; by exists th.
  - assert (K : sealed_off pid h (sys_agents m) /\ forall j th, sys_threads m !! j = Some th ->
      (holds pid th -> exists th0, sys_threads s !! j = Some th0 /\ holds pid th0) /\
      (rotated pid th -> exists th0, sys_threads s !! j = Some th0 /\ rotated pid th0)).
    { assert (Hid : forall j th, sys_threads s !! j = Some th ->
        (holds pid th -> exists th0, sys_threads s !! j = Some th0 /\ holds pid th0) /\
        (rotated pid th -> exists th0, sys_threads s !! j = Some th0 /\ rotated pid th0))
        by (intros j th Hj; split; intros; by exists th).
      destruct Hs as [th s1 Hb|now i th s1 Hi|i s1]; simpl.
      - split; [done|]. intros j x [Hx|[_ Hx]]%lookup_app_Some; [by apply Hid|].
        apply list_lookup_singleton_Some in Hx as [_ <-]. by destruct th.
      - destruct (act_sealed_off pid h now th (sys_agents s1)) as (S' & _ & H1' & H2'); [|done|].
        { rewrite Forall_lookup in F. by eapply F. }
        split; [done|]. intros j x [(<- & <- & _)|[_ Hx]]%list_lookup_insert_Some; [|by apply Hid].
        split; intros; exists th; auto.
      - split; [done|]. intros j x [(_ & <- & _)|[_ Hx]]%list_lookup_insert_Some; [done|by apply Hid]. }
    destruct K as [S' K]. destruct (IH S' (sys_step_writes _ _ Hs F)) as [S2 K2]. split; [done|].
    intros j th Hj. destruct (K2 j th Hj) as [A B].
    split; [intros (th0 & Hth0 & Hh)%A|intros (th0 & Hth0 & Hh)%B]; by apply (K j th0).
Qed.

Lemma revoke_seals_off pid now db r0 :
  agents_wf db -> r0 ∈ agents db -> ag_public_id r0 = pid -> (revoke pid now db).1 = Ok tt ->
  sealed_off pid (ag_secret_hash r0) (revoke pid now db).2.
Proof.
  intros W Hr0 Hp. unfold revoke, update_or_not_found, query. destruct (online db); [|done].
  destruct (sql_exists _ _); [|done]. intros _. simpl. split.
  - exists (with_revoked_at (Some now) r0). split; [|done]. apply elem_of_sql_update. exists r0.
    unfold by_public_id. by rewrite bool_decide_eq_true_2.
  - intros r (r1 & Hr1 & ->)%elem_of_sql_update. unfold by_public_id. case_bool_decide as E; [|done].
    intros _. split; [done|]. simpl. f_equal.
    pose proof (find_first_key ag_public_id _ _ (wf_public_id _ W) Hr1) as F1.
    pose proof (find_first_key ag_public_id _ _ (wf_public_id _ W) Hr0) as F2.
    rewrite E in F1. rewrite Hp in F2. congruence.
Qed.

Lemma act_db_step now th db : db_step db (act now th db).2.
Proof.
  destruct th as [header|r sec|v der|id|p cur rng|p ch rng|p ns|o|]; simpl; try constructor.
  - unfold bearer_finish. repeat case_match; try constructor.
    apply (exec_step (OpTouch (ag_public_id r) now)).
  - destruct (hash _ _) as [nh|]; [|constructor].
    pose proof (rotate_cas_step p ch nh (secret (generate Agent (id_bytes rng) (secret_bytes rng))) db) as E.
    by destruct (rotate_cas _ _ _ _ _) as [[]].
  - apply exec_step.
Qed.

Lemma overlap_steps_wf s s' :
  rtc overlap_step s s' -> agents_wf (sys_agents s) -> agents_wf (sys_agents s').
Proof.
  induction 1 as [|s m s' Hs _ IH]; [done|]. intros W. apply IH. destruct Hs; simpl; try done.
  eapply db_step_wf; [apply act_db_step|done].
Qed.

(** C17: Revocation while requests overlap: from the moment the UPDATE of a
    revocation of [pid] has gone through, however the statements of logins,
    rotations and admin calls already under way or begun later interleave, a
    login ends up admitted as [pid] only if its lookup had already returned
    [pid]'s row when the UPDATE ran; no rotation of [pid] completes that had
    not completed by then; and the row of [pid] stays, revoked, with the secret
    hash it had. *)
Theorem revoked_despite_overlap db0 s0 s2 i pid t now :
  agents_wf db0 -> rtc overlap_step (sys0 db0) s0 ->
  sys_threads s0 !! i = Some (Writing (OpRevoke pid t)) ->
  (revoke pid t (sys_agents s0)).1 = Ok tt ->
  rtc overlap_step {| sys_agents := (act now (Writing (OpRevoke pid t)) (sys_agents s0)).2;
                  sys_threads := <[i := (act now (Writing (OpRevoke pid t)) (sys_agents s0)).1]>
                                   (sys_threads s0) |} s2 ->
  (forall j id, sys_threads s2 !! j = Some (LetIn id) -> id_public_id id = pid ->
     exists th0, sys_threads s0 !! j = Some th0 /\ holds pid th0) /\
  (forall j sec, sys_threads s2 !! j = Some (Rotated pid sec) ->
     exists th0, sys_threads s0 !! j = Some th0 /\ rotated pid th0) /\
  exists r0, r0 ∈ agents (sys_agents s0) /\ ag_public_id r0 = pid /\
    sealed_off pid (ag_secret_hash r0) (sys_agents s2).
Proof.
  intros W H1' Hi Hok H2'.
  assert (F : Forall writes_one (sys_threads s0)) by (eapply overlap_steps_writes; [done|constructor]).
  assert (W' : agents_wf (sys_agents s0)) by by eapply overlap_steps_wf.
  assert (exists r0, r0 ∈ agents (sys_agents s0) /\ ag_public_id r0 = pid) as (r0 & Hr0 & Hp).
  { revert Hok. unfold revoke, update_or_not_found, query. destruct (online _); [|done].
    destruct (sql_exists _ _) eqn:E; [|done]. intros _. unfold sql_exists in E.
    apply existsb_exists in E as (r & Hr%list_elem_of_In & E%bool_decide_eq_true). by exists r. }
  destruct (overlap_steps_sealed_off pid (ag_secret_hash r0) _ _ H2') as [S K].
  { by apply revoke_seals_off. }
  { by apply Forall_insert. }
  assert (Hin : forall j th0, <[i := Finished]> (sys_threads s0) !! j = Some th0 -> th0 <> Finished ->
            sys_threads s0 !! j = Some th0)
    by (intros j th0 [(_ & <- & _)|[_ ?]]%list_lookup_insert_Some ?; done).
  split_and!.
  - intros j id Hj Hid. destruct (proj1 (K _ _ Hj) Hid) as (th0 & Hth & Hh). exists th0.
    split; [|done]. apply Hin; [done|]. by destruct th0.
  - intros j sec Hj. destruct (proj2 (K _ _ Hj) eq_refl) as (th0 & Hth & Hh). exists th0.
    split; [|done]. apply Hin; [done|]. by destruct th0.
  - by exists r0.
Qed.
End Overlap.

Module OverlapWitness.
Import Base64Model Argon2Model AgentWitness AuthWitness.

(** One login has read the row, another is about to, and the operator revokes. *)
Definition bearer : string :=
  "Bearer " +:+ wire_format {| namespace := Agent; public_id := dev_pid; secret := dev_secret |}.

Definition begun : list AuthThread :=
  [BearerArrived bearer; BearerArrived bearer; Writing (OpRevoke dev_pid 50)].

Definition s_begun : Sys := {| sys_agents := dev_db; sys_threads := begun |}.

Definition acts (now : Z) (i : nat) (s : Sys) : Sys :=
  match sys_threads s !! i with
  | None => s
  | Some th => {| sys_agents := (act now th (sys_agents s)).2;
                  sys_threads := <[i := (act now th (sys_agents s)).1]> (sys_threads s) |}
  end.

Lemma acts_step now i s : rtc overlap_step s (acts now i s).
Proof.
  unfold acts. destruct (sys_threads s !! i) as [th|] eqn:E; [|done]. by apply rtc_once, sys_act.
Qed.

Definition s_read : Sys := acts 40 0 s_begun.
Definition s_revoked : Sys := acts 50 2 s_read.
Definition s_end : Sys := acts 60 1 (acts 60 0 s_revoked).

Lemma begun_reachable : rtc overlap_step (sys0 dev_db) s_read.
Proof.
  transitivity s_begun; [|apply acts_step].
  eapply rtc_l; [by apply (sys_begin (BearerArrived bearer))|].
  eapply rtc_l; [by apply (sys_begin (BearerArrived bearer))|].
  by apply rtc_once, (sys_begin (Writing (OpRevoke dev_pid 50))).
Qed.

(** The first login is let in, the second is not. *)
Example overlap_outcome :
  (exists id, sys_threads s_end !! 0%nat = Some (LetIn id) /\ id_public_id id = dev_pid) /\
  sys_threads s_end !! 1%nat = Some Finished.
Proof. split; [eexists; split|]; vm_compute; reflexivity. Qed.

Lemma revoked_despite_overlap_witness :
  (forall j id, sys_threads s_end !! j = Some (LetIn id) -> id_public_id id = dev_pid ->
     exists th0, sys_threads s_read !! j = Some th0 /\ holds dev_pid th0) /\
  exists r0, r0 ∈ agents (sys_agents s_read) /\ ag_public_id r0 = dev_pid /\
    sealed_off dev_pid (ag_secret_hash r0) (sys_agents s_end).
Proof.
  destruct (revoked_despite_overlap dev_db s_read s_end 2 dev_pid 50 50) as (A & _ & B);
    [exact dev_wf | exact begun_reachable | vm_compute; reflexivity | vm_compute; reflexivity | |].
  - change (rtc overlap_step s_revoked s_end). unfold s_end. etransitivity; apply acts_step.
  - exact (conj A B).
Defined.
End OverlapWitness.
